(* ===== verification/_CoqProject ===== *)
-Q . S2P
Prelude.v
CArray.v
CArrayProofs.v
Codec.v
Scan.v
Logic.v
Replay.v
Session.v
Regex.v
Lexer.v
OpTable.v
Elixir.v
ElixirSpec.v
ElixirProofs.v
Kotlin.v
KotlinSpec.v
KotlinProofs.v
KotlinReplay.v
Ruby.v
RubyState.v
RubySpec.v
RubyProofs.v
RubyReplay.v
RubyHeredoc.v
CString.v
Sql.v
SqlProofs.v
SqlReplay.v
VcVector.v
VcVectorProofs.v
SvelteAlloc.v
SvelteAllocProofs.v
SvelteAllocClaims.v
SvelteTag.v
SvelteTagProofs.v
SvelteHash.v
Svelte.v
SvelteSerial.v
SvelteProofs.v
SvelteText.v
SvelteScan.v
SvelteClaims.v
SvelteReplay.v
SvelteLex.v
PerlUnicode.v
PerlKeywords.v
PerlIntuit.v
PerlIntuitProofs.v
PerlState.v
PerlStateProofs.v
Perl.v
PerlScan.v
PerlInvariant.v
PerlTotal.v
PerlScanTotal.v
PerlClaims.v
PerlHeredoc.v
PerlTokens.v
PerlPod.v
PerlSession.v
PerlEmits.v
PerlReplay.v
