(* ===== verification/Prelude.v ===== *)
(** * The C code of sqry: external scanners of its tree-sitter grammars

    sqry indexes source code with tree-sitter. The crates
    [crates/tree-sitter-<language>-sqry] each hold a grammar: a generated parser
    ([parser.c]) and, for the languages that a context-free lexer cannot tokenize,
    a hand-written _external scanner_ ([scanner.c] and the headers beside it);
    [third-party/tree-sitter-sequel] is the grammar of SQL. The external scanners
    are the hand-written C code of the repository, and what is modelled here. They
    run inside the indexing process on text that nobody checked before, so what
    matters is that every call ends, stays inside of its memory and leaves a state
    that can be saved, and that the tokens are those of the language.

    ** How the parts interact

    The tree-sitter runtime, which is not in the repository, drives a scanner by
    five functions. [create] makes the payload; [scan] gets the payload, a lexer
    on the input and the symbols that the parser can use, and says whether it
    recognized one; [serialize] saves the payload in at most 1024 bytes, which the
    runtime keeps with the token and uses to compare states; [deserialize] restores
    a payload before the scan goes on from there; [destroy] releases it. All
    state between two calls is in the payload.

    ** The files

    - [Prelude]: notation for C characters, C integers, [outcome] (a result, a
      failed assertion, undefined behaviour, or a loop bound that is used up).
    - [Scan]: [parser.h]. The runtime's lexer is the class [TSLexer] over an unknown
      state; [TSLexerSpec] has the documented behaviour of its functions as laws on
      a [view] (what was read, what is left, the two ends of the token). [list_lexer]
      is an instance, on which the examples are evaluated. [WCType] are the character
      classes of the C library, of which only the values on ASCII are assumed. [M] is
      the monad of the scan functions: state of the lexer, result symbol, payload.
    - [Logic]: weakest preconditions [wp] for [M], on views; the class [Reads] of
      computations that end, do no harm and only move forward. [OpTable]: reference
      recognition of operators by a table.
    - [Codec]: the interface [ScannerCodec] between a scanner and the runtime that
      saves it (round trip, comparison by bytes, stability), proved for any instance;
      Kotlin, Ruby and SQL are instances ([KotlinProofs], [RubyState], [SqlProofs]).
    - [Replay]: a relational logic, [sim], for two runs of a scan function on payloads
      that stand for the same abstract state; with [Codec], scanning from a restored
      payload gives the same tokens ([KotlinReplay], [RubyReplay], [SqlReplay],
      [SvelteReplay], [PerlReplay]).
    - [Session]: the runtime's use of a scanner, restoring the payload before every
      call and saving it behind every token, against a machine that keeps the payloads
      themselves; the class [RuntimeScanner] is what a scanner promises for that, and
      the scanners of Kotlin, Ruby, SQL and Perl keep it.
    - [Regex]: regular expressions with derivatives, and the longest match. [Lexer]:
      [set_contains] and the lexer macros of [parser.h], the loop of a generated
      [ts_lex], and a test by derivatives that an automaton implements a list of
      expressions. [SvelteLex]: [ts_lex] of the Svelte grammar, case by case.
    - [CArray], [CArrayProofs]: [tree_sitter/array.h], the growable arrays of the
      scanners, with cells that may be unset; [repr] relates them to lists. The
      copies of this header in the grammars agree.
    - [CString]: strings in blocks of memory.
    - Elixir ([scanner.c]; no payload): [Elixir], [ElixirSpec], [ElixirProofs].
    - Kotlin ([scanner.c]; payload: stack of open strings): [Kotlin], [KotlinSpec],
      [KotlinProofs].
    - Ruby ([scanner.c]; payload: stacks of literals and of heredocs): [Ruby],
      [RubyState] (abstract state and serialization), [RubySpec], [RubyProofs],
      [RubyHeredoc] (bodies of heredocs, against a reference on lines).
    - SQL ([scanner.c]; payload: the open dollar tag): [Sql], [SqlProofs].
    - Svelte (payload: stack of open elements): [VcVector] ([vc_vector.h],
      [ekstring.h]), [SvelteAlloc] ([allocator.h]), [SvelteTag] ([tag.h] and the part
      of [uthash.h] that the scanner uses), [SvelteHash] (the rest of [uthash.h]),
      [Svelte] ([scanner.c]). Proofs: the files of these names with [Proofs],
      [SvelteAllocClaims], [SvelteSerial] (serialization), [SvelteText] (comments, raw
      text, expressions), [SvelteScan] and [SvelteClaims] (whole calls).
    - Perl (payload: stack of open quotes, queue of announced heredocs, flags):
      [PerlUnicode] ([bsearch.h], [tsp_unicode.h]), [PerlKeywords]
      ([tsp_intuit_keywords.h]), [PerlIntuit] ([tsp_intuit_more.h],
      [tsp_intuit_readline.h]), [PerlState] (state and serialization), [Perl] and
      [PerlScan] (the scan function of [scanner.c], with [tsp_keywords.h]). Proofs:
      [PerlIntuitProofs], [PerlStateProofs], [PerlInvariant], [PerlTotal] (a logic for
      termination) and [PerlScanTotal], [PerlEmits] (result symbols), [PerlClaims]
      (quotes and recovery), [PerlTokens] (quoted keys), [PerlPod] (documentation),
      [PerlHeredoc] and [PerlSession] (heredocs).

    A definition has the name of the C function or type it translates. A loop is a
    function of its own: the body gives the next locals or the result of the loop.
    A C structure is a record, an enumeration an inductive type with its codes.

    ** What the theorems show

    - Every call ends without undefined behaviour or failed assertion, moves forward
      in the input, and leaves a well-formed payload that differs by at most what
      its token says: [perl_scan_total], [ruby_scan_total], [svelte_scan_total],
      [kotlin_scan_total], [sql_scan_total], [elixir_scan_total]. The hypotheses are
      those that the code needs: fewer than 1024 strings are open for Kotlin (the
      next one aborts); for Svelte no [then] or [as] stands in front of a NUL (it would
      be read behind the end of that word).
    - Saving and restoring a payload gives it back when it fits, and what happens
      when it does not: the theorems on serialization of Ruby, Svelte, Perl. A scan
      from the restored payload gives what the uninterrupted one would have given:
      [svelte_replay] and the lemmas [ruby_replay], [kotlin_replay], [sql_replay],
      [perl_replay]; and so do whole sessions of calls from any recorded states in any
      order: [ruby_sessions], [kotlin_sessions], [sql_sessions], [perl_sessions].
    - The tokens are those of a reference on the text: newlines in front of operators
      (Elixir), semicolons and nested comments (Kotlin), operators (Ruby), dollar
      strings (SQL), elements, comments and expressions (Svelte), quotes, quoted keys,
      documentation blocks, heredocs and recovery tokens (Perl), and the symbols that
      Perl reports are ones that the parser asked for ([perl_result_symbol]).
    - Calls in a row: a Perl heredoc from its announcement to its end
      ([perl_heredoc_session]); the body of a Ruby heredoc and its end
      ([ruby_heredoc_body]); the end tag of an outer Svelte element
      ([svelte_outer_end_tag]).
    - The generated lexer of Svelte finds, in every mode, the longest text that is a
      token of the grammar ([svelte_lex_tokens]).
    - Data structures implement their abstract types: lists ([carray_splice] and the
      lemmas of [CArrayProofs]), a bounded queue ([perl_heredoc_queue]), finite maps
      ([hashmap_is_map], for tables of any size), sets of characters and of words
      ([perl_keyword_tree], and the lemma [perl_character_classes]).
    - The allocator, by an invariant of all states that calls of [za_Alloc] and
      [za_Free] reach: blocks in use never overlap ([za_blocks]), and [za_Release]
      leaves nothing behind ([za_release_all]).
    - Deviations, where the code does not do what it means to, are lemmas whose
      comments say so, for example [kotlin_escaped_dollar_quote],
      [ruby_heredoc_non_ascii], [svelte_restore_overflow], [pod_partial_marker],
      [hashmap_rehash_never], [za_Alloc_wraps], [trim_deletes_twice],
      [perl_stale_recovery], [ruby_heredoc_two_words].

    ** Bounds

    The loops of a scan function run on a bound [n] that is a parameter of the whole
    computation. The theorems on termination show that every [n] that is greater
    than the number of characters left is enough; for Perl one more is needed, since
    its local copy of the lookahead may lag behind the lexer by a character, and for the
    generated lexer too, which takes a round at the end of the input. Loops
    over data recurse on the data; two have a bound of their own: [grow] of the
    allocator (64 doublings: [grow_ok]) and [growth_loop] of the vector (a push needs
    no round: [growth_loop_done]). C integers are [Z], with the wrap-around or truncation written out where
    the code can reach it.

    ** Not modelled

    - The generated [parser.c] files, except [ts_lex] of Svelte: tables printed by a
      generator, that the runtime interprets; their lexers have the shape of that one
      and would be further instances of [Lexer].
    - The tree-sitter runtime: not in the repository; the laws of [TSLexerSpec] stand
      for it. The included ranges of a lexer have no law: the scanners ask for their
      starts only.
    - Failing allocations, except in the allocator of Svelte, where [malloc] may fail
      at any call. The scanners do not test for it either.
    - The Svelte vectors take a fresh block from the allocator where the code does;
      that such blocks are apart is [za_blocks].
    - Sessions of Svelte: a vector is not always enlarged when it is restored
      ([svelte_restore_overflow]), so a payload that was restored need not have room for
      the next one; [svelte_replay] asks for that room.
    - The scanner of Vue is C++; ABAP, Groovy and PL/SQL have no scanner.
    - The crates of sqry in Rust, and the C files that are inputs of its tests.
    - In Perl, debug output and the function [skip_digits], which nothing uses.

    ** What is left

    Not proved about modelled code: the kinds of Perl tokens without a specification of
    their own (file tests, prototypes, attributes, regular expression brackets), Ruby's
    heredocs with interpolations, and the iteration that rehashes a table as a copy of
    its map. *)

From stdpp Require Export base list numbers strings.
From Stdlib Require Import Strings.Byte.
From Stdlib Require Export ZifyBool.

#[global] Open Scope Z_scope.

(** ** Notations for C characters

    A character literal of the C sources is written as a one-character string
    of [c_scope]: it denotes its code as a [Z] numeral. *)

Declare Scope c_scope.
Delimit Scope c_scope with c.

Definition char_parse (l : list Byte.byte) : option Z :=
  match l with
  | [b] => Some (Z.of_N (Byte.to_N b))
  | _ => None
  end.

Definition char_print (z : Z) : option (list Byte.byte) := None.

String Notation Z char_parse char_print : c_scope.
#[global] Open Scope c_scope.

Abbreviation NUL := 0%Z (only parsing).
Abbreviation TAB := 9%Z (only parsing).
Abbreviation LF := 10%Z (only parsing).
Abbreviation VT := 11%Z (only parsing).
Abbreviation CR := 13%Z (only parsing).
Abbreviation DQUOTE := 34%Z (only parsing).
Abbreviation BACKSLASH := 92%Z (only parsing).

(** A C string literal, without its terminator, as a list of codes. *)
Fixpoint cstr (s : String.string) : list Z :=
  match s with
  | String.EmptyString => []
  | String.String a s' => Z.of_N (Ascii.N_of_ascii a) :: cstr s'
  end.
Arguments cstr s%_string.

(** The C string stored in a buffer: what comes before the first 0. *)
Fixpoint c_string (l : list Z) : list Z :=
  match l with
  | [] => []
  | c :: l => if c =? 0 then [] else c :: c_string l
  end.

(** ** Machine integers *)

(** Conversion of an integer to a signed 8-bit [char]. *)
Definition to_char (z : Z) : Z := (z + 128) mod 256 - 128.
(** Conversion to [unsigned char] / [uint8_t]. *)
Definition to_uchar (z : Z) : Z := z mod 256.
(** Conversion to [uint16_t]. *)
Definition to_u16 (z : Z) : Z := z mod 65536.
(** Conversion to [uint32_t]. *)
Definition to_u32 (z : Z) : Z := z mod 4294967296.
(** Conversion to [int32_t] / [int]. *)
Definition to_i32 (z : Z) : Z := (z + 2147483648) mod 4294967296 - 2147483648.
(** Conversion of an integer to [bool]. *)
Definition to_bool (z : Z) : bool := negb (z =? 0).
Definition of_bool (b : bool) : Z := if b then 1 else 0.

Lemma to_u32_small z : 0 ≤ z < 4294967296 → to_u32 z = z.
Proof. apply Z.mod_small. Qed.

Lemma to_i32_small z : -2147483648 ≤ z < 2147483648 → to_i32 z = z.
Proof. intros ?. unfold to_i32. rewrite Z.mod_small; lia. Qed.

Lemma to_uchar_small z : 0 ≤ z < 256 → to_uchar z = z.
Proof. apply Z.mod_small. Qed.

Lemma to_char_small z : -128 ≤ z < 128 → to_char z = z.
Proof. intros ?. unfold to_char. rewrite Z.mod_small; lia. Qed.

Lemma to_uchar_of_char z : to_uchar (to_char z) = to_uchar z.
Proof. unfold to_uchar, to_char. rewrite Zminus_mod, Zmod_mod, <- Zminus_mod. f_equal. lia. Qed.

Lemma to_uchar_to_char z : 0 ≤ z < 256 → to_uchar (to_char z) = z.
Proof. intros ?. rewrite to_uchar_of_char. by apply to_uchar_small. Qed.

(** ** Lists *)

Lemma take_snoc (l : list Z) k : (k < length l)%nat →
  take (S k) l = take k l ++ [hd 0 (drop k l)].
Proof.
  revert l. induction k as [|k IH]; intros [|c l] Hk; simpl in *; try lia; [by destruct l|].
  f_equal. apply IH. lia.
Qed.

Lemma hd_drop_nth (l : list Z) k : hd 0 (drop k l) = nth k l 0.
Proof. revert k. induction l as [|x l IH]; intros [|k]; try done. apply IH. Qed.

(** ** Outcomes *)

(** The outcome of running C code: a value, a loop bound reached, a call to
    [abort] or a failed [assert], an undefined behaviour (an access out of
    bounds). *)
Inductive outcome (A : Type) : Type :=
  | Done (a : A)
  | OutOfFuel
  | Aborted
  | Undefined.
Arguments Done {A} a.
Arguments OutOfFuel {A}.
Arguments Aborted {A}.
Arguments Undefined {A}.

#[export] Instance Done_inj A : Inj (=) (=) (@Done A).
Proof. by intros x y [= ->]. Qed.

(** Sequencing of outcomes, for the code that needs no scanner state. *)
Definition obind {A B} (o : outcome A) (k : A → outcome B) : outcome B :=
  match o with
  | Done a => k a
  | OutOfFuel => OutOfFuel
  | Aborted => Aborted
  | Undefined => Undefined
  end.

Notation "'let?' x := o 'in' k" := (obind o (λ x, k))
  (at level 10, x name, o at level 200, k at level 200).
Notation "'let?' ' p := o 'in' k" := (obind o (λ p, k))
  (at level 10, p strict pattern, o at level 200, k at level 200).

(** [++] and [--] of an [int]; signed overflow is undefined. *)
Definition i32_incr (z : Z) : outcome Z :=
  if z <? 2147483647 then Done (z + 1) else Undefined.
Definition i32_decr (z : Z) : outcome Z :=
  if -2147483648 <? z then Done (z - 1) else Undefined.

Lemma i32_incr_small z : z < 2147483647 → i32_incr z = Done (z + 1).
Proof. intros ?. unfold i32_incr. by replace (_ <? _) with true by lia. Qed.
Lemma i32_decr_small z : -2147483648 < z → i32_decr z = Done (z - 1).
Proof. intros ?. unfold i32_decr. by replace (_ <? _) with true by lia. Qed.

(** ** Integers as bytes *)

(** The bytes of a [uint32_t], the least significant first. *)
Definition u32_bytes (n : Z) : list Z :=
  [ to_char n; to_char (n / 256); to_char (n / 65536); to_char (n / 16777216) ].

Definition bytes_u32 (b0 b1 b2 b3 : Z) : Z :=
  to_uchar b0 + to_uchar b1 * 256 + to_uchar b2 * 65536 + to_uchar b3 * 16777216.

Lemma bytes_u32_bytes n : 0 ≤ n < 4294967296 →
  bytes_u32 (to_char n) (to_char (n / 256)) (to_char (n / 65536)) (to_char (n / 16777216)) = n.
Proof.
  intros Hn. unfold bytes_u32, to_uchar, to_char.
  Z.to_euclidean_division_equations. lia.
Qed.
