(* ===== verification/CArray.v ===== *)
(** * Growable arrays of [tree_sitter/array.h]

    The generic [Array(T)] of the scanners: a block of [capacity] cells, of
    which the first [size] are in use. Cells that were allocated but never
    written hold no value; reading one, or any access outside the block, is
    [Undefined]; a failed [assert] is [Aborted]. Sizes are [uint32_t] and wrap.
    Allocation is taken to succeed, as the code does. *)

From S2P Require Import Prelude.

Record Array (T : Type) := mkArray {
  contents : list (option T);
  size : Z;
  capacity : Z;
}.
Arguments mkArray {T} contents size capacity.
Arguments contents {T} a : rename.
Arguments size {T} a : rename.
Arguments capacity {T} a : rename.

Section memory.
Context {B : Type}.

(** [memcpy(c + dst, src, ...)], in elements. *)
Definition memcpy (c : list B) (dst : Z) (src : list B) : outcome (list B) :=
  if (0 <=? dst) && (dst + Z.of_nat (length src) <=? Z.of_nat (length c))
  then Done (take (Z.to_nat dst) c ++ src
             ++ drop (Z.to_nat dst + length src) c)
  else Undefined.

(** [memmove(c + dst, c + src, n)], in elements. *)
Definition memmove (c : list B) (dst src n : Z) : outcome (list B) :=
  if (0 <=? src) && (0 <=? n) && (src + n <=? Z.of_nat (length c))
  then memcpy c dst (take (Z.to_nat n) (drop (Z.to_nat src) c))
  else Undefined.
End memory.

Section array.
Context {T : Type}.

Definition read (c : list (option T)) (i : Z) : outcome T :=
  if 0 <=? i then
    match c !! Z.to_nat i with
    | Some (Some x) => Done x
    | _ => Undefined
    end
  else Undefined.

(** The values of the first [n] cells. *)
Fixpoint read_block (c : list (option T)) (n : nat) {struct n} : outcome (list T) :=
  match n, c with
  | O, _ => Done []
  | S n, Some x :: c => let? xs := read_block c n in Done (x :: xs)
  | S _, _ => Undefined
  end.

Definition array_init : Array T := mkArray [] 0 0.

(** [_array__delete]: an empty block is the null pointer. *)
Definition array_delete (a : Array T) : Array T :=
  match contents a with
  | [] => a
  | _ => array_init
  end.

Definition array_clear (a : Array T) : Array T :=
  mkArray (contents a) 0 (capacity a).

Definition array_get (a : Array T) (index : Z) : outcome T :=
  if to_u32 index <? size a then read (contents a) index else Aborted.

Definition array_front (a : Array T) : outcome T := array_get a 0.

Definition array_back (a : Array T) : outcome T :=
  array_get a (to_u32 (size a - 1)).

(** [ts_realloc] (or [ts_malloc] when the block is null). *)
Definition realloc (c : list (option T)) (n : Z) : list (option T) :=
  take (Z.to_nat n) (c ++ replicate (Z.to_nat n) None).

Definition array_reserve (a : Array T) (new_capacity : Z) : Array T :=
  if capacity a <? new_capacity
  then mkArray (realloc (contents a) new_capacity) (size a) new_capacity
  else a.

Definition array_grow (a : Array T) (count : Z) : Array T :=
  let new_size := to_u32 (size a + count) in
  if capacity a <? new_size then
    let new_capacity := to_u32 (capacity a * 2) in
    let new_capacity := if new_capacity <? 8 then 8 else new_capacity in
    let new_capacity :=
      if new_capacity <? new_size then new_size else new_capacity in
    array_reserve a new_capacity
  else a.

Definition array_push (a : Array T) (element : T) : outcome (Array T) :=
  let a := array_grow a 1 in
  let? c := memcpy (contents a) (size a) [Some element] in
  Done (mkArray c (to_u32 (size a + 1)) (capacity a)).

(** The new elements are zeroed: [zero] is the value whose bytes are 0. *)
Definition array_grow_by (zero : T) (a : Array T) (count : Z)
  : outcome (Array T) :=
  if count =? 0 then Done a else
  let a := array_grow a count in
  let? c := memcpy (contents a) (size a)
              (replicate (Z.to_nat count) (Some zero)) in
  Done (mkArray c (to_u32 (size a + count)) (capacity a)).

Definition array_pop (a : Array T) : outcome (T * Array T) :=
  let size' := to_u32 (size a - 1) in
  let? x := read (contents a) size' in
  Done (x, mkArray (contents a) size' (capacity a)).

Definition array_erase (a : Array T) (index : Z) : outcome (Array T) :=
  if index <? size a then
    let? c := memmove (contents a) index (index + 1) (size a - index - 1) in
    Done (mkArray c (to_u32 (size a - 1)) (capacity a))
  else Aborted.

Definition array_assign (a other : Array T) : outcome (Array T) :=
  let a := array_reserve a (size other) in
  if size other <=? Z.of_nat (length (contents other)) then
    let? c := memcpy (contents a) 0
                (take (Z.to_nat (size other)) (contents other)) in
    Done (mkArray c (size other) (capacity a))
  else Undefined.

Definition array_swap (a other : Array T) : Array T * Array T := (other, a).

(** [elements] is the block the new elements are read from, or the null
    pointer, for which they are zeroed. *)
Definition array_splice (zero : T) (a : Array T)
    (index old_count new_count : Z) (elements : option (list (option T)))
  : outcome (Array T) :=
  let new_size := to_u32 (size a + new_count - old_count) in
  let old_end := to_u32 (index + old_count) in
  let new_end := to_u32 (index + new_count) in
  if old_end <=? size a then
    let a := array_reserve a new_size in
    let? c :=
      if old_end <? size a
      then memmove (contents a) new_end old_end (size a - old_end)
      else Done (contents a) in
    let? c :=
      if 0 <? new_count then
        match elements with
        | Some els =>
            if new_count <=? Z.of_nat (length els)
            then memcpy c index (take (Z.to_nat new_count) els)
            else Undefined
        | None =>
            memcpy c index (replicate (Z.to_nat new_count) (Some zero))
        end
      else Done c in
    Done (mkArray c (to_u32 (size a + new_count - old_count)) (capacity a))
  else Aborted.

Definition array_extend (zero : T) (a : Array T) (count : Z)
    (elements : option (list (option T))) : outcome (Array T) :=
  array_splice zero a (size a) 0 count elements.

Definition array_push_all (zero : T) (a other : Array T) : outcome (Array T) :=
  array_extend zero a (size other)
    (match contents other with [] => None | c => Some c end).

Definition array_insert (zero : T) (a : Array T) (index : Z) (element : T)
  : outcome (Array T) :=
  array_splice zero a index 0 1 (Some [Some element]).

(** The [while] loop of [_array__search_sorted]. *)
Fixpoint search_loop (fuel : nat) (compare : T → outcome Z) (a : Array T)
    (index size : Z) : outcome Z :=
  match fuel with
  | O => OutOfFuel
  | S fuel =>
      if 1 <? size then
        let half_size := size / 2 in
        let mid_index := to_u32 (index + half_size) in
        let? x := read (contents a) mid_index in
        let? comparison := compare x in
        search_loop fuel compare a
          (if comparison <=? 0 then mid_index else index) (size - half_size)
      else Done index
  end.

(** The pair of the out-parameters [index] and [exists]. *)
Definition array_search_sorted_with (compare : T → outcome Z) (a : Array T)
  : outcome (Z * bool) :=
  if size a =? 0 then Done (0, false) else
  let? index := search_loop (Z.to_nat (size a)) compare a 0 (size a) in
  let? x := read (contents a) index in
  let? comparison := compare x in
  if comparison =? 0 then Done (index, true)
  else if comparison <? 0 then Done (to_u32 (index + 1), false)
  else Done (index, false).

(** [(int)*(a) - (int)(b)]: undefined when the difference does not fit. *)
Definition compare_int (a b : Z) : outcome Z :=
  let d := to_i32 a - to_i32 b in
  if (-2147483648 <=? d) && (d <? 2147483648) then Done d else Undefined.

Definition array_search_sorted_by (field : T → Z) (needle : Z) (a : Array T)
  : outcome (Z * bool) :=
  array_search_sorted_with (λ x, compare_int (field x) needle) a.

Definition array_insert_sorted_with (zero : T) (compare : T → T → outcome Z)
    (a : Array T) (value : T) : outcome (Array T) :=
  let? '(index, found) :=
    array_search_sorted_with (λ x, compare x value) a in
  if found then Done a else array_insert zero a index value.

Definition array_insert_sorted_by (zero : T) (field : T → Z) (a : Array T)
    (value : T) : outcome (Array T) :=
  let? '(index, found) := array_search_sorted_by field (field value) a in
  if found then Done a else array_insert zero a index value.
End array.
