(* ===== verification/CArrayProofs.v ===== *)
(** * Properties of the growable arrays

    [repr a l]: the array [a] holds the list [l]. Every operation, within the
    range of [uint32_t], implements the list operation it stands for, and the
    binary search finds the insertion point. *)

From stdpp Require Import sorting.
From S2P Require Import Prelude CArray.

Section cells.
Context {B : Type}.
Implicit Types c : list B.

(** A copy into the middle of a block. *)
Lemma memcpy_app c1 c2 c3 src :
  length src = length c2 →
  memcpy (c1 ++ c2 ++ c3) (Z.of_nat (length c1)) src = Done (c1 ++ src ++ c3).
Proof.
  intros Hl. unfold memcpy. rewrite !length_app, Hl.
  replace (_ && _) with true by lia.
  rewrite Nat2Z.id, take_app_length, (app_assoc c1 c2 c3), drop_app_length'
    by (rewrite length_app; lia). done.
Qed.

Lemma memcpy_at c dst src c1 c2 c3 :
  c = c1 ++ c2 ++ c3 → dst = Z.of_nat (length c1) → length src = length c2 →
  memcpy c dst src = Done (c1 ++ src ++ c3).
Proof. intros -> ->. apply memcpy_app. Qed.

Lemma memmove_at c dst src n c1 c2 c3 d1 d2 d3 :
  c = c1 ++ c2 ++ c3 → src = Z.of_nat (length c1) → n = Z.of_nat (length c2) →
  c = d1 ++ d2 ++ d3 → dst = Z.of_nat (length d1) → length c2 = length d2 →
  memmove c dst src n = Done (d1 ++ c2 ++ d3).
Proof.
  intros Hc -> -> Hd -> Hl. unfold memmove.
  replace (_ && _) with true by (rewrite Hc, !length_app; lia).
  rewrite !Nat2Z.id.
  replace (take _ _) with c2 by by rewrite Hc, drop_app_length, take_app_length.
  by apply memcpy_at with d2.
Qed.

(** A block cut at two positions. *)
Lemma cut_at c i j : (i + j ≤ length c)%nat →
  ∃ c1 c2 c3, c = c1 ++ c2 ++ c3 ∧ length c1 = i ∧ length c2 = j.
Proof.
  intros H. exists (take i c), (take j (drop i c)), (drop j (drop i c)).
  rewrite take_drop, take_drop, !length_take, length_drop. split_and!; [done|lia..].
Qed.
End cells.

Section repr.
Context {T : Type}.
Implicit Types (a : Array T) (l : list T).

(** The first cells hold [l], the others anything. *)
Definition repr a l : Prop :=
  ∃ junk, contents a = (Some <$> l) ++ junk ∧ size a = Z.of_nat (length l)
    ∧ capacity a = Z.of_nat (length l + length junk) ∧ capacity a < 4294967296.

Lemma repr_init : repr (array_init : Array T) [].
Proof. by exists []. Qed.

Lemma repr_size a l : repr a l → size a = Z.of_nat (length l) ∧ size a < 4294967296.
Proof. intros (junk&_&->&->&?). lia. Qed.

Lemma repr_delete a l : repr a l → array_delete a = array_init.
Proof.
  intros (junk&Hc&Hs&Hp&?). destruct a as [c s p]; simpl in *. unfold array_delete; simpl.
  rewrite Hc in *. destruct l, junk; simpl in *; [by subst|done..].
Qed.

Lemma repr_clear a l : repr a l → repr (array_clear a) [].
Proof.
  intros (junk&Hc&Hs&Hp&?). exists (contents a); simpl. split_and!; try done.
  rewrite Hp, Hc, length_app, length_fmap. done.
Qed.

Lemma repr_read a l i : repr a l → (i < length l)%nat →
  ∃ x, l !! i = Some x ∧ read (contents a) (Z.of_nat i) = Done x.
Proof.
  intros (junk&Hc&_) Hi. destruct (lookup_lt_is_Some_2 l i Hi) as [x Hx]. exists x.
  split; [done|]. unfold read. replace (0 <=? Z.of_nat i) with true by lia.
  by rewrite Nat2Z.id, Hc, lookup_app_l, list_lookup_fmap, Hx by by rewrite length_fmap.
Qed.

Lemma read_block_app (l : list T) junk : read_block ((Some <$> l) ++ junk) (length l) = Done l.
Proof.
  induction l as [|x l IH]; [done|].
  rewrite fmap_cons, <- app_comm_cons. cbn [read_block length]. by rewrite IH.
Qed.

Lemma repr_read_block a l : repr a l →
  read_block (contents a) (Z.to_nat (size a)) = Done l.
Proof. intros (junk&->&->&_). rewrite Nat2Z.id. apply read_block_app. Qed.

(** Unchecked access to the last element. *)
Lemma repr_read_last a l x : repr a (l ++ [x]) →
  read (contents a) (to_u32 (size a - 1)) = Done x.
Proof.
  intros Ha. destruct (repr_size _ _ Ha) as [Hs ?]. rewrite length_app in Hs; simpl in Hs.
  rewrite Hs, to_u32_small by lia. replace (_ - 1) with (Z.of_nat (length l)) by lia.
  destruct (repr_read a _ (length l) Ha) as (y&Hy&->); [rewrite length_app; simpl; lia|].
  rewrite list_lookup_middle in Hy by done. by injection Hy as <-.
Qed.

Lemma repr_get a l i x : repr a l → l !! i = Some x →
  array_get a (Z.of_nat i) = Done x.
Proof.
  intros Ha Hx. pose proof (lookup_lt_Some _ _ _ Hx) as Hi.
  destruct (repr_read a l i Ha Hi) as (y&Hy&Hr). simplify_eq.
  destruct (repr_size a l Ha). unfold array_get.
  rewrite to_u32_small by lia. by replace (_ <? _) with true by lia.
Qed.

(** The checked access stops where an unchecked one would read out of bounds. *)
Lemma repr_get_out a l i : repr a l → Z.of_nat (length l) ≤ i < 4294967296 →
  array_get a i = Aborted.
Proof.
  intros Ha Hi. destruct (repr_size a l Ha). unfold array_get.
  rewrite to_u32_small by lia. by replace (_ <? _) with false by lia.
Qed.

Lemma repr_back a l x : repr a (l ++ [x]) → array_back a = Done x.
Proof.
  intros Ha. destruct (repr_size _ _ Ha) as [Hs ?]. rewrite length_app in Hs; simpl in Hs.
  unfold array_back. rewrite Hs, to_u32_small by lia.
  replace (_ - 1) with (Z.of_nat (length l)) by lia.
  eapply repr_get; [done|]. by apply list_lookup_middle.
Qed.

Lemma repr_reserve a l n : repr a l → n < 4294967296 →
  repr (array_reserve a n) l ∧ capacity (array_reserve a n) = Z.max (capacity a) n.
Proof.
  intros Ha Hn. unfold array_reserve. destruct (capacity a <? n) eqn:E; [|split; [done|lia]].
  destruct Ha as (junk&Hc&Hs&Hp&?). simpl. split; [|lia].
  exists (take (Z.to_nat n - length l) (junk ++ replicate (Z.to_nat n) None)).
  unfold realloc. simpl. rewrite Hc, <- app_assoc, length_take, length_app, length_replicate.
  rewrite take_app_ge by (rewrite length_fmap; lia). rewrite length_fmap.
  split_and!; [done|done|lia|done].
Qed.

Lemma repr_grow a l n : repr a l → Z.of_nat (length l) + n < 4294967296 → 0 ≤ n →
  repr (array_grow a n) l ∧ Z.of_nat (length l) + n ≤ capacity (array_grow a n).
Proof.
  intros Ha Hn H0. unfold array_grow. destruct (repr_size a l Ha) as [Hs ?].
  rewrite Hs, to_u32_small by lia.
  destruct (capacity a <? _) eqn:E; [|split; [done|lia]].
  set (k := if _ <? _ then _ else _).
  assert (Z.of_nat (length l) + n ≤ k < 4294967296) as Hk.
  { pose proof (Z.mod_pos_bound (capacity a * 2) 4294967296 ltac:(lia)).
    unfold k, to_u32. repeat case_match; lia. }
  destruct (repr_reserve a l k) as [? ->]; [done|lia|split; [done|lia]].
Qed.

(** The cells behind the list, when there is room for [n]. *)
Lemma repr_room a l n : repr a l → Z.of_nat (length l + n) ≤ capacity a →
  ∃ c2 c3, contents a = (Some <$> l) ++ c2 ++ c3 ∧ length c2 = n
    ∧ capacity a = Z.of_nat (length l + n + length c3).
Proof.
  intros (junk&Hc&Hs&Hp&?) Hn. destruct (cut_at junk 0 n) as ([|]&c2&c3&->&?&?); [lia| |done].
  exists c2, c3. split_and!; [done..|]. rewrite Hp. simpl. rewrite length_app. lia.
Qed.

Lemma repr_push a l x : repr a l → Z.of_nat (length l) + 1 < 4294967296 →
  ∃ a', array_push a x = Done a' ∧ repr a' (l ++ [x]).
Proof.
  intros Ha Hl. destruct (repr_grow a l 1 Ha ltac:(lia) ltac:(lia)) as [Hg Hroom].
  unfold array_push. set (g := array_grow a 1) in *.
  destruct (repr_room g l 1 Hg ltac:(lia)) as (c2&c3&Hc&H2&Hp).
  destruct (repr_size g l Hg) as [Hs ?]. destruct Hg as (_&_&_&_&?).
  rewrite (memcpy_at _ _ _ (Some <$> l) c2 c3) by (rewrite ?length_fmap; done).
  simpl. eexists; split; [done|]. exists c3; simpl.
  rewrite Hs, to_u32_small, fmap_app, <- app_assoc, length_app by lia. simpl.
  split_and!; [done|lia..].
Qed.

Lemma repr_grow_by zero a l n : repr a l → 0 ≤ n → Z.of_nat (length l) + n < 4294967296 →
  ∃ a', array_grow_by zero a n = Done a' ∧ repr a' (l ++ replicate (Z.to_nat n) zero).
Proof.
  intros Ha H0 Hl. unfold array_grow_by. destruct (n =? 0) eqn:E.
  { assert (n = 0) as -> by lia. exists a. by rewrite app_nil_r. }
  destruct (repr_grow a l n Ha ltac:(lia) ltac:(lia)) as [Hg Hroom].
  set (g := array_grow a n) in *.
  destruct (repr_room g l (Z.to_nat n) Hg ltac:(lia)) as (c2&c3&Hc&H2&Hp).
  destruct (repr_size g l Hg) as [Hs ?]. destruct Hg as (_&_&_&_&?).
  rewrite (memcpy_at _ _ _ (Some <$> l) c2 c3)
    by (rewrite ?length_fmap, ?length_replicate; done).
  simpl. eexists; split; [done|]. exists c3; simpl.
  rewrite Hs, to_u32_small, fmap_app, fmap_replicate, <- app_assoc, length_app, length_replicate
    by lia.
  split_and!; [done|lia..].
Qed.

Lemma repr_pop a l x : repr a (l ++ [x]) →
  ∃ a', array_pop a = Done (x, a') ∧ repr a' l.
Proof.
  intros Ha. destruct (repr_size _ _ Ha) as [Hs ?]. rewrite length_app in Hs; simpl in Hs.
  unfold array_pop. rewrite Hs, to_u32_small by lia.
  replace (_ - 1) with (Z.of_nat (length l)) by lia.
  destruct (repr_read a _ (length l) Ha) as (y&Hy&->); [rewrite length_app; simpl; lia|].
  rewrite list_lookup_middle in Hy by done. injection Hy as <-. simpl. eexists; split; [done|].
  destruct Ha as (junk&Hc&_&Hp&?). exists (Some x :: junk); simpl.
  rewrite fmap_app, <- app_assoc in Hc. rewrite length_app in Hp; simpl in *.
  split_and!; [done|lia..].
Qed.

Lemma repr_erase a l i : repr a l → (i < length l)%nat →
  ∃ a', array_erase a (Z.of_nat i) = Done a' ∧ repr a' (take i l ++ drop (S i) l).
Proof.
  intros Ha Hi. destruct (repr_size _ _ Ha) as [Hs ?]. unfold array_erase.
  replace (_ <? _) with true by lia. destruct Ha as (junk&Hc&_&Hp&?).
  destruct (lookup_lt_is_Some_2 l i Hi) as [x Hx].
  rewrite <- (take_drop_middle l i x Hx) in Hc, Hp.
  assert (length (take i l) = i) as Hl1 by (rewrite length_take; lia).
  assert (Z.of_nat (length l) = Z.of_nat (i + S (length (drop (S i) l)))) as Hl
    by (rewrite length_drop; lia).
  rewrite Hs, Hl. clear Hs Hl Hi Hx. revert Hc Hp Hl1.
  generalize (take i l) as l1, (drop (S i) l) as l3. intros l1 l3 Hc Hp <-.
  rewrite fmap_app, fmap_cons, <- app_assoc in Hc. rewrite length_app in Hp. simpl in Hc, Hp.
  assert (∃ d2 d3, (Some x :: (Some <$> l3) ++ junk : list (option T)) = d2 ++ d3
            ∧ length d2 = length l3 ∧ length d3 = S (length junk)) as (d2&d3&Hd&?&?).
  { destruct (cut_at (Some x :: (Some <$> l3) ++ junk) 0 (length l3))
      as ([|]&d2&d3&Hd&?&?); [simpl; rewrite length_app, length_fmap; lia| |done].
    exists d2, d3. split_and!; [done..|].
    apply (f_equal length) in Hd. simpl in Hd. rewrite !length_app, length_fmap in Hd. lia. }
  rewrite (memmove_at _ _ _ _ ((Some <$> l1) ++ [Some x]) (Some <$> l3) junk
             (Some <$> l1) d2 d3).
  - simpl. eexists; split; [done|]. exists d3; simpl.
    rewrite to_u32_small, fmap_app, <- app_assoc, length_app by lia.
    split_and!; [done|lia..].
  - rewrite Hc, <- app_assoc. done.
  - rewrite length_app, length_fmap. simpl. lia.
  - rewrite length_fmap. lia.
  - by rewrite Hc, Hd.
  - by rewrite length_fmap.
  - by rewrite length_fmap.
Qed.

Lemma fmap_split3 l i o : (i + o ≤ length l)%nat →
  Some <$> l = (Some <$> take i l) ++ (Some <$> take o (drop i l)) ++ (Some <$> drop (i + o) l).
Proof.
  intros H. rewrite <- !fmap_app, <- drop_drop. by rewrite take_drop, take_drop.
Qed.

(** [array_splice] replaces a slice; [els] are the elements the code reads
    behind the pointer, or zeros for a null one. *)
Lemma repr_splice zero a l i o (elements : option (list T)) n :
  repr a l → (i + o ≤ length l)%nat →
  Z.of_nat (length l + n) - Z.of_nat o < 4294967296 →
  match elements with Some els => length els = n | None => True end →
  ∃ a', array_splice zero a (Z.of_nat i) (Z.of_nat o) (Z.of_nat n)
          ((λ els : list T, Some <$> els) <$> elements) = Done a'
    ∧ repr a' (take i l ++ default (replicate n zero) elements ++ drop (i + o) l).
Proof.
  intros Ha Hio Hlen He. destruct (repr_size _ _ Ha) as [Hs ?]. unfold array_splice.
  rewrite Hs, !to_u32_small by lia. replace (_ <=? _) with true by lia.
  set (k := Z.of_nat (length l) + Z.of_nat n - Z.of_nat o).
  destruct (repr_reserve a l k Ha ltac:(lia)) as [Hg Hk].
  set (g := array_reserve a k) in *. destruct (repr_size _ _ Hg) as [Hgs _].
  rewrite Hgs. destruct Hg as (junk&Hc&_&Hp&?).
  pose (ns := (Some <$> default (replicate n zero) elements) : list (option T)).
  assert (length ns = n) as Hns.
  { unfold ns. rewrite length_fmap. destruct elements; simpl; [done|]. by rewrite length_replicate. }
  pose (l3 := drop (i + o) l). assert (length l = i + o + length l3)%nat as Hl3
    by (unfold l3; rewrite length_drop; lia).
  rewrite (fmap_split3 l i o Hio), <- !app_assoc in Hc. fold l3 in Hc |- *.
  assert (length (Some <$> take i l) = i) as Hl1 by (rewrite length_fmap, length_take; lia).
  assert (length (Some <$> take o (drop i l)) = o) as Hl2
    by (rewrite length_fmap, length_take, length_drop; lia).
  assert (length (Some <$> l3) = length l3) as Hl4 by apply length_fmap.
  assert (∃ d2 d3, (Some <$> take o (drop i l)) ++ (Some <$> l3) ++ junk = d2 ++ d3
     ∧ length d2 = n ∧ (length l3 ≤ length d3)%nat ∧
     (i + length d2 + length d3 = Z.to_nat (capacity g))%nat) as (d2&d3&Hd&Hd2&Hd3&Hd4).
  { exists (take n ((Some <$> take o (drop i l)) ++ (Some <$> l3) ++ junk)),
      (drop n ((Some <$> take o (drop i l)) ++ (Some <$> l3) ++ junk)).
    rewrite take_drop, length_take, length_drop, !length_app, Hl2, Hl4.
    split_and!; [done|lia..]. }
  assert (∃ e2 e3, d3 = e2 ++ e3 ∧ length e2 = length l3) as (e2&e3&He3&He2).
  { exists (take (length l3) d3), (drop (length l3) d3).
    rewrite take_drop, length_take. split; [done|lia]. }
  assert ((if Z.of_nat i + Z.of_nat o <? Z.of_nat (length l)
           then memmove (contents g) (Z.of_nat i + Z.of_nat n)
             (Z.of_nat i + Z.of_nat o) (Z.of_nat (length l) - (Z.of_nat i + Z.of_nat o))
           else Done (contents g)) =
          Done ((Some <$> take i l) ++ d2 ++ (Some <$> l3) ++ e3)) as ->.
  { destruct (_ <? _) eqn:Elt.
    - rewrite (memmove_at _ _ _ _ ((Some <$> take i l) ++ (Some <$> take o (drop i l)))
        (Some <$> l3) junk ((Some <$> take i l) ++ d2) e2 e3); rewrite <- ?app_assoc;
        rewrite ?length_app, ?Hl1, ?Hl2, ?Hl4; [done|exact Hc|lia|lia|by rewrite Hc, Hd, He3|lia|lia].
    - assert (length l3 = 0%nat) as E by lia. rewrite E in He2. apply nil_length_inv in E, He2.
      rewrite Hc, Hd, He3, E, He2. done. }
  simpl. assert ((if 0 <? Z.of_nat n then
      match (λ els : list T, Some <$> els) <$> elements with
      | Some els => if Z.of_nat n <=? Z.of_nat (length els)
          then memcpy ((Some <$> take i l) ++ d2 ++ (Some <$> l3) ++ e3) (Z.of_nat i)
                 (take (Z.to_nat (Z.of_nat n)) els)
          else Undefined
      | None => memcpy ((Some <$> take i l) ++ d2 ++ (Some <$> l3) ++ e3) (Z.of_nat i)
                  (replicate (Z.to_nat (Z.of_nat n)) (Some zero))
      end else Done ((Some <$> take i l) ++ d2 ++ (Some <$> l3) ++ e3)) =
      Done ((Some <$> take i l) ++ ns ++ (Some <$> l3) ++ e3)) as ->.
  { destruct (0 <? Z.of_nat n) eqn:En.
    - rewrite Nat2Z.id. destruct elements as [els|]; simpl.
      + rewrite length_fmap. replace (_ <=? _) with true by lia.
        rewrite (take_ge (Some <$> els)) by (rewrite length_fmap; lia).
        apply (memcpy_at _ _ _ (Some <$> take i l) d2); [done|lia|].
        rewrite length_fmap. lia.
      + unfold ns; simpl. rewrite fmap_replicate.
        apply (memcpy_at _ _ _ (Some <$> take i l) d2); [done|lia|].
        rewrite length_replicate. lia.
    - assert (n = 0%nat) as E by lia. rewrite E in Hd2. apply nil_length_inv in Hd2.
      rewrite E in Hns. apply nil_length_inv in Hns. by rewrite Hd2, Hns. }
  simpl. eexists; split; [done|]. exists e3; simpl.
  apply (f_equal length) in He3. rewrite length_app in He3.
  assert (length (default (replicate n zero) elements) = n) as Hdn
    by (rewrite <- (length_fmap Some); exact Hns).
  rewrite !fmap_app, <- !app_assoc, !length_app, Hdn, length_take, to_u32_small by lia.
  split_and!; [done|lia..].
Qed.

Lemma repr_insert zero a l i x : repr a l → (i ≤ length l)%nat →
  Z.of_nat (length l) + 1 < 4294967296 →
  ∃ a', array_insert zero a (Z.of_nat i) x = Done a' ∧ repr a' (take i l ++ x :: drop i l).
Proof.
  intros Ha Hi Hl. destruct (repr_splice zero a l i 0 (Some [x]) 1 Ha) as (a'&Hrun&Ha');
    [lia|lia|done|].
  exists a'. rewrite Nat.add_0_r in Ha'. by split.
Qed.

Lemma repr_extend zero a l els : repr a l → Z.of_nat (length l + length els) < 4294967296 →
  ∃ a', array_extend zero a (Z.of_nat (length els)) (Some (Some <$> els)) = Done a'
    ∧ repr a' (l ++ els).
Proof.
  intros Ha Hl. destruct (repr_size _ _ Ha) as [Hs _].
  destruct (repr_splice zero a l (length l) 0 (Some els) (length els) Ha) as (a'&Hrun&Ha');
    [lia|lia|done|].
  exists a'. unfold array_extend. rewrite Hs. split; [done|].
  rewrite firstn_all, Nat.add_0_r, drop_ge, app_nil_r in Ha' by lia. done.
Qed.

Lemma repr_assign a l b l2 : repr a l → repr b l2 →
  ∃ a', array_assign a b = Done a' ∧ repr a' l2.
Proof.
  intros Ha Hb. destruct (repr_size _ _ Hb) as [Hs ?]. unfold array_assign.
  destruct (repr_reserve a l (size b) Ha) as [(junk&Hc&_&Hp&?) Hk]; [lia|].
  destruct Hb as (junk2&Hcb&_&_&_). rewrite Hcb, Hs, length_app, length_fmap, Nat2Z.id.
  replace (_ <=? _) with true by lia.
  rewrite take_app_length' by by rewrite length_fmap. rewrite Hs in *.
  set (g := array_reserve a _) in *.
  destruct (cut_at (contents g) 0 (length l2)) as ([|]&d2&d3&Hd&?&Hd2);
    [rewrite Hc, length_app, length_fmap; lia| |done].
  rewrite (memcpy_at _ _ _ [] d2 d3) by (rewrite ?length_fmap; done).
  simpl. eexists; split; [done|]. exists d3; simpl. split_and!; try done.
  rewrite Hp. rewrite Hc in Hd. apply (f_equal length) in Hd. simpl in Hd.
  rewrite !length_app, length_fmap in Hd. lia.
Qed.
End repr.

Lemma repr_inj {T} (a : Array T) l1 l2 : repr a l1 → repr a l2 → l1 = l2.
Proof.
  intros H1 H2. pose proof (repr_read_block a l1 H1) as E.
  rewrite (repr_read_block a l2 H2) in E. by injection E.
Qed.

(** A block read into an array, as [memcpy] after [array_reserve]. *)
Lemma repr_load {T} (a : Array T) l new :
  repr a l → Z.of_nat (length new) < 4294967296 →
  let a' := array_reserve a (Z.of_nat (length new)) in
  ∃ c, memcpy (contents a') 0 (Some <$> new) = Done c
    ∧ repr (mkArray c (Z.of_nat (length new)) (capacity a')) new.
Proof.
  intros Ha Hn a'. destruct (repr_reserve a l (Z.of_nat (length new)) Ha Hn) as [Ha' Hc].
  fold a' in Ha', Hc. destruct Ha' as (junk&Hcon&_&Hcap&?).
  destruct (cut_at (contents a') 0 (length new)) as ([|]&d2&d3&Hd&?&Hd2);
    [rewrite Hcon, length_app, length_fmap; lia| |done].
  rewrite (memcpy_at _ _ _ [] d2 d3) by (rewrite ?length_fmap; done).
  eexists; split; [done|]. exists d3; simpl. split_and!; try done.
  rewrite Hcon in Hd. apply (f_equal length) in Hd. simpl in Hd.
  rewrite !length_app, length_fmap in Hd. lia.
Qed.

(** An assignment to one element in use. *)
Lemma repr_write {T} (a : Array T) l1 x y l2 i : repr a (l1 ++ x :: l2) → i = Z.of_nat (length l1) →
  ∃ c, memcpy (contents a) i [Some y] = Done c
    ∧ repr (mkArray c (size a) (capacity a)) (l1 ++ y :: l2).
Proof.
  intros (junk&Hc&Hs&Hp&?) ->. rewrite fmap_app, fmap_cons, <- app_assoc in Hc.
  eexists. split; [apply (memcpy_at _ _ _ (Some <$> l1) [Some x] ((Some <$> l2) ++ junk));
    [done|by rewrite length_fmap|done]|].
  exists junk; simpl. rewrite fmap_app, fmap_cons, <- app_assoc.
  rewrite length_app in *. by split_and!.
Qed.

(** ** The binary search *)

(** [compare] orders [l]: its sign never decreases along the list. *)
Definition ordered {T} (cmp : T → Z) (l : list T) : Prop :=
  ∀ i j x y, (i ≤ j)%nat → l !! i = Some x → l !! j = Some y →
    Z.sgn (cmp x) ≤ Z.sgn (cmp y).

Section search.
Context {T : Type} (compare : T → outcome Z) (cmp : T → Z).
Context (a : Array T) (l : list T) (Ha : repr a l).
Context (Hcmp : ∀ x, x ∈ l → compare x = Done (cmp x)) (Hord : ordered cmp l).

Lemma search_probe i : (i < length l)%nat →
  ∃ x, l !! i = Some x ∧ read (contents a) (Z.of_nat i) = Done x ∧ compare x = Done (cmp x).
Proof.
  intros Hi. destruct (repr_read a l i Ha Hi) as (x&Hx&Hr). exists x.
  split_and!; [done..|]. apply Hcmp. by eapply list_elem_of_lookup_2.
Qed.

(** Below [index] nothing is greater, from [index + n] on everything is. *)
Lemma search_loop_correct fuel i n :
  (n ≤ fuel)%nat → (1 ≤ n)%nat → (i + n ≤ length l)%nat →
  (∀ j x, (j < i)%nat → l !! j = Some x → cmp x ≤ 0) →
  (∀ x, (0 < i)%nat → l !! i = Some x → cmp x ≤ 0) →
  (∀ j x, (i + n ≤ j)%nat → l !! j = Some x → 0 < cmp x) →
  ∃ k, search_loop fuel compare a (Z.of_nat i) (Z.of_nat n) = Done (Z.of_nat k)
    ∧ (k < length l)%nat
    ∧ (∀ j x, (j < k)%nat → l !! j = Some x → cmp x ≤ 0)
    ∧ (∀ x, (0 < k)%nat → l !! k = Some x → cmp x ≤ 0)
    ∧ (∀ j x, (k < j)%nat → l !! j = Some x → 0 < cmp x).
Proof.
  destruct (repr_size a l Ha) as [Hs ?].
  revert i n. induction fuel as [|fuel IH]; intros i n Hf Hn Hin Hlo Hi Hhi; [lia|].
  simpl. destruct (1 <? Z.of_nat n) eqn:En.
  2: { exists i. split_and!; [done|lia|done|done|]. intros j x Hj. apply Hhi. lia. }
  pose proof (Nat.div_lt n 2 ltac:(lia) ltac:(lia)).
  pose proof (Nat.Div0.mul_div_le n 2).
  assert (1 ≤ n / 2)%nat by (apply Nat.div_le_lower_bound; lia).
  replace (Z.of_nat i + Z.of_nat n / 2) with (Z.of_nat (i + n / 2))
    by (rewrite Nat2Z.inj_add, Nat2Z.inj_div; lia).
  replace (Z.of_nat n - Z.of_nat n / 2) with (Z.of_nat (n - n / 2))
    by (rewrite Nat2Z.inj_sub, Nat2Z.inj_div; lia).
  set (h := (n / 2)%nat) in *. clearbody h.
  rewrite to_u32_small by lia.
  destruct (search_probe (i + h)) as (x&Hx&->&Hc); [lia|]. simpl. rewrite Hc. simpl.
  destruct (cmp x <=? 0) eqn:Ex; apply IH; try lia; try done.
  - intros j y Hj Hy. pose proof (Hord j (i + h)%nat y x ltac:(lia) Hy Hx). lia.
  - intros y _ Hy. simplify_eq. lia.
  - intros j y Hj. apply Hhi. lia.
  - intros j y Hj Hy. pose proof (Hord (i + h)%nat j x y ltac:(lia) Hx Hy). lia.
Qed.

Lemma search_correct :
  ∃ k found, array_search_sorted_with compare a = Done (Z.of_nat k, found)
    ∧ (k ≤ length l)%nat
    ∧ if found
      then ∃ x, l !! k = Some x ∧ cmp x = 0
      else Forall (λ x, cmp x < 0) (take k l) ∧ Forall (λ x, 0 < cmp x) (drop k l).
Proof.
  destruct (repr_size a l Ha) as [Hs ?]. unfold array_search_sorted_with. rewrite Hs.
  destruct (_ =? 0) eqn:E0.
  { destruct l; [|done]. exists 0%nat, false. split_and!; [done|done|apply Forall_nil_2..]. }
  change 0 with (Z.of_nat 0) at 1.
  destruct (search_loop_correct (Z.to_nat (Z.of_nat (length l))) 0 (length l))
    as (k&->&Hk&Hlo&Heq&Hhi); [lia|lia|lia|lia|lia| |].
  { intros j x Hj Hx. apply lookup_lt_Some in Hx. lia. }
  simpl. destruct (search_probe k Hk) as (x&Hx&->&Hc). simpl. rewrite Hc. simpl.
  destruct (cmp x =? 0) eqn:Ez; [exists k, true; split_and!; [done|lia|exists x; split; [done|lia]]|].
  assert (∀ j y, (j < k)%nat → l !! j = Some y → cmp y < 0) as Hlo'.
  { intros j y Hj Hy. pose proof (Hord j k y x ltac:(lia) Hy Hx).
    pose proof (Hlo j y Hj Hy). pose proof (Heq x ltac:(lia) Hx). lia. }
  destruct (cmp x <? 0) eqn:El.
  - rewrite to_u32_small by lia. exists (S k), false. split_and!; [do 2 f_equal; lia|lia|..].
    + apply Forall_lookup_2. intros j y Hy. apply lookup_take_Some in Hy as [Hy Hj].
      destruct (decide (j = k)) as [->|]; [simplify_eq; lia|]. apply (Hlo' j); [lia|done].
    + apply Forall_lookup_2. intros j y. rewrite lookup_drop. apply Hhi. lia.
  - exists k, false. assert (k = 0%nat) as ->.
    { destruct k; [done|]. pose proof (Heq x ltac:(lia) Hx). lia. }
    split_and!; [done|lia|apply Forall_nil_2|].
    apply Forall_lookup_2. rewrite drop_0. intros [|j] y Hy; [simplify_eq; lia|].
    apply (Hhi (S j)); [lia|done].
Qed.
End search.

Section sorted.
Context {T : Type} (field : T → Z).

(** Strictly increasing keys. *)
Definition keys_sorted (l : list T) : Prop :=
  StronglySorted (λ x y, field x < field y) l.

Lemma keys_sorted_ordered z l : keys_sorted l → ordered (λ x, field x - z) l.
Proof.
  intros Hl i j x y Hij Hx Hy. destruct (decide (i = j)) as [->|]; [by simplify_eq|].
  assert (field x < field y); [|lia].
  rewrite <- (take_drop j l) in Hl.
  apply (StronglySorted_app_1_elem_of _ _ _ _ _ Hl).
  - apply (list_elem_of_lookup_2 _ i). by rewrite lookup_take_lt by lia.
  - apply (list_elem_of_lookup_2 _ 0). by rewrite lookup_drop, Nat.add_0_r.
Qed.

Lemma keys_sorted_insert l1 l2 v : keys_sorted (l1 ++ l2) →
  Forall (λ x, field x < field v) l1 → Forall (λ x, field v < field x) l2 →
  keys_sorted (l1 ++ v :: l2).
Proof.
  unfold keys_sorted. rewrite !StronglySorted_app, !Forall_forall.
  intros (H12&H1&H2) Hlo Hhi. split_and!; [|done|].
  - intros x y Hx [->|Hy]%elem_of_cons; auto.
  - constructor; [done|]. by apply Forall_forall.
Qed.

Lemma compare_int_small a b : 0 ≤ a < 2147483648 → 0 ≤ b < 2147483648 →
  compare_int a b = Done (a - b).
Proof.
  intros ??. unfold compare_int. rewrite !to_i32_small by lia.
  by replace (_ && _) with true by lia.
Qed.

Lemma repr_insert_sorted_by zero a l v :
  repr a l → keys_sorted l → Z.of_nat (length l) + 1 < 4294967296 →
  Forall (λ x, 0 ≤ field x < 2147483648) (v :: l) →
  ∃ a' l', array_insert_sorted_by zero field a v = Done a' ∧ repr a' l' ∧ keys_sorted l'
    ∧ (l' ≡ₚ v :: l ∨ l' = l ∧ ∃ x, x ∈ l ∧ field x = field v).
Proof.
  intros Ha Hl Hlen Hr. apply Forall_cons in Hr as [Hv Hr]. rewrite Forall_forall in Hr.
  destruct (search_correct (λ x, compare_int (field x) (field v)) (λ x, field x - field v) a l Ha)
    as (k&found&Hs&Hk&Hfound).
  - intros x Hx. by apply compare_int_small; auto.
  - by apply keys_sorted_ordered.
  - unfold array_insert_sorted_by, array_search_sorted_by. rewrite Hs. simpl. destruct found.
    + destruct Hfound as (x&Hx&Hf). exists a, l. split_and!; [done..|]. right. split; [done|].
      exists x. split; [by eapply list_elem_of_lookup_2|lia].
    + destruct Hfound as [Hlo Hhi]. destruct (repr_insert zero a l k v Ha Hk Hlen) as (a'&->&Ha').
      exists a', (take k l ++ v :: drop k l). split_and!; [done..| |].
      * apply keys_sorted_insert; [by rewrite take_drop|..];
          (eapply Forall_impl; [eassumption|]; simpl; lia).
      * left. by rewrite <- Permutation_middle, take_drop.
Qed.
End sorted.

(** ** Properties *)

(** The binary search of a sorted array finds the needle, or the one
    position where it can be inserted: everything before it is smaller,
    everything from it on is greater. *)
Theorem carray_search_sorted {T} (compare : T → outcome Z) (cmp : T → Z) a l :
  repr a l → (∀ x, x ∈ l → compare x = Done (cmp x)) → ordered cmp l →
  ∃ k found, array_search_sorted_with compare a = Done (Z.of_nat k, found)
    ∧ (k ≤ length l)%nat
    ∧ if found
      then ∃ x, l !! k = Some x ∧ cmp x = 0
      else Forall (λ x, cmp x < 0) (take k l) ∧ Forall (λ x, 0 < cmp x) (drop k l).
Proof. apply search_correct. Qed.

(** C40: [array_splice] on an array that holds [l] removes [o] elements at [i]
    and puts the given elements (or zeros, for a null pointer) there, whatever
    the capacity was; nothing is read or written outside the block. *)
Theorem carray_splice {T} (zero : T) a l i o (elements : option (list T)) n :
  repr a l → (i + o ≤ length l)%nat →
  Z.of_nat (length l + n) - Z.of_nat o < 4294967296 →
  match elements with Some els => length els = n | None => True end →
  ∃ a', array_splice zero a (Z.of_nat i) (Z.of_nat o) (Z.of_nat n)
          ((λ els : list T, Some <$> els) <$> elements) = Done a'
    ∧ repr a' (take i l ++ default (replicate n zero) elements ++ drop (i + o) l).
Proof. apply repr_splice. Qed.

(** Inserting into an array sorted by a key keeps it strictly sorted, adds
    the value exactly when no element has its key, and changes nothing
    otherwise. *)
Theorem carray_insert_sorted {T} (field : T → Z) zero a l v :
  repr a l → keys_sorted field l → Z.of_nat (length l) + 1 < 4294967296 →
  Forall (λ x, 0 ≤ field x < 2147483648) (v :: l) →
  ∃ a' l', array_insert_sorted_by zero field a v = Done a' ∧ repr a' l' ∧ keys_sorted field l'
    ∧ (l' ≡ₚ v :: l ∨ l' = l ∧ ∃ x, x ∈ l ∧ field x = field v).
Proof. apply repr_insert_sorted_by. Qed.

(** The array [2; 4; 6] in a block of 8 cells. *)
Definition example_array : Array Z :=
  mkArray ((Some <$> [2; 4; 6]) ++ replicate 5 None) 3 8.

Lemma example_array_repr : repr example_array [2; 4; 6].
Proof. by exists (replicate 5 None). Qed.

Lemma example_array_sorted : keys_sorted id [2; 4; 6].
Proof. repeat constructor. Qed.

Lemma carray_search_sorted_witness :
  ∃ k found, array_search_sorted_with (λ x, Done (x - 5)) example_array
      = Done (Z.of_nat k, found)
    ∧ (k ≤ 3)%nat
    ∧ if found : bool
      then ∃ x, [2; 4; 6] !! k = Some x ∧ x - 5 = 0
      else Forall (λ x, x - 5 < 0) (take k [2; 4; 6]) ∧ Forall (λ x, 0 < x - 5) (drop k [2; 4; 6]).
Proof.
  refine (carray_search_sorted (λ x, Done (x - 5)) (λ x, x - 5) example_array [2; 4; 6] _ _ _).
  - exact example_array_repr.
  - done.
  - exact (keys_sorted_ordered id 5 _ example_array_sorted).
Defined.

Lemma carray_splice_witness :
  ∃ a', array_splice 0 example_array 1 1 3 (Some [Some 7; Some 8; Some 9]) = Done a'
    ∧ repr a' [2; 7; 8; 9; 6].
Proof.
  refine (carray_splice 0 example_array [2; 4; 6] 1 1 (Some [7; 8; 9]) 3 _ _ _ _);
    [exact example_array_repr|simpl; lia..|done].
Defined.

Lemma carray_insert_sorted_witness :
  ∃ a' l', array_insert_sorted_by 0 id example_array 5 = Done a' ∧ repr a' l' ∧ keys_sorted id l'
    ∧ (l' ≡ₚ [5; 2; 4; 6] ∨ l' = [2; 4; 6] ∧ ∃ x, x ∈ [2; 4; 6] ∧ x = 5).
Proof.
  refine (carray_insert_sorted id 0 example_array [2; 4; 6] 5 _ _ _ _);
    [exact example_array_repr|exact example_array_sorted|simpl; lia|].
  repeat constructor; simpl; lia.
Defined.
