(* ===== verification/Codec.v ===== *)
(** * The serialization contract of an external scanner

    The runtime saves the state of a scanner with every token as the bytes that
    [..._serialize] writes (at most 1024), restores it with [..._deserialize]
    before it scans again from there, and compares two states by their bytes.
    [ScannerCodec] states what that needs: the bytes are a function of the
    abstract state alone, and restoring them gives back a state that stands for
    the same abstract state, whatever state is overwritten. *)

From S2P Require Import Prelude.

Definition SERIALIZATION_BUFFER_SIZE : nat := 1024.

(** [R s a]: the scanner state [s] stands for the abstract state [a];
    [ok a]: the abstract state is one the scanner may be asked to save. *)
Class ScannerCodec {S A : Type} (R : S → A → Prop) (ok : A → Prop)
    (serialize : S → outcome (list Z)) (deserialize : S → list Z → outcome S) := {
  encode : A → list Z;
  codec_fits a : ok a → (length (encode a) ≤ SERIALIZATION_BUFFER_SIZE)%nat;
  codec_serialize s a : R s a → ok a → serialize s = Done (encode a);
  codec_deserialize s0 a0 a : R s0 a0 → ok a →
    ∃ s, deserialize s0 (encode a) = Done s ∧ R s a;
  codec_functional s a1 a2 : R s a1 → R s a2 → a1 = a2;
}.

Section codec.
Context {S A : Type} {R : S → A → Prop} {ok : A → Prop}
  {serialize : S → outcome (list Z)} {deserialize : S → list Z → outcome S}.
Context `{HC : !ScannerCodec R ok serialize deserialize}.

(** Saving and restoring gives the same abstract state. *)
Lemma codec_roundtrip s a s0 a0 : R s a → ok a → R s0 a0 →
  ∃ buffer s', serialize s = Done buffer
    ∧ (length buffer ≤ SERIALIZATION_BUFFER_SIZE)%nat
    ∧ deserialize s0 buffer = Done s' ∧ R s' a.
Proof.
  intros Hs Ha H0. destruct (codec_deserialize s0 a0 a H0 Ha) as (s'&?&?).
  exists (encode a), s'. split_and!; auto using codec_serialize, codec_fits.
Qed.

(** The same bytes restore it on top of every other state. *)
Lemma codec_restores s a : R s a → ok a →
  ∃ buffer, serialize s = Done buffer ∧ (length buffer ≤ SERIALIZATION_BUFFER_SIZE)%nat
    ∧ ∀ s0 a0, R s0 a0 → ∃ s', deserialize s0 buffer = Done s' ∧ R s' a.
Proof.
  intros Hs Ha. exists (encode a). split_and!; [by apply codec_serialize|by apply codec_fits|].
  intros s0 a0 H0. by eapply codec_deserialize.
Qed.

(** The runtime may compare states by their bytes. *)
Lemma codec_injective s1 a1 s2 a2 buffer : R s1 a1 → R s2 a2 → ok a1 → ok a2 →
  serialize s1 = Done buffer → serialize s2 = Done buffer → a1 = a2.
Proof.
  intros H1 H2 Ho1 Ho2 E1 E2.
  pose proof (codec_serialize s1 a1 H1 Ho1) as He1.
  pose proof (codec_serialize s2 a2 H2 Ho2) as He2.
  assert (encode a1 = encode a2) as He by congruence.
  destruct (codec_deserialize s1 a1 a1 H1 Ho1) as (s&Hs&Hr1).
  destruct (codec_deserialize s1 a1 a2 H1 Ho2) as (s'&Hs'&Hr2).
  rewrite <- He, Hs in Hs'. injection Hs' as <-. by eapply codec_functional.
Qed.

(** Restoring what was saved and saving again gives the same bytes. *)
Lemma codec_stable s a s0 a0 s' buffer : R s a → ok a → R s0 a0 →
  serialize s = Done buffer → deserialize s0 buffer = Done s' →
  serialize s' = Done buffer.
Proof.
  intros Hs Ha H0 E1 E2. pose proof (codec_serialize s a Hs Ha) as He.
  destruct (codec_deserialize s0 a0 a H0 Ha) as (s2&Hd&Hs2).
  assert (buffer = encode a) as -> by congruence. assert (s' = s2) as -> by congruence.
  by apply codec_serialize.
Qed.
End codec.
