(* ===== verification/Scan.v ===== *)
(** * The scanner interface of [tree_sitter/parser.h] and its program logic

    - [TSLexer]: the operations of the [TSLexer] struct of [parser.h] that
      the tree-sitter runtime implements (that runtime is not in the
      repository, so it is a parameter); [TSLexerSpec]: what their
      documentation promises, as laws on an abstract [view] of the input.
    - [WCType]: the character classes of [<wctype.h>], whose values outside
      ASCII depend on the locale.
    - [M]: the monad in which the scanners are written (state passing, early
      failure, a fuel bound for loops), with [iter] and [while_].
    - [wp]: total-correctness weakest preconditions on views, with one rule
      per construct; [Reads]: a class that finds by instance search that a
      scanner function terminates and only moves forward. *)

From S2P Require Import Prelude.

(** ** The lexer given to a scanner *)

(** The function pointers of [struct TSLexer], over the runtime's state [L].
    The two data fields are [lookahead], which the runtime keeps up to date,
    and [result_symbol], which belongs to the scanner (see [st]). *)
Class TSLexer (L : Type) := {
  lookahead_of : L → Z;
  advance_of : L → bool → L;
  mark_end_of : L → L;
  get_column_of : L → Z;
  is_at_included_range_start_of : L → bool;
  eof_of : L → bool;
}.

(** What the documentation of the external scanner interface lets a scanner
    know about the lexer: the characters already consumed (latest first),
    those to come, the position where the token text starts (moved by
    [advance(lexer, true)]) and the position fixed by the last [mark_end]. *)
Record view := mkview {
  v_past : list Z;
  v_rest : list Z;
  v_start : nat;
  v_end : option nat;
}.

Definition v_pos (v : view) : nat := length (v_past v).
Definition rem (v : view) : nat := length (v_rest v).
(** The character at the cursor, 0 at the end of the input. *)
Definition look (v : view) : Z := hd 0 (v_rest v).
Definition at_eof (v : view) : bool :=
  match v_rest v with [] => true | _ => false end.

Definition adv (skip : bool) (v : view) : view :=
  match v_rest v with
  | [] => v
  | c :: r =>
      {| v_past := c :: v_past v; v_rest := r;
         v_start := if skip then S (v_pos v) else v_start v;
         v_end := v_end v |}
  end.

Definition mark (v : view) : view :=
  {| v_past := v_past v; v_rest := v_rest v;
     v_start := v_start v; v_end := Some (v_pos v) |}.

(** Number of characters since the last line feed. *)
Fixpoint column (past : list Z) : nat :=
  match past with
  | [] => 0
  | c :: p => if c =? LF then 0%nat else S (column p)
  end.

(** The laws of the lexer: every observation is determined by the view, and
    every operation moves the view as documented. *)
Class TSLexerSpec (L : Type) `{!TSLexer L} := {
  view_of : L → view;
  view_lookahead l : lookahead_of l = look (view_of l);
  view_advance l skip : view_of (advance_of l skip) = adv skip (view_of l);
  view_mark_end l : view_of (mark_end_of l) = mark (view_of l);
  view_eof l : eof_of l = at_eof (view_of l);
  view_column l : get_column_of l = Z.of_nat (column (v_past (view_of l)));
}.

(** The reference lexer, over the view itself, with no included ranges. *)
#[export] Instance list_lexer : TSLexer view := {|
  lookahead_of := look;
  advance_of := λ v skip, adv skip v;
  mark_end_of := mark;
  get_column_of := λ v, Z.of_nat (column (v_past v));
  is_at_included_range_start_of := λ _, false;
  eof_of := at_eof;
|}.

#[export] Instance list_lexer_spec : TSLexerSpec view := {|
  view_of := λ v, v;
  view_lookahead _ := eq_refl;
  view_advance _ _ := eq_refl;
  view_mark_end _ := eq_refl;
  view_eof _ := eq_refl;
  view_column _ := eq_refl;
|}.

(** A lexer at the start of the input [s]. *)
Definition input (s : list Z) : view := mkview [] s 0 None.

(** The text of the token the runtime builds when the scanner returns
    [true]: from the start to the mark, or to the cursor without a mark. *)
Definition token_end (v : view) : nat := default (v_pos v) (v_end v).
Definition text (v : view) : list Z := rev (v_past v) ++ v_rest v.
Definition token_text (v : view) : list Z :=
  drop (v_start v) (take (token_end v) (text v)).

(** ** Character classes of [<wctype.h>] *)

Definition ascii_upper (c : Z) : bool := (65 <=? c) && (c <=? 90).
Definition ascii_lower (c : Z) : bool := (97 <=? c) && (c <=? 122).
Definition ascii_digit (c : Z) : bool := (48 <=? c) && (c <=? 57).
Definition ascii_space (c : Z) : bool := (c =? 32) || ((9 <=? c) && (c <=? 13)).

(** The classes are fixed on ASCII by the C standard; elsewhere they depend on
    the locale, so the model only keeps their values there abstract. *)
Class WCType := {
  iswspace : Z → bool;
  iswalpha : Z → bool;
  iswlower : Z → bool;
  iswupper : Z → bool;
  iswdigit : Z → bool;
  iswspace_ascii c : 0 ≤ c < 128 → iswspace c = ascii_space c;
  iswlower_ascii c : 0 ≤ c < 128 → iswlower c = ascii_lower c;
  iswupper_ascii c : 0 ≤ c < 128 → iswupper c = ascii_upper c;
  iswalpha_ascii c : 0 ≤ c < 128 → iswalpha c = ascii_upper c || ascii_lower c;
  iswdigit_ascii c : iswdigit c = ascii_digit c;
}.

Definition iswalnum `{!WCType} (c : Z) : bool := iswalpha c || iswdigit c.

(** The "C" locale. *)
#[export] Instance c_locale : WCType.
Proof.
  by refine {| iswspace := ascii_space; iswlower := ascii_lower;
    iswupper := ascii_upper; iswdigit := ascii_digit;
    iswalpha := λ c, ascii_upper c || ascii_lower c |}.
Defined.

Lemma iswspace_nul `{!WCType} : iswspace 0 = false.
Proof. by rewrite iswspace_ascii. Qed.
Lemma iswalpha_nul `{!WCType} : iswalpha 0 = false.
Proof. by rewrite iswalpha_ascii. Qed.
Lemma iswlower_nul `{!WCType} : iswlower 0 = false.
Proof. by rewrite iswlower_ascii. Qed.
Lemma iswalnum_nul `{!WCType} : iswalnum 0 = false.
Proof. unfold iswalnum. by rewrite iswalpha_nul, iswdigit_ascii. Qed.

(** ** The scanner monad *)

(** The state of a scan: the runtime's lexer, the field [result_symbol], and
    the scanner's payload. *)
Record st (L S : Type) := mkst { lex : L; sym : Z; pay : S }.
Arguments mkst {L S} lex sym pay.
Arguments lex {L S} s.
Arguments sym {L S} s.
Arguments pay {L S} s.

(** A computation takes the bound of the loops it runs and a state. *)
Definition M (L S A : Type) : Type := nat → st L S → outcome (A * st L S).

Section monad.
Context {L S : Type} {HL : TSLexer L}.

Definition ret {A} (a : A) : M L S A := λ _ s, Done (a, s).

Definition bind {A B} (m : M L S A) (k : A → M L S B) : M L S B := λ n s,
  match m n s with
  | Done (a, s') => k a n s'
  | OutOfFuel => OutOfFuel
  | Aborted => Aborted
  | Undefined => Undefined
  end.

Definition abort {A} : M L S A := λ _ _, Aborted.
Definition undefined {A} : M L S A := λ _ _, Undefined.

Definition lookahead : M L S Z := λ _ s, Done (lookahead_of (lex s), s).
Definition advance_ (skip : bool) : M L S unit := λ _ s,
  Done (tt, mkst (advance_of (lex s) skip) (sym s) (pay s)).
Definition mark_end : M L S unit := λ _ s,
  Done (tt, mkst (mark_end_of (lex s)) (sym s) (pay s)).
Definition eof : M L S bool := λ _ s, Done (eof_of (lex s), s).
Definition get_column : M L S Z := λ _ s, Done (get_column_of (lex s), s).
Definition is_at_included_range_start : M L S bool := λ _ s,
  Done (is_at_included_range_start_of (lex s), s).
Definition get_symbol : M L S Z := λ _ s, Done (sym s, s).
Definition set_symbol (z : Z) : M L S unit := λ _ s,
  Done (tt, mkst (lex s) z (pay s)).
Definition get_payload : M L S S := λ _ s, Done (pay s, s).
Definition set_payload (p : S) : M L S unit := λ _ s,
  Done (tt, mkst (lex s) (sym s) p).

(** Code that only touches the payload. *)
Definition lift {A} (o : outcome A) : M L S A := λ _ s,
  let? a := o in Done (a, s).

Definition when (b : bool) (m : M L S unit) : M L S unit :=
  if b then m else ret tt.

(** A loop whose locals are [B]: the body returns the next locals or the
    value the loop ends with. Every loop may run as many rounds as the
    bound of the whole computation. *)
Fixpoint iter_fuel {A B} (k : nat) (body : B → M L S (B + A)) (b : B)
  : M L S A :=
  match k with
  | O => λ _ _, OutOfFuel
  | Datatypes.S k' => bind (body b) (λ r,
      match r with
      | inl b' => iter_fuel k' body b'
      | inr a => ret a
      end)
  end.

Definition iter {A B} (body : B → M L S (B + A)) (b : B) : M L S A :=
  λ n s, iter_fuel n body b n s.
End monad.

Declare Scope scan_scope.
Delimit Scope scan_scope with scan.
Notation "x <- m ;; k" := (bind m (λ x, k))
  (at level 100, m at next level, right associativity) : scan_scope.
Notation "m ;; k" := (bind m (λ _, k))
  (at level 100, right associativity) : scan_scope.
#[global] Open Scope scan_scope.

Section control.
Context {L S : Type} {HL : TSLexer L}.

Definition while_ (cond : M L S bool) (body : M L S unit) : M L S unit :=
  iter (λ _ : unit,
    c <- cond;; if c then body;; ret (inl tt) else ret (inr tt)) tt.

(** [while (p(lexer->lookahead)) lexer->advance(lexer, skip);] *)
Definition while_look (p : Z → bool) (skip : bool) : M L S unit :=
  while_ (c <- lookahead;; ret (p c)) (advance_ skip).
End control.
