(* ===== verification/Logic.v ===== *)
(** * Program logic of the scanner monad

    Facts on views, the weakest precondition [wp] with one rule per construct,
    the loop rules, and the class [Reads] of the computations that terminate
    without fault and only move forward in the input. *)

From S2P Require Import Prelude Scan.

(** ** Views *)

(** A view is well formed when the token bounds lie in what was consumed. *)
Definition wf_view (v : view) : Prop :=
  (v_start v ≤ v_pos v)%nat ∧ (token_end v ≤ v_pos v)%nat.

(** [v'] is reached from [v] by reading: the same input, a later position. *)
Definition advanced (v v' : view) : Prop :=
  text v' = text v ∧ (v_pos v ≤ v_pos v')%nat ∧ (wf_view v → wf_view v').

#[export] Instance advanced_preorder : PreOrder advanced.
Proof.
  split.
  - by intros v.
  - intros v1 v2 v3 (?&?&?) (?&?&?). split_and!; [congruence|lia|auto].
Qed.

Lemma length_text v : length (text v) = (v_pos v + rem v)%nat.
Proof. unfold text, v_pos, rem. by rewrite length_app, length_rev. Qed.

Lemma advanced_rem v v' : advanced v v' → (rem v' ≤ rem v)%nat.
Proof.
  intros (Ht&Hp&_). pose proof (length_text v). pose proof (length_text v').
  rewrite Ht in *. lia.
Qed.

Lemma advanced_adv sk v : advanced v (adv sk v).
Proof.
  destruct v as [p [|c r] b e]; [done|].
  unfold advanced, wf_view, text, token_end, adv, v_pos; simpl. unfold v_pos; simpl.
  rewrite <- app_assoc. split_and!; [done|lia|intros [??]].
  destruct sk, e; simpl in *; lia.
Qed.

Lemma advanced_mark v : advanced v (mark v).
Proof.
  destruct v as [p r b e]. unfold advanced, wf_view, text, token_end, mark, v_pos; simpl.
  unfold v_pos; simpl. split_and!; [done|lia|intros [??]]. destruct e; simpl in *; lia.
Qed.

Lemma rem_adv sk v : rem (adv sk v) = pred (rem v).
Proof. by destruct v as [p [|c r] b e]. Qed.

Lemma rem_mark v : rem (mark v) = rem v.
Proof. done. Qed.

Lemma look_mark v : look (mark v) = look v.
Proof. done. Qed.

Lemma v_pos_adv sk v : (0 < rem v)%nat → v_pos (adv sk v) = S (v_pos v).
Proof. destruct v as [p [|c r] b e]; cbn; [lia|done]. Qed.

Lemma rest_cons v : (0 < rem v)%nat → v_rest v = look v :: tail (v_rest v).
Proof. destruct v as [p [|c r] b e]; cbn; [lia|done]. Qed.

Lemma rest_mark v : v_rest (mark v) = v_rest v.
Proof. done. Qed.

Lemma look_adv_mark sk v : look (adv sk (mark v)) = look (adv sk v).
Proof. by destruct v as [p [|c r] b e]. Qed.

Lemma v_rest_adv_mark sk v : v_rest (adv sk (mark v)) = v_rest (adv sk v).
Proof. by destruct v as [p [|c r] b e]. Qed.

Lemma look_adv v sk : look (adv sk v) = hd 0 (tail (v_rest v)).
Proof. by destruct v as [p [|c r] b e]. Qed.

Lemma v_end_mark v : v_end (mark v) = Some (v_pos v).
Proof. done. Qed.

Lemma look_pos v : look v ≠ 0 → (0 < rem v)%nat.
Proof. destruct v as [p [|c r] b e]; [done|]. cbn. lia. Qed.

Lemma not_eof_pos v : at_eof v = false → (0 < rem v)%nat.
Proof. destruct v as [p [|c r] b e]; [done|]. cbn. lia. Qed.

Lemma at_eof_look v : at_eof v = true → look v = 0.
Proof. by destruct v as [p [|c r] b e]. Qed.

Lemma at_eof_rem v : at_eof v = true ↔ rem v = 0%nat.
Proof. by destruct v as [p [|c r] b e]. Qed.

(** [n] advances. *)
Definition adv_n (sk : bool) (n : nat) (v : view) : view := Nat.iter n (adv sk) v.

Lemma adv_n_S sk n v : adv_n sk (S n) v = adv_n sk n (adv sk v).
Proof. unfold adv_n. by rewrite Nat.iter_succ_r. Qed.

Lemma rest_adv sk v : v_rest (adv sk v) = tail (v_rest v).
Proof. by destruct v as [p [|c r] b e]. Qed.

Lemma rest_adv_n sk n v : v_rest (adv_n sk n v) = drop n (v_rest v).
Proof.
  revert v. induction n as [|n IH]; intros v; [done|].
  rewrite adv_n_S, IH, rest_adv. destruct (v_rest v); [by destruct n|done].
Qed.

Lemma look_adv_n sk n v : look (adv_n sk n v) = nth n (v_rest v) 0.
Proof.
  unfold look. rewrite rest_adv_n. generalize (v_rest v) as l.
  induction n as [|n IH]; intros [|c l]; try done. apply IH.
Qed.

Lemma advanced_adv_n sk n v : advanced v (adv_n sk n v).
Proof.
  revert v. induction n as [|n IH]; intros v; [done|].
  rewrite adv_n_S. etrans; [apply advanced_adv|apply IH].
Qed.

Lemma drop_S_tail {A} k (l : list A) : drop (S k) l = drop k (tail l).
Proof. destruct l; [by destruct k|done]. Qed.

(** Longest prefix, and the view after it, whose characters satisfy [p]. *)
Fixpoint span (p : Z → bool) (l : list Z) : nat :=
  match l with
  | c :: l' => if p c then S (span p l') else 0%nat
  | [] => 0%nat
  end.

Definition adv_span (p : Z → bool) (sk : bool) (v : view) : view :=
  adv_n sk (span p (v_rest v)) v.

Lemma v_pos_adv_n sk n v : (n ≤ rem v)%nat → v_pos (adv_n sk n v) = (v_pos v + n)%nat.
Proof.
  revert v; induction n as [|n IH]; intros v Hn; [cbn; lia|].
  rewrite adv_n_S, IH by (rewrite rem_adv; lia). rewrite v_pos_adv; lia.
Qed.

Lemma span_length p l : (span p l ≤ length l)%nat.
Proof. induction l as [|c l IH]; simpl; [lia|]. destruct (p c); lia. Qed.

Lemma v_pos_adv_span p sk v :
  v_pos (adv_span p sk v) = (v_pos v + span p (v_rest v))%nat.
Proof. apply v_pos_adv_n, span_length. Qed.

Lemma span_S p l k : (k <= span p l)%nat → (k < length l)%nat →
  if p (hd 0 (drop k l)) then (S k <= span p l)%nat else span p l = k.
Proof.
  revert k. induction l as [|c l IH]; intros k Hk Hl; simpl in *; [lia|].
  destruct k as [|k]; simpl; [destruct (p c); lia|].
  destruct (p c); [|lia]. specialize (IH k ltac:(lia) ltac:(lia)).
  case_match; lia.
Qed.

Lemma span_app p l r : Forall (λ c, p c = true) l → span p (l ++ r) = (length l + span p r)%nat.
Proof. induction 1 as [|c l Hc _ IH]; simpl; [done|]. by rewrite Hc, IH. Qed.

Lemma take_span p l : Forall (λ c, p c = true) (take (span p l) l).
Proof.
  induction l as [|c l IH]; simpl; [constructor|]. destruct (p c) eqn:E; simpl; by constructor.
Qed.

Lemma hd_drop_span p l : p 0 = false ∨ (span p l < length l)%nat →
  p (hd 0 (drop (span p l) l)) = false.
Proof.
  induction l as [|c l IH]; simpl; [intros [?|?]; [done|lia]|].
  destruct (p c) eqn:E; simpl; [|done]. intros [?|?]; apply IH; [by left|right; lia].
Qed.

Lemma adv_n_add sk i j v : adv_n sk i (adv_n sk j v) = adv_n sk (i + j) v.
Proof. unfold adv_n. by rewrite Nat.iter_add. Qed.

Lemma adv_span_true p sk v : rem v ≠ 0%nat → p (look v) = true →
  adv_span p sk v = adv_span p sk (adv sk v).
Proof.
  destruct v as [pa [|c r] b e]; [done|]. intros _ Hp. unfold adv_span, look in *.
  simpl in *. by rewrite Hp, adv_n_S.
Qed.

Lemma adv_span_false p sk v : p (look v) = false → adv_span p sk v = v.
Proof.
  destruct v as [pa [|c r] b e]; [done|]. unfold adv_span, look; simpl.
  by intros ->.
Qed.

Lemma look_adv_span p sk v : p 0 = false → p (look (adv_span p sk v)) = false.
Proof.
  intros H0. unfold adv_span. rewrite look_adv_n.
  induction (v_rest v) as [|c r IH]; [done|]. simpl. by destruct (p c) eqn:Hp.
Qed.

Lemma advanced_adv_span p sk v : advanced v (adv_span p sk v).
Proof. apply advanced_adv_n. Qed.

Lemma v_end_adv sk v : v_end (adv sk v) = v_end v.
Proof. by destruct v as [p [|c r] b e]. Qed.

Lemma v_end_adv_n sk n v : v_end (adv_n sk n v) = v_end v.
Proof. revert v; induction n as [|n IH]; intros v; [done|]. by rewrite adv_n_S, IH, v_end_adv. Qed.

Lemma v_end_adv_span p sk v : v_end (adv_span p sk v) = v_end v.
Proof. apply v_end_adv_n. Qed.

(** ** Token texts *)

Lemma v_start_adv_n k v : v_start (adv_n false k v) = v_start v.
Proof. revert v; induction k as [|k IH]; intros v; [done|]. rewrite adv_n_S, IH. by destruct v as [p [|c r] b e]. Qed.

Lemma v_start_skip p v : v_start v = v_pos v → v_start (adv_span p true v) = v_pos (adv_span p true v).
Proof.
  unfold adv_span. generalize (span p (v_rest v)). intros n. revert v.
  induction n as [|n IH]; intros v Hv; [done|]. rewrite !adv_n_S. apply IH.
  by destruct v as [pa [|c r] b e].
Qed.

Lemma token_text_split v w k : v_start w = v_pos v → token_end w = (v_pos v + k)%nat →
  text w = text v → token_text w = take k (v_rest v).
Proof.
  intros Hs He Ht. unfold token_text. rewrite Hs, He, Ht. unfold text, v_pos.
  rewrite <- (length_rev (v_past v)), take_app_add', drop_app_length' by done. done.
Qed.

(** The token that was read from a cursor at its start, marked at its end. *)
Lemma token_text_mark k v : v_start v = v_pos v → (k ≤ rem v)%nat →
  token_text (mark (adv_n false k v)) = take k (v_rest v).
Proof.
  intros Hs Hk. apply token_text_split.
  - cbn [mark v_start]. by rewrite v_start_adv_n.
  - unfold token_end. cbn [mark v_end default]. by apply v_pos_adv_n.
  - change (text (mark ?w)) with (text w). apply advanced_adv_n.
Qed.

(** The same without a mark. *)
Lemma token_text_no_mark k v : v_start v = v_pos v → v_end v = None → (k ≤ rem v)%nat →
  token_text (adv_n false k v) = take k (v_rest v).
Proof.
  intros Hs He Hk. apply token_text_split.
  - by rewrite v_start_adv_n.
  - unfold token_end. rewrite v_end_adv_n, He. by apply v_pos_adv_n.
  - apply advanced_adv_n.
Qed.

Lemma rest_adv_span p sk v :
  v_rest (adv_span p sk v) = drop (span p (v_rest v)) (v_rest v).
Proof. apply rest_adv_n. Qed.

Create HintDb scan discriminated.
#[export] Hint Resolve advanced_adv advanced_mark advanced_adv_n
  advanced_adv_span : scan.

Lemma adv_r sk v v' : advanced v v' → advanced v (adv sk v').
Proof. intros; etrans; eauto with scan. Qed.
Lemma mark_r v v' : advanced v v' → advanced v (mark v').
Proof. intros; etrans; eauto with scan. Qed.
Lemma adv_span_r p sk v v' : advanced v v' → advanced v (adv_span p sk v').
Proof. intros; etrans; eauto with scan. Qed.
Lemma advanced_mark_l v v' : advanced (mark v) v' → advanced v v'.
Proof. intros ?. etrans; [apply advanced_mark|done]. Qed.
Lemma advanced_adv_l sk v v' : advanced (adv sk v) v' → advanced v v'.
Proof. intros ?. etrans; [apply advanced_adv|done]. Qed.
Lemma advanced_refl v : advanced v v.
Proof. done. Qed.
#[export] Hint Resolve adv_r mark_r adv_span_r advanced_refl : scan.

(** The cursor of a call that has read nothing: the token starts there. *)
Definition at_start (v : view) : Prop := v_start v = v_pos v ∧ v_end v = None.

(** What is behind the white space at the head of a text. *)
Definition after_space `{!WCType} (rest : list Z) : list Z := drop (span iswspace rest) rest.

Lemma at_start_skip p v : at_start v → at_start (adv_span p true v).
Proof. intros [? ?]. split; [by apply v_start_skip|by rewrite v_end_adv_span]. Qed.

(** ** Weakest preconditions *)

Section wp.
Context {L S : Type} `{HS : TSLexerSpec L}.

Definition post (A : Type) : Type := A → view → Z → S → Prop.

(** [wp m n v y s Q]: from any lexer whose view is [v], with [y] in
    [result_symbol] and payload [s], the computation [m] with loop bound [n]
    ends without fault in a state that satisfies [Q]. *)
Definition wp {A} (m : M L S A) (n : nat) (v : view) (y : Z) (s : S)
    (Q : post A) : Prop :=
  ∀ l, view_of l = v →
    match m n (mkst l y s) with
    | Done (a, t) => Q a (view_of (lex t)) (sym t) (pay t)
    | _ => False
    end.

Lemma wp_run {A} (m : M L S A) n l y s Q :
  wp m n (view_of l) y s Q →
  ∃ a l' y' s', m n (mkst l y s) = Done (a, mkst l' y' s')
    ∧ Q a (view_of l') y' s'.
Proof.
  intros H. specialize (H l eq_refl).
  destruct (m n (mkst l y s)) as [[a [l' y' s']]| | |]; [|done..].
  by exists a, l', y', s'.
Qed.

Lemma wp_done {A} (m : M L S A) n l y s Q a l' y' s' :
  wp m n (view_of l) y s Q →
  m n (mkst l y s) = Done (a, mkst l' y' s') → Q a (view_of l') y' s'.
Proof. intros H Hrun. specialize (H l eq_refl). by rewrite Hrun in H. Qed.

Lemma wp_mono {A} (m : M L S A) n v y s (P Q : post A) :
  wp m n v y s P → (∀ a v' y' s', P a v' y' s' → Q a v' y' s') →
  wp m n v y s Q.
Proof.
  intros H HPQ l Hl. specialize (H l Hl).
  destruct (m n _) as [[a t]| | |]; auto.
Qed.

Lemma wp_ret {A} (a : A) n v y s (Q : post A) :
  Q a v y s → wp (ret a) n v y s Q.
Proof. intros H l <-. done. Qed.

Lemma wp_bind {A B} (m : M L S A) (k : A → M L S B) n v y s (Q : post B) :
  wp m n v y s (λ a v' y' s', wp (k a) n v' y' s' Q) →
  wp (bind m k) n v y s Q.
Proof.
  intros H l Hl. specialize (H l Hl). unfold bind.
  destruct (m n _) as [[a [l' y' s']]| | |]; [|done..].
  apply (H l'). done.
Qed.

Lemma wp_lookahead n v y s Q :
  Q (look v) v y s → wp lookahead n v y s Q.
Proof. intros H l <-. cbn. by rewrite view_lookahead. Qed.

Lemma wp_advance sk n v y s Q :
  Q tt (adv sk v) y s → wp (advance_ sk) n v y s Q.
Proof. intros H l <-. cbn. by rewrite view_advance. Qed.

Lemma wp_mark_end n v y s Q :
  Q tt (mark v) y s → wp mark_end n v y s Q.
Proof. intros H l <-. cbn. by rewrite view_mark_end. Qed.

Lemma wp_eof n v y s Q :
  Q (at_eof v) v y s → wp eof n v y s Q.
Proof. intros H l <-. cbn. by rewrite view_eof. Qed.

Lemma wp_get_column n v y s Q :
  Q (Z.of_nat (column (v_past v))) v y s → wp get_column n v y s Q.
Proof. intros H l <-. cbn. by rewrite view_column. Qed.

Lemma wp_range_start n v y s Q :
  (∀ b, Q b v y s) → wp is_at_included_range_start n v y s Q.
Proof. intros H l <-. cbn. apply H. Qed.

Lemma wp_get_symbol n v y s Q : Q y v y s → wp get_symbol n v y s Q.
Proof. by intros H l <-. Qed.
Lemma wp_set_symbol z n v y s Q : Q tt v z s → wp (set_symbol z) n v y s Q.
Proof. by intros H l <-. Qed.
Lemma wp_get_payload n v y s Q : Q s v y s → wp get_payload n v y s Q.
Proof. by intros H l <-. Qed.
Lemma wp_set_payload p n v y s Q : Q tt v y p → wp (set_payload p) n v y s Q.
Proof. by intros H l <-. Qed.

Lemma wp_lift {A} (o : outcome A) a n v y s (Q : post A) :
  o = Done a → Q a v y s → wp (lift o) n v y s Q.
Proof. by intros -> H l <-. Qed.

(** The loop rule: an invariant on locals and state, and a measure that
    every round decreases and that starts below the bound. *)
Lemma wp_iter {A B} (I : B → view → Z → S → Prop) (μ : B → view → nat)
    (body : B → M L S (B + A)) b n v y s (Q : post A) :
  (∀ b v y s, I b v y s →
    wp (body b) n v y s (λ r v' y' s',
      match r with
      | inl b' => I b' v' y' s' ∧ (μ b' v' < μ b v)%nat
      | inr a => Q a v' y' s'
      end)) →
  I b v y s → (μ b v < n)%nat → wp (iter body b) n v y s Q.
Proof.
  intros Hbody HI Hμ. cut (∀ k, (μ b v < k)%nat → wp (iter_fuel k body b) n v y s Q).
  { intros H. apply (H n Hμ). }
  clear Hμ. intros k. revert b v y s HI. induction k as [|k IH]; intros b v y s HI Hμ; [lia|].
  apply wp_bind. eapply wp_mono; [by apply Hbody|].
  intros [b'|a] v' y' s'; [|by apply wp_ret].
  intros [HI' Hlt]. apply IH; [done|lia].
Qed.

(** Scanning over the characters of a class is [adv_span]. *)
Lemma wp_while_look p sk n v y s (Q : post unit) :
  p 0 = false → (rem v < n)%nat →
  Q tt (adv_span p sk v) y s → wp (while_look p sk) n v y s Q.
Proof.
  intros H0 Hn HQ. unfold while_look, while_.
  apply (wp_iter (λ _ v' y' s', adv_span p sk v' = adv_span p sk v ∧ y' = y ∧ s' = s)
           (λ _ v', rem v')); [|done|done].
  intros [] v1 y1 s1 (Hv&->&->). apply wp_bind, wp_bind, wp_lookahead, wp_ret.
  destruct (p (look v1)) eqn:Hp.
  - assert (0 < rem v1)%nat as Hr by (apply look_pos; intros E; congruence).
    apply wp_bind, wp_advance, wp_ret. rewrite rem_adv, <- adv_span_true by (done || lia).
    repeat split; [done|lia].
  - apply wp_ret. by rewrite <- (adv_span_false p sk v1), Hv.
Qed.
End wp.

Arguments wp : simpl never.
#[global] Opaque wp.

(** ** Computations that only move forward *)

(** [p] rejects 0, so a loop on [p] stops at the end of the input. *)
Class StopsAtEof (p : Z → bool) : Prop := stops_at_eof : p 0 = false.
#[export] Hint Extern 0 (StopsAtEof _) => reflexivity : typeclass_instances.
#[export] Instance stops_iswspace `{!WCType} : StopsAtEof iswspace := iswspace_nul.
#[export] Instance stops_iswalnum `{!WCType} : StopsAtEof iswalnum := iswalnum_nul.
#[export] Instance stops_iswlower `{!WCType} : StopsAtEof iswlower := iswlower_nul.
#[export] Instance stops_orb p q : StopsAtEof p → StopsAtEof q →
  StopsAtEof (λ c, p c || q c).
Proof. unfold StopsAtEof. by intros -> ->. Qed.

(** [Reads I m]: with a loop bound above the remaining input and a payload in
    [I], [m] ends without fault, moves forward, and keeps the payload in [I]. *)
Class Reads {L S : Type} `{HS : TSLexerSpec L} (I : S → Prop) {A} (m : M L S A) : Prop :=
  reads n v y s : (rem v < n)%nat → I s →
    wp m n v y s (λ _ v' _ s', advanced v v' ∧ I s').

(** The same for the body of a loop, which must consume when it continues. *)
Class Progress {L S : Type} `{HS : TSLexerSpec L} (I : S → Prop) {A B}
    (m : M L S (B + A)) : Prop :=
  progresses n v y s : (rem v < n)%nat → I s →
    wp m n v y s (λ r v' _ s', advanced v v' ∧ I s'
      ∧ match r with inl _ => (rem v' < rem v)%nat | inr _ => True end).

Section reads.
Context {L S : Type} `{HS : TSLexerSpec L} (I : S → Prop).

#[export] Instance reads_ret {A} (a : A) : Reads I (ret a).
Proof. intros n v y s Hn Hs. by apply wp_ret. Qed.

#[export] Instance reads_bind {A B} (m : M L S A) (k : A → M L S B) :
  Reads I m → (∀ a, Reads I (k a)) → Reads I (bind m k).
Proof.
  intros Hm Hk n v y s Hn Hs. apply wp_bind. eapply wp_mono; [by apply Hm|].
  intros a v' y' s' [Ha Hs']. pose proof (advanced_rem _ _ Ha).
  eapply wp_mono; [apply Hk; [lia|done]|].
  intros b v2 y2 s2 [Hb Hs2]. split; [by etrans|done].
Qed.

#[export] Instance reads_if {A} (b : bool) (m1 m2 : M L S A) :
  Reads I m1 → Reads I m2 → Reads I (if b then m1 else m2).
Proof. by destruct b. Qed.

#[export] Instance reads_when b (m : M L S unit) : Reads I m → Reads I (when b m).
Proof. intros ?. unfold when. apply _. Qed.

#[export] Instance reads_match_option {A B} (o : option B) (f : B → M L S A) g :
  (∀ b, Reads I (f b)) → Reads I g →
  Reads I (match o with Some b => f b | None => g end).
Proof. by destruct o. Qed.

#[export] Instance reads_lookahead : Reads I lookahead.
Proof. intros n v y s Hn Hs. by apply wp_lookahead. Qed.
#[export] Instance reads_advance sk : Reads I (advance_ sk).
Proof. intros n v y s Hn Hs. apply wp_advance. auto with scan. Qed.
#[export] Instance reads_mark_end : Reads I mark_end.
Proof. intros n v y s Hn Hs. apply wp_mark_end. auto with scan. Qed.
#[export] Instance reads_eof : Reads I eof.
Proof. intros n v y s Hn Hs. by apply wp_eof. Qed.
#[export] Instance reads_get_column : Reads I get_column.
Proof. intros n v y s Hn Hs. by apply wp_get_column. Qed.
#[export] Instance reads_range_start : Reads I is_at_included_range_start.
Proof. intros n v y s Hn Hs. by apply wp_range_start. Qed.
#[export] Instance reads_get_symbol : Reads I get_symbol.
Proof. intros n v y s Hn Hs. by apply wp_get_symbol. Qed.
#[export] Instance reads_get_payload : Reads I get_payload.
Proof. intros n v y s Hn Hs. by apply wp_get_payload. Qed.
#[export] Instance reads_set_symbol z : Reads I (set_symbol z).
Proof. intros n v y s Hn Hs. by apply wp_set_symbol. Qed.

#[export] Instance reads_while_look p sk :
  StopsAtEof p → Reads I (while_look p sk).
Proof. intros Hp n v y s Hn Hs. apply wp_while_look; auto with scan. Qed.

#[export] Instance reads_iter {A B} (body : B → M L S (B + A)) b :
  (∀ b, Progress I (body b)) → Reads I (iter body b).
Proof.
  intros Hbody n v y s Hn Hs.
  apply (wp_iter (λ _ v' _ s', advanced v v' ∧ I s') (λ _ v', rem v')); [|done..].
  clear b. intros b v1 y1 s1 [Ha Hs1]. pose proof (advanced_rem _ _ Ha).
  eapply wp_mono; [apply Hbody; [lia|done]|].
  intros [b'|a] v2 y2 s2 (Ha2&Hs2&Hr); (split; [|done]); [split; [by etrans|done]|by etrans].
Qed.
End reads.

(** ** Automation *)

(** Steps a component adds for its own primitives. *)
Ltac wp_hook := fail.

(** One step of symbolic execution of a [wp] goal. *)
Ltac wp_step :=
  lazymatch goal with
  | |- wp (bind _ _) _ _ _ _ _ => apply wp_bind
  | |- wp (ret _) _ _ _ _ _ => apply wp_ret
  | |- wp lookahead _ _ _ _ _ => apply wp_lookahead
  | |- wp (advance_ _) _ _ _ _ _ => apply wp_advance
  | |- wp mark_end _ _ _ _ _ => apply wp_mark_end
  | |- wp eof _ _ _ _ _ => apply wp_eof
  | |- wp get_column _ _ _ _ _ => apply wp_get_column
  | |- wp get_symbol _ _ _ _ _ => apply wp_get_symbol
  | |- wp (set_symbol _) _ _ _ _ _ => apply wp_set_symbol
  | |- wp get_payload _ _ _ _ _ => apply wp_get_payload
  | |- wp (set_payload _) _ _ _ _ _ => apply wp_set_payload
  | |- wp (when _ _) _ _ _ _ _ => unfold when
  | |- wp (if ?b then _ else _) _ _ _ _ _ =>
      match goal with
      | H : b = _ |- _ => rewrite H; cbv iota
      | _ => let E := fresh "E" in destruct b eqn:E
      end
  | |- wp _ _ _ _ _ _ => wp_hook
  end.

Ltac wps := repeat (wp_step; cbv beta).

(** Facts on the remaining input from the tests made on the current view. *)
Lemma rem_adv_le sk v : (rem (adv sk v) ≤ rem v)%nat.
Proof. rewrite rem_adv. lia. Qed.
Lemma rem_adv_lt sk v : (0 < rem v)%nat → (rem (adv sk v) < rem v)%nat.
Proof. rewrite rem_adv. lia. Qed.
Lemma rem_adv_span_le p sk v : (rem (adv_span p sk v) ≤ rem v)%nat.
Proof. apply advanced_rem. auto with scan. Qed.
Lemma look_eqb_pos v k : (look v =? k) = true → k ≠ 0 → (0 < rem v)%nat.
Proof. intros ?%Z.eqb_eq ?. apply look_pos. congruence. Qed.
Lemma look_class_pos (p : Z → bool) `{Hp : !StopsAtEof p} v :
  p (look v) = true → (0 < rem v)%nat.
Proof. intros H. apply look_pos. intros E. rewrite E, Hp in H. done. Qed.
Lemma look_char_pos v : (to_char (look v) =? 0) = false → (0 < rem v)%nat.
Proof. intros H. apply look_pos. intros E. by rewrite E in H. Qed.
Lemma look_char_eqb_pos v k : (to_char (look v) =? k) = true → k ≠ 0 → (0 < rem v)%nat.
Proof. intros H%Z.eqb_eq Hk. apply look_pos. intros E. rewrite E in H. by subst k. Qed.
Create Rewrite HintDb view.
#[export] Hint Rewrite rem_adv rem_mark look_mark : view.

(** The remaining input and the mark of a view, from those of the first one. *)
Create Rewrite HintDb rest.
#[export] Hint Rewrite rest_mark v_end_mark v_end_adv v_end_adv_n v_end_adv_span rest_adv rest_adv_n
  rest_adv_span : rest.

Ltac look_facts :=
  repeat match goal with
  | H : _ && _ = true |- _ => apply andb_true_iff in H as [? ?]
  | H : _ || _ = false |- _ => apply orb_false_iff in H as [? ?]
  | H : _ || _ = true |- _ => apply orb_true_iff in H as [?|?]
  | H : negb _ = true |- _ => apply negb_true_iff in H
  | H : negb _ = false |- _ => apply negb_false_iff in H
  | H : (look ?v =? ?k) = true |- _ =>
      lazymatch goal with
      | _ : (0 < rem v)%nat |- _ => fail
      | _ => assert (0 < rem v)%nat by (apply (look_eqb_pos v k H); done)
      end
  | H : (look ?v =? 0) = false |- _ =>
      lazymatch goal with
      | _ : (0 < rem v)%nat |- _ => fail
      | _ => assert (0 < rem v)%nat by (apply look_pos, Z.eqb_neq, H)
      end
  | H : (to_char (look ?v) =? 0) = false |- _ =>
      lazymatch goal with
      | _ : (0 < rem v)%nat |- _ => fail
      | _ => assert (0 < rem v)%nat by (apply look_char_pos, H)
      end
  | H : (to_char (look ?v) =? ?k) = true |- _ =>
      lazymatch goal with
      | _ : (0 < rem v)%nat |- _ => fail
      | _ => assert (0 < rem v)%nat by (apply (look_char_eqb_pos v k H); done)
      end
  | H : at_eof ?v = false |- _ =>
      lazymatch goal with
      | _ : (0 < rem v)%nat |- _ => fail
      | _ => assert (0 < rem v)%nat by (apply not_eof_pos, H)
      end
  | H : ?p (look ?v) = true |- _ =>
      lazymatch goal with
      | _ : (0 < rem v)%nat |- _ => fail
      | _ => assert (0 < rem v)%nat by (apply (look_class_pos p v H))
      end
  end.

Ltac rem_tac :=
  look_facts; autorewrite with view in *; lia.

(** Bounds on the remaining input from the [advanced] facts at hand. *)
Ltac advanced_facts :=
  repeat match goal with
  | H : advanced ?v ?v' |- _ =>
      lazymatch goal with
      | _ : (rem v' ≤ rem v)%nat |- _ => fail
      | _ => pose proof (advanced_rem v v' H)
      end
  end.

Ltac rem_tac ::= look_facts; advanced_facts; autorewrite with view in *; lia.

(** A loop bound that was enough before reading is still enough. *)
Ltac fuel_tac :=
  match goal with
  | Hn : (rem ?v < ?n)%nat |- (rem ?v' < ?n)%nat =>
      apply (Nat.le_lt_trans _ (rem v));
      [apply advanced_rem; solve [auto 30 with scan]|exact Hn]
  end.

(** Run a call known to [Reads]: its result and final state are arbitrary. *)
Ltac wp_call :=
  lazymatch goal with
  | |- wp _ _ _ _ ?s _ =>
      match goal with
      | H : ?I s |- _ => eapply wp_mono; [apply (reads (I := I)); [rem_tac|exact H]|]
      end
  end;
  let a := fresh "a" in let v' := fresh "v" in let y' := fresh "y" in
  let s' := fresh "s" in intros a v' y' s' [? ?]; cbv beta.

(** [advanced] facts, by following the hypotheses backwards. *)
Ltac advanced_tac :=
  first
  [ assumption | reflexivity
  | match goal with
    | |- advanced _ (adv _ _) => apply adv_r; advanced_tac
    | |- advanced _ (mark _) => apply mark_r; advanced_tac
    | |- advanced _ (adv_span _ _ _) => apply adv_span_r; advanced_tac
    | H : advanced ?u ?w |- advanced _ ?w => transitivity u; [advanced_tac|exact H]
    end
  | solve [eauto 20 with scan] ].

(** Leaves of [Progress] and [Reads] goals. *)
Ltac reads_leaf :=
  split_and!; first [done | advanced_tac | rem_tac | idtac].

Ltac wp_reads := repeat first [wp_step; cbv beta | wp_call]; cbn [fst snd]; try reads_leaf.

(** A computation that [Reads] every invariant leaves the payload alone. *)
Lemma wp_keep {L S : Type} `{HS : TSLexerSpec L} {A} (m : M L S A) n v y s (Q : post A) :
  (∀ I : S → Prop, Reads I m) → (rem v < n)%nat →
  (∀ a v' y', advanced v v' → Q a v' y' s) → wp m n v y s Q.
Proof.
  intros Hm Hn HQ. eapply wp_mono; [by apply (Hm (eq s))|].
  intros a v' y' s' [? <-]. auto.
Qed.

Ltac keep :=
  eapply wp_keep; [intros ?; apply _|rem_tac|];
  let a := fresh "a" in let w := fresh "w" in intros a w ? ?; cbv beta.

(** The [Reads] instance of a loop whose body needs no other invariant. *)
Ltac reads_loop :=
  repeat lazymatch goal with
  | |- Reads _ (while_ _ _) => unfold while_
  | |- Reads _ (iter _ _) => apply reads_iter
  end;
  let n := fresh "n" in let v := fresh "v" in let y := fresh "y" in
  let s := fresh "s" in let Hn := fresh "Hn" in let Hs := fresh "Hs" in
  let b := fresh "b" in
  intros b n v y s Hn Hs; repeat (cbv beta; case_match); wp_reads.

(** Computes the views whose fields are known. *)
Ltac view_cbn :=
  cbn [adv mark look v_rest v_past v_start v_end v_pos hd tail rem length] in *;
  unfold v_pos, rem in *; cbn [v_past v_rest length] in *.
