(* ===== verification/Replay.v ===== *)
(** * Scanning from a restored state

    The runtime saves the payload with every token, and restores it to scan again
    from there when the text behind it was edited. That this gives the tokens of
    an uninterrupted scan needs more than a round trip: the scan function must not
    see which of the payloads that stand for an abstract state it runs on.
    [sim]: two computations agree, step by step, on related payloads. *)

From S2P Require Import Prelude CArray CArrayProofs Scan Codec.

Section sim.
Context {L S : Type} {HL : TSLexer L}.
Variable R : S → S → Prop.

(** The same result, lexer and symbol, and related payloads, when both end without
    a fault; that they do is shown by the termination of each scanner. *)
Definition related {A B} (T : A → B → Prop) (o1 : outcome (A * st L S)) (o2 : outcome (B * st L S)) : Prop :=
  match o1, o2 with
  | Done (a, σ1), Done (b, σ2) => T a b ∧ lex σ1 = lex σ2 ∧ sym σ1 = sym σ2 ∧ R (pay σ1) (pay σ2)
  | _, _ => True
  end.

Definition sim {A B} (T : A → B → Prop) (m1 : M L S A) (m2 : M L S B) : Prop :=
  ∀ n l y s1 s2, R s1 s2 → related T (m1 n (mkst l y s1)) (m2 n (mkst l y s2)).

(** What a round of a loop or a part of a scan gives. *)
Definition sum_rel {A1 A2 B1 B2} (V : A1 → A2 → Prop) (T : B1 → B2 → Prop) (r1 : A1 + B1) (r2 : A2 + B2) : Prop :=
  match r1, r2 with inl a, inl b => V a b | inr a, inr b => T a b | _, _ => False end.

Lemma sim_ret {A B} (T : A → B → Prop) a b : T a b → sim T (ret a) (ret b).
Proof. intros HT n l y s1 s2 HR. by split_and!. Qed.

Lemma sim_bind {A1 A2 B1 B2} (T : A1 → A2 → Prop) (U : B1 → B2 → Prop) m1 m2 k1 k2 :
  sim T m1 m2 → (∀ a b, T a b → sim U (k1 a) (k2 b)) → sim U (bind m1 k1) (bind m2 k2).
Proof.
  intros Hm Hk n l y s1 s2 HR. specialize (Hm n l y s1 s2 HR). unfold bind, related in Hm |- *.
  destruct (m1 n (mkst l y s1)) as [[a [l1 y1 t1]]| | |], (m2 n (mkst l y s2)) as [[b [l2 y2 t2]]| | |]; [|by repeat case_match..].
  destruct Hm as (HT&Hl&Hy&HR'). cbn in Hl, Hy, HR'. subst l2 y2. exact (Hk a b HT n l1 y1 t1 t2 HR').
Qed.

(** The rule for a computation that gives the same on both sides. *)
Lemma sim_bind_eq {A B1 B2} (U : B1 → B2 → Prop) (m1 m2 : M L S A) k1 k2 :
  sim eq m1 m2 → (∀ a, sim U (k1 a) (k2 a)) → sim U (bind m1 k1) (bind m2 k2).
Proof. intros Hm Hk. apply (sim_bind eq); [done|]. by intros a ? <-. Qed.

Lemma sim_mono {A B} (T T' : A → B → Prop) m1 m2 : sim T m1 m2 → (∀ a b, T a b → T' a b) → sim T' m1 m2.
Proof.
  intros Hm HT n l y s1 s2 HR. specialize (Hm n l y s1 s2 HR). unfold related in *.
  repeat case_match; try done. destruct Hm as (?&?&?&?). by split_and!; auto.
Qed.

Lemma sim_iter {A1 A2 B1 B2} (V : A1 → A2 → Prop) (T : B1 → B2 → Prop) f1 f2 a1 a2 :
  V a1 a2 → (∀ a b, V a b → sim (sum_rel V T) (f1 a) (f2 b)) → sim T (iter f1 a1) (iter f2 a2).
Proof.
  intros HV Hf n. unfold iter. cut (∀ k l y s1 s2 a1 a2, V a1 a2 → R s1 s2 →
    related T (iter_fuel k f1 a1 n (mkst l y s1)) (iter_fuel k f2 a2 n (mkst l y s2))).
  { intros Hk l y s1 s2 HR. by apply Hk. }
  clear a1 a2 HV. induction k as [|k IH]; intros l y s1 s2 a1 a2 HV HR; [done|].
  pose proof (Hf a1 a2 HV n l y s1 s2 HR) as H. cbn [iter_fuel]. unfold bind, related in H |- *.
  destruct (f1 a1 n (mkst l y s1)) as [[r1 [l1 y1 t1]]| | |], (f2 a2 n (mkst l y s2)) as [[r2 [l2 y2 t2]]| | |]; [|by repeat case_match..].
  destruct H as (Hr&Hl&Hy&HR'). cbn in Hl, Hy, HR'. subst l2 y2.
  destruct r1 as [a1'|b1], r2 as [a2'|b2]; try done. exact (IH l1 y1 t1 t2 a1' a2' Hr HR').
Qed.

Lemma sim_iter_eq {A B} (T : B → B → Prop) (f1 f2 : A → M L S (A + B)) a :
  (∀ a, sim (sum_rel eq T) (f1 a) (f2 a)) → sim T (iter f1 a) (iter f2 a).
Proof. intros Hf. apply (sim_iter eq); [done|]. by intros x ? <-. Qed.

(** The operations on the lexer and the symbol. *)
Lemma sim_lookahead : sim eq lookahead lookahead. Proof. intros n l y s1 s2 HR. by split_and!. Qed.
Lemma sim_advance b : sim eq (advance_ b) (advance_ b). Proof. intros n l y s1 s2 HR. by split_and!. Qed.
Lemma sim_mark_end : sim eq mark_end mark_end. Proof. intros n l y s1 s2 HR. by split_and!. Qed.
Lemma sim_eof : sim eq eof eof. Proof. intros n l y s1 s2 HR. by split_and!. Qed.
Lemma sim_get_column : sim eq get_column get_column. Proof. intros n l y s1 s2 HR. by split_and!. Qed.
Lemma sim_included : sim eq is_at_included_range_start is_at_included_range_start.
Proof. intros n l y s1 s2 HR. by split_and!. Qed.
Lemma sim_get_symbol : sim eq get_symbol get_symbol. Proof. intros n l y s1 s2 HR. by split_and!. Qed.
Lemma sim_set_symbol z : sim eq (set_symbol z) (set_symbol z). Proof. intros n l y s1 s2 HR. by split_and!. Qed.
Lemma sim_abort {A B} (T : A → B → Prop) : sim T abort abort. Proof. done. Qed.
Lemma sim_undefined {A B} (T : A → B → Prop) : sim T undefined undefined. Proof. done. Qed.

(** The operations on the payload. *)
Lemma sim_get {A B} (T : A → B → Prop) k1 k2 : (∀ s1 s2, R s1 s2 → sim T (k1 s1) (k2 s2)) →
  sim T (bind get_payload k1) (bind get_payload k2).
Proof. intros Hk n l y s1 s2 HR. by apply (Hk s1 s2 HR). Qed.

Lemma sim_set s1 s2 : R s1 s2 → sim eq (set_payload s1) (set_payload s2).
Proof. intros HR n l y t1 t2 _. by split_and!. Qed.

(** Operations on data that give related results. *)
Definition same_outcome {A B} (T : A → B → Prop) (o1 : outcome A) (o2 : outcome B) : Prop :=
  match o1, o2 with Done a, Done b => T a b | _, _ => True end.

Lemma sim_lift {A B} (T : A → B → Prop) o1 o2 : same_outcome T o1 o2 → sim T (lift o1) (lift o2).
Proof. intros HT n l y s1 s2 HR. unfold lift. by destruct o1, o2. Qed.

Lemma sim_lift_bind {A1 A2 B1 B2} (T : A1 → A2 → Prop) (U : B1 → B2 → Prop) o1 o2 k1 k2 : same_outcome T o1 o2 →
  (∀ a b, T a b → sim U (k1 a) (k2 b)) → sim U (bind (lift o1) k1) (bind (lift o2) k2).
Proof. intros HT Hk. eapply sim_bind; [by apply sim_lift|done]. Qed.

Lemma sim_lift_eq {A} (o : outcome A) : sim eq (lift o) (lift o).
Proof. apply sim_lift. by destruct o. Qed.
End sim.

(** ** Arrays

    Two arrays that hold the same list, or lists of the same length. *)

Section arrays.
Context {T : Type}.
Implicit Types (a : Array T) (l : list T).

Lemma repr_full a l x : repr a l → 4294967296 ≤ Z.of_nat (length l) + 1 → array_push a x = Undefined.
Proof.
  intros Ha Hl. destruct (repr_size a l Ha) as [Hs Hs']. destruct Ha as (junk&Hc&_&Hp&Hp').
  unfold array_push, array_grow. replace (to_u32 (size a + 1)) with 0
    by (rewrite Hs; replace (Z.of_nat (length l) + 1) with 4294967296 by lia; done).
  replace (capacity a <? 0) with false by lia. unfold memcpy.
  rewrite Hc, length_app, length_fmap. cbn [length]. replace (_ && _) with false by lia. done.
Qed.

Lemma push_same a1 a2 l1 l2 x1 x2 : repr a1 l1 → repr a2 l2 → length l1 = length l2 →
  same_outcome (λ b1 b2, repr b1 (l1 ++ [x1]) ∧ repr b2 (l2 ++ [x2])) (array_push a1 x1) (array_push a2 x2).
Proof.
  intros H1 H2 Hl. destruct (decide (Z.of_nat (length l1) + 1 < 4294967296)) as [Hn|Hn].
  - destruct (repr_push a1 l1 x1 H1 Hn) as (b1&->&?), (repr_push a2 l2 x2 H2 ltac:(lia)) as (b2&->&?). by split.
  - by rewrite (repr_full a1 l1) by (done || lia).
Qed.

(** The last element of an empty array is behind its block. *)
Lemma pop_empty a : repr a [] → array_pop a = Undefined.
Proof.
  intros Ha. destruct (repr_size a [] Ha) as [Hs _]. destruct Ha as (junk&Hc&_&Hp&Hp').
  unfold array_pop, read. rewrite Hs. change (to_u32 (Z.of_nat (length (@nil T)) - 1)) with 4294967295. cbn [Z.leb].
  rewrite lookup_ge_None_2; [done|]. cbn in Hc, Hp. rewrite Hc. lia.
Qed.

Lemma pop_same a1 a2 l : repr a1 l → repr a2 l →
  same_outcome (λ r1 r2, r1.1 = r2.1 ∧ ∃ l', repr r1.2 l' ∧ repr r2.2 l') (array_pop a1) (array_pop a2).
Proof.
  intros H1 H2. destruct l as [|x l _] using rev_ind; [by rewrite !pop_empty|].
  destruct (repr_pop a1 l x H1) as (b1&->&?), (repr_pop a2 l x H2) as (b2&->&?). by split; [|exists l].
Qed.

Lemma get_out a l i : repr a l → ¬ (0 ≤ i < Z.of_nat (length l)) → same_outcome (λ _ _, False) (array_get a i) (array_get a i).
Proof.
  intros Ha Hi. destruct (repr_size a l Ha) as [Hs _]. destruct Ha as (junk&Hc&_&Hp&Hp').
  unfold array_get, read. destruct (to_u32 i <? size a) eqn:E; [|done]. destruct (0 <=? i) eqn:E0; [|done].
  destruct (decide (i < 4294967296)) as [H32|H32].
  - rewrite to_u32_small in E by lia. lia.
  - rewrite lookup_ge_None_2; [done|]. rewrite Hc, length_app, length_fmap. lia.
Qed.

Lemma get_same a1 a2 l1 l2 i (Q : T → T → Prop) : repr a1 l1 → repr a2 l2 → Forall2 Q l1 l2 →
  same_outcome Q (array_get a1 i) (array_get a2 i).
Proof.
  intros H1 H2 HQ. pose proof (Forall2_length _ _ _ HQ) as Hl.
  destruct (decide (0 ≤ i < Z.of_nat (length l1))) as [Hi|Hi].
  - destruct (lookup_lt_is_Some_2 l1 (Z.to_nat i)) as [x Hx]; [lia|].
    destruct (Forall2_lookup_l _ _ _ _ _ HQ Hx) as (z&Hz&HQ').
    replace i with (Z.of_nat (Z.to_nat i)) by lia.
    by rewrite (repr_get a1 l1 _ x H1 Hx), (repr_get a2 l2 _ z H2 Hz).
  - pose proof (get_out a1 l1 i H1 Hi) as E. by destruct (array_get a1 i).
Qed.

Lemma get_same_eq a1 a2 l i : repr a1 l → repr a2 l → same_outcome eq (array_get a1 i) (array_get a2 i).
Proof. intros H1 H2. by eapply (get_same _ _ l l). Qed.

Lemma size_same a1 a2 l1 l2 : repr a1 l1 → repr a2 l2 → length l1 = length l2 → size a1 = size a2.
Proof. intros H1 H2 Hl. destruct (repr_size _ _ H1) as [-> _], (repr_size _ _ H2) as [-> _]. by rewrite Hl. Qed.

(** Taking off the first element. *)
Lemma erase_same a1 a2 l1 l2 : repr a1 l1 → repr a2 l2 → length l1 = length l2 →
  same_outcome (λ b1 b2, repr b1 (tail l1) ∧ repr b2 (tail l2)) (array_erase a1 0) (array_erase a2 0).
Proof.
  intros H1 H2 Hl. destruct l1 as [|x1 l1], l2 as [|x2 l2]; try done.
  - unfold array_erase. by destruct (repr_size _ _ H1) as [-> _].
  - destruct (repr_erase a1 _ 0 H1) as (b1&E1&R1); [cbn; lia|]. destruct (repr_erase a2 _ 0 H2) as (b2&E2&R2); [cbn; lia|].
    change 0 with (Z.of_nat 0). by rewrite E1, E2.
Qed.
(** A write into an array: behind its elements it does not matter. *)
Lemma repr_store a l i x c : repr a l → memcpy (contents a) i [Some x] = Done c →
  repr (mkArray c (size a) (capacity a)) (<[Z.to_nat i := x]> l).
Proof.
  intros (junk&Hc&Hs&Hp&Hp'). unfold memcpy. destruct (_ && _) eqn:E; [|done]. intros Hcopy. cbn [length] in *.
  assert (c = <[Z.to_nat i := Some x]> (contents a)) as ->.
  { injection Hcopy as <-. rewrite insert_take_drop by lia. by rewrite Nat.add_1_r. }
  rewrite Hc in E |- *. rewrite length_app, length_fmap in E.
  destruct (decide (Z.to_nat i < length l)%nat) as [Hi|Hi].
  - exists junk. cbn. rewrite insert_app_l by by rewrite length_fmap. rewrite <- list_fmap_insert. rewrite length_insert.
    by split_and!.
  - rewrite (list_insert_ge l) by lia. exists (<[(Z.to_nat i - length l)%nat := Some x]> junk). cbn.
    rewrite insert_app_r_alt, length_fmap by (rewrite length_fmap; lia). rewrite length_insert. by split_and!.
Qed.

Lemma store_same a1 a2 l1 l2 i x1 x2 : repr a1 l1 → repr a2 l2 →
  same_outcome (λ c1 c2, repr (mkArray c1 (size a1) (capacity a1)) (<[Z.to_nat i := x1]> l1)
      ∧ repr (mkArray c2 (size a2) (capacity a2)) (<[Z.to_nat i := x2]> l2))
    (memcpy (contents a1) i [Some x1]) (memcpy (contents a2) i [Some x2]).
Proof.
  intros H1 H2. destruct (memcpy (contents a1) i [Some x1]) as [c1| | |] eqn:E1; [|done..].
  destruct (memcpy (contents a2) i [Some x2]) as [c2| | |] eqn:E2; [|done..]. split; by apply repr_store.
Qed.

(** Taking off any element. *)
Lemma erase_any_same a1 a2 l1 l2 i : repr a1 l1 → repr a2 l2 → length l1 = length l2 →
  same_outcome (λ b1 b2, repr b1 (delete (Z.to_nat i) l1) ∧ repr b2 (delete (Z.to_nat i) l2)) (array_erase a1 i) (array_erase a2 i).
Proof.
  intros H1 H2 Hl. destruct (decide (i < 0)) as [Hi|Hi].
  { unfold array_erase, memmove, memcpy. destruct (i <? size a1); [|done]. destruct (_ && _ && _); [|done].
    by replace (0 <=? i) with false by lia. }
  destruct (decide (Z.to_nat i < length l1)%nat) as [Hlt|Hge].
  - destruct (repr_erase a1 _ (Z.to_nat i) H1 Hlt) as (b1&E1&R1), (repr_erase a2 _ (Z.to_nat i) H2 ltac:(lia)) as (b2&E2&R2).
    rewrite Z2Nat.id in E1, E2 by lia. rewrite E1, E2. by rewrite !delete_take_drop.
  - unfold array_erase. destruct (repr_size _ _ H1) as [-> _]. by replace (_ <? _) with false by lia.
Qed.
End arrays.

Lemma sum_rel_refl {A B} (r : A + B) : sum_rel eq eq r r.
Proof. by destruct r. Qed.

(** Follows the structure of two computations that differ in the payload only. *)
Ltac head_const m := lazymatch m with ?f _ => head_const f | _ => m end.
Ltac sim_step :=
  cbv beta zeta;
  first
  [ assumption
  | lazymatch goal with
    | |- ∀ _, _ => intro
    | |- sim _ _ (ret _) (ret _) => apply sim_ret; first [reflexivity | apply sum_rel_refl]
    | |- sim _ _ abort abort => apply sim_abort
    | |- sim _ _ undefined undefined => apply sim_undefined
    | |- sim _ _ lookahead lookahead => apply sim_lookahead
    | |- sim _ _ (advance_ _) (advance_ _) => apply sim_advance
    | |- sim _ _ mark_end mark_end => apply sim_mark_end
    | |- sim _ _ eof eof => apply sim_eof
    | |- sim _ _ get_column get_column => apply sim_get_column
    | |- sim _ _ is_at_included_range_start is_at_included_range_start => apply sim_included
    | |- sim _ _ get_symbol get_symbol => apply sim_get_symbol
    | |- sim _ _ (set_symbol _) (set_symbol _) => apply sim_set_symbol
    | |- sim _ _ (lift ?o) (lift ?o) => apply sim_lift_eq
    | |- sim _ _ (bind get_payload _) (bind get_payload _) => fail
    | |- sim _ _ (bind _ _) (bind _ _) => apply sim_bind_eq
    | |- sim _ _ (iter _ _) (iter _ _) => apply sim_iter_eq
    | |- sim _ _ (if ?b then _ else _) (if ?b then _ else _) => destruct b
    | |- sim _ _ (match ?x with _ => _ end) (match ?x with _ => _ end) => destruct x
    end
  | solve [auto with sim nocore]
  | lazymatch goal with
    | |- sim _ _ (bind _ _) _ => fail
    | |- sim _ _ ?m ?m => let h := head_const m in unfold h
    end ].
Ltac sim_tac := repeat sim_step.

Create HintDb sim.

(** ** Replay *)

Section replay.
Context {L S A : Type} {HL : TSLexer L} {repr : S → A → Prop} {ok : A → Prop}
  {serialize : S → outcome (list Z)} {deserialize : S → list Z → outcome S}.
Context `{HC : !ScannerCodec repr ok serialize deserialize}.

(** Two payloads stand for the same abstract state. *)
Definition same_state (s1 s2 : S) : Prop := ∃ a, repr s1 a ∧ repr s2 a.

Lemma same_state_transfer s1 s2 a : same_state s1 s2 → repr s1 a → repr s2 a.
Proof. intros (a'&H1&H2) H. by rewrite (codec_functional _ _ _ H H1). Qed.

(** A scan that does not see the payload's representation goes on from a restored
    payload as from the one that was saved. *)
Lemma codec_replay {B} (R : S → S → Prop) (scan : M L S B) n l y s a s0 a0 :
  (∀ s1 s2, repr s1 a → repr s2 a → related R eq (scan n (mkst l y s1)) (scan n (mkst l y s2))) →
  (∀ s1 s2 a, R s1 s2 → repr s1 a → repr s2 a) →
  (∀ s, repr s a → ∃ b l' y' s' a', scan n (mkst l y s) = Done (b, mkst l' y' s') ∧ repr s' a') →
  repr s a → ok a → repr s0 a0 →
  ∃ buffer s' b l' y' s1 s2 a', serialize s = Done buffer ∧ deserialize s0 buffer = Done s'
    ∧ scan n (mkst l y s) = Done (b, mkst l' y' s1) ∧ scan n (mkst l y s') = Done (b, mkst l' y' s2)
    ∧ repr s1 a' ∧ repr s2 a'.
Proof.
  intros Hsim HR Htotal Hs Hok H0. destruct (codec_roundtrip s a s0 a0 Hs Hok H0) as (buffer&s'&Hser&_&Hdes&Hs').
  destruct (Htotal s Hs) as (b1&l1&y1&s1&a1&E1&H1), (Htotal s' Hs') as (b2&l2&y2&s2&a2&E2&_).
  specialize (Hsim s s' Hs Hs'). rewrite E1, E2 in Hsim.
  destruct Hsim as (<-&Hl&Hy&H12). cbn in Hl, Hy, H12. subst l2 y2.
  exists buffer, s', b1, l1, y1, s1, s2, a1. split_and!; try done. by eapply HR.
Qed.
End replay.

(** ** Payloads that are related in another way afterwards

    [sim_to P R]: from payloads in [P] to payloads in [R]. What leaves the payload
    alone keeps every relation, and may be followed by a step that needs more of
    the payload than it leaves. *)

Section sim_to.
Context {L S : Type} {HL : TSLexer L}.
Implicit Types P Q R : S → S → Prop.

Definition sim_to P R {A B} (T : A → B → Prop) (m1 : M L S A) (m2 : M L S B) : Prop :=
  ∀ n l y s1 s2, P s1 s2 → related R T (m1 n (mkst l y s1)) (m2 n (mkst l y s2)).

Lemma sim_to_intro P R {A B} (T : A → B → Prop) m1 m2 : sim P T m1 m2 → (∀ s1 s2, P s1 s2 → R s1 s2) →
  sim_to P R T m1 m2.
Proof.
  intros Hm HPR n l y s1 s2 HP. specialize (Hm n l y s1 s2 HP). unfold related in *.
  repeat case_match; try done. destruct Hm as (?&?&?&?). by split_and!; auto.
Qed.

Lemma sim_to_bind P Q R {A1 A2 B1 B2} (T : A1 → A2 → Prop) (U : B1 → B2 → Prop) m1 m2 k1 k2 :
  sim_to P Q T m1 m2 → (∀ a b, T a b → sim_to Q R U (k1 a) (k2 b)) → sim_to P R U (bind m1 k1) (bind m2 k2).
Proof.
  intros Hm Hk n l y s1 s2 HR. specialize (Hm n l y s1 s2 HR). unfold bind, related in Hm |- *.
  destruct (m1 n (mkst l y s1)) as [[a [l1 y1 t1]]| | |], (m2 n (mkst l y s2)) as [[b [l2 y2 t2]]| | |]; [|by repeat case_match..].
  destruct Hm as (HT&Hl&Hy&HR'). cbn in Hl, Hy, HR'. subst l2 y2. exact (Hk a b HT n l1 y1 t1 t2 HR').
Qed.

(** A first part that leaves the payload alone. *)
Lemma sim_to_bind_sim P R {A1 A2 B1 B2} (T : A1 → A2 → Prop) (U : B1 → B2 → Prop) m1 m2 k1 k2 :
  sim P T m1 m2 → (∀ a b, T a b → sim_to P R U (k1 a) (k2 b)) → sim_to P R U (bind m1 k1) (bind m2 k2).
Proof. intros Hm. by apply sim_to_bind, sim_to_intro. Qed.

Lemma sim_to_bind_eq P R {A B1 B2} (U : B1 → B2 → Prop) (m1 m2 : M L S A) k1 k2 :
  sim P eq m1 m2 → (∀ a, sim_to P R U (k1 a) (k2 a)) → sim_to P R U (bind m1 k1) (bind m2 k2).
Proof. intros Hm Hk. apply (sim_to_bind_sim P R eq); [done|]. by intros a ? <-. Qed.

(** Behind the read of the payload it is known on both sides. *)
Definition at_state (t1 t2 : S) : S → S → Prop := λ s1 s2, s1 = t1 ∧ s2 = t2.

Lemma sim_to_get P R {A B} (T : A → B → Prop) k1 k2 :
  (∀ s1 s2, P s1 s2 → sim_to (at_state s1 s2) R T (k1 s1) (k2 s2)) →
  sim_to P R T (bind get_payload k1) (bind get_payload k2).
Proof. intros Hk n l y s1 s2 HP. by apply (Hk s1 s2 HP). Qed.

Lemma sim_to_set P R t1 t2 : R t1 t2 → sim_to P R eq (set_payload t1) (set_payload t2).
Proof. intros HR n l y s1 s2 _. by split_and!. Qed.

Lemma sim_to_ret P R {A B} (T : A → B → Prop) a b : T a b → (∀ s1 s2, P s1 s2 → R s1 s2) →
  sim_to P R T (ret a) (ret b).
Proof. intros HT HPR n l y s1 s2 HP. split_and!; auto. Qed.

(** Operations on data that give the same. *)
Lemma sim_to_lift P R {A B1 B2} (U : B1 → B2 → Prop) o1 o2 (x : A) k1 k2 : o1 = Done x → o2 = Done x →
  sim_to P R U (k1 x) (k2 x) → sim_to P R U (bind (lift o1) k1) (bind (lift o2) k2).
Proof. intros -> -> Hk n l y s1 s2 HP. exact (Hk n l y s1 s2 HP). Qed.

(** The relation at a known pair of payloads. *)
Lemma sim_to_weaken P P' R {A B} (T : A → B → Prop) m1 m2 : (∀ s1 s2, P s1 s2 → P' s1 s2) →
  sim_to P' R T m1 m2 → sim_to P R T m1 m2.
Proof. intros HP Hm n l y s1 s2 H. apply Hm. auto. Qed.
End sim_to.
