(* ===== verification/Session.v ===== *)
(** * Sessions: a scanner driven by the runtime

    Before every call the runtime restores the payload from the bytes that belong
    to the token in front of the place it scans at, and behind a call that found a
    token it saves the payload with that token; after an edit it goes back to the
    bytes of any earlier token. All of this happens in one payload, one state on top
    of the other. [saving]: this machine. [keeping]: what it should do, on a machine
    that keeps the payloads themselves. [RuntimeScanner]: what a scanner has to
    promise; then both machines give the same answers ([sessions_agree]). *)

From S2P Require Import Prelude Scan Logic Codec Replay.

(** A call at some place, on a lexer that the runtime has put there and a symbol that
    some call before has left, with the symbols that the parser can use, from the
    state that was recorded as number [from]: 0 is the state at the start of the
    session, and every token that was found records the next. *)
Record call (L V : Type) : Type := Call { from : nat; valid : V; bound : nat; lexer : L; symbol : Z }.
Arguments Call {L V} from valid bound lexer symbol.
Arguments from {L V} c.
Arguments valid {L V} c.
Arguments bound {L V} c.
Arguments lexer {L V} c.
Arguments symbol {L V} c.

Section session.
Context {L S V A B : Type}.
Implicit Types (c : call L V) (calls : list (call L V)).

(** What a call returns, with the lexer and the symbol that it leaves. *)
Definition answer : Type := bool * L * Z.

Context (scan : V → M L S bool) (serialize : S → outcome (list B * S)) (deserialize : S → list B → outcome S).

Definition run c (s : S) : outcome (bool * st L S) := scan (valid c) (bound c) (mkst (lexer c) (symbol c) s).

Definition record {T} (b : bool) (x : T) (xs : list T) : list T := if b then xs ++ [x] else xs.

(** On payloads that are kept. *)
Fixpoint keeping calls (kept : list S) : outcome (list answer) :=
  match calls with
  | [] => Done []
  | c :: calls =>
      match kept !! from c with
      | None => Undefined
      | Some s =>
          let? '(b, t) := run c s in
          let? answers := keeping calls (record b (pay t) kept) in
          Done ((b, lex t, sym t) :: answers)
      end
  end.

(** On one payload and the bytes that were saved. *)
Fixpoint saving calls (s : S) (saved : list (list B)) : outcome (list answer) :=
  match calls with
  | [] => Done []
  | c :: calls =>
      match saved !! from c with
      | None => Undefined
      | Some buffer =>
          let? s := deserialize s buffer in
          let? '(b, t) := run c s in
          let? '(s, saved) :=
            if b : bool then
              let? '(buffer, s) := serialize (pay t) in
              Done (s, saved ++ [buffer])
            else Done (pay t, saved) in
          let? answers := saving calls s saved in
          Done ((b, lex t, sym t) :: answers)
      end
  end.

(** ** What a scanner promises

    [stands s a]: the payload [s] stands for the abstract state [a]; [fits a]: the
    state can be saved and scanned from; [callable]: what a call needs besides. *)
Context (stands : S → A → Prop) (fits : A → Prop) (callable : V → nat → L → A → Prop).

Class RuntimeScanner : Prop := {
  stands_functional s a1 a2 : stands s a1 → stands s a2 → a1 = a2;
  scanner_call valid n l y s1 s2 a : stands s1 a → stands s2 a → fits a → callable valid n l a →
    ∃ b l' y' t1 t2 a', scan valid n (mkst l y s1) = Done (b, mkst l' y' t1)
      ∧ scan valid n (mkst l y s2) = Done (b, mkst l' y' t2) ∧ stands t1 a' ∧ stands t2 a';
  scanner_save s a : stands s a → fits a →
    ∃ buffer s' a', serialize s = Done (buffer, s') ∧ (length buffer ≤ SERIALIZATION_BUFFER_SIZE)%nat ∧ stands s' a'
      ∧ ∀ s0 a0, stands s0 a0 → ∃ s1, deserialize s0 buffer = Done s1 ∧ stands s1 a;
}.

(** A session of calls that find what they need, from states that were recorded, and
    whose own recorded states fit: as seen where the payloads are kept. *)
Fixpoint allowed calls (kept : list S) : Prop :=
  match calls with
  | [] => True
  | c :: calls =>
      ∃ s a, kept !! from c = Some s ∧ stands s a ∧ callable (valid c) (bound c) (lexer c) a
        ∧ ∀ b t, run c s = Done (b, t) →
            (b = true → ∃ a', stands (pay t) a' ∧ fits a') ∧ allowed calls (record b (pay t) kept)
  end.

(** The bytes restore the state of a kept payload, on top of any other. *)
Definition restores (s : S) (buffer : list B) : Prop :=
  ∃ a, stands s a ∧ fits a ∧ ∀ s0 a0, stands s0 a0 → ∃ s', deserialize s0 buffer = Done s' ∧ stands s' a.

Context `{HC : !RuntimeScanner}.

Lemma sessions_agree_from calls kept s a saved : stands s a → Forall2 restores kept saved → allowed calls kept →
  ∃ answers, keeping calls kept = Done answers ∧ saving calls s saved = Done answers.
Proof.
  revert kept s a saved. induction calls as [|c calls IH]; intros kept s a saved Hs Hk Ha; [by exists []|].
  destruct Ha as (u&a1&Hu&Hu1&Hc&Hrest). destruct (Forall2_lookup_l _ _ _ _ _ Hk Hu) as (buffer&Hb&a2&Hu2&Hf&Hr).
  assert (a2 = a1) as -> by by eapply stands_functional. destruct (Hr s a Hs) as (s1&Hd&Hs1).
  destruct (scanner_call (valid c) (bound c) (lexer c) (symbol c) u s1 a1) as (b&l'&y'&t1&t2&a'&E1&E2&T1&T2); [done..|].
  destruct (Hrest b (mkst l' y' t1) E1) as [Hsave Hnext]. cbn [keeping saving]. rewrite Hu, Hb, Hd. cbn [obind].
  unfold run. rewrite E1, E2. cbn [obind pay lex sym] in *. destruct b; cbn [record obind] in Hnext |- *.
  - destruct (Hsave eq_refl) as (a3&H3&Hf3). assert (a3 = a') as -> by by eapply stands_functional.
    destruct (scanner_save t2 a' T2 Hf3) as (buffer'&s'&a4&->&_&Hs'&Hr'). cbn [obind].
    destruct (IH (kept ++ [t1]) s' a4 (saved ++ [buffer'])) as (answers&->&->); [done| |done|by eexists].
    apply Forall2_app; [done|]. constructor; [|constructor]. by exists a'.
  - destruct (IH kept t2 a' saved) as (answers&->&->); [done..|by eexists].
Qed.

(** From one recorded state, whatever the payload [s0] holds from the text before. *)
Lemma sessions_agree calls s buffer s0 a0 : restores s buffer → stands s0 a0 → allowed calls [s] →
  ∃ answers, keeping calls [s] = Done answers ∧ saving calls s0 [buffer] = Done answers.
Proof. intros Hs H0 Ha. eapply sessions_agree_from; [done| |done]. by constructor. Qed.
End session.

Arguments sessions_agree {L S V A B scan serialize deserialize stands fits callable HC} calls s buffer s0 a0.

(** ** Keeping the promise

    The promise about a call, from a scan that does not see which of two payloads for
    a state it runs on, and that ends on either. *)
Lemma same_call {L S V A : Type} (scan : V → M L S bool) (R : S → S → Prop) (stands : S → A → Prop) valid n l y s1 s2 :
  related R eq (scan valid n (mkst l y s1)) (scan valid n (mkst l y s2)) →
  (∀ s, s = s1 ∨ s = s2 → ∃ b l' y' t, scan valid n (mkst l y s) = Done (b, mkst l' y' t) ∧ ∃ a', stands t a') →
  (∀ t1 t2 a', R t1 t2 → stands t1 a' → stands t2 a') →
  ∃ b l' y' t1 t2 a', scan valid n (mkst l y s1) = Done (b, mkst l' y' t1)
    ∧ scan valid n (mkst l y s2) = Done (b, mkst l' y' t2) ∧ stands t1 a' ∧ stands t2 a'.
Proof.
  intros Hsim Htotal HR. destruct (Htotal s1) as (b1&l1&y1&t1&E1&a1&H1); [by left|].
  destruct (Htotal s2) as (b2&l2&y2&t2&E2&_); [by right|]. rewrite E1, E2 in Hsim.
  destruct Hsim as (<-&Hl&Hy&H12). cbn in Hl, Hy, H12. subst l2 y2.
  exists b1, l1, y1, t1, t2, a1. split_and!; [done..|]. by eapply HR.
Qed.

(** A scanner that saves without a change to its payload. *)
Definition saves {S B} (serialize : S → outcome (list B)) (s : S) : outcome (list B * S) :=
  let? buffer := serialize s in Done (buffer, s).

(** Rounds enough for the input that is left. *)
Definition enough_fuel {L V A} `{HS : TSLexerSpec L} (valid : V) (n : nat) (l : L) (a : A) : Prop := (rem (view_of l) < n)%nat.

(** A session that is given is checked call by call; [a]: the state of its call. *)
Ltac session_step a :=
  eexists _, a; split; [reflexivity|]; split; [|split];
  [| |let b := fresh "b" in let t := fresh "t" in let E := fresh "E" in
      intros b t E; vm_compute in E; injection E as <- <-; cbn [record pay app]; split].

(** ** Calls in a row

    Each begins behind the token of the last one, in the payload that it left. *)

(** The next call begins behind the token of the last one. *)
Definition resumed (v v' : view) : Prop :=
  text v' = text v ∧ v_pos v' = token_end v ∧ v_start v' = v_pos v' ∧ v_end v' = None.

Lemma same_place v v' : text v' = text v → v_pos v' = v_pos v → v_past v' = v_past v ∧ v_rest v' = v_rest v.
Proof.
  unfold text, v_pos. intros Ht Hp. apply app_inj_1 in Ht as [Hpast Hrest]; [|by rewrite !length_rev].
  split; [|done]. rewrite <- (rev_involutive (v_past v')), Hpast. apply rev_involutive.
Qed.

Lemma rest_at_pos v v' k : text v' = text v → v_pos v' = (v_pos v + k)%nat → v_rest v' = drop k (v_rest v).
Proof.
  intros Ht Hp.
  transitivity (drop (v_pos v') (text v')).
  - unfold text, v_pos. by rewrite <- length_rev, drop_app_length.
  - rewrite Ht, Hp. unfold text, v_pos. rewrite <- length_rev, <- drop_drop, drop_app_length. done.
Qed.

(** A call reports the token [t] with the text [w], and what comes next, for any
    lexer behind that token, satisfies [next]. *)
Definition yields {L S V} `{HS : TSLexerSpec L} (scan : V → M L S bool) (valid : V) (n : nat) (t : Z) (w : list Z) (l : L) (s : S)
    (next : L → S → Prop) : Prop :=
  ∀ y, ∃ l' s', scan valid n (mkst l y s) = Done (true, mkst l' t s') ∧ token_text (view_of l') = w
    ∧ ∀ l2, resumed (view_of l') (view_of l2) → next l2 s'.
