(* ===== verification/Regex.v ===== *)
(** * Regular expressions and longest matches

    The tokens of a grammar are regular expressions. [matches]: the words of an
    expression. [deriv]: what may follow a first character, with which [munch]
    finds the longest match of a set of tokens. [munch_spec]: it is the longest. *)

From S2P Require Import Prelude.

(** Character classes are lists of ranges, as the grammars have them; a negated
    one is [[^...]]. *)
Inductive regex : Type :=
  | Void
  | Eps
  | Chars (negated : bool) (ranges : list (Z * Z))
  | Conc (r1 r2 : regex)
  | Plus (r1 r2 : regex)
  | Star (r : regex).

#[export] Instance regex_eq_dec : EqDecision regex.
Proof. solve_decision. Defined.

Definition in_ranges (rs : list (Z * Z)) (c : Z) : bool := existsb (λ r, (r.1 <=? c) && (c <=? r.2)) rs.
Definition in_class (negated : bool) (rs : list (Z * Z)) (c : Z) : bool := xorb negated (in_ranges rs c).

Inductive matches : regex → list Z → Prop :=
  | matches_eps : matches Eps []
  | matches_chars b rs c : in_class b rs c = true → matches (Chars b rs) [c]
  | matches_conc r1 r2 l1 l2 : matches r1 l1 → matches r2 l2 → matches (Conc r1 r2) (l1 ++ l2)
  | matches_plus_l r1 r2 l : matches r1 l → matches (Plus r1 r2) l
  | matches_plus_r r1 r2 l : matches r2 l → matches (Plus r1 r2) l
  | matches_star_nil r : matches (Star r) []
  | matches_star_app r l1 l2 : matches r l1 → matches (Star r) l2 → matches (Star r) (l1 ++ l2).

(** The usual forms of a pattern. *)
Definition char_ (c : Z) : regex := Chars false [(c, c)].
Fixpoint word_ (l : list Z) : regex :=
  match l with [] => Eps | [c] => char_ c | c :: l' => Conc (char_ c) (word_ l') end.
Definition some_ (r : regex) : regex := Conc r (Star r).
Definition opt_ (r : regex) : regex := Plus r Eps.

(** ** Derivatives *)

Fixpoint nullable (r : regex) : bool :=
  match r with
  | Void | Chars _ _ => false
  | Eps | Star _ => true
  | Conc r1 r2 => nullable r1 && nullable r2
  | Plus r1 r2 => nullable r1 || nullable r2
  end.

(** Concatenation and choice, without the parts that have no words. *)
Definition conc (r1 r2 : regex) : regex :=
  match r1, r2 with
  | Void, _ => Void
  | _, Void => Void
  | Eps, _ => r2
  | _, _ => Conc r1 r2
  end.

Definition plus (r1 r2 : regex) : regex :=
  match r1, r2 with
  | Void, _ => r2
  | _, Void => r1
  | _, _ => Plus r1 r2
  end.

Fixpoint deriv (c : Z) (r : regex) : regex :=
  match r with
  | Void | Eps => Void
  | Chars b rs => if in_class b rs c then Eps else Void
  | Conc r1 r2 =>
      plus (conc (deriv c r1) r2) (if nullable r1 then deriv c r2 else Void)
  | Plus r1 r2 => plus (deriv c r1) (deriv c r2)
  | Star r1 => conc (deriv c r1) (Star r1)
  end.

Lemma matches_void l : ¬ matches Void l.
Proof. by inversion 1. Qed.

Lemma matches_Eps l : matches Eps l ↔ l = [].
Proof. split; [by inversion 1|intros ->; constructor]. Qed.

Lemma matches_Conc r1 r2 l : matches (Conc r1 r2) l ↔ ∃ l1 l2, l = l1 ++ l2 ∧ matches r1 l1 ∧ matches r2 l2.
Proof. split; [inversion 1; naive_solver|]. intros (l1&l2&->&?&?). by constructor. Qed.

Lemma matches_Plus r1 r2 l : matches (Plus r1 r2) l ↔ matches r1 l ∨ matches r2 l.
Proof. split; [inversion 1; auto|]. intros [?|?]; first [by apply matches_plus_l|by apply matches_plus_r]. Qed.

Lemma conc_cases r1 r2 : conc r1 r2 = Conc r1 r2
  ∨ (r1 = Void ∨ r2 = Void) ∧ conc r1 r2 = Void ∨ r1 = Eps ∧ conc r1 r2 = r2.
Proof. destruct r1, r2; cbn; auto 6. Qed.

Lemma matches_conc_iff r1 r2 l : matches (conc r1 r2) l ↔ matches (Conc r1 r2) l.
Proof.
  rewrite matches_Conc. destruct (conc_cases r1 r2) as [->|[[Hv ->]|[-> ->]]]; [by rewrite matches_Conc|..].
  - split; [by intros ?%matches_void|]. intros (l1&l2&_&H1&H2). destruct Hv as [-> | ->]; [by apply matches_void in H1|by apply matches_void in H2].
  - split; [intros H; exists [], l; by repeat constructor|]. intros (l1&l2&->&H1&H2). by apply matches_Eps in H1 as ->.
Qed.

Lemma matches_plus_iff r1 r2 l : matches (plus r1 r2) l ↔ matches (Plus r1 r2) l.
Proof.
  assert (plus r1 r2 = Plus r1 r2 ∨ r1 = Void ∧ plus r1 r2 = r2 ∨ r2 = Void ∧ plus r1 r2 = r1) as H
    by (destruct r1, r2; cbn; auto).
  rewrite matches_Plus. destruct H as [->|[[-> ->]|[-> ->]]]; [by rewrite matches_Plus|..];
    (split; [by auto|intros [Hm|Hm]; try done; by apply matches_void in Hm]).
Qed.

Lemma nullable_iff r : nullable r = true ↔ matches r [].
Proof.
  induction r as [| |b rs|r1 IH1 r2 IH2|r1 IH1 r2 IH2|r IH]; cbn.
  - split; [done|]. by intros ?%matches_void.
  - split; [constructor|done].
  - split; [done|]. by inversion 1.
  - rewrite andb_true_iff, IH1, IH2, matches_Conc. split.
    + intros [??]. by exists [], [].
    + intros (l1&l2&E&?&?). symmetry in E. by apply app_nil in E as [-> ->].
  - by rewrite orb_true_iff, IH1, IH2, matches_Plus.
  - split; [constructor|done].
Qed.

(** A word of [Star r] that is not empty starts with a word of [r] that is not. *)
Lemma matches_star_cons r c l : matches (Star r) (c :: l) →
  ∃ l1 l2, l = l1 ++ l2 ∧ matches r (c :: l1) ∧ matches (Star r) l2.
Proof.
  intros H. remember (Star r) as r' eqn:Er. remember (c :: l) as w eqn:Ew. revert c l Ew.
  induction H as [| | | | | |r0 l1 l2 H1 _ H2 IH]; intros x w Ew; try discriminate.
  injection Er as ->. destruct l1 as [|x' l1]; cbn in Ew; [by apply IH|].
  injection Ew as -> <-. by exists l1, l2.
Qed.

Lemma deriv_iff c r l : matches (deriv c r) l ↔ matches r (c :: l).
Proof.
  revert l. induction r as [| |b rs|r1 IH1 r2 IH2|r1 IH1 r2 IH2|r IH]; intros l; cbn.
  - split; [by intros ?%matches_void|by inversion 1].
  - split; [by intros ?%matches_void|by inversion 1].
  - destruct (in_class b rs c) eqn:E.
    + rewrite matches_Eps. split; [intros ->; by constructor|by inversion 1].
    + split; [by intros ?%matches_void|inversion 1; congruence].
  - rewrite matches_plus_iff, matches_Plus, matches_conc_iff, !matches_Conc. split.
    + intros [(l1&l2&->&H1%IH1&H2)|H]; [by exists (c :: l1), l2|].
      destruct (nullable r1) eqn:E; [|by apply matches_void in H]. apply IH2 in H.
      apply nullable_iff in E. by exists [], (c :: l).
    + intros (l1&l2&E&H1&H2). destruct l1 as [|c' l1]; cbn in E.
      * subst l2. apply nullable_iff in H1 as ->. right. by apply IH2.
      * injection E as <- ->. left. exists l1, l2. by rewrite IH1.
  - by rewrite matches_plus_iff, !matches_Plus, IH1, IH2.
  - rewrite matches_conc_iff, matches_Conc. split.
    + intros (l1&l2&->&H1%IH&H2). by apply (matches_star_app _ (c :: l1)).
    + intros (l1&l2&->&?&?)%matches_star_cons. exists l1, l2. by rewrite IH.
Qed.

(** ** The longest match *)

(** Tokens: a symbol and its expression. *)
Abbreviation tokens := (list (Z * regex)).

(** The tokens that are still possible after [c]. *)
Definition derive (c : Z) (T : tokens) : tokens :=
  filter (λ t, t.2 ≠ Void) (prod_map id (deriv c) <$> T).

(** The first token that may end here. *)
Definition accepted (T : tokens) : option Z := fst <$> List.find (λ t, nullable t.2) T.

(** The token with the longest match in [l], and its length. *)
Fixpoint munch (T : tokens) (l : list Z) : option (Z * nat) :=
  match match l with c :: l' => munch (derive c T) l' | [] => None end with
  | Some (y, n) => Some (y, S n)
  | None => (λ y, (y, 0%nat)) <$> accepted T
  end.

Lemma derive_elem c T y r : (y, r) ∈ derive c T ↔ r ≠ Void ∧ ∃ r', r = deriv c r' ∧ (y, r') ∈ T.
Proof.
  unfold derive. rewrite list_elem_of_filter, list_elem_of_fmap. cbn. split.
  - intros [Hv ([y' r']&E&Hin)]. cbn in E. simplify_eq. by split; [|exists r'].
  - intros (Hv&r'&->&Hin). split; [done|]. by exists (y, r').
Qed.

Lemma accepted_Some T y : accepted T = Some y → ∃ r, (y, r) ∈ T ∧ matches r [].
Proof.
  unfold accepted. destruct (List.find _ T) as [[y' r]|] eqn:E; [|done]. intros [= <-].
  apply find_some in E as [Hin Hn]. exists r. by rewrite list_elem_of_In, <- nullable_iff.
Qed.

Lemma accepted_None T y r : accepted T = None → (y, r) ∈ T → ¬ matches r [].
Proof.
  unfold accepted. destruct (List.find _ T) as [[y' r']|] eqn:E; [done|]. intros _ Hin Hn.
  apply list_elem_of_In, (find_none _ _ E) in Hin. cbn in Hin. apply nullable_iff in Hn. congruence.
Qed.

(** A token whose expression matches the first [n] characters of [l]. *)
Definition prefix_match (T : tokens) (l : list Z) (y : Z) (n : nat) : Prop :=
  (n ≤ length l)%nat ∧ ∃ r, (y, r) ∈ T ∧ matches r (take n l).

Lemma prefix_match_S T c l y n : prefix_match T (c :: l) y (S n) ↔ prefix_match (derive c T) l y n.
Proof.
  unfold prefix_match. cbn [length take]. split.
  - intros [Hn (r&Hin&Hm)]. apply deriv_iff in Hm. split; [lia|]. exists (deriv c r). split; [|done].
    apply derive_elem. split; [|by exists r]. intros E. rewrite E in Hm. by apply matches_void in Hm.
  - intros [Hn (r&Hin&Hm)]. apply derive_elem in Hin as (_&r'&->&Hin). split; [lia|].
    exists r'. by rewrite <- deriv_iff.
Qed.

Lemma prefix_match_0 T l y : prefix_match T l y 0 ↔ ∃ r, (y, r) ∈ T ∧ matches r [].
Proof. unfold prefix_match. rewrite take_0. split; [by intros [_ ?]|]. intros ?. split; [lia|done]. Qed.

(** What [munch] gives is a match, and none is longer. *)
Definition longest (T : tokens) (l : list Z) (o : option (Z * nat)) : Prop :=
  match o with
  | Some (y, n) => prefix_match T l y n ∧ ∀ y' n', prefix_match T l y' n' → (n' ≤ n)%nat
  | None => ∀ y' n', ¬ prefix_match T l y' n'
  end.

Lemma longest_here T l : (∀ y n, ¬ prefix_match T l y (S n)) →
  longest T l ((λ y, (y, 0%nat)) <$> accepted T).
Proof.
  intros Hno. destruct (accepted T) as [y|] eqn:E; cbn.
  - split; [apply prefix_match_0; by apply accepted_Some|].
    intros y' [|n'] H; [lia|]. by destruct (Hno _ _ H).
  - intros y' [|n'] H; [|by destruct (Hno _ _ H)]. apply prefix_match_0 in H as (r&Hin&Hm).
    by eapply accepted_None in Hm.
Qed.

Lemma munch_spec T l : longest T l (munch T l).
Proof.
  revert T. induction l as [|c l IH]; intros T; cbn [munch].
  - apply longest_here. intros y n [Hn _]. cbn in Hn. lia.
  - specialize (IH (derive c T)). destruct (munch (derive c T) l) as [[y n]|]; cbn in IH.
    + destruct IH as [Hm Hl]. split; [by apply prefix_match_S|].
      intros y' [|n'] H; [lia|]. apply prefix_match_S, Hl in H. lia.
    + apply longest_here. intros y n H%prefix_match_S. by apply IH in H.
Qed.

Lemma munch_nil l : munch [] l = None.
Proof. induction l as [|c l IH]; [done|]. cbn [munch]. unfold derive. cbn. by rewrite IH. Qed.
