(* ===== verification/Lexer.v ===== *)
(** * The lexer macros of [tree_sitter/parser.h]

    A generated parser has a function [ts_lex], a switch over the states of an
    automaton that is written with the macros of [parser.h].
    - [set_contains]: the binary search in a table of ranges;
    - [lex_case], [goto]: a case of the switch, and the three macros that end one;
    - [ts_lex]: [START_LEXER], the switch and the jumps back to [next_state].
    - [implements], [ts_lex_run]: when the cases follow the derivatives of the
      tokens of a grammar, the lexer gives their longest match. *)

From S2P Require Import Prelude Scan Logic Regex.

(** ** Character sets *)

Record TSCharacterRange := mkRange { start : Z; end_ : Z }.

(** [while (size > 1) ...] over [index] and [size]. *)
Fixpoint set_contains_loop (fuel : nat) (ranges : list TSCharacterRange) (index size lookahead : Z) : outcome bool :=
  match fuel with
  | O => OutOfFuel
  | S fuel' =>
      if 1 <? size then
        let half_size := size / 2 in
        let mid_index := to_u32 (index + half_size) in
        match ranges !! Z.to_nat mid_index with
        | None => Undefined
        | Some range =>
            if (start range <=? lookahead) && (lookahead <=? end_ range) then Done true
            else set_contains_loop fuel' ranges (if end_ range <? lookahead then mid_index else index)
                   (to_u32 (size - half_size)) lookahead
        end
      else
        match ranges !! Z.to_nat index with
        | None => Undefined
        | Some range => Done ((start range <=? lookahead) && (lookahead <=? end_ range))
        end
  end.

Definition set_contains (ranges : list TSCharacterRange) (len lookahead : Z) : outcome bool :=
  set_contains_loop (S (Z.to_nat len)) ranges 0 (to_u32 (len - 0)) lookahead.

(** The ranges are in order and do not meet. *)
Fixpoint ranges_sorted (ranges : list TSCharacterRange) : Prop :=
  match ranges with
  | [] => True
  | r :: rs => start r ≤ end_ r ∧ Forall (λ r', end_ r < start r') rs ∧ ranges_sorted rs
  end.

Definition in_range (c : Z) (r : TSCharacterRange) : bool := (start r <=? c) && (c <=? end_ r).

Lemma ranges_sorted_lookup rs i r : ranges_sorted rs → rs !! i = Some r → start r ≤ end_ r.
Proof.
  revert i. induction rs as [|r0 rs IH]; intros i Hs Hi; [done|]. destruct Hs as (H0&_&Hs).
  destruct i as [|i]; cbn in Hi; [by simplify_eq|by eapply IH].
Qed.

Lemma ranges_sorted_lt rs i j r r' : ranges_sorted rs → (i < j)%nat →
  rs !! i = Some r → rs !! j = Some r' → end_ r < start r'.
Proof.
  revert i j. induction rs as [|r0 rs IH]; intros i j Hs Hij Hi Hj; [done|]. destruct Hs as (_&H0&Hs).
  destruct j as [|j]; [lia|]. cbn in Hj. destruct i as [|i]; cbn in Hi.
  - simplify_eq. by eapply Forall_lookup_1 in H0.
  - apply (IH i j); [done|lia|done..].
Qed.

(** The window of the search holds the range of the character, when it has one. *)
Lemma set_contains_window fuel rs index size c : ranges_sorted rs → Z.of_nat (length rs) < 4294967296 →
  0 ≤ index → 0 < size → index + size ≤ Z.of_nat (length rs) → (Z.to_nat size ≤ fuel)%nat →
  (∀ i r, rs !! i = Some r → in_range c r = true → index ≤ Z.of_nat i < index + size) →
  set_contains_loop fuel rs index size c = Done (existsb (in_range c) rs).
Proof.
  intros Hs Hlen. revert index size. induction fuel as [|fuel IH]; intros index size H0 Hsz Hle Hf Hw; [lia|].
  cbn [set_contains_loop]. destruct (1 <? size) eqn:E1.
  - assert (0 < size / 2 < size) as Hh by (pose proof (Z.div_pos size 2); pose proof (Z.div_lt size 2);
      pose proof (Z.div_str_pos size 2); lia).
    assert (size - size / 2 >= size / 2) as Hhh by (pose proof (Z.mul_div_le size 2); lia).
    set (h := size / 2) in *. clearbody h. cbv zeta. rewrite !to_u32_small by lia.
    destruct (lookup_lt_is_Some_2 rs (Z.to_nat (index + h))) as [m Hm]; [lia|]. rewrite Hm.
    destruct (_ && _) eqn:Em.
    + f_equal. symmetry. apply existsb_exists. exists m. split; [by eapply list_elem_of_In, list_elem_of_lookup_2|done].
    + pose proof (ranges_sorted_lookup _ _ _ Hs Hm) as Hmm.
      apply IH; try lia; try (case_match; lia). intros i r Hi Hr. pose proof (Hw i r Hi Hr) as Hwi.
      unfold in_range in Hr. destruct (Nat.lt_trichotomy i (Z.to_nat (index + h))) as [Hlt|[->|Hgt]].
      * pose proof (ranges_sorted_lt _ _ _ _ _ Hs Hlt Hi Hm). case_match; lia.
      * simplify_eq. congruence.
      * pose proof (ranges_sorted_lt _ _ _ _ _ Hs Hgt Hm Hi). case_match; lia.
  - assert (size = 1) as -> by lia. destruct (lookup_lt_is_Some_2 rs (Z.to_nat index)) as [m Hm]; [lia|].
    rewrite Hm. f_equal. change (in_range c m = existsb (in_range c) rs). apply eq_true_iff_eq. rewrite existsb_exists. split.
    + intros H. exists m. split; [by eapply list_elem_of_In, list_elem_of_lookup_2|done].
    + intros (r&Hin&Hr). apply list_elem_of_In, list_elem_of_lookup_1 in Hin as [i Hi].
      pose proof (Hw i r Hi Hr). assert (i = Z.to_nat index) as -> by lia. congruence.
Qed.

(** On a table of ranges that is in order, [set_contains] is membership in one
    of the ranges: the binary search ends, reads inside the table and loses none. *)
Theorem set_contains_is_membership ranges c :
  ranges_sorted ranges → ranges ≠ [] → Z.of_nat (length ranges) < 4294967296 →
  set_contains ranges (Z.of_nat (length ranges)) c = Done (existsb (in_range c) ranges).
Proof.
  intros Hs Hne Hlen. assert (0 < length ranges)%nat by (destruct ranges; cbn; [done|lia]).
  unfold set_contains. rewrite to_u32_small by lia. apply set_contains_window; try done; try lia.
  intros i r Hi _. apply lookup_lt_Some in Hi. lia.
Qed.

(** ** The switch and its loop *)

(** How a case ends: [ADVANCE], [SKIP] or [END_STATE]. *)
Inductive goto : Type := ADVANCE (state : Z) | SKIP (state : Z) | END_STATE.

(** A case starts with at most one [ACCEPT_TOKEN]; then its tests of [eof] and
    [lookahead] choose the end. *)
Record lex_case := mkcase { accept : option Z; next : bool → Z → outcome goto }.

(** [ADVANCE_MAP]: the state behind the first equal character. *)
Fixpoint ADVANCE_MAP (map : list (Z * Z)) (lookahead : Z) (k : outcome goto) : outcome goto :=
  match map with
  | [] => k
  | (c, state) :: map' => if c =? lookahead then Done (ADVANCE state) else ADVANCE_MAP map' lookahead k
  end.

Section lexer.
Context {L S : Type} {HL : TSLexer L}.

(** [ACCEPT_TOKEN] but for [result = true]. *)
Definition ACCEPT_TOKEN (symbol : Z) : M L S unit := set_symbol symbol;; mark_end.

(** From [start] to the end of a case; [None] is [default: return false]. The
    locals that outlive a round are [state] and [result]. *)
Definition lex_round (switch : Z → option lex_case) (s : Z * bool) : M L S ((Z * bool) + bool) :=
  let '(state, result) := s in
  lookahead <- lookahead;; eof <- eof;;
  match switch state with
  | None => ret (inr false)
  | Some k =>
      match accept k with Some symbol => ACCEPT_TOKEN symbol | None => ret tt end;;
      let result := match accept k with Some _ => true | None => result end in
      g <- lift (next k eof lookahead);;
      match g with
      | ADVANCE state => advance_ false;; ret (inl (state, result))
      | SKIP state => advance_ true;; ret (inl (state, result))
      | END_STATE => ret (inr result)
      end
  end.

Definition lex_loop (switch : Z → option lex_case) (state : Z) : M L S bool :=
  iter (lex_round switch) (state, false).
End lexer.

(** ** A switch that implements tokens *)

(** A character of a text: a code point, and not 0, which [lookahead] also is at
    the end of the input. *)
Definition is_char (c : Z) : bool := (1 <=? c) && (c <=? 1114111).

(** The tokens that may still come in each state, whether the state skips white
    space in front of them, and whether the end of the input is a token there. *)
Record lex_spec := mkspec { tokens_of : Z → tokens; skips : Z → bool; ends : Z → bool }.

(** The states of a switch follow the derivatives of the tokens. *)
Record implements (switch : Z → option lex_case) (sp : lex_spec) (states : list Z) : Prop := {
  imp_case s : s ∈ states → ∃ k, switch s = Some k ∧ accept k = accepted (tokens_of sp s);
  imp_next s k c : s ∈ states → switch s = Some k → is_char c = true →
    match next k false c with
    | Done (ADVANCE t) => t ∈ states ∧ tokens_of sp t = derive c (tokens_of sp s) ∧ tokens_of sp t ≠ []
        ∧ skips sp t = false ∧ ends sp t = false ∧ (skips sp s = true → ascii_space c = false)
    | Done (SKIP t) => t = s ∧ skips sp s = true ∧ ascii_space c = true ∧ derive c (tokens_of sp s) = []
    | Done END_STATE => derive c (tokens_of sp s) = [] ∧ (skips sp s = true → ascii_space c = false)
    | _ => False
    end;
  imp_entry s : s ∈ states → skips sp s = true ∨ ends sp s = true → accepted (tokens_of sp s) = None;
  imp_unique s t1 t2 : s ∈ states → t1 ∈ tokens_of sp s → t2 ∈ tokens_of sp s →
    nullable t1.2 = true → nullable t2.2 = true → t1.1 = t2.1;
  imp_eof s k : s ∈ states → switch s = Some k →
    if ends sp s
    then ∃ t k', next k true 0 = Done (ADVANCE t) ∧ (t ∉ states) ∧ switch t = Some k' ∧ accept k' = Some 0
           ∧ next k' true 0 = Done END_STATE
    else next k true 0 = Done END_STATE;
}.

(** What a lexer gives: its result, [result_symbol], and the end and the start of
    the token. *)
Definition lex_answer : Type := bool * Z * option nat * nat.

Definition answer_of (r : bool) (v : view) (y : Z) : lex_answer := (r, y, v_end v, v_start v).

(** The white space is skipped; then come the end of the input or the longest
    match of a token; without a match nothing has changed. *)
Definition lex_result (sp : lex_spec) (s : Z) (b : bool) (v : view) (y : Z) : lex_answer :=
  let w := if skips sp s then adv_span ascii_space true v else v in
  if at_eof w && ends sp s then (true, 0, Some (v_pos w), v_start w)
  else match munch (tokens_of sp s) (v_rest w) with
       | Some (y', n) => (true, y', Some (v_pos w + n)%nat, v_start w)
       | None => (b, y, v_end w, v_start w)
       end.

Section run.
Context {L S : Type} `{HS : TSLexerSpec L}.
Context (switch : Z → option lex_case) (sp : lex_spec) (states : list Z).
Hypothesis Himp : implements switch sp states.

(** Where there is no white space to skip. *)
Lemma lex_result_plain s b v y : (skips sp s = true → ascii_space (look v) = false) →
  lex_result sp s b v y =
    if at_eof v && ends sp s then (true, 0, Some (v_pos v), v_start v)
    else match munch (tokens_of sp s) (v_rest v) with
         | Some (y', n) => (true, y', Some (v_pos v + n)%nat, v_start v)
         | None => (b, y, v_end v, v_start v)
         end.
Proof. intros H. unfold lex_result. destruct (skips sp s); [|done]. by rewrite adv_span_false by auto. Qed.

Lemma lex_result_skip s b v y : rem v ≠ 0%nat → skips sp s = true → ascii_space (look v) = true →
  lex_result sp s b (adv true v) y = lex_result sp s b v y.
Proof. intros Hv Hk Hc. unfold lex_result. rewrite Hk. by rewrite (adv_span_true _ _ v). Qed.

(** The rounds, on the state [s] with the acceptance of its tokens. *)
Definition accepted_view (o : option Z) (v : view) : view := match o with Some _ => mark v | None => v end.
Definition accepted_result (o : option Z) (b : bool) : bool := match o with Some _ => true | None => b end.
Definition accepted_sym (o : option Z) (y : Z) : Z := default y o.

Lemma lex_result_end s b v y : (skips sp s = true → ascii_space (look v) = false) →
  at_eof v && ends sp s = false → munch (tokens_of sp s) (v_rest v) = (λ y, (y, 0%nat)) <$> accepted (tokens_of sp s) →
  let o := accepted (tokens_of sp s) in
  answer_of (accepted_result o b) (accepted_view o v) (accepted_sym o y) = lex_result sp s b v y.
Proof.
  intros Hk He Hm. rewrite lex_result_plain, He, Hm by done. destruct (accepted _); [|done].
  cbn. unfold answer_of. cbn. by rewrite Nat.add_0_r.
Qed.

Lemma lex_result_next s t b c l v y : v_rest v = c :: l → (skips sp s = true → ascii_space c = false) →
  tokens_of sp t = derive c (tokens_of sp s) → skips sp t = false → ends sp t = false →
  let o := accepted (tokens_of sp s) in
  lex_result sp t (accepted_result o b) (adv false (accepted_view o v)) (accepted_sym o y) = lex_result sp s b v y.
Proof.
  intros Hv Hk Ht Hkt Het. destruct v as [pa r st e]. cbn in Hv. subst r. cbv zeta.
  rewrite (lex_result_plain t) by congruence. rewrite (lex_result_plain s) by done. rewrite Het, andb_false_r, Ht. cbn [at_eof v_rest andb munch].
  destruct (accepted (tokens_of sp s)) as [y0|]; cbn; unfold v_pos; cbn;
    destruct (munch _ l) as [[y' n]|]; cbn; by rewrite ?Nat.add_succ_r, ?Nat.add_0_r.
Qed.

(** A state reached at the end of the input, that only accepts it. *)
Definition stops (t : Z) : Prop :=
  (t ∉ states) ∧ ∃ k, switch t = Some k ∧ accept k = Some 0 ∧ next k true 0 = Done END_STATE.

Definition round_post (s : Z) (b : bool) (v : view) (y : Z) (r : (Z * bool) + bool) (v' : view) (y' : Z) : Prop :=
  match r with
  | inl (t, b') => Forall (λ c, is_char c = true) (v_rest v') ∧
      (t ∈ states ∧ (rem v' < rem v)%nat ∧ lex_result sp t b' v' y' = lex_result sp s b v y
       ∨ stops t ∧ v_rest v' = [] ∧ (true, 0, Some (v_pos v'), v_start v') = lex_result sp s b v y)
  | inr r => answer_of r v' y' = lex_result sp s b v y
  end.

Lemma advanced_accepted o v : advanced v (accepted_view o v).
Proof. destruct o; cbn; eauto with scan. Qed.
#[local] Hint Resolve advanced_accepted : scan.
Lemma rest_accepted o v : v_rest (accepted_view o v) = v_rest v. Proof. by destruct o. Qed.
Lemma rem_accepted o v : rem (accepted_view o v) = rem v. Proof. by destruct o. Qed.
Lemma adv_at_eof sk v : at_eof v = true → adv sk v = v. Proof. by destruct v as [? [|] ? ?]. Qed.

Lemma wp_accept n o v y (p : S) Q : Q tt (accepted_view o v) (accepted_sym o y) p →
  wp (match o with Some symbol => ACCEPT_TOKEN symbol | None => ret tt end) n v y p Q.
Proof. intros H. destruct o; unfold ACCEPT_TOKEN; wps; apply H. Qed.

(** One round: the answer stays what it was, or is given. *)
Lemma lex_round_ok n s b v y (p : S) : s ∈ states → Forall (λ c, is_char c = true) (v_rest v) →
  wp (lex_round switch (s, b)) n v y p (λ r v' y' p', p' = p ∧ advanced v v' ∧ round_post s b v y r v' y').
Proof.
  intros Hs Hv. destruct (imp_case _ _ _ Himp s Hs) as (k&Hk&Ha).
  unfold lex_round. wps. rewrite Hk. apply wp_bind, wp_accept, wp_bind. rewrite Ha.
  destruct (v_rest v) as [|c l] eqn:Ev.
  - assert (at_eof v = true ∧ look v = 0) as [He Hl] by (unfold at_eof, look; by rewrite Ev).
    rewrite He, Hl. pose proof (imp_eof _ _ _ Himp s k Hs Hk) as Hend.
    destruct (ends sp s) eqn:Ends.
    + destruct Hend as (t&k'&Hn&Ht&Hst). rewrite Hn. eapply wp_lift; [done|]; cbv beta iota; wps. split; [done|]. split; [eauto with scan|].
      rewrite (imp_entry _ _ _ Himp s Hs) by auto. cbn [accepted_view]. split; [by rewrite rest_adv, Ev|].
      right. split; [by split; [done|exists k']|]. split; [by rewrite rest_adv, Ev|].
      rewrite lex_result_plain by (by rewrite Hl). by rewrite He, Ends, adv_at_eof.
    + rewrite Hend. eapply wp_lift; [done|]; cbv beta iota; wps. split; [done|]. split; [eauto with scan|].
      apply lex_result_end; [by rewrite Hl|by rewrite Ends, andb_false_r|by rewrite Ev].
  - assert (at_eof v = false ∧ look v = c) as [He Hl] by (unfold at_eof, look; by rewrite Ev).
    apply Forall_cons in Hv as [Hc Hv]. rewrite He, Hl.
    pose proof (imp_next _ _ _ Himp s k c Hs Hk Hc) as Hn.
    destruct (next k false c) as [[t|t|]| | |]; try done; (eapply wp_lift; [done|]); cbv beta iota; wps; (split; [done|split; [eauto with scan|]]).
    + destruct Hn as (Ht&HT&_&Hkt&Het&Hsp). split; [by rewrite rest_adv, rest_accepted, Ev|].
      left. split; [done|]. split; [|by eapply lex_result_next].
      rewrite rem_adv, rem_accepted. unfold rem. rewrite Ev. cbn. lia.
    + destruct Hn as (->&Hsk&Hsp&_). rewrite (imp_entry _ _ _ Himp s Hs) by auto. cbn [accepted_view].
      split; [by rewrite rest_adv, Ev|]. left. split; [done|]. assert (rem v = Datatypes.S (length l)) by (unfold rem; by rewrite Ev).
      split; [rewrite rem_adv; lia|]. apply lex_result_skip; [lia|done|by rewrite Hl].
    + destruct Hn as (Hd&Hsp). apply lex_result_end; [by rewrite Hl|by rewrite He|].
      rewrite Ev. cbn [munch]. by rewrite Hd, munch_nil.
Qed.

Lemma lex_round_stops n t b v y (p : S) : stops t → v_rest v = [] →
  wp (lex_round switch (t, b)) n v y p (λ r v' y' p', p' = p ∧ advanced v v'
    ∧ ∃ r', r = inr r' ∧ answer_of r' v' y' = (true, 0, Some (v_pos v), v_start v)).
Proof.
  intros (_&k&Hk&Ha&Hn) Hv. unfold lex_round. wps. rewrite Hk. apply wp_bind, wp_accept, wp_bind.
  assert (at_eof v = true ∧ look v = 0) as [-> ->] by (unfold at_eof, look; by rewrite Hv).
  rewrite Ha, Hn. eapply wp_lift; [done|]; cbv beta iota; wps. split_and!; [done|eauto with scan|by exists true].
Qed.

(** The loop ends, and answers as [lex_result] says. *)
Lemma lex_loop_ok n s v y (p : S) : s ∈ states → Forall (λ c, is_char c = true) (v_rest v) → (rem v + 1 < n)%nat →
  wp (lex_loop switch s) n v y p (λ r v' y' p', p' = p ∧ advanced v v' ∧ answer_of r v' y' = lex_result sp s false v y).
Proof.
  intros Hs Hv Hn. set (target := lex_result sp s false v y).
  apply (wp_iter (λ '(t, b) v' y' p', p' = p ∧ advanced v v' ∧ Forall (λ c, is_char c = true) (v_rest v')
      ∧ (t ∈ states ∧ lex_result sp t b v' y' = target
         ∨ stops t ∧ v_rest v' = [] ∧ (true, 0, Some (v_pos v'), v_start v') = target))
    (λ '(t, _) v', (rem v' + if decide (t ∈ states) then 1 else 0)%nat)).
  - intros [t b] v1 y1 p1 (->&Hadv&Hv1&[[Ht <-]|(Hst&Hv1'&<-)]).
    + eapply wp_mono; [by apply lex_round_ok|]. intros r v2 y2 p2 (->&Ha&Hr).
      assert (advanced v v2) by by etrans. destruct r as [[t' b']|r]; [|by split].
      destruct Hr as (Hv2&[(Ht'&Hlt&E)|(Hst&Hr2&E)]); (split; [split_and!; auto|]).
      * rewrite !decide_True by done. lia.
      * rewrite decide_False, decide_True by (done || apply Hst). unfold rem. rewrite Hr2. cbn. lia.
    + eapply wp_mono; [by apply lex_round_stops|]. intros r v2 y2 p2 (->&Ha&r'&->&?).
      split_and!; [done|by etrans|done].
  - split_and!; auto with scan.
  - rewrite decide_True by done. lia.
Qed.
End run.

(** No two tokens match the same text. *)
Lemma implements_unambiguous switch sp states s l y1 y2 n : implements switch sp states → s ∈ states →
  Forall (λ c, is_char c = true) l →
  prefix_match (tokens_of sp s) l y1 n → prefix_match (tokens_of sp s) l y2 n → y1 = y2.
Proof.
  intros Himp. revert s n. induction l as [|c l IH]; intros s [|n] Hs Hl H1 H2; try (destruct H1 as [H1 _]; cbn in H1; lia).
  1,2: apply prefix_match_0 in H1 as (r1&Hi1&Hm1), H2 as (r2&Hi2&Hm2); rewrite <- nullable_iff in Hm1, Hm2;
    by apply (imp_unique _ _ _ Himp s (y1, r1) (y2, r2)).
  apply Forall_cons in Hl as [Hc Hl]. apply prefix_match_S in H1, H2.
  destruct (imp_case _ _ _ Himp s Hs) as (k&Hk&_). pose proof (imp_next _ _ _ Himp s k c Hs Hk Hc) as Hn.
  destruct (next k false c) as [[t|t|]| | |]; [|..|done|done|done].
  - destruct Hn as (Ht&E&_). rewrite <- E in H1, H2. by apply (IH t n).
  - destruct Hn as (_&_&_&E). rewrite E in H1. destruct H1 as (_&r&Hin&_). by apply elem_of_nil in Hin.
  - destruct Hn as (E&_). rewrite E in H1. destruct H1 as (_&r&Hin&_). by apply elem_of_nil in Hin.
Qed.

(** ** Checking a switch

    The conditions of [implements] on the characters below 128, and 128 for
    those above. *)

Definition goto_ok (sp : lex_spec) (states : list Z) (s c : Z) (o : outcome goto) : bool :=
  let T := derive c (tokens_of sp s) in
  match o with
  | Done (ADVANCE t) => bool_decide (t ∈ states) && bool_decide (tokens_of sp t = T) && bool_decide (T ≠ [])
      && negb (skips sp t) && negb (ends sp t) && negb (skips sp s && ascii_space c)
  | Done (SKIP t) => (t =? s) && skips sp s && ascii_space c && bool_decide (T = [])
  | Done END_STATE => bool_decide (T = []) && negb (skips sp s && ascii_space c)
  | _ => false
  end.

Definition eof_ok (switch : Z → option lex_case) (sp : lex_spec) (states : list Z) (s : Z) (o : outcome goto) : bool :=
  match o with
  | Done (ADVANCE t) => ends sp s && bool_decide (t ∉ states) && match switch t with
      | Some k => bool_decide (accept k = Some 0) && match next k true 0 with Done END_STATE => true | _ => false end
      | None => false
      end
  | Done END_STATE => negb (ends sp s)
  | _ => false
  end.

Definition state_ok (switch : Z → option lex_case) (sp : lex_spec) (states : list Z) (s : Z) : bool :=
  match switch s with
  | None => false
  | Some k =>
      bool_decide (accept k = accepted (tokens_of sp s))
      && forallb (λ c, goto_ok sp states s c (next k false c)) (seqZ 1 128)
      && (negb (skips sp s || ends sp s) || bool_decide (accepted (tokens_of sp s) = None))
      && bool_decide (length (filter (λ t, nullable t.2 = true) (tokens_of sp s)) ≤ 1)%nat
      && eof_ok switch sp states s (next k true 0)
  end.

(** Expressions that treat all characters from 128 alike. *)
Fixpoint low (r : regex) : bool :=
  match r with
  | Void | Eps => true
  | Chars _ rs => forallb (λ r, r.2 <? 128) rs
  | Conc r1 r2 | Plus r1 r2 => low r1 && low r2
  | Star r => low r
  end.

Lemma in_ranges_low rs c : forallb (λ r, r.2 <? 128) rs = true → 128 ≤ c → in_ranges rs c = false.
Proof.
  induction rs as [|r rs IH]; cbn; [done|]. intros [? ?]%andb_true_iff ?.
  fold (in_ranges rs c). rewrite IH by done. destruct (c <=? r.2) eqn:?; [lia|]. by rewrite andb_false_r.
Qed.

Lemma deriv_low r c : low r = true → 128 ≤ c → deriv c r = deriv 128 r.
Proof.
  induction r as [| |b rs|r1 IH1 r2 IH2|r1 IH1 r2 IH2|r IH]; cbn; intros Hl Hc; try done.
  - unfold in_class. by rewrite !in_ranges_low.
  - apply andb_true_iff in Hl as [? ?]. by rewrite IH1, IH2.
  - apply andb_true_iff in Hl as [? ?]. by rewrite IH1, IH2.
  - by rewrite IH.
Qed.

Lemma derive_low T c : forallb (λ t, low t.2) T = true → 128 ≤ c → derive c T = derive 128 T.
Proof.
  intros HT Hc. unfold derive. f_equal. induction T as [|[y r] T IH]; [done|]. cbn in *.
  apply andb_true_iff in HT as [? ?]. by rewrite deriv_low, IH.
Qed.

Lemma nand_iff a b : negb (a && b) = true ↔ (a = true → b = false).
Proof. destruct a, b; split; auto; intros H; by specialize (H eq_refl). Qed.

Lemma goto_ok_sound sp states s c o : goto_ok sp states s c o = true →
  match o with
  | Done (ADVANCE t) => t ∈ states ∧ tokens_of sp t = derive c (tokens_of sp s) ∧ tokens_of sp t ≠ []
      ∧ skips sp t = false ∧ ends sp t = false ∧ (skips sp s = true → ascii_space c = false)
  | Done (SKIP t) => t = s ∧ skips sp s = true ∧ ascii_space c = true ∧ derive c (tokens_of sp s) = []
  | Done END_STATE => derive c (tokens_of sp s) = [] ∧ (skips sp s = true → ascii_space c = false)
  | _ => False
  end.
Proof.
  unfold goto_ok. destruct o as [[t|t|]| | |]; [..|done|done|done]; rewrite ?andb_true_iff, ?nand_iff, ?bool_decide_eq_true, ?negb_true_iff.
  - intros (((((Ht&Hd)&Hne)&?)&?)&?). rewrite Hd. by split_and!.
  - intros (((?&?)&?)&?). split_and!; [lia|done..].
  - done.
Qed.

Lemma eof_ok_sound switch sp states s o : eof_ok switch sp states s o = true →
  if ends sp s
  then ∃ t k', o = Done (ADVANCE t) ∧ (t ∉ states) ∧ switch t = Some k' ∧ accept k' = Some 0
         ∧ next k' true 0 = Done END_STATE
  else o = Done END_STATE.
Proof.
  unfold eof_ok. destruct o as [[t|t|]| | |], (ends sp s); try done. cbn.
  rewrite andb_true_iff, bool_decide_eq_true. intros [Ht H]. destruct (switch t) as [k|] eqn:Hk; [|done].
  rewrite andb_true_iff, bool_decide_eq_true in H. destruct H as [Ha H].
  exists t, k. split_and!; try done. by destruct (next k true 0) as [[| |]| | |].
Qed.

Lemma implements_check switch sp states :
  forallb (state_ok switch sp states) states = true →
  forallb (λ s, forallb (λ t, low t.2) (tokens_of sp s)) states = true →
  (∀ s k c, switch s = Some k → 128 ≤ c ≤ 1114111 → next k false c = next k false 128) →
  implements switch sp states.
Proof.
  rewrite !forallb_forall. intros Hok Hlow Hhigh.
  assert (∀ s, s ∈ states → ∃ k, switch s = Some k ∧ state_ok switch sp states s = true) as Hc.
  { intros s Hs. apply list_elem_of_In, Hok in Hs. unfold state_ok in *. destruct (switch s) as [k|] eqn:E; [by exists k|done]. }
  split.
  - intros s Hs. destruct (Hc s Hs) as (k&Hk&H). unfold state_ok in H. rewrite Hk in H. exists k. split; [done|].
    rewrite !andb_true_iff, bool_decide_eq_true in H. by destruct_and!.
  - intros s k c Hs Hk Hch. destruct (Hc s Hs) as (k'&Hk'&H). simplify_eq. unfold state_ok in H. rewrite Hk in H.
    rewrite !andb_true_iff in H. destruct H as ((((_&H)&_)&_)&_). rewrite forallb_forall in H.
    apply goto_ok_sound. unfold is_char in Hch. destruct (decide (c < 128)) as [Hl|Hl].
    + apply H. apply list_elem_of_In, elem_of_seqZ. lia.
    + rewrite (Hhigh s k c) by (done || lia). specialize (H 128 ltac:(apply list_elem_of_In, elem_of_seqZ; lia)).
      apply list_elem_of_In in Hs. pose proof (derive_low _ c (Hlow s Hs)) as HT.
      unfold goto_ok in *. rewrite HT by lia. replace (ascii_space c) with (ascii_space 128); [done|].
      unfold ascii_space. lia.
  - intros s Hs Hss. destruct (Hc s Hs) as (k&Hk&H). unfold state_ok in H. rewrite Hk in H.
    rewrite !andb_true_iff in H. destruct H as (((_&H)&_)&_).
    replace (skips sp s || ends sp s) with true in H by (by destruct Hss as [-> | ->]; rewrite ?orb_true_r).
    by apply bool_decide_eq_true in H.
  - intros s t1 t2 Hs H1 H2 N1 N2. destruct (Hc s Hs) as (k&Hk&H). unfold state_ok in H. rewrite Hk in H.
    rewrite !andb_true_iff in H. destruct H as ((_&H)&_). apply bool_decide_eq_true in H.
    assert (t1 ∈ filter (λ t, nullable t.2 = true) (tokens_of sp s) ∧ t2 ∈ filter (λ t, nullable t.2 = true) (tokens_of sp s)) as [F1 F2]
      by (by rewrite !list_elem_of_filter).
    destruct (filter _ _) as [|t [|]]; cbn in H; [by apply elem_of_nil in F1| |lia].
    apply list_elem_of_singleton in F1, F2. congruence.
  - intros s k Hs Hk. destruct (Hc s Hs) as (k'&Hk'&H). simplify_eq. unfold state_ok in H. rewrite Hk in H.
    rewrite !andb_true_iff in H. apply eof_ok_sound, H.
Qed.

(** ** The tokens that the lexer finds *)

(** [text] is a token at the front of [rest]. *)
Definition token_at (T : tokens) (rest : list Z) (symbol : Z) (text : list Z) : Prop :=
  ∃ re more, (symbol, re) ∈ T ∧ matches re text ∧ rest = text ++ more.

Lemma prefix_match_token T rest y text : token_at T rest y text → prefix_match T rest y (length text).
Proof.
  intros (re&more&Hin&Hm&->). split; [rewrite length_app; lia|]. exists re. by rewrite take_app_length.
Qed.

Lemma token_prefix_match T rest y n : prefix_match T rest y n → token_at T rest y (take n rest).
Proof. intros [Hn (re&Hin&Hm)]. exists re, (drop n rest). by rewrite take_drop. Qed.

(** The end of the input, or the longest token and the only one with its text. *)
Definition lexed (T : tokens) (at_end : bool) (rest : list Z) (symbol : Z) (text : list Z) : Prop :=
  (at_end = true ∧ rest = [] ∧ symbol = 0 ∧ text = [])
  ∨ token_at T rest symbol text ∧ ∀ symbol' text', token_at T rest symbol' text' →
      (length text' ≤ length text)%nat ∧ (text' = text → symbol' = symbol).

Definition not_lexed (T : tokens) (at_end : bool) (rest : list Z) : Prop :=
  ¬ (at_end = true ∧ rest = []) ∧ ∀ symbol text, ¬ token_at T rest symbol text.

Lemma lex_loop_lexed {L S} `{HS : TSLexerSpec L} switch sp states s n l y (p : S) :
  implements switch sp states → s ∈ states → Forall (λ c, is_char c = true) (v_rest (view_of l)) →
  (rem (view_of l) + 1 < n)%nat → at_start (view_of l) →
  let rest := if skips sp s then drop (span ascii_space (v_rest (view_of l))) (v_rest (view_of l)) else v_rest (view_of l) in
  ∃ r l' y', lex_loop switch s n (mkst l y p) = Done (r, mkst l' y' p)
    ∧ if r then lexed (tokens_of sp s) (ends sp s) rest y' (token_text (view_of l'))
      else not_lexed (tokens_of sp s) (ends sp s) rest.
Proof.
  intros Himp Hs Hc Hn Hst rest.
  destruct (wp_run _ n l y p _ (lex_loop_ok switch sp states Himp n s _ y p Hs Hc Hn)) as (r&l'&y'&?&Hrun&->&Ha&Hr).
  exists r, l', y'. split; [done|]. clear Hrun Hn.
  set (w := if skips sp s then adv_span ascii_space true (view_of l) else view_of l).
  assert (v_rest w = rest ∧ at_start w ∧ text w = text (view_of l)) as (Hw&[Hws Hwe]&Hwt).
  { subst w rest. destruct (skips sp s); [|done].
    split_and!; [by rewrite rest_adv_span|by apply at_start_skip|apply advanced_adv_span]. }
  assert (Forall (λ c, is_char c = true) rest) as Hcr by (subst rest; destruct (skips sp s); [by apply Forall_drop|done]).
  unfold lex_result, answer_of in Hr. fold w in Hr. rewrite Hw in Hr.
  destruct (at_eof w && ends sp s) eqn:He.
  - apply andb_true_iff in He as [He ->]. apply at_eof_rem in He. unfold rem in He. rewrite Hw in He. apply nil_length_inv in He.
    injection Hr as -> -> Hve Hvs. left. split_and!; [done..|].
    rewrite (token_text_split w _ 0); [done|congruence| |destruct Ha; congruence].
    unfold token_end. rewrite Hve. cbn. lia.
  - pose proof (munch_spec (tokens_of sp s) rest) as Hm. destruct (munch _ _) as [[y0 k]|].
    + destruct Hm as [Hm Hl]. injection Hr as -> -> Hve Hvs. right.
      assert (token_text (view_of l') = take k rest) as ->.
      { rewrite (token_text_split w _ k), Hw; [done|congruence| |destruct Ha; congruence]. unfold token_end. by rewrite Hve. }
      assert (length (take k rest) = k) as Hk by (rewrite length_take; destruct Hm; lia).
      split; [by apply token_prefix_match|]. intros y2 text' H2%prefix_match_token. rewrite Hk. split; [by eapply Hl|].
      intros ->. rewrite Hk in H2. by eapply implements_unambiguous.
    + injection Hr as -> -> Hve Hvs. split.
      * intros [Hend Hnil]. rewrite Hend, andb_true_r in He. unfold at_eof in He. by rewrite Hw, Hnil in He.
      * intros y2 text' H2%prefix_match_token. by apply Hm in H2.
Qed.
