(* ===== verification/OpTable.v ===== *)
(** * Tables of operators

    A reference recognition of operators: a table of words, walked character by
    character as far as it goes on. The scanners' decision trees are compared
    with it. *)

From S2P Require Import Prelude Scan Logic.

(** The table entries that go on with the character [c], without it. *)
Definition step (c : Z) (table : list (list Z * bool)) : list (list Z * bool) :=
  omap (λ e, match e with
             | (x :: w, b) => if c =? x then Some (w, b) else None
             | ([], _) => None
             end) table.

(** Whether an entry is read completely, and is an operator. *)
Definition accepts (table : list (list Z * bool)) : bool :=
  existsb (λ e, match e with ([], b) => b | _ => false end) table.

(** The longest walk in the table from the head of the input: its length, and
    whether it ends on an operator. No entry has a NUL character, so that the
    0 read at the end of the input stops the walk. *)
Fixpoint walk (fuel : nat) (table : list (list Z * bool)) (rest : list Z)
  : nat * bool :=
  match fuel with
  | O => (0%nat, accepts table)
  | S fuel' =>
      match step (hd 0 rest) table with
      | [] => (0%nat, accepts table)
      | table' => let '(k, b) := walk fuel' table' (tail rest) in (S k, b)
      end
  end.

(** ** Lemmas and tactics *)

Lemma step_nil c : step c [] = [].
Proof. done. Qed.
Lemma step_cons c x w b t :
  step c ((x :: w, b) :: t) = if c =? x then (w, b) :: step c t else step c t.
Proof. unfold step; simpl. by destruct (c =? x). Qed.
Lemma step_done c b t : step c (([], b) :: t) = step c t.
Proof. done. Qed.

(** Evaluate a walk in an explicit table from what is known of the first
    characters. *)
Ltac walk_steps :=
  repeat (cbn [walk];
    match goal with
    | H : hd 0 ?r = ?k |- context [step (hd 0 ?r) ?t] =>
        rewrite !H;
        let t' := eval vm_compute in (step k t) in change (step k t) with t'
    | |- context [step (hd 0 ?r) ?t] =>
        repeat (first [ match goal with H : (hd 0 r =? _) = _ |- _ => rewrite H end
                      | rewrite step_done | rewrite step_cons ]; cbv iota);
        rewrite step_nil
    end; cbv iota);
  cbn [accepts existsb orb andb]; rewrite ?drop_S_tail, ?drop_0; try reflexivity.

(** Evaluate the C strings of a goal. *)
Ltac cstr_tac :=
  repeat match goal with
  | |- context [cstr ?s] =>
      let t := eval vm_compute in (cstr s) in change (cstr s) with t
  end.

(** Equations on the characters read, from the tests passed. *)
Ltac char_facts :=
  unfold look in *; autorewrite with rest in *;
  repeat match goal with
  | H : _ || _ = true |- _ => apply orb_true_iff in H as [H|H]
  | H : _ || _ = false |- _ => apply orb_false_iff in H as [? ?]
  | H : _ && _ = true |- _ => apply andb_true_iff in H as [? ?]
  | H : (_ =? _) = true |- _ => apply Z.eqb_eq in H
  end.

(** Evaluate the tests of a goal from these equations. *)
Ltac char_eval :=
  repeat match goal with
  | H : hd 0 ?r = _ |- _ => rewrite !H
  | H : _ = false |- _ => rewrite !H
  | H : _ = true |- _ => rewrite !H
  end;
  cbn [Z.eqb Pos.eqb andb orb negb];
  rewrite ?andb_false_r, ?andb_true_r, ?orb_false_r; reflexivity.
