(* ===== verification/Elixir.v ===== *)
(** * The Elixir external scanner

    [crates/tree-sitter-elixir-sqry/grammar-src/scanner.c]. The scanner keeps
    no state between calls: its payload is [unit]. *)

From S2P Require Import Prelude Scan Logic.

Inductive TokenType : Type :=
  | QUOTED_CONTENT_I_SINGLE
  | QUOTED_CONTENT_I_DOUBLE
  | QUOTED_CONTENT_I_HEREDOC_SINGLE
  | QUOTED_CONTENT_I_HEREDOC_DOUBLE
  | QUOTED_CONTENT_I_PARENTHESIS
  | QUOTED_CONTENT_I_CURLY
  | QUOTED_CONTENT_I_SQUARE
  | QUOTED_CONTENT_I_ANGLE
  | QUOTED_CONTENT_I_BAR
  | QUOTED_CONTENT_I_SLASH
  | QUOTED_CONTENT_SINGLE
  | QUOTED_CONTENT_DOUBLE
  | QUOTED_CONTENT_HEREDOC_SINGLE
  | QUOTED_CONTENT_HEREDOC_DOUBLE
  | QUOTED_CONTENT_PARENTHESIS
  | QUOTED_CONTENT_CURLY
  | QUOTED_CONTENT_SQUARE
  | QUOTED_CONTENT_ANGLE
  | QUOTED_CONTENT_BAR
  | QUOTED_CONTENT_SLASH
  | NEWLINE_BEFORE_DO
  | NEWLINE_BEFORE_BINARY_OPERATOR
  | NEWLINE_BEFORE_COMMENT
  | BEFORE_UNARY_OPERATOR
  | NOT_IN
  | QUOTED_ATOM_START.

#[export] Instance TokenType_eq_dec : EqDecision TokenType.
Proof. solve_decision. Defined.

(** The value of an enumerator, which is what [result_symbol] holds. *)
Definition TokenType_to_Z (t : TokenType) : Z :=
  match t with
  | QUOTED_CONTENT_I_SINGLE => 0
  | QUOTED_CONTENT_I_DOUBLE => 1
  | QUOTED_CONTENT_I_HEREDOC_SINGLE => 2
  | QUOTED_CONTENT_I_HEREDOC_DOUBLE => 3
  | QUOTED_CONTENT_I_PARENTHESIS => 4
  | QUOTED_CONTENT_I_CURLY => 5
  | QUOTED_CONTENT_I_SQUARE => 6
  | QUOTED_CONTENT_I_ANGLE => 7
  | QUOTED_CONTENT_I_BAR => 8
  | QUOTED_CONTENT_I_SLASH => 9
  | QUOTED_CONTENT_SINGLE => 10
  | QUOTED_CONTENT_DOUBLE => 11
  | QUOTED_CONTENT_HEREDOC_SINGLE => 12
  | QUOTED_CONTENT_HEREDOC_DOUBLE => 13
  | QUOTED_CONTENT_PARENTHESIS => 14
  | QUOTED_CONTENT_CURLY => 15
  | QUOTED_CONTENT_SQUARE => 16
  | QUOTED_CONTENT_ANGLE => 17
  | QUOTED_CONTENT_BAR => 18
  | QUOTED_CONTENT_SLASH => 19
  | NEWLINE_BEFORE_DO => 20
  | NEWLINE_BEFORE_BINARY_OPERATOR => 21
  | NEWLINE_BEFORE_COMMENT => 22
  | BEFORE_UNARY_OPERATOR => 23
  | NOT_IN => 24
  | QUOTED_ATOM_START => 25
  end.

(** ** Character tests *)

Definition is_whitespace (c : Z) : bool :=
  (c =? " ") || (c =? TAB) || (c =? LF) || (c =? CR).

Definition is_inline_whitespace (c : Z) : bool := (c =? " ") || (c =? TAB).

Definition is_newline (c : Z) : bool := (c =? LF) || (c =? CR).

Definition is_digit (c : Z) : bool := ("0" <=? c) && (c <=? "9").

Definition token_terminators : list Z :=
  [ "@"; "."; "+"; "-"; "^"; "-"; "*"; "/"; "<"; ">"; "|"; "~"; "="; "&";
    BACKSLASH; "%";
    "{"; "}"; "["; "]"; "("; ")"; DQUOTE; "'";
    ","; ";";
    "#" ].

Definition is_token_end (c : Z) : bool :=
  existsb (λ t, c =? t) token_terminators || is_whitespace c.

(** ** Quoted content descriptors *)

Record QuotedContentInfo := {
  token_type : TokenType;
  supports_interpol : bool;
  end_delimiter : Z;
  delimiter_length : Z;
}.

Definition quoted_content_infos : list QuotedContentInfo :=
  [ Build_QuotedContentInfo QUOTED_CONTENT_I_SINGLE         true  "'" 1;
    Build_QuotedContentInfo QUOTED_CONTENT_I_DOUBLE         true  DQUOTE 1;
    Build_QuotedContentInfo QUOTED_CONTENT_I_HEREDOC_SINGLE true  "'" 3;
    Build_QuotedContentInfo QUOTED_CONTENT_I_HEREDOC_DOUBLE true  DQUOTE 3;
    Build_QuotedContentInfo QUOTED_CONTENT_I_PARENTHESIS    true  ")" 1;
    Build_QuotedContentInfo QUOTED_CONTENT_I_CURLY          true  "}" 1;
    Build_QuotedContentInfo QUOTED_CONTENT_I_SQUARE         true  "]" 1;
    Build_QuotedContentInfo QUOTED_CONTENT_I_ANGLE          true  ">" 1;
    Build_QuotedContentInfo QUOTED_CONTENT_I_BAR            true  "|" 1;
    Build_QuotedContentInfo QUOTED_CONTENT_I_SLASH          true  "/" 1;
    Build_QuotedContentInfo QUOTED_CONTENT_SINGLE           false "'" 1;
    Build_QuotedContentInfo QUOTED_CONTENT_DOUBLE           false DQUOTE 1;
    Build_QuotedContentInfo QUOTED_CONTENT_HEREDOC_SINGLE   false "'" 3;
    Build_QuotedContentInfo QUOTED_CONTENT_HEREDOC_DOUBLE   false DQUOTE 3;
    Build_QuotedContentInfo QUOTED_CONTENT_PARENTHESIS      false ")" 1;
    Build_QuotedContentInfo QUOTED_CONTENT_CURLY            false "}" 1;
    Build_QuotedContentInfo QUOTED_CONTENT_SQUARE           false "]" 1;
    Build_QuotedContentInfo QUOTED_CONTENT_ANGLE            false ">" 1;
    Build_QuotedContentInfo QUOTED_CONTENT_BAR              false "|" 1;
    Build_QuotedContentInfo QUOTED_CONTENT_SLASH            false "/" 1 ].

(** The [for] loop of [find_quoted_token_info], from index [i]. *)
Fixpoint find_info (valid_symbols : TokenType → bool)
    (infos : list QuotedContentInfo) (i : Z) : Z :=
  match infos with
  | [] => -1
  | info :: infos' =>
      if valid_symbols (token_type info) then i
      else find_info valid_symbols infos' (i + 1)
  end.

Definition find_quoted_token_info (valid_symbols : TokenType → bool) : Z :=
  if valid_symbols QUOTED_CONTENT_I_SINGLE && valid_symbols QUOTED_CONTENT_I_DOUBLE
  then -1
  else find_info valid_symbols quoted_content_infos 0.

(** ** Scanning functions *)

Section scanner.
Context {L : Type} {HL : TSLexer L}.

Definition advance : M L unit unit := advance_ false.
Definition skip : M L unit unit := advance_ true.
Definition set_result (t : TokenType) : M L unit unit :=
  set_symbol (TokenType_to_Z t).

Definition check_keyword_end : M L unit bool :=
  c <- lookahead;;
  if c =? ":" then
    advance;;
    c <- lookahead;;
    ret (is_whitespace c)
  else ret false.

Definition check_operator_end : M L unit bool :=
  c <- lookahead;;
  if c =? ":" then
    b <- check_keyword_end;;
    ret (negb b)
  else
    while_look is_inline_whitespace false;;
    c <- lookahead;;
    if c =? "/" then
      advance;;
      while_look is_whitespace false;;
      c <- lookahead;;
      ret (negb (is_digit c))
    else ret true.

(** The inner loop of [scan_quoted_content]: the number of consecutive
    delimiter characters, capped by the delimiter's length. *)
Definition scan_delimiter (info : QuotedContentInfo) : M L unit Z :=
  iter (λ length : Z,
    if length <? delimiter_length info then
      advance;;
      c <- lookahead;;
      if c =? end_delimiter info then ret (inl (length + 1))
      else ret (inr length)
    else ret (inr length)) 1.

(** A round of the loop of [scan_quoted_content] once the line breaks are
    read: [inr] returns from the function, [inl] goes on with the next value
    of [has_content]. *)
Definition quoted_char (info : QuotedContentInfo) (has_content newline : bool)
  : M L unit (bool + bool) :=
  let is_heredoc := delimiter_length info =? 3 in
  mark_end;;
  c <- lookahead;;
  if c =? end_delimiter info then
    length <- scan_delimiter info;;
    if (length =? delimiter_length info) && (negb is_heredoc || newline)
    then ret (inr has_content)
    else ret (inl true)
  else if c =? "#" then
    advance;;
    c <- lookahead;;
    if supports_interpol info && (c =? "{") then ret (inr has_content)
    else ret (inl true)
  else if c =? BACKSLASH then
    advance;;
    c <- lookahead;;
    if is_heredoc && (c =? LF) then ret (inl true)
    else if supports_interpol info || (c =? end_delimiter info)
    then ret (inr has_content)
    else ret (inl true)
  else if c =? NUL then ret (inr has_content)
  else
    advance;;
    ret (inl true).

Definition quoted_body (info : QuotedContentInfo) (has_content : bool)
  : M L unit (bool + bool) :=
  c <- lookahead;;
  if is_newline c then
    advance;;
    while_look is_whitespace false;;
    quoted_char info true true
  else quoted_char info has_content false.

Definition scan_quoted_content (info : QuotedContentInfo) : M L unit bool :=
  set_result (token_type info);;
  iter (quoted_body info) false.

(** The second half of the symbol operators of [scan_newline], from [^^^];
    [None] when no test of the chain matched, so that the word operators are
    tried. *)
Definition scan_symbol_operator_rest (c : Z) : M L unit (option bool) :=
  let operator_end := b <- check_operator_end;; ret (Some b) in
  let no_operator := ret (Some false) in
  (* ^^^ *)
  if c =? "^" then
    advance;; c <- lookahead;;
    if c =? "^" then
      advance;; c <- lookahead;;
      if c =? "^" then advance;; operator_end else no_operator
    else no_operator
  (* !=, !== *)
  else if c =? "!" then
    advance;; c <- lookahead;;
    if c =? "=" then
      advance;; c <- lookahead;;
      if c =? "=" then advance;; operator_end else operator_end
    else no_operator
  (* ~>, ~>> *)
  else if c =? "~" then
    advance;; c <- lookahead;;
    if c =? ">" then
      advance;; c <- lookahead;;
      if c =? ">" then advance;; operator_end else operator_end
    else no_operator
  (* |, ||, |||, |> *)
  else if c =? "|" then
    advance;; c <- lookahead;;
    if c =? "|" then
      advance;; c <- lookahead;;
      if c =? "|" then advance;; operator_end else operator_end
    else if c =? ">" then advance;; operator_end
    else operator_end
  (* *, ** *)
  else if c =? "*" then
    advance;; c <- lookahead;;
    if c =? "*" then advance;; operator_end else operator_end
  (* / // *)
  else if c =? "/" then
    advance;; c <- lookahead;;
    if c =? "/" then advance;; operator_end else operator_end
  (* ., .. *)
  else if c =? "." then
    advance;; c <- lookahead;;
    if c =? "." then
      advance;; c <- lookahead;;
      if c =? "." then no_operator else operator_end
    else operator_end
  (* double slash *)
  else if c =? BACKSLASH then
    advance;; c <- lookahead;;
    if c =? BACKSLASH then advance;; operator_end else no_operator
  else ret None.

(** The tail of [scan_newline] for operators made of symbols, from the
    character read after the white space. *)
Definition scan_symbol_operator (c : Z) : M L unit (option bool) :=
  let operator_end := b <- check_operator_end;; ret (Some b) in
  let no_operator := ret (Some false) in
  (* &&, &&& *)
  if c =? "&" then
    advance;; c <- lookahead;;
    if c =? "&" then
      advance;; c <- lookahead;;
      if c =? "&" then advance;; operator_end else operator_end
    else no_operator
  (* =, ==, ===, =~, => *)
  else if c =? "=" then
    advance;; c <- lookahead;;
    if c =? "=" then
      advance;; c <- lookahead;;
      if c =? "=" then advance;; operator_end else operator_end
    else if c =? "~" then advance;; operator_end
    else if c =? ">" then advance;; operator_end
    else operator_end
  (* :: *)
  else if c =? ":" then
    advance;; c <- lookahead;;
    if c =? ":" then
      advance;; c <- lookahead;;
      if c =? ":" then no_operator else operator_end
    else no_operator
  (* ++, +++ *)
  else if c =? "+" then
    advance;; c <- lookahead;;
    if c =? "+" then
      advance;; c <- lookahead;;
      if c =? "+" then advance;; operator_end else operator_end
    else no_operator
  (* --, ---, -> *)
  else if c =? "-" then
    advance;; c <- lookahead;;
    if c =? "-" then
      advance;; c <- lookahead;;
      if c =? "-" then advance;; operator_end else operator_end
    else if c =? ">" then advance;; operator_end
    else no_operator
  (* <, <=, <-, <>, <~, <~>, <|>, <<<, <<~ *)
  else if c =? "<" then
    advance;; c <- lookahead;;
    if (c =? "=") || (c =? "-") || (c =? ">") then advance;; operator_end
    else if c =? "~" then
      advance;; c <- lookahead;;
      if c =? ">" then advance;; operator_end else operator_end
    else if c =? "|" then
      advance;; c <- lookahead;;
      if c =? ">" then advance;; operator_end else no_operator
    else if c =? "<" then
      advance;; c <- lookahead;;
      if (c =? "<") || (c =? "~") then advance;; operator_end else no_operator
    else operator_end
  (* >, >=, >>> *)
  else if c =? ">" then
    advance;; c <- lookahead;;
    if c =? "=" then advance;; operator_end
    else if c =? ">" then
      advance;; c <- lookahead;;
      if c =? ">" then advance;; operator_end else no_operator
    else operator_end
  else scan_symbol_operator_rest c.

(** The word operators: [when], [and], [or], [in], [not in]. *)
Definition scan_word_operator (c : Z) : M L unit bool :=
  let word_end :=
    c <- lookahead;;
    if is_token_end c then check_operator_end else ret false in
  let no_operator := ret false in
  if c =? "w" then
    advance;; c <- lookahead;;
    if c =? "h" then
      advance;; c <- lookahead;;
      if c =? "e" then
        advance;; c <- lookahead;;
        if c =? "n" then advance;; word_end else no_operator
      else no_operator
    else no_operator
  else if c =? "a" then
    advance;; c <- lookahead;;
    if c =? "n" then
      advance;; c <- lookahead;;
      if c =? "d" then advance;; word_end else no_operator
    else no_operator
  else if c =? "o" then
    advance;; c <- lookahead;;
    if c =? "r" then advance;; word_end else no_operator
  else if c =? "i" then
    advance;; c <- lookahead;;
    if c =? "n" then advance;; word_end else no_operator
  else if c =? "n" then
    advance;; c <- lookahead;;
    if c =? "o" then
      advance;; c <- lookahead;;
      if c =? "t" then
        advance;;
        while_look is_inline_whitespace false;;
        c <- lookahead;;
        if c =? "i" then
          advance;; c <- lookahead;;
          if c =? "n" then advance;; word_end else no_operator
        else no_operator
      else no_operator
    else no_operator
  else no_operator.

Definition scan_newline (valid_symbols : TokenType → bool) : M L unit bool :=
  advance;;
  while_look is_whitespace false;;
  mark_end;;
  c <- lookahead;;
  if c =? "#" then
    set_result NEWLINE_BEFORE_COMMENT;;
    ret true
  else if (c =? "d") && valid_symbols NEWLINE_BEFORE_DO then
    set_result NEWLINE_BEFORE_DO;;
    advance;;
    c <- lookahead;;
    if c =? "o" then
      advance;;
      c <- lookahead;;
      ret (is_token_end c)
    else ret false
  else if valid_symbols NEWLINE_BEFORE_BINARY_OPERATOR then
    set_result NEWLINE_BEFORE_BINARY_OPERATOR;;
    r <- scan_symbol_operator c;;
    match r with
    | Some b => ret b
    | None => scan_word_operator c
    end
  else ret false.

(** The part of [scan] that recognises the zero-width and word tokens,
    after the inline white space. *)
Definition scan_before_operator (valid_symbols : TokenType → bool)
    (skipped_whitespace : bool) : M L unit bool :=
  c <- lookahead;;
  if c =? "+" then
    if skipped_whitespace && valid_symbols BEFORE_UNARY_OPERATOR then
      mark_end;;
      advance;;
      c <- lookahead;;
      if (c =? "+") || (c =? ":") || (c =? "/") then ret false
      else if is_whitespace c then ret false
      else
        set_result BEFORE_UNARY_OPERATOR;;
        ret true
    else ret false
  else if c =? "-" then
    if skipped_whitespace && valid_symbols BEFORE_UNARY_OPERATOR then
      mark_end;;
      set_result BEFORE_UNARY_OPERATOR;;
      advance;;
      c <- lookahead;;
      if (c =? "-") || (c =? ">") || (c =? ":") || (c =? "/") then ret false
      else if is_whitespace c then ret false
      else ret true
    else ret false
  else if c =? "n" then
    if valid_symbols NOT_IN then
      set_result NOT_IN;;
      advance;;
      c <- lookahead;;
      if c =? "o" then
        advance;; c <- lookahead;;
        if c =? "t" then
          advance;;
          while_look is_inline_whitespace false;;
          c <- lookahead;;
          if c =? "i" then
            advance;; c <- lookahead;;
            if c =? "n" then
              advance;; c <- lookahead;;
              ret (is_token_end c)
            else ret false
          else ret false
        else ret false
      else ret false
    else ret false
  else if c =? ":" then
    if valid_symbols QUOTED_ATOM_START then
      advance;;
      mark_end;;
      set_result QUOTED_ATOM_START;;
      c <- lookahead;;
      ret ((c =? DQUOTE) || (c =? "'"))
    else ret false
  else ret false.

(** The loop over inline white space records whether it ran. *)
Definition skip_inline_whitespace : M L unit bool :=
  iter (λ skipped_whitespace : bool,
    c <- lookahead;;
    if is_inline_whitespace c then skip;; ret (inl true)
    else ret (inr skipped_whitespace)) false.

Definition scan (valid_symbols : TokenType → bool) : M L unit bool :=
  let quoted_content_info_idx := find_quoted_token_info valid_symbols in
  if negb (quoted_content_info_idx =? -1) then
    match quoted_content_infos !! Z.to_nat quoted_content_info_idx with
    | Some info => scan_quoted_content info
    | None => undefined
    end
  else
    skipped_whitespace <- skip_inline_whitespace;;
    c <- lookahead;;
    if is_newline c && (valid_symbols NEWLINE_BEFORE_DO
         || valid_symbols NEWLINE_BEFORE_BINARY_OPERATOR
         || valid_symbols NEWLINE_BEFORE_COMMENT)
    then scan_newline valid_symbols
    else scan_before_operator valid_symbols skipped_whitespace.

Definition tree_sitter_elixir_external_scanner_create : unit := tt.

Definition tree_sitter_elixir_external_scanner_scan
    (valid_symbols : TokenType → bool) : M L unit bool :=
  scan valid_symbols.

(** The bytes written to the buffer, whose number is the returned size. *)
Definition tree_sitter_elixir_external_scanner_serialize (payload : unit)
  : list Z := [].

Definition tree_sitter_elixir_external_scanner_deserialize
    (payload : unit) (buffer : list Z) : unit := tt.

Definition tree_sitter_elixir_external_scanner_destroy (payload : unit) : unit := tt.
End scanner.
