(* ===== verification/ElixirSpec.v ===== *)
(** * Reference specification of the Elixir scanner

    - The operators before which a line break is insignificant, as a table, and
      the recognition of one of them at the head of the input by walking the
      table, independent of the scanner's decision tree.
    - The extent of quoted content, by a predicate on positions that says where
      it stops. *)

From S2P Require Import Prelude Scan Logic OpTable Elixir.

(** The binary operators made of symbols. The entries marked [false] are not
    operators, but longer tokens that hide one. *)
Definition symbol_operators : list (list Z * bool) :=
  ((λ s, (cstr s, true)) <$>
    [ "&&"; "&&&"; "="; "=="; "==="; "=~"; "=>"; "::"; "++"; "+++"; "--"; "---";
      "->"; "<"; "<="; "<-"; "<>"; "<~"; "<~>"; "<|>"; "<<<"; "<<~"; ">"; ">=";
      ">>>"; "^^^"; "!="; "!=="; "~>"; "~>>"; "|"; "||"; "|||"; "|>"; "*"; "**";
      "/"; "//"; "."; ".."; "\\" ]%string)
  ++ [(cstr ":::", false); (cstr "...", false)].

(** An operator is usable when it is neither a keyword-list key nor the
    operand of an [op/arity] reference. *)
Definition operator_ends (rest : list Z) : bool :=
  if hd 0 rest =? ":" then negb (is_whitespace (hd 0 (tail rest)))
  else
    let rest := drop (span is_inline_whitespace rest) rest in
    if hd 0 rest =? "/" then
      let rest := tail rest in
      negb (is_digit (hd 0 (drop (span is_whitespace rest) rest)))
    else true.

(** [None]: no symbol operator starts here. *)
Definition symbol_operator (rest : list Z) : option bool :=
  match walk 4 symbol_operators rest with
  | (O, _) => None
  | (k, b) => Some (b && operator_ends (drop k rest))
  end.

(** [w], which has no NUL, is a prefix of the input. *)
Fixpoint starts_with (w rest : list Z) : bool :=
  match w with
  | [] => true
  | x :: w' => (hd 0 rest =? x) && starts_with w' (tail rest)
  end.

(** The word [w] with a token end behind it, then an operator end. *)
Definition word_operator (w rest : list Z) : bool :=
  let rest' := drop (length w) rest in
  starts_with w rest && is_token_end (hd 0 rest') && operator_ends rest'.

(** [not in], with any inline white space between the two words. *)
Definition not_in (rest : list Z) : bool :=
  let rest' := drop 3 rest in
  starts_with (cstr "not") rest
  && word_operator (cstr "in") (drop (span is_inline_whitespace rest') rest').

Definition binary_operator (rest : list Z) : bool :=
  match symbol_operator rest with
  | Some b => b
  | None =>
      word_operator (cstr "when") rest || word_operator (cstr "and") rest
      || word_operator (cstr "or") rest || word_operator (cstr "in") rest
      || not_in rest
  end.

(** What a line break turns into, given the input after it and the white space
    that follows: the result, and the symbol written if any. *)
Definition newline_token (valid_symbols : TokenType → bool) (rest : list Z)
  : bool * option TokenType :=
  if hd 0 rest =? "#" then (true, Some NEWLINE_BEFORE_COMMENT)
  else if (hd 0 rest =? "d") && valid_symbols NEWLINE_BEFORE_DO then
    (starts_with (cstr "do") rest && is_token_end (hd 0 (drop 2 rest)),
     Some NEWLINE_BEFORE_DO)
  else if valid_symbols NEWLINE_BEFORE_BINARY_OPERATOR then
    (binary_operator rest, Some NEWLINE_BEFORE_BINARY_OPERATOR)
  else (false, None).

(** ** Quoted content *)

(** Quoted content stops before this input. [newline]: the position is behind a
    line break and the white space that follows it. *)
Definition quoted_stop (info : QuotedContentInfo) (newline : bool) (rest : list Z)
  : bool :=
  let c := hd 0 rest in
  let c1 := hd 0 (tail rest) in
  let c2 := hd 0 (tail (tail rest)) in
  let is_heredoc := delimiter_length info =? 3 in
  if c =? end_delimiter info then
    if is_heredoc
    then newline && (c1 =? end_delimiter info) && (c2 =? end_delimiter info)
    else true
  else if c =? "#" then supports_interpol info && (c1 =? "{")
  else if c =? BACKSLASH then
    negb (is_heredoc && (c1 =? LF))
    && (supports_interpol info || (c1 =? end_delimiter info))
  else c =? NUL.

(** The number of characters before the first position where it stops. *)
Fixpoint quoted_length (info : QuotedContentInfo) (newline : bool) (rest : list Z)
  : nat :=
  match rest with
  | [] => 0%nat
  | c :: rest' =>
      if is_newline c || newline && is_whitespace c
      then S (quoted_length info true rest')
      else if quoted_stop info newline rest then 0%nat
      else S (quoted_length info false rest')
  end.
