(* ===== verification/ElixirProofs.v ===== *)
(** * Properties of the Elixir external scanner *)

From S2P Require Import Prelude Scan Logic OpTable Elixir ElixirSpec.

Ltac wp_hook ::=
  first [ progress unfold advance | progress unfold skip | progress unfold set_result ].

Section scanner.
Context {L : Type} {HL : TSLexer L} {HS : TSLexerSpec L}.
Context (I : unit → Prop).

#[export] Instance reads_elixir_advance : Reads I advance.
Proof. apply _. Qed.
#[export] Instance reads_elixir_skip : Reads I skip.
Proof. apply _. Qed.
#[export] Instance reads_elixir_set_result t : Reads I (set_result t).
Proof. apply _. Qed.
#[export] Instance reads_check_keyword_end : Reads I check_keyword_end.
Proof. unfold check_keyword_end. apply _. Qed.
#[export] Instance reads_check_operator_end : Reads I check_operator_end.
Proof. unfold check_operator_end. apply _. Qed.
#[export] Instance reads_scan_symbol_operator c : Reads I (scan_symbol_operator c).
Proof. unfold scan_symbol_operator, scan_symbol_operator_rest. apply _. Qed.
#[export] Instance reads_scan_word_operator c : Reads I (scan_word_operator c).
Proof. unfold scan_word_operator. apply _. Qed.
#[export] Instance reads_scan_newline vs : Reads I (scan_newline vs).
Proof. unfold scan_newline. apply _. Qed.
#[export] Instance reads_scan_before_operator vs b :
  Reads I (scan_before_operator vs b).
Proof. unfold scan_before_operator. apply _. Qed.

#[export] Instance reads_skip_inline_whitespace : Reads I skip_inline_whitespace.
Proof.
  apply reads_iter. intros b n v y s Hn Hs. wp_reads.
Qed.

(** What every descriptor of [quoted_content_infos] satisfies. *)
Definition info_ok (info : QuotedContentInfo) : Prop :=
  end_delimiter info ≠ 0 ∧ (delimiter_length info = 1 ∨ delimiter_length info = 3).

Existing Class info_ok.

Lemma scan_delimiter_spec info n v y s :
  info_ok info → look v = end_delimiter info → (rem v < n)%nat → I s →
  wp (scan_delimiter info) n v y s (λ r v' _ s',
    advanced v v' ∧ I s' ∧ (delimiter_length info = 1 → r = 1)
    ∧ (delimiter_length info = 3 → (rem v' < rem v)%nat)).
Proof.
  intros [He Hd] Hv Hn Hs.
  apply (wp_iter (λ k v' _ s', advanced v v' ∧ I s' ∧ look v' = end_delimiter info
      ∧ (k = 1 ∨ (rem v' < rem v)%nat) ∧ (delimiter_length info = 1 → k = 1))
    (λ _ v', rem v')); [|by split_and!; auto|done].
  intros k v1 y1 s1 (Ha&Hs1&Hl&Hk&Hk1).
  assert (0 < rem v1)%nat by (apply look_pos; congruence).
  wp_reads; repeat split; eauto with scan; try rem_tac.
  all: try (apply Z.eqb_eq in E0; congruence).
  all: intros; try rem_tac.
  all: rewrite ?Z.ltb_lt, ?Z.ltb_ge in *; try lia.
Qed.

#[export] Instance progress_quoted_char info has_content newline :
  info_ok info → Progress I (quoted_char info has_content newline).
Proof.
  intros Hi n v y s Hn Hs. pose proof Hi as [He Hd]. unfold quoted_char.
  wps; try reads_leaf.
  eapply wp_mono; [apply (scan_delimiter_spec info); [done|by apply Z.eqb_eq|done|done]|].
  intros k v' y' s' (Ha&Hs'&H1&H3). cbv beta.
  assert (advanced v v') by (etrans; [apply advanced_mark|done]).
  wps; reads_leaf.
Qed.

#[export] Instance progress_quoted_body info has_content :
  info_ok info → Progress I (quoted_body info has_content).
Proof.
  intros Hi n v y s Hn Hs. unfold quoted_body.
  wps; [|by apply progress_quoted_char]. wp_call.
  eapply wp_mono; [apply progress_quoted_char; [done|rem_tac|done]|].
  intros r v' y' s' (Ha&Hs'&Hr). cbv beta. split_and!; [|done|].
  - do 2 (etrans; [|done]). auto with scan.
  - destruct r; [|done]. rem_tac.
Qed.

Lemma reads_scan_quoted_content info :
  info_ok info → Reads I (scan_quoted_content info).
Proof. intros Hi. unfold scan_quoted_content. apply _. Qed.

Lemma quoted_content_infos_ok : Forall info_ok quoted_content_infos.
Proof.
  unfold quoted_content_infos.
  repeat apply Forall_cons_2; [..|apply Forall_nil_2]; (split; [done|by auto]).
Qed.

Lemma find_info_bounds vs infos i :
  find_info vs infos i = -1
  ∨ (i ≤ find_info vs infos i < i + Z.of_nat (length infos)).
Proof.
  revert i. induction infos as [|info infos IH]; intros i; simpl; [by left|].
  destruct (vs _); [lia|]. destruct (IH (i + 1)); [by left|lia].
Qed.

#[export] Instance reads_scan vs : Reads I (scan vs).
Proof.
  unfold scan. destruct (negb _) eqn:E; [|apply _].
  assert (∃ info, quoted_content_infos !! Z.to_nat (find_quoted_token_info vs) = Some info)
    as [info Hinfo].
  { apply lookup_lt_is_Some. unfold find_quoted_token_info in *.
    destruct (_ && _); [done|].
    destruct (find_info_bounds vs quoted_content_infos 0) as [Hm|Hm];
      [by rewrite Hm in E|simpl in *; lia]. }
  rewrite Hinfo. apply reads_scan_quoted_content.
  eapply Forall_lookup_1; [apply quoted_content_infos_ok|done].
Qed.
End scanner.

(** ** The line-break operators *)

(** [symbol_operators] with its entries evaluated. *)
Definition symbol_table : list (list Z * bool) := Eval vm_compute in symbol_operators.

Lemma symbol_operators_eq : symbol_operators = symbol_table.
Proof. vm_compute. reflexivity. Qed.

Ltac walk_tac := rewrite symbol_operators_eq; unfold symbol_table; walk_steps.

Section newline.
Context {L : Type} {HL : TSLexer L} {HS : TSLexerSpec L}.

(** The result is [r], the symbol and the end mark are kept. *)
Definition answers {A} (v : view) (y : Z) (a : A) : post (S := unit) A :=
  λ r v' y' _, r = a ∧ y' = y ∧ v_end v' = v_end v.

Lemma wp_check_operator_end n v y s :
  (rem v < n)%nat →
  wp check_operator_end n v y s (answers v y (operator_ends (v_rest v))).
Proof.
  intros Hn. unfold check_operator_end, check_keyword_end, operator_ends, answers.
  wps.
  - unfold look in *. rewrite E. autorewrite with rest. auto.
  - apply wp_while_look; [done|done|]. wps.
    + apply wp_while_look; [done|fuel_tac|]. wps.
      unfold look in *. autorewrite with rest in *. rewrite E, E0. auto.
    + unfold look in *. autorewrite with rest in *. rewrite E, E0. auto.
Qed.

Lemma wp_scan_symbol_operator n v y s :
  (rem v < n)%nat →
  wp (scan_symbol_operator (look v)) n v y s (λ r v' y' s',
    answers v y (symbol_operator (v_rest v)) r v' y' s' ∧ (r = None → v' = v)).
Proof.
  intros Hn. unfold scan_symbol_operator, scan_symbol_operator_rest. wps.
  all: try (eapply wp_mono; [apply wp_check_operator_end; fuel_tac|
     intros b v' y' s' (->&->&Hv); cbv beta; apply wp_ret]).
  all: unfold answers; char_facts.
  all: (split; [|by intros]; split; [|by auto]); unfold symbol_operator; walk_tac.
Qed.

Lemma wp_scan_word_operator n v y s :
  (rem v < n)%nat →
  wp (scan_word_operator (look v)) n v y s
    (answers v y (word_operator (cstr "when") (v_rest v)
      || word_operator (cstr "and") (v_rest v) || word_operator (cstr "or") (v_rest v)
      || word_operator (cstr "in") (v_rest v) || not_in (v_rest v))).
Proof.
  intros Hn. unfold scan_word_operator.
  wps; try (apply wp_while_look; [done|fuel_tac|]; wps).
  all: try (eapply wp_mono; [apply wp_check_operator_end; fuel_tac|
     intros b v' y' s' (->&->&Hv); cbv beta ]).
  all: unfold answers; char_facts.
  all: (split; [|by auto]); unfold not_in, word_operator; cstr_tac; cbn [length starts_with];
    rewrite ?drop_S_tail, ?drop_0; char_eval.
Qed.

(** The view behind the line break and the white space after it. *)
Definition after_newline (v : view) : view :=
  adv_span is_whitespace false (adv false v).

Lemma wp_scan_newline vs n v y s :
  (rem v < n)%nat →
  wp (scan_newline vs) n v y s (λ r v' y' _,
    let '(b, t) := newline_token vs (v_rest (after_newline v)) in
    r = b ∧ y' = default y (TokenType_to_Z <$> t)
    ∧ v_end v' = Some (v_pos (after_newline v))).
Proof.
  intros Hn. unfold scan_newline, newline_token, after_newline.
  wps. apply wp_while_look; [done|fuel_tac|].
  assert (rem (adv_span is_whitespace false (adv false v)) < n)%nat as Hn1 by fuel_tac.
  revert Hn1. generalize (adv_span is_whitespace false (adv false v)) as v1. clear Hn.
  intros v1 Hn. change (hd 0 (v_rest v1)) with (look v1).
  wps; rewrite ?look_mark in *;
    repeat match goal with H : _ = _ |- _ => rewrite H end; [by auto|..|by auto].
  - char_facts. (split; [|by auto]). cstr_tac. cbn [starts_with].
    rewrite ?drop_S_tail, ?drop_0. char_eval.
  - char_facts. (split; [|by auto]). cstr_tac. cbn [starts_with]. char_eval.
  - eapply wp_mono; [by apply (wp_scan_symbol_operator n (mark v1))|].
    intros r v' y' s' [(->&->&Hv) Hnone]. cbv beta. unfold binary_operator.
    change (v_rest (mark v1)) with (v_rest v1) in *.
    destruct (symbol_operator (v_rest v1)) as [b|]; [by apply wp_ret|].
    rewrite Hnone by done.
    eapply wp_mono; [by apply (wp_scan_word_operator n (mark v1))|].
    by intros r v2 y2 s2 (->&->&->).
Qed.
End newline.

(** ** Quoted content *)

Section quoted.
Context {L : Type} {HL : TSLexer L} {HS : TSLexerSpec L}.
Context (info : QuotedContentInfo) (Hinfo : info_ok info)
  (Hws : is_whitespace (end_delimiter info) = false).

(** The delimiters counted, and the position reached: in a heredoc, the
    first character that is not one, or the third delimiter. *)
Lemma wp_scan_delimiter n v y s :
  look v = end_delimiter info → (rem v < n)%nat →
  wp (scan_delimiter info) n v y s (λ k v' y' _,
    y' = y ∧
    if delimiter_length info =? 1 then k = 1 ∧ v' = v
    else if negb (look (adv false v) =? end_delimiter info)
    then k = 1 ∧ v' = adv false v
    else v' = adv false (adv false v)
      ∧ k = if look (adv false (adv false v)) =? end_delimiter info then 3 else 2).
Proof.
  intros Hv Hn. destruct Hinfo as [He Hd].
  apply (wp_iter (λ k v' y' _,
      y' = y ∧ look v' = end_delimiter info
      ∧ (k = 1 ∧ v' = v ∨ delimiter_length info = 3
         ∧ look (adv false v) = end_delimiter info
         ∧ (k = 2 ∧ v' = adv false v ∨ k = 3 ∧ v' = adv false (adv false v))))
    (λ _ v', rem v')); [|by auto|done].
  intros k v1 y1 s1 (->&Hl&Hk).
  assert (0 < rem v1)%nat by (apply look_pos; congruence).
  wps; rewrite ?Z.ltb_lt, ?Z.ltb_ge, ?Z.eqb_eq, ?Z.eqb_neq in *.
  all: destruct Hd as [Hd|Hd], Hk as [[-> ->]|(H3&Hl1&[[-> ->]|[-> ->]])];
    rewrite ?Hd in *; try lia; simpl.
  - split; [split_and!; [done..|right; by auto]|by apply rem_adv_lt].
  - split; [split_and!; [done..|right; by auto]|by apply rem_adv_lt].
  - by rewrite (proj2 (Z.eqb_neq _ _) E0).
  - by rewrite Hl1, Z.eqb_refl, (proj2 (Z.eqb_neq _ _) E0).
  - done.
  - by rewrite Hl1, Hl, Z.eqb_refl.
Qed.

Lemma quoted_length_char newline v :
  (0 < rem v)%nat → is_newline (look v) = false →
  (newline = true → is_whitespace (look v) = false) →
  quoted_length info newline (v_rest v)
  = if quoted_stop info newline (v_rest v) then 0%nat
    else S (quoted_length info false (v_rest (adv false v))).
Proof.
  intros Hr Hn Hw. rewrite rest_adv. rewrite (rest_cons v) at 1 by done. simpl.
  rewrite <- (rest_cons v) by done. rewrite Hn.
  destruct newline; [by rewrite Hw|done].
Qed.

Lemma quoted_length_whitespace rest :
  quoted_length info true rest
  = (span is_whitespace rest
     + quoted_length info true (drop (span is_whitespace rest) rest))%nat.
Proof.
  induction rest as [|c rest IH]; [done|]. simpl.
  destruct (is_whitespace c) eqn:Hc; simpl.
  - by rewrite orb_true_r, IH.
  - by rewrite Hc.
Qed.

Lemma is_newline_whitespace c : is_whitespace c = false → is_newline c = false.
Proof. unfold is_whitespace, is_newline. by destruct (_ =? LF), (_ =? CR), (c =? _), (c =? _). Qed.

(** A second delimiter character is content when it does not follow a line
    break. *)
Lemma quoted_length_second v :
  (0 < rem v)%nat → delimiter_length info = 3 →
  hd 0 (tail (v_rest v)) = end_delimiter info →
  quoted_length info false (v_rest (adv false v))
  = S (quoted_length info false (v_rest (adv false (adv false v)))).
Proof.
  intros Hr Hd Hc. destruct Hinfo as [He _]. rewrite <- (look_adv v false) in Hc.
  rewrite quoted_length_char; [|by apply look_pos; congruence| |done].
  - unfold quoted_stop. change (hd 0 (v_rest ?u)) with (look u).
    by rewrite Hc, Z.eqb_refl, Hd.
  - rewrite Hc. by apply is_newline_whitespace.
Qed.

Lemma v_pos_second v :
  (0 < rem v)%nat → look (adv false v) ≠ 0 →
  v_pos (adv false (adv false v)) = S (S (v_pos v)) ∧ (1 < rem v)%nat.
Proof.
  intros Hr Hc%look_pos. rewrite rem_adv in Hc.
  rewrite !v_pos_adv by (rewrite ?rem_adv; lia). split; [done|lia].
Qed.

(** A round without its line break: it stops here exactly when the reference
    does, and goes on with the characters that the reference counts. *)
Lemma wp_quoted_char has_content newline n v y s :
  (rem v < n)%nat → is_newline (look v) = false →
  (newline = true → is_whitespace (look v) = false) →
  wp (quoted_char info has_content newline) n v y s (λ r v' y' _,
    y' = y ∧
    match r with
    | inr b => b = has_content ∧ v_end v' = Some (v_pos v)
        ∧ quoted_length info newline (v_rest v) = 0%nat
    | inl b => b = true ∧ (v_pos v < v_pos v')%nat ∧ (rem v' < rem v)%nat
        ∧ (v_pos v' + quoted_length info false (v_rest v')
           = v_pos v + quoted_length info newline (v_rest v))%nat
    end).
Proof.
  intros Hn Hnl Hw.
  destruct (decide (rem v = 0%nat)) as [Hr|Hr].
  - apply at_eof_rem in Hr. destruct v as [p [|c r] b e]; [|done]. unfold quoted_char.
    destruct Hinfo as [He _].
    apply wp_bind, wp_mark_end, wp_bind, wp_lookahead. unfold look; simpl.
    destruct (end_delimiter info); [done|by apply wp_ret..].
  - rewrite quoted_length_char by (done || lia). unfold quoted_char, quoted_stop.
    change (hd 0 (v_rest v)) with (look v). rewrite <- !look_adv with (sk := false).
    pose proof (v_pos_adv false (mark v)) as Hp. rewrite rem_mark in Hp.
    change (v_pos (mark v)) with (v_pos v) in Hp. specialize (Hp ltac:(lia)).
    pose proof (rem_adv false (mark v)) as Hm. rewrite rem_mark in Hm.
    wps; [eapply wp_mono; [apply (wp_scan_delimiter n (mark v));
             [by apply Z.eqb_eq|done]|]|..];
      rewrite ?look_mark, ?look_adv_mark in *;
      repeat match goal with H : _ = true |- _ => rewrite H
                        | H : _ = false |- _ => rewrite H end;
      rewrite ?v_end_adv, ?v_end_mark, ?v_rest_adv_mark; [|split_and!; try (done || lia)..].
    all: try (cbn [negb andb]; lia).
    apply Z.eqb_eq in E. destruct Hinfo as [He [Hd|Hd]]; rewrite Hd; simpl.
    { intros k v' y' s' (->&->&->). simpl. wps. by auto. }
    rewrite look_adv in *.
    destruct (hd 0 (tail (v_rest v)) =? end_delimiter info) eqn:E1; simpl.
    2: { intros k v' y' s' (->&->&->). rewrite andb_false_r. simpl. wps.
         rewrite v_rest_adv_mark. split_and!; (done || lia). }
    intros k v' y' s' (->&->&->). apply Z.eqb_eq in E1.
    rewrite (quoted_length_second v) by (done || lia).
    rewrite !look_adv, !v_rest_adv_mark, !rest_adv, ?rest_mark, andb_true_r.
    pose proof (v_pos_second (mark v)) as Hp2. rewrite look_adv, rest_mark in Hp2.
    specialize (Hp2 ltac:(rewrite rem_mark; lia) ltac:(congruence)).
    change (v_pos (mark v)) with (v_pos v) in Hp2.
    destruct (hd 0 (tail (tail (v_rest v))) =? end_delimiter info), newline; simpl;
      wps; autorewrite with rest view; split_and!; (done || lia).
Qed.

(** The whole loop: the token ends where the reference says, and the result
    says whether it is empty. *)
Lemma wp_scan_quoted_content n v y s :
  (rem v < n)%nat →
  wp (scan_quoted_content info) n v y s (λ r v' y' _,
    let k := quoted_length info false (v_rest v) in
    r = negb (k =? 0)%nat ∧ y' = TokenType_to_Z (token_type info)
    ∧ v_end v' = Some (v_pos v + k)%nat).
Proof.
  intros Hn. unfold scan_quoted_content. wps.
  apply (wp_iter (λ b v1 y1 _, y1 = TokenType_to_Z (token_type info)
      ∧ (v_pos v ≤ v_pos v1)%nat ∧ (rem v1 ≤ rem v)%nat
      ∧ b = negb (v_pos v1 =? v_pos v)%nat
      ∧ (v_pos v1 + quoted_length info false (v_rest v1)
         = v_pos v + quoted_length info false (v_rest v))%nat)
    (λ _ v1, rem v1)); [|by rewrite Nat.eqb_refl|done].
  clear y. intros b v1 y s1 (->&Hp&Hr&->&Hq). unfold quoted_body. wps.
  - assert (0 < rem v1)%nat as Hr1 by (look_facts; lia).
    apply wp_while_look; [done|rewrite rem_adv; lia|].
    pose proof (rem_adv_span_le is_whitespace false (adv false v1)) as Hle.
    pose proof (v_pos_adv_span is_whitespace false (adv false v1)) as Hps.
    assert (quoted_length info false (v_rest v1)
      = S (span is_whitespace (v_rest (adv false v1))
           + quoted_length info true
               (v_rest (adv_span is_whitespace false (adv false v1))))) as Hq1.
    { rewrite (rest_cons v1) by done. simpl. rewrite E; simpl.
      by rewrite quoted_length_whitespace, rest_adv_span, rest_adv. }
    rewrite rem_adv, v_pos_adv in * by done.
    assert (is_whitespace (look (adv_span is_whitespace false (adv false v1))) = false)
      as Hw by by apply look_adv_span.
    eapply wp_mono; [apply wp_quoted_char; [lia|by apply is_newline_whitespace|done]|].
    intros [b|b] v2 y2 s2 [-> H]; cbv beta iota in H |- *.
    + destruct H as (->&?&?&?). split_and!; (done || lia).
    + destruct H as (->&->&?). split_and!; [|done|f_equal; lia].
      lia.
  - eapply wp_mono; [apply wp_quoted_char; [lia|done|done]|].
    intros [b|b] v2 y2 s2 [-> H]; cbv beta iota in H |- *.
    + destruct H as (->&?&?&?). split_and!; (done || lia).
    + destruct H as (->&->&H). rewrite H in Hq. split_and!; [|done|f_equal; lia].
      f_equal. apply eq_true_iff_eq. rewrite !Nat.eqb_eq. lia.
Qed.
End quoted.

(** ** The whole scanner *)

Lemma find_info_nth vs infos i j info :
  infos !! j = Some info →
  vs (token_type info) = true →
  (∀ j' info', (j' < j)%nat → infos !! j' = Some info' → vs (token_type info') = false) →
  find_info vs infos i = i + Z.of_nat j.
Proof.
  revert i j. induction infos as [|info0 infos IH]; intros i [|j] Hj Hv Hfirst; try done.
  - simplify_eq/=. rewrite Hv. lia.
  - simpl in *. rewrite (Hfirst 0%nat info0) by (done || lia).
    rewrite (IH (i + 1) j Hj Hv); [lia|].
    intros j' info' Hlt. apply (Hfirst (S j')). lia.
Qed.

Lemma find_info_some vs infos i k :
  find_info vs infos i = i + Z.of_nat k →
  0 ≤ i → ∃ info, infos !! k = Some info ∧ vs (token_type info) = true.
Proof.
  revert i k. induction infos as [|info infos IH]; intros i k; simpl; [lia|].
  destruct (vs (token_type info)) eqn:Hv.
  - intros Hk Hi. assert (k = 0%nat) as -> by lia. by exists info.
  - intros Hk Hi. destruct k as [|k].
    + destruct (find_info_bounds vs infos (i + 1)); lia.
    + apply (IH (i + 1)); lia.
Qed.

Lemma quoted_info_whitespace :
  Forall (λ info, is_whitespace (end_delimiter info) = false) quoted_content_infos.
Proof. repeat apply Forall_cons_2; [done..|apply Forall_nil_2]. Qed.

Section whole.
Context {L : Type} {HL : TSLexer L} {HS : TSLexerSpec L}.

Lemma wp_scan_quoted vs j info n v y s :
  quoted_content_infos !! j = Some info →
  find_quoted_token_info vs = Z.of_nat j → (rem v < n)%nat →
  wp (scan vs) n v y s (λ r v' y' _,
    let k := quoted_length info false (v_rest v) in
    r = negb (k =? 0)%nat ∧ y' = TokenType_to_Z (token_type info)
    ∧ v_end v' = Some (v_pos v + k)%nat).
Proof.
  intros Hj Hf Hn. unfold scan. rewrite Hf.
  replace (Z.of_nat j =? -1) with false by (symmetry; apply Z.eqb_neq; lia).
  simpl. rewrite Nat2Z.id, Hj. apply wp_scan_quoted_content; [..|done].
  - eapply Forall_lookup_1; [apply quoted_content_infos_ok|done].
  - exact (Forall_lookup_1 _ _ _ _ quoted_info_whitespace Hj).
Qed.

(** The symbols that may be returned. *)
Definition may_emit (vs : TokenType → bool) (t : TokenType) : Prop :=
  vs t = true
  ∨ t = NEWLINE_BEFORE_COMMENT
    ∧ (vs NEWLINE_BEFORE_DO = true ∨ vs NEWLINE_BEFORE_BINARY_OPERATOR = true).

Lemma wp_scan_emits vs n v y s :
  (rem v < n)%nat →
  wp (scan vs) n v y s (λ r _ y' _,
    r = true → ∃ t, y' = TokenType_to_Z t ∧ may_emit vs t).
Proof.
  intros Hn. destruct (decide (find_quoted_token_info vs = -1)) as [Hf|Hf].
  - unfold scan. rewrite Hf. simpl.
    wps. eapply wp_mono; [by apply (reads (I := λ _, True))|].
    intros b v1 y1 s1 [Ha _]. wps.
    + eapply wp_mono; [apply wp_scan_newline; fuel_tac|].
      intros r v2 y2 s2. unfold newline_token.
      apply andb_true_iff in E as [_ E]. rewrite !orb_true_iff in E.
      destruct (hd 0 _ =? 35); [|destruct (_ && vs NEWLINE_BEFORE_DO) eqn:Ed;
        [|destruct (vs NEWLINE_BEFORE_BINARY_OPERATOR) eqn:Eb]]; intros (->&->&_) Hr;
        try done; (eexists; split; [done|]).
      * unfold may_emit. destruct E as [[?|?]|?]; auto.
      * left. by apply andb_true_iff in Ed as [_ ?].
      * by left.
    + unfold scan_before_operator.
      wps; try (apply wp_while_look; [done|fuel_tac|]; wps);
        intros; try done; (eexists; split; [done|]); left;
        repeat match goal with H : _ && _ = true |- _ => apply andb_true_iff in H as [??] end;
        done.
  - assert (∃ j, find_quoted_token_info vs = Z.of_nat j) as [j Hj].
    { exists (Z.to_nat (find_quoted_token_info vs)). revert Hf.
      unfold find_quoted_token_info. destruct (_ && _); [done|]. intros Hf.
      destruct (find_info_bounds vs quoted_content_infos 0); lia. }
    assert (∃ info, quoted_content_infos !! j = Some info ∧ vs (token_type info) = true)
      as (info&Hi&Hv).
    { revert Hj. unfold find_quoted_token_info. destruct (_ && _); [lia|]. intros Hj.
      by apply (find_info_some vs quoted_content_infos 0). }
    eapply wp_mono; [by apply (wp_scan_quoted vs j info)|].
    intros r v' y' s' (_&->&_) _. eexists; split; [done|]. by left.
Qed.
End whole.

(** ** Properties of the Elixir scanner *)

(** C31: on every input and for every set of valid symbols, one call of the
    scanner ends (with as many loop rounds as remaining characters) without an
    access outside [quoted_content_infos], only moves forward, and keeps the
    token bounds inside the text consumed. *)
Theorem elixir_scan_total {L} {HL : TSLexer L} {HS : TSLexerSpec L}
    (valid_symbols : TokenType → bool) n l y :
  (rem (view_of l) < n)%nat →
  ∃ r l' y', tree_sitter_elixir_external_scanner_scan valid_symbols n (mkst l y tt)
    = Done (r, mkst l' y' tt) ∧ advanced (view_of l) (view_of l').
Proof.
  intros Hn.
  destruct (wp_run (scan valid_symbols) n l y tt (λ _ v' _ _, advanced (view_of l) v'))
    as (r&l'&y'&[]&Hrun&Ha); [|by exists r, l', y'].
  eapply wp_mono; [by apply (reads (I := λ _, True))|]. by intros ???? [? _].
Qed.

Lemma elixir_scan_total_witness :
  ∃ r l' y', tree_sitter_elixir_external_scanner_scan (λ _, true) 20%nat
      (mkst (input (cstr "  && b")) 0 tt) = Done (r, mkst l' y' tt)
    ∧ advanced (input (cstr "  && b")) l'.
Proof.
  refine (elixir_scan_total (λ _, true) 20%nat (input (cstr "  && b")) 0 _).
  vm_compute. lia.
Defined.

(** C12: after a line break, the decision tree of [scan_newline] answers as the
    operator table: with [rest] the input behind the line break and the white
    space that follows it, the result and the symbol are those of
    [newline_token] (a comment, [do], or one of the binary operators of
    [binary_operator] found by the longest walk in the table), and the token
    ends in front of [rest]. *)
Theorem elixir_newline_operators {L} {HL : TSLexer L} {HS : TSLexerSpec L}
    (valid_symbols : TokenType → bool) n l y :
  (rem (view_of l) < n)%nat →
  let v := after_newline (view_of l) in
  ∃ l', scan_newline valid_symbols n (mkst l y tt)
    = Done (fst (newline_token valid_symbols (v_rest v)),
            mkst l' (default y (TokenType_to_Z <$>
                       snd (newline_token valid_symbols (v_rest v)))) tt)
    ∧ v_end (view_of l') = Some (v_pos v).
Proof.
  intros Hn v.
  destruct (wp_run _ n l y tt _ (wp_scan_newline valid_symbols n _ y tt Hn))
    as (r&l'&y'&[]&Hrun&H). exists l'. rewrite Hrun. fold v in H.
  destruct (newline_token valid_symbols (v_rest v)) as [b t].
  by destruct H as (->&->&->).
Qed.

Lemma elixir_newline_operators_witness :
  let s := LF :: cstr "  <~> x" in
  ∃ l', scan_newline (λ _, true) 20%nat (mkst (input s) 0 tt)
    = Done (true, mkst l' (TokenType_to_Z NEWLINE_BEFORE_BINARY_OPERATOR) tt)
    ∧ v_end l' = Some 3%nat.
Proof.
  refine (elixir_newline_operators (λ _, true) 20%nat (input (LF :: cstr "  <~> x")) 0 _).
  vm_compute. lia.
Defined.

(** C33: when [find_quoted_token_info] selects the [j]-th descriptor, the token
    the scanner returns is the longest prefix of the input before the first
    position where quoted content stops (closing delimiter, interpolation,
    escape or end of input, see [quoted_stop]); it returns [true] exactly when
    that prefix is not empty. *)
Theorem elixir_quoted_content {L} {HL : TSLexer L} {HS : TSLexerSpec L}
    (valid_symbols : TokenType → bool) j info n l y :
  quoted_content_infos !! j = Some info →
  find_quoted_token_info valid_symbols = Z.of_nat j →
  (rem (view_of l) < n)%nat →
  let k := quoted_length info false (v_rest (view_of l)) in
  ∃ l', scan valid_symbols n (mkst l y tt)
    = Done (negb (k =? 0)%nat, mkst l' (TokenType_to_Z (token_type info)) tt)
    ∧ v_end (view_of l') = Some (v_pos (view_of l) + k)%nat.
Proof.
  intros Hj Hf Hn k.
  destruct (wp_run _ n l y tt _ (wp_scan_quoted valid_symbols j info n _ y tt Hj Hf Hn))
    as (r&l'&y'&[]&Hrun&->&->&He). by exists l'.
Qed.

Lemma elixir_quoted_content_witness :
  ∃ l', scan (λ t, bool_decide (t = QUOTED_CONTENT_I_DOUBLE)) 20%nat
      (mkst (input (cstr "ab#c#{d}")) 0 tt)
    = Done (true, mkst l' (TokenType_to_Z QUOTED_CONTENT_I_DOUBLE) tt)
    ∧ v_end l' = Some 4%nat.
Proof.
  refine (elixir_quoted_content (λ t, bool_decide (t = QUOTED_CONTENT_I_DOUBLE)) 1
           (Build_QuotedContentInfo QUOTED_CONTENT_I_DOUBLE true DQUOTE 1) 20%nat
           (input (cstr "ab#c#{d}")) 0 _ _ _); [done|by vm_compute|vm_compute; lia].
Defined.

(** A symbol the Elixir scanner returns is one the parser asked for, except
    for the comment line break, which it may return when only the [do] or the
    operator line break is valid. *)
Theorem elixir_emits_valid {L} {HL : TSLexer L} {HS : TSLexerSpec L}
    (valid_symbols : TokenType → bool) n l y l' y' :
  (rem (view_of l) < n)%nat →
  scan valid_symbols n (mkst l y tt) = Done (true, mkst l' y' tt) →
  ∃ t, y' = TokenType_to_Z t
    ∧ (valid_symbols t = true
       ∨ t = NEWLINE_BEFORE_COMMENT
         ∧ (valid_symbols NEWLINE_BEFORE_DO = true
            ∨ valid_symbols NEWLINE_BEFORE_BINARY_OPERATOR = true)).
Proof.
  intros Hn Hrun. exact (wp_done _ n l y tt _ _ _ _ _ (wp_scan_emits _ n _ y tt Hn) Hrun eq_refl).
Qed.

Lemma elixir_emits_valid_witness :
  ∃ t, TokenType_to_Z NEWLINE_BEFORE_COMMENT = TokenType_to_Z t
    ∧ (bool_decide (t = NEWLINE_BEFORE_DO) = true
       ∨ t = NEWLINE_BEFORE_COMMENT
         ∧ (bool_decide (NEWLINE_BEFORE_DO = NEWLINE_BEFORE_DO) = true
            ∨ bool_decide (NEWLINE_BEFORE_BINARY_OPERATOR = NEWLINE_BEFORE_DO) = true)).
Proof.
  refine (elixir_emits_valid (λ t, bool_decide (t = NEWLINE_BEFORE_DO)) 20%nat
            (input (LF :: cstr "# c")) 0 _ _ _ _); [vm_compute; lia|by vm_compute].
Defined.
