(* ===== verification/Kotlin.v ===== *)
(** * The Kotlin external scanner

    [crates/tree-sitter-kotlin-sqry/grammar-src/scanner.c]. The payload is the
    stack of the string delimiters that are open: 34 for a single quote mark,
    35 (its code plus one) for three of them. *)

From S2P Require Import Prelude CArray Scan Logic.

Inductive TokenType : Type :=
  | AUTOMATIC_SEMICOLON
  | IMPORT_LIST_DELIMITER
  | SAFE_NAV
  | MULTILINE_COMMENT
  | STRING_START
  | STRING_END
  | STRING_CONTENT
  | PRIMARY_CONSTRUCTOR_KEYWORD
  | IMPORT_DOT.

#[export] Instance TokenType_eq_dec : EqDecision TokenType.
Proof. solve_decision. Defined.

(** The value of an enumerator, which is what [result_symbol] holds. *)
Definition TokenType_to_Z (t : TokenType) : Z :=
  match t with
  | AUTOMATIC_SEMICOLON => 0
  | IMPORT_LIST_DELIMITER => 1
  | SAFE_NAV => 2
  | MULTILINE_COMMENT => 3
  | STRING_START => 4
  | STRING_END => 5
  | STRING_CONTENT => 6
  | PRIMARY_CONSTRUCTOR_KEYWORD => 7
  | IMPORT_DOT => 8
  end.

Definition TREE_SITTER_SERIALIZATION_BUFFER_SIZE : Z := 1024.
Definition DELIMITER_LENGTH : Z := 3.

(** [typedef char Delimiter] *)
Abbreviation Delimiter := Z (only parsing).
Definition Stack : Type := Array Delimiter.

Section scanner.
Context {L : Type} {HL : TSLexer L} {HW : WCType}.
Local Abbreviation M := (M L Stack).

Definition stack_push (chr : Z) (triple : bool) : M unit :=
  stack <- get_payload;;
  if TREE_SITTER_SERIALIZATION_BUFFER_SIZE <=? size stack then abort
  else
    stack <- lift (array_push stack (to_char (if triple then chr + 1 else chr)));;
    set_payload stack.

Definition stack_pop : M Delimiter :=
  stack <- get_payload;;
  if size stack =? 0 then abort
  else
    r <- lift (array_pop stack);;
    set_payload (snd r);;
    ret (fst r).

Definition skip : M unit := advance_ true.
Definition advance : M unit := advance_ false.
Definition set_result (t : TokenType) : M unit := set_symbol (TokenType_to_Z t).

(** ** Strings *)

(** The [for] loop of [scan_string_start], with [n] rounds left. *)
Fixpoint string_start_loop (n : nat) : M bool :=
  match n with
  | O =>
      mark_end;;
      stack_push DQUOTE true;;
      ret true
  | S n =>
      c <- lookahead;;
      if negb (c =? DQUOTE) then
        stack_push DQUOTE false;;
        ret true
      else
        advance;;
        string_start_loop n
  end.

Definition scan_string_start : M bool :=
  c <- lookahead;;
  if negb (c =? DQUOTE) then ret false
  else
    advance;;
    mark_end;;
    string_start_loop (Z.to_nat (DELIMITER_LENGTH - 1)).

(** The branch of [scan_string_content] on a dollar sign. *)
Definition string_dollar (has_content : bool) : M bool :=
  if has_content then
    set_result STRING_CONTENT;;
    ret has_content
  else
    advance;;
    c <- lookahead;;
    if iswalpha c || (c =? "{") then ret false
    else
      set_result STRING_CONTENT;;
      mark_end;;
      ret true.

(** The [for] loop on the end of a triple quoted string, with [n] rounds left:
    [true] when it returns because the delimiter is not complete. *)
Fixpoint triple_loop (end_char : Z) (n : nat) : M bool :=
  match n with
  | O => ret false
  | S n =>
      advance;;
      c <- lookahead;;
      if negb (c =? end_char) then
        mark_end;;
        set_result STRING_CONTENT;;
        ret true
      else triple_loop end_char n
  end.

(** The branch of [scan_string_content] on the delimiter of a triple quoted
    string. *)
Definition string_triple_end (end_char : Z) (has_content : bool) : M bool :=
  mark_end;;
  partial <- triple_loop end_char (Z.to_nat (DELIMITER_LENGTH - 1));;
  if partial : bool then ret true
  else
    c <- lookahead;;
    if has_content && (c =? end_char) then
      set_result STRING_CONTENT;;
      ret true
    else
      set_result STRING_END;;
      mark_end;;
      while_ (c <- lookahead;; ret (c =? end_char)) (advance;; mark_end);;
      stack_pop;;
      ret true.

(** A round of the [while] loop of [scan_string_content]. *)
Definition string_content_body (end_char : Z) (is_triple has_content : bool)
  : M (bool + bool) :=
  let next := advance;; ret (inl true) in
  c <- lookahead;;
  if negb (to_bool c) then ret (inr false)
  else if c =? "$" then
    b <- string_dollar has_content;;
    ret (inr b)
  else if c =? BACKSLASH then
    advance;;
    c <- lookahead;;
    if c =? "$" then
      advance;;
      c <- lookahead;;
      if c =? end_char then
        stack_pop;;
        advance;;
        mark_end;;
        set_result STRING_END;;
        ret (inr true)
      else next
    else next
  else if c =? end_char then
    if is_triple then
      b <- string_triple_end end_char has_content;;
      ret (inr b)
    else if has_content then
      mark_end;;
      set_result STRING_CONTENT;;
      ret (inr true)
    else
      stack_pop;;
      advance;;
      mark_end;;
      set_result STRING_END;;
      ret (inr true)
  else next.

Definition scan_string_content : M bool :=
  stack <- get_payload;;
  if size stack =? 0 then ret false
  else
    end_char <- lift (read (contents stack) (to_u32 (size stack - 1)));;
    let is_triple := to_bool (Z.land end_char 1) in
    let end_char := if is_triple then to_char (end_char - 1) else end_char in
    iter (string_content_body end_char is_triple) false.

(** ** Comments, white space and words *)

(** A round of the [for] loop of [scan_multiline_comment]. *)
Definition multiline_comment_body (p : bool * Z) : M (bool * Z + bool) :=
  let '(after_star, nesting_depth) := p in
  c <- lookahead;;
  if c =? "*" then
    advance;;
    ret (inl (true, nesting_depth))
  else if c =? "/" then
    advance;;
    if after_star : bool then
      let nesting_depth := to_u32 (nesting_depth - 1) in
      if nesting_depth =? 0 then
        set_result MULTILINE_COMMENT;;
        mark_end;;
        ret (inr true)
      else ret (inl (false, nesting_depth))
    else
      c <- lookahead;;
      if c =? "*" then
        advance;;
        ret (inl (false, to_u32 (nesting_depth + 1)))
      else ret (inl (false, nesting_depth))
  else if c =? NUL then
    e <- eof;;
    if e : bool then
      set_result MULTILINE_COMMENT;;
      mark_end;;
      ret (inr true)
    else ret (inr false)
  else
    advance;;
    ret (inl (false, nesting_depth)).

Definition scan_multiline_comment : M bool :=
  c <- lookahead;;
  if negb (c =? "/") then ret false
  else
    advance;;
    c <- lookahead;;
    if negb (c =? "*") then ret false
    else
      advance;;
      iter multiline_comment_body (false, 1).

Definition scan_whitespace_and_comments : M bool :=
  while_look iswspace true;;
  ret true.

Definition is_word_char (c : Z) : bool := iswalnum c || (c =? "_").

(** The [for] loops that compare the input with a word, with [skip] or with
    [advance]. *)
Fixpoint match_word (sk : bool) (word : list Z) : M bool :=
  match word with
  | [] => ret true
  | w :: word =>
      c <- lookahead;;
      if negb (c =? w) then ret false
      else
        advance_ sk;;
        match_word sk word
  end.

Definition check_word (word : list Z) : M bool :=
  matched <- match_word true word;;
  if matched : bool then
    c <- lookahead;;
    ret (negb (is_word_char c))
  else ret false.

Definition scan_for_word (word : list Z) : M bool :=
  skip;;
  check_word word.

(** The loop that fills [word]: writing at [19] or beyond the 20 bytes of the
    buffer would be out of bounds. *)
Definition modifier_loop : M (list Z) :=
  iter (λ word : list Z,
    c <- lookahead;;
    if is_word_char c && (Z.of_nat (length word) <? 19) then
      if Z.of_nat (length word) <? 20 then
        skip;;
        ret (inl (word ++ [to_char c]))
      else undefined
    else ret (inr word)) [].

Definition modifiers : list (list Z) :=
  [cstr "public"; cstr "private"; cstr "protected"; cstr "internal"].

Definition check_modifier_then_constructor : M bool :=
  word <- modifier_loop;;
  if negb (bool_decide (c_string word ∈ modifiers)) then ret false
  else
    while_look (λ c, (c =? " ") || (c =? TAB)) true;;
    check_word (cstr "constructor").

(** ** Automatic semicolons *)

(** The first loop of [scan_automatic_semicolon]: [None] when the function
    returns [true] there, otherwise the value of [sameline]. *)
Definition asi_line_break : M (option bool) :=
  iter (λ _ : unit,
    e <- eof;;
    if e : bool then ret (inr None) else
    c <- lookahead;;
    if c =? ";" then
      advance;;
      mark_end;;
      ret (inr None)
    else if negb (iswspace c) then ret (inr (Some true))
    else if c =? LF then
      skip;;
      ret (inr (Some false))
    else if c =? CR then
      skip;;
      c <- lookahead;;
      when (c =? LF) skip;;
      ret (inr (Some false))
    else
      skip;;
      ret (inl tt)) tt.

(** [while (lookahead != '\n' && ... && !eof) skip], to the end of a line
    comment. *)
Definition skip_line_comment : M unit :=
  while_ (c <- lookahead;;
          e <- eof;;
          ret (negb (c =? LF) && negb (c =? CR) && negb (c =? 0) && negb e))
    skip.

(** The loop that skips a block comment behind a line comment. *)
Definition skip_block_comment : M unit :=
  iter (λ '(depth, star),
    e <- eof;;
    if (0 <? depth) && negb e then
      c <- lookahead;;
      if c =? "*" then
        skip;;
        ret (inl (depth, true))
      else if c =? "/" then
        skip;;
        if star : bool then ret (inl (to_u32 (depth - 1), false))
        else
          c <- lookahead;;
          if c =? "*" then
            skip;;
            ret (inl (to_u32 (depth + 1), false))
          else ret (inl (depth, false))
      else
        skip;;
        ret (inl (depth, false))
    else ret (inr tt)) (1, false).

(** The loop over the comments behind a line comment: [false] when the function
    returns [false] there. *)
Definition skip_comments : M bool :=
  iter (λ _ : unit,
    c <- lookahead;;
    if negb (c =? "/") then ret (inr true)
    else
      skip;;
      c <- lookahead;;
      if c =? "/" then
        skip;;
        skip_line_comment;;
        while_look iswspace true;;
        ret (inl tt)
      else if c =? "*" then
        skip;;
        skip_block_comment;;
        while_look iswspace true;;
        ret (inl tt)
      else ret (inr false)) tt.

(** The case labels that continue an expression. *)
Definition continuation_chars : list Z :=
  [","; "."; ":"; "*"; "%"; ">"; "<"; "="; "{"; "["; "("; "?"; "|"; "&"].

Definition is_continuation (c : Z) : bool :=
  existsb (λ k, c =? k) continuation_chars.

(** [if (scan_for_word(...)) return false; return true;] *)
Definition unless_word (word : list Z) : M bool :=
  b <- scan_for_word word;;
  ret (negb b).

(** The case of a line comment, from its second slash. *)
Definition asi_line_comment : M bool :=
  skip;;
  skip_line_comment;;
  while_look iswspace true;;
  more <- skip_comments;;
  if negb more then ret false
  else
    c <- lookahead;;
    if is_continuation c || (c =? "/") then ret false
    else if c =? "!" then
      skip;;
      c <- lookahead;;
      ret (negb (c =? "="))
    else if c =? "e" then unless_word (cstr "lse")
    else if c =? "a" then unless_word (cstr "s")
    else if c =? "w" then unless_word (cstr "here")
    else if c =? "c" then unless_word (cstr "atch")
    else if c =? "f" then unless_word (cstr "inally")
    else ret true.

(** The loop over a block comment that follows a line break: [true] when the
    function returns [true] there, at the end of the input. *)
Definition asi_block_loop : M bool :=
  iter (λ '(nesting_depth, after_star),
    e <- eof;;
    if (0 <? nesting_depth) && negb e then
      c <- lookahead;;
      if c =? "*" then
        advance;;
        ret (inl (nesting_depth, true))
      else if c =? "/" then
        advance;;
        if after_star : bool then ret (inl (to_u32 (nesting_depth - 1), false))
        else
          c <- lookahead;;
          if c =? "*" then
            advance;;
            ret (inl (to_u32 (nesting_depth + 1), false))
          else ret (inl (nesting_depth, false))
      else
        e <- eof;;
        if (c =? NUL) && e then
          set_result MULTILINE_COMMENT;;
          mark_end;;
          ret (inr true)
        else
          advance;;
          ret (inl (nesting_depth, false))
    else ret (inr false)) (1, false).

(** [mark_end; if (scan_for_word(...)) result = MULTILINE_COMMENT;] *)
Definition comment_before_word (word : list Z) : M bool :=
  mark_end;;
  b <- scan_for_word word;;
  when b (set_result MULTILINE_COMMENT);;
  ret true.

(** The case of a block comment, from its star. *)
Definition asi_block_comment : M bool :=
  advance;;
  ended <- asi_block_loop;;
  if ended : bool then ret true
  else
    while_look iswspace true;;
    c <- lookahead;;
    if is_continuation c || (c =? "/") then
      mark_end;;
      set_result MULTILINE_COMMENT;;
      ret true
    else if c =? "!" then
      mark_end;;
      skip;;
      c <- lookahead;;
      when (c =? "=") (set_result MULTILINE_COMMENT);;
      ret true
    else if c =? "e" then comment_before_word (cstr "lse")
    else if c =? "a" then comment_before_word (cstr "s")
    else if c =? "w" then comment_before_word (cstr "here")
    else ret true.

Definition asi_slash : M bool :=
  advance;;
  c <- lookahead;;
  if c =? "/" then asi_line_comment
  else if c =? "*" then asi_block_comment
  else ret false.

(** [constructor] as a word of its own, with [advance]; on success the symbol
    and the end of the token are set. *)
Definition constructor_keyword : M bool :=
  matched <- match_word false (cstr "constructor");;
  c <- lookahead;;
  if matched && negb (is_word_char c) then
    set_result PRIMARY_CONSTRUCTOR_KEYWORD;;
    mark_end;;
    ret true
  else ret false.

(** The [switch] of [scan_automatic_semicolon] after a line break. *)
Definition asi_switch (valid_symbols : TokenType → bool) : M bool :=
  let in_class := valid_symbols PRIMARY_CONSTRUCTOR_KEYWORD
                  && negb (valid_symbols STRING_CONTENT) in
  c <- lookahead;;
  if is_continuation c then ret false
  else if c =? "/" then asi_slash
  else if (c =? "+") || (c =? "-") then ret true
  else if c =? "!" then
    skip;;
    c <- lookahead;;
    ret (negb (c =? "="))
  else if c =? "e" then unless_word (cstr "lse")
  else if c =? "a" then unless_word (cstr "s")
  else if c =? "w" then unless_word (cstr "here")
  else if (c =? "i") || (c =? "p") then
    if in_class then
      b <- check_modifier_then_constructor;;
      ret (negb b)
    else ret true
  else if c =? "c" then
    if in_class then
      constructor_keyword;;
      ret true
    else unless_word (cstr "atch")
  else if c =? "f" then unless_word (cstr "inally")
  else if c =? ";" then
    advance;;
    mark_end;;
    ret true
  else ret true.

Definition scan_automatic_semicolon (valid_symbols : TokenType → bool) : M bool :=
  set_result AUTOMATIC_SEMICOLON;;
  mark_end;;
  r <- asi_line_break;;
  match r with
  | None => ret true
  | Some sameline =>
      scan_whitespace_and_comments;;
      if sameline : bool then
        c <- lookahead;;
        if c =? "i" then scan_for_word (cstr "mport")
        else if c =? ";" then
          advance;;
          mark_end;;
          ret true
        else ret false
      else asi_switch valid_symbols
  end.

(** ** The other tokens *)

Definition scan_safe_nav : M bool :=
  set_result SAFE_NAV;;
  mark_end;;
  scan_whitespace_and_comments;;
  c <- lookahead;;
  if negb (c =? "?") then ret false
  else
    advance;;
    scan_whitespace_and_comments;;
    c <- lookahead;;
    if negb (c =? ".") then ret false
    else
      advance;;
      mark_end;;
      ret true.

(** The loop variable is [state == 1]. *)
Definition scan_line_sep : M bool :=
  iter (λ state : bool,
    c <- lookahead;;
    if (c =? " ") || (c =? TAB) || (c =? VT) then
      advance;;
      ret (inl state)
    else if c =? LF then
      advance;;
      ret (inr true)
    else if c =? CR then
      if state then ret (inr true)
      else
        advance;;
        ret (inl true)
    else ret (inr state)) false.

Definition scan_import_list_delimiter : M bool :=
  set_result IMPORT_LIST_DELIMITER;;
  mark_end;;
  e <- eof;;
  if e : bool then ret true else
  sep <- scan_line_sep;;
  if negb sep then ret false else
  sep <- scan_line_sep;;
  if sep : bool then
    mark_end;;
    ret true
  else
    iter (λ _ : unit,
      c <- lookahead;;
      if (c =? " ") || (c =? TAB) || (c =? VT) then
        advance;;
        ret (inl tt)
      else if c =? "i" then
        b <- unless_word (cstr "mport");;
        ret (inr b)
      else ret (inr true)) tt.

Definition scan_import_dot : M bool :=
  c <- lookahead;;
  if negb (c =? ".") then ret false
  else
    mark_end;;
    advance;;
    found_newline <- iter (λ found_newline : bool,
      c <- lookahead;;
      if iswspace c then
        skip;;
        ret (inl (found_newline || (c =? LF) || (c =? CR)))
      else ret (inr found_newline)) false;;
    c <- lookahead;;
    import <- (if found_newline && (c =? "i") then scan_for_word (cstr "mport")
               else ret false);;
    if import : bool then
      set_result AUTOMATIC_SEMICOLON;;
      ret true
    else
      set_result IMPORT_DOT;;
      mark_end;;
      ret true.

(** ** The scanner *)

(** The part of [scan] after the first three tests. *)
Definition scan_rest (valid_symbols : TokenType → bool) : M bool :=
  if valid_symbols IMPORT_LIST_DELIMITER then scan_import_list_delimiter else
  content <- (if valid_symbols STRING_CONTENT then scan_string_content
              else ret false);;
  if content : bool then ret true else
  while_look iswspace true;;
  start <- (if valid_symbols STRING_START then scan_string_start
            else ret false);;
  if start : bool then
    set_result STRING_START;;
    ret true
  else
    comment <- (if valid_symbols MULTILINE_COMMENT then scan_multiline_comment
                else ret false);;
    if comment : bool then ret true
    else if valid_symbols SAFE_NAV then scan_safe_nav
    else ret false.

(** The part of [scan] after the automatic semicolons. *)
Definition scan_import_and_constructor (valid_symbols : TokenType → bool)
  : M bool :=
  dot <- (if valid_symbols IMPORT_DOT then scan_import_dot else ret false);;
  if dot : bool then ret true else
  keyword <- (
    if valid_symbols PRIMARY_CONSTRUCTOR_KEYWORD
       && negb (valid_symbols STRING_CONTENT) then
      while_look iswspace true;;
      c <- lookahead;;
      if c =? "c" then constructor_keyword else ret false
    else ret false);;
  if keyword : bool then ret true else
  scan_rest valid_symbols.

Definition tree_sitter_kotlin_external_scanner_scan (valid_symbols : TokenType → bool) : M bool :=
  if valid_symbols AUTOMATIC_SEMICOLON then
    b <- scan_automatic_semicolon valid_symbols;;
    c <- lookahead;;
    if negb b && valid_symbols SAFE_NAV && (c =? "?") then scan_safe_nav
    else if b : bool then ret b
    else scan_import_and_constructor valid_symbols
  else scan_import_and_constructor valid_symbols.
End scanner.

Definition tree_sitter_kotlin_external_scanner_create : Stack := array_init.

Definition tree_sitter_kotlin_external_scanner_destroy (payload : Stack) : Stack := array_delete payload.

(** The bytes written to the buffer; the returned length is their number. The
    buffer has [TREE_SITTER_SERIALIZATION_BUFFER_SIZE] bytes. *)
Definition tree_sitter_kotlin_external_scanner_serialize (payload : Stack) : outcome (list Z) :=
  if 0 <? size payload then
    if size payload <=? TREE_SITTER_SERIALIZATION_BUFFER_SIZE
    then read_block (contents payload) (Z.to_nat (size payload))
    else Undefined
  else Done [].

Definition tree_sitter_kotlin_external_scanner_deserialize (payload : Stack) (buffer : list Z) : outcome Stack :=
  let length := Z.of_nat (length buffer) in
  if 0 <? length then
    let stack := array_reserve payload length in
    let? c := memcpy (contents stack) 0 (Some <$> buffer) in
    Done (mkArray c length (capacity stack))
  else Done (array_clear payload).
