(* ===== verification/KotlinSpec.v ===== *)
(** * Reference definitions for the Kotlin scanner

    What the scanner should answer, as functions of the characters that follow
    the cursor. *)

From S2P Require Import Prelude CArray Scan Kotlin.

(** What opens a string: the delimiter to push and the length of the token. *)
Definition string_start (rest : list Z) : option (Delimiter * nat) :=
  match rest with
  | c1 :: c2 :: c3 :: _ =>
      if c1 =? DQUOTE then
        if (c2 =? DQUOTE) && (c3 =? DQUOTE) then Some (DQUOTE + 1, 3%nat)
        else Some (DQUOTE, 1%nat)
      else None
  | c1 :: _ => if c1 =? DQUOTE then Some (DQUOTE, 1%nat) else None
  | [] => None
  end.

(** Behind [depth] open comments, the number of characters up to the end of
    the outermost one, or of the input; [None] when a null character comes
    first. *)
Fixpoint comment_tail (depth : nat) (rest : list Z) : option nat :=
  match rest with
  | [] => Some 0%nat
  | c1 :: rest1 =>
      match rest1 with
      | [] => if c1 =? NUL then None else Some 1%nat
      | c2 :: rest2 =>
          if (c1 =? "*") && (c2 =? "/") then
            match depth with
            | S (S _ as d) => Nat.add 2 <$> comment_tail d rest2
            | _ => Some 2%nat
            end
          else if (c1 =? "/") && (c2 =? "*") then
            Nat.add 2 <$> comment_tail (S depth) rest2
          else if c1 =? NUL then None
          else S <$> comment_tail depth rest1
      end
  end.

(** The words that continue the statement of the line above. *)
Definition continuation_words : list (list Z) :=
  [cstr "else"; cstr "as"; cstr "where"; cstr "catch"; cstr "finally"].

Section words.
Context {HW : WCType}.

(** [rest] starts with [word], which no word character follows. *)
Fixpoint starts_with_word (word rest : list Z) : bool :=
  match word, rest with
  | [], c :: _ => negb (is_word_char c)
  | [], [] => true
  | w :: word, c :: rest => (c =? w) && starts_with_word word rest
  | _ :: _, [] => false
  end.

(** A line that starts with [rest] continues the statement above it. *)
Definition continues (rest : list Z) : bool :=
  is_continuation (hd 0 rest) || (hd 0 rest =? "/")
  || (hd 0 rest =? "!") && (hd 0 (tail rest) =? "=")
  || existsb (λ w, starts_with_word w rest) continuation_words.
End words.
