(* ===== verification/KotlinProofs.v ===== *)
(** * Properties of the Kotlin external scanner *)

From S2P Require Import Prelude CArray CArrayProofs Codec Scan Logic Kotlin KotlinSpec.

Ltac wp_hook ::=
  first [ progress unfold advance | progress unfold skip | progress unfold set_result ].

(** ** Termination of the functions that leave the stack alone *)

Section reads.
Context {L : Type} {HL : TSLexer L} {HW : WCType} {HS : TSLexerSpec L}.
Context (I : Stack → Prop).

#[export] Instance reads_kotlin_advance : Reads I advance.
Proof. apply _. Qed.
#[export] Instance reads_kotlin_skip : Reads I skip.
Proof. apply _. Qed.
#[export] Instance reads_kotlin_set_result t : Reads I (set_result t).
Proof. apply _. Qed.

#[export] Instance reads_string_dollar b : Reads I (string_dollar b).
Proof. unfold string_dollar. apply _. Qed.
#[export] Instance reads_triple_loop c n : Reads I (triple_loop c n).
Proof. induction n; simpl; apply _. Qed.

#[export] Instance reads_multiline_comment_body : Reads I scan_multiline_comment.
Proof.
  unfold scan_multiline_comment. apply reads_bind; [apply _|intros c].
  apply reads_if; [apply _|]. apply reads_bind; [apply _|intros []].
  apply reads_bind; [apply _|intros c2]. apply reads_if; [apply _|].
  apply reads_bind; [apply _|intros []]. unfold multiline_comment_body. reads_loop.
Qed.
#[export] Instance reads_scan_whitespace_and_comments : Reads I scan_whitespace_and_comments.
Proof. unfold scan_whitespace_and_comments. apply _. Qed.
#[export] Instance reads_match_word sk w : Reads I (match_word sk w).
Proof. induction w; simpl; apply _. Qed.
#[export] Instance reads_check_word w : Reads I (check_word w).
Proof. unfold check_word. apply _. Qed.
#[export] Instance reads_scan_for_word w : Reads I (scan_for_word w).
Proof. unfold scan_for_word. apply _. Qed.
#[export] Instance reads_unless_word w : Reads I (unless_word w).
Proof. unfold unless_word. apply _. Qed.

#[export] Instance stops_is_word_char : StopsAtEof is_word_char.
Proof. unfold StopsAtEof, is_word_char. by rewrite iswalnum_nul. Qed.

#[export] Instance reads_modifier_loop : Reads I modifier_loop.
Proof.
  unfold modifier_loop. apply reads_iter. intros word n v y s Hn Hs. wp_reads. lia.
Qed.
#[export] Instance reads_check_modifier_then_constructor :
  Reads I check_modifier_then_constructor.
Proof. unfold check_modifier_then_constructor. apply _. Qed.

#[export] Instance reads_asi_line_break : Reads I asi_line_break.
Proof. unfold asi_line_break. reads_loop. Qed.
#[export] Instance reads_skip_line_comment : Reads I skip_line_comment.
Proof. unfold skip_line_comment. reads_loop. Qed.
#[export] Instance reads_skip_block_comment : Reads I skip_block_comment.
Proof. unfold skip_block_comment. reads_loop. Qed.
#[export] Instance reads_skip_comments : Reads I skip_comments.
Proof. unfold skip_comments. reads_loop. Qed.
#[export] Instance reads_asi_line_comment : Reads I asi_line_comment.
Proof. unfold asi_line_comment. apply _. Qed.
#[export] Instance reads_asi_block_loop : Reads I asi_block_loop.
Proof. unfold asi_block_loop. reads_loop. Qed.
#[export] Instance reads_comment_before_word w : Reads I (comment_before_word w).
Proof. unfold comment_before_word. apply _. Qed.
#[export] Instance reads_asi_block_comment : Reads I asi_block_comment.
Proof. unfold asi_block_comment. apply _. Qed.
#[export] Instance reads_asi_slash : Reads I asi_slash.
Proof. unfold asi_slash. apply _. Qed.
#[export] Instance reads_constructor_keyword : Reads I constructor_keyword.
Proof. unfold constructor_keyword. apply _. Qed.
#[export] Instance reads_asi_switch vs : Reads I (asi_switch vs).
Proof. unfold asi_switch. apply _. Qed.
#[export] Instance reads_scan_automatic_semicolon vs : Reads I (scan_automatic_semicolon vs).
Proof. unfold scan_automatic_semicolon. apply _. Qed.
#[export] Instance reads_scan_safe_nav : Reads I scan_safe_nav.
Proof. unfold scan_safe_nav. apply _. Qed.
#[export] Instance reads_scan_line_sep : Reads I scan_line_sep.
Proof. unfold scan_line_sep. reads_loop. Qed.
#[export] Instance reads_scan_import_list_delimiter : Reads I scan_import_list_delimiter.
Proof.
  unfold scan_import_list_delimiter.
  assert (∀ b, Reads I (iter (λ _ : unit,
      c <- lookahead;;
      if (c =? " ") || (c =? TAB) || (c =? VT) then advance;; ret (inl tt)
      else if c =? "i" then b <- unless_word (cstr "mport");; ret (inr b)
      else ret (inr true)) b)) by (intros; reads_loop).
  apply _.
Qed.
#[export] Instance reads_scan_import_dot : Reads I scan_import_dot.
Proof.
  unfold scan_import_dot.
  assert (∀ b, Reads I (iter (λ found_newline : bool,
      c <- lookahead;;
      if iswspace c then
        skip;; ret (inl (found_newline || (c =? LF) || (c =? CR)))
      else ret (inr found_newline)) b)) by (intros; reads_loop).
  apply _.
Qed.
End reads.

(** ** The stack of delimiters *)

Definition is_delimiter (c : Z) : Prop := c = DQUOTE ∨ c = DQUOTE + 1.

(** The stack holds at most [k] delimiters. *)
Definition stack_inv (k : nat) (s : Stack) : Prop :=
  ∃ l, repr s l ∧ Forall is_delimiter l ∧ (length l ≤ k)%nat.

Lemma stack_inv_le k k' s : stack_inv k s → (k ≤ k')%nat → stack_inv k' s.
Proof. intros (l&?&?&?) ?. exists l. split_and!; [done..|lia]. Qed.

Section stack.
Context {L : Type} {HL : TSLexer L} {HW : WCType} {HS : TSLexerSpec L}.

Lemma wp_stack_push chr (triple : bool) n v y s l (Q : post (S := Stack) unit) :
  repr s l → (length l < 1024)%nat →
  (∀ s', repr s' (l ++ [to_char (if triple then chr + 1 else chr)]) → Q tt v y s') →
  wp (L := L) (stack_push chr triple) n v y s Q.
Proof.
  intros Hs Hl HQ. unfold stack_push. wps.
  { destruct (repr_size _ _ Hs). unfold TREE_SITTER_SERIALIZATION_BUFFER_SIZE in *. lia. }
  destruct (repr_push s l (to_char (if triple then chr + 1 else chr)) Hs ltac:(lia))
    as (s'&Hp&Hs'). eapply wp_lift; [exact Hp|]. wps. auto.
Qed.

Lemma wp_stack_pop n v y s l d (Q : post (S := Stack) Delimiter) :
  repr s (l ++ [d]) → (∀ s', repr s' l → Q d v y s') →
  wp (L := L) stack_pop n v y s Q.
Proof.
  intros Hs HQ. unfold stack_pop. wps.
  { destruct (repr_size _ _ Hs) as [Hs' _]. rewrite length_app in Hs'. simpl in *. lia. }
  destruct (repr_pop s l d Hs) as (s'&Hp&Hs'). eapply wp_lift; [exact Hp|]. wps. auto.
Qed.

End stack.

Section strings.
Context {L : Type} {HL : TSLexer L} {HW : WCType} {HS : TSLexerSpec L}.

(** [scan_string_start] pushes one delimiter exactly when it succeeds. *)
Lemma wp_scan_string_start n v y s l :
  repr s l → (length l < 1024)%nat →
  wp scan_string_start n v y s (λ r v' y' s', advanced v v' ∧ y' = y ∧
    match string_start (v_rest v) with
    | Some (d, k) => r = true ∧ repr s' (l ++ [d]) ∧ v_end v' = Some (v_pos v + k)%nat
    | None => r = false ∧ s' = s
    end).
Proof.
  intros Hs Hl. unfold scan_string_start.
  change (Z.to_nat (DELIMITER_LENGTH - 1)) with 2%nat. cbn [string_start_loop].
  wps; try (eapply wp_stack_push; [done..|]; intros s' Hs'; wps).
  all: split; [auto 10 with scan|split; [done|]].
  all: destruct v as [p [|c1 [|c2 [|c3 r]]] b e]; unfold string_start; view_cbn.
  all: repeat case_match; simplify_eq; try done; try lia.
  all: split_and!; [done|done|f_equal; lia].
Qed.

(** Closing the string pops its delimiter and nothing else changes the stack. *)
Definition string_outcome (l : list Delimiter) (d : Delimiter) (s : Stack)
    (r : bool) (y' : Z) (s' : Stack) : Prop :=
  if r then y' = TokenType_to_Z STRING_CONTENT ∧ s' = s
            ∨ y' = TokenType_to_Z STRING_END ∧ repr s' l
  else s' = s.

Lemma wp_triple_loop c k n v y s :
  wp (triple_loop c k) n v y s (λ r v' y' s', advanced v v' ∧ s' = s
    ∧ if r : bool then y' = TokenType_to_Z STRING_CONTENT else y' = y).
Proof.
  revert v. induction k as [|k IH]; intros v; simpl; wps; [done|by auto with scan|].
  eapply wp_mono; [apply IH|]. intros r v' y' s' (?&?&?). split; [advanced_tac|done].
Qed.

Lemma wp_string_triple_end c has n v y s l d :
  c ≠ 0 → (rem v < n)%nat → repr s (l ++ [d]) →
  wp (string_triple_end c has) n v y s (λ r v' y' s',
    advanced v v' ∧ r = true ∧ string_outcome l d s r y' s').
Proof.
  intros Hc Hn Hs. unfold string_triple_end. wps.
  eapply wp_mono; [apply wp_triple_loop|]. intros r v1 y1 s1 (Ha&->&Hy).
  apply advanced_mark_l in Ha. wps; [split_and!; [done|done|left; auto]..|].
  unfold while_. eapply (wp_iter (λ _ v' y' s',
    advanced v v' ∧ y' = TokenType_to_Z STRING_END ∧ s' = s) (λ _ v', rem v'));
    [|split_and!; [advanced_tac|done|done]|rem_tac].
  intros [] v2 y2 s2 (?&->&->). wps.
  - split_and!; [advanced_tac|done|done|]. assert (0 < rem v2)%nat by (apply look_pos; lia). rem_tac.
  - eapply wp_stack_pop; [done|]. intros s' Hs'. wps. split_and!; [done|done|]. right. auto.
Qed.

Lemma wp_scan_string_content n v y s l d :
  (rem v < n)%nat → repr s (l ++ [d]) → is_delimiter d →
  wp scan_string_content n v y s (λ r v' y' s', advanced v v' ∧ string_outcome l d s r y' s').
Proof.
  intros Hn Hs Hd. unfold scan_string_content. wps.
  { destruct (repr_size _ _ Hs) as [Hs' _]. rewrite length_app in Hs'. simpl in *. lia. }
  eapply wp_lift; [by eapply repr_read_last|].
  set (c := if to_bool (Z.land d 1) then _ else d).
  assert (c = DQUOTE) as Hc by (unfold c; by destruct Hd as [-> | ->]).
  rewrite Hc. clear c Hc.
  apply (wp_iter (λ _ v' _ s', advanced v v' ∧ s' = s) (λ _ v', rem v')); [|done|done].
  intros has v1 y1 s1 [Ha ->]. unfold string_content_body, string_dollar.
  wps; try (eapply wp_stack_pop; [done|]; intros s' Hs'; wps);
    try (eapply wp_mono; [eapply wp_string_triple_end; [done|rem_tac|exact Hs]|];
         intros r v2 y2 s2 (Ha2&->&Ho); wps);
    split_and!; try advanced_tac; try done; try (by left); try (by right).
  all: look_facts; unfold to_bool in *; rem_tac.
Qed.
End strings.

(** ** The whole scanner *)

(** The effect of a scan on the stack: nothing, one delimiter opened or the
    last one closed. *)
Inductive stack_step (l : list Delimiter) : list Delimiter → Prop :=
  | stack_same : stack_step l l
  | stack_open d : is_delimiter d → stack_step l (l ++ [d])
  | stack_close l' d : l = l' ++ [d] → stack_step l l'.

Section whole.
Context {L : Type} {HL : TSLexer L} {HW : WCType} {HS : TSLexerSpec L}.

Definition scan_post (l : list Delimiter) (v : view) : post (S := Stack) bool :=
  λ _ v' _ s', advanced v v' ∧ ∃ l', repr s' l' ∧ stack_step l l'.

Lemma scan_post_same l v v' s r y : advanced v v' → repr s l → scan_post l v r v' y s.
Proof. split; [done|]. exists l. split; [done|constructor]. Qed.

Lemma wp_scan_string_content_opt n v y s l :
  (rem v < n)%nat → repr s l → Forall is_delimiter l →
  wp scan_string_content n v y s (λ r v' _ s', advanced v v' ∧
    if r : bool then ∃ l', repr s' l' ∧ stack_step l l' else s' = s).
Proof.
  intros Hn Hs Hl. destruct l as [|d l _] using rev_ind.
  - unfold scan_string_content. wps; [done|]. destruct (repr_size _ _ Hs). simpl in *. lia.
  - apply Forall_app in Hl as [_ Hd]. apply Forall_cons in Hd as [Hd _].
    eapply wp_mono; [by eapply wp_scan_string_content|].
    intros [] v' y' s' [Ha Ho]; (split; [done|]); [|done].
    destruct Ho as [[_ ->]|[_ Ho]]; eexists; (split; [done|]); [constructor|].
    by eapply stack_close.
Qed.

Lemma string_start_delimiter rest d k :
  string_start rest = Some (d, k) → is_delimiter d.
Proof. unfold string_start. intros. repeat case_match; simplify_eq; (by left) || (by right). Qed.

Lemma wp_scan_rest vs n v y s l :
  (rem v < n)%nat → repr s l → Forall is_delimiter l → (length l < 1024)%nat →
  wp (scan_rest vs) n v y s (scan_post l v).
Proof.
  intros Hn Hs Hd Hl. unfold scan_rest.
  destruct (vs IMPORT_LIST_DELIMITER); [keep; by apply scan_post_same|].
  apply wp_bind. apply wp_mono with (λ r v' _ s', advanced v v' ∧
    if r : bool then ∃ l', repr s' l' ∧ stack_step l l' else s' = s).
  { destruct (vs STRING_CONTENT); [by apply wp_scan_string_content_opt|by wps]. }
  intros [] v1 y1 s1 [Ha1 H1]; [by wps|]. rewrite H1. clear s1 H1. wps.
  keep. apply wp_bind, wp_mono with (λ r v' _ s', advanced w v' ∧
    if r : bool then ∃ l', repr s' l' ∧ stack_step l l' else s' = s).
  { destruct (vs STRING_START); [|by wps].
    eapply wp_mono; [by eapply wp_scan_string_start|].
    intros r v2 y2 s2 (Ha2&_&H2). destruct (string_start _) as [[d k]|] eqn:Hst.
    - destruct H2 as (->&?&_). split; [done|]. eexists; split; [done|].
      constructor. by eapply string_start_delimiter.
    - by destruct H2 as [-> ->]. }
  intros [] v2 y2 s2 [Ha2 H2]; [wps; split; [advanced_tac|done]|]. rewrite H2. clear s2 H2.
  wps; repeat (keep; wps); (apply scan_post_same; [advanced_tac|done]).
Qed.

Lemma wp_kotlin_scan vs n v y s l :
  (rem v < n)%nat → repr s l → Forall is_delimiter l → (length l < 1024)%nat →
  wp (tree_sitter_kotlin_external_scanner_scan vs) n v y s (scan_post l v).
Proof.
  intros Hn Hs Hd Hl.
  assert (∀ v y, (rem v < n)%nat →
    wp (scan_import_and_constructor vs) n v y s (scan_post l v)) as Hrest.
  { clear v y Hn. intros v y Hn. unfold scan_import_and_constructor.
    apply wp_bind. keep. destruct a; [wps; by apply scan_post_same|]. apply wp_bind. keep.
    destruct a; [wps; apply scan_post_same; [advanced_tac|done]|].
    eapply wp_mono; [apply wp_scan_rest; [rem_tac|done..]|].
    intros r v2 y2 s2 [Ha2 H2]. split; [advanced_tac|done]. }
  unfold tree_sitter_kotlin_external_scanner_scan. wps; [|by apply Hrest].
  keep. wps; [keep; apply scan_post_same; [advanced_tac|done]|by apply scan_post_same|].
  eapply wp_mono; [apply Hrest; rem_tac|].
  intros r v2 y2 s2 [Ha2 H2]. split; [advanced_tac|done].
Qed.
End whole.

(** ** Nested comments *)

Lemma comment_tail_star d rest : comment_tail d ("*" :: "*" :: rest)
  = S <$> comment_tail d ("*" :: rest).
Proof. done. Qed.

Lemma comment_tail_close d rest : comment_tail (S (S d)) ("*" :: "/" :: rest)
  = Nat.add 2 <$> comment_tail (S d) rest.
Proof. done. Qed.

Lemma comment_tail_skip d c rest : c ≠ "*" → c ≠ NUL → (c = "/" → hd 0 rest ≠ "*") →
  comment_tail d (c :: rest) = S <$> comment_tail d rest.
Proof.
  intros H1 H2 H3. simpl. rewrite (proj2 (Z.eqb_neq _ _) H1), (proj2 (Z.eqb_neq _ _) H2).
  simpl. destruct rest as [|c2 rest]; [done|]. simpl in *.
  destruct (c =? "/") eqn:E; simpl; [|done]. apply Z.eqb_eq in E.
  by rewrite (proj2 (Z.eqb_neq _ _) (H3 E)).
Qed.

Lemma comment_tail_after_star d c rest : c ≠ "*" → c ≠ "/" →
  comment_tail d ("*" :: c :: rest) = S <$> comment_tail d (c :: rest).
Proof. intros H1 H2. simpl. by rewrite (proj2 (Z.eqb_neq _ _) H2). Qed.

Section comments.
Context {L : Type} {HL : TSLexer L} {HW : WCType} {HS : TSLexerSpec L}.

(** Where the comment ends, seen from [v] with [d] open comments, after a
    star or not. *)
Definition comment_end (star : bool) (d : nat) (v : view) : option nat :=
  if star then (λ k, v_pos v + k - 1)%nat <$> comment_tail d ("*" :: v_rest v)
  else (λ k, v_pos v + k)%nat <$> comment_tail d (v_rest v).

Ltac comment_ends := destruct (comment_tail _ _); simpl; [f_equal; lia|done].

Lemma comment_end_star star d v : (0 < rem v)%nat → look v = "*" →
  comment_end true d (adv false v) = comment_end star d v.
Proof.
  intros Hr Hl. unfold comment_end. rewrite rest_adv, v_pos_adv, (rest_cons v), Hl by done.
  destruct star; rewrite ?comment_tail_star; comment_ends.
Qed.

Lemma comment_end_close d v : (0 < rem v)%nat → look v = "/" →
  comment_end false (S d) (adv false v) = comment_end true (S (S d)) v.
Proof.
  intros Hr Hl. unfold comment_end.
  rewrite rest_adv, v_pos_adv, (rest_cons v), Hl, comment_tail_close by done.
  comment_ends.
Qed.

Lemma comment_end_open d v : (0 < rem v)%nat → look v = "/" → look (adv false v) = "*" →
  comment_end false (S d) (adv false (adv false v)) = comment_end false d v.
Proof.
  intros Hr Hl H2. assert (0 < rem (adv false v))%nat as Hr2 by (apply look_pos; by rewrite H2).
  unfold comment_end. rewrite !rest_adv, !v_pos_adv by done.
  rewrite (rest_cons v), Hl by done. rewrite <- (rest_adv false v), (rest_cons (adv false v)) at 1 by done.
  rewrite look_adv in H2. simpl. rewrite (rest_adv false v).
  destruct (tail (v_rest v)) as [|c r]; simpl in *; [done|]. subst c. simpl.
  comment_ends.
Qed.

Lemma comment_end_skip star d v : (0 < rem v)%nat → look v ≠ "*" → look v ≠ NUL →
  (look v = "/" → star = false ∧ look (adv false v) ≠ "*") →
  comment_end false d (adv false v) = comment_end star d v.
Proof.
  intros Hr H1 H2 H3. unfold comment_end. rewrite rest_adv, v_pos_adv, (rest_cons v) by done.
  rewrite look_adv in H3. destruct star.
  - assert (look v ≠ "/") by (intros E; by destruct (H3 E)).
    rewrite comment_tail_after_star, comment_tail_skip by (done || congruence). comment_ends.
  - rewrite comment_tail_skip by (done || (intros E; by destruct (H3 E))). comment_ends.
Qed.

Lemma comment_end_last v : (0 < rem v)%nat → look v = "/" →
  comment_end true 1 v = Some (v_pos (adv false v)).
Proof.
  intros Hr Hl. unfold comment_end. rewrite v_pos_adv, (rest_cons v), Hl by done.
  simpl. f_equal. lia.
Qed.

Lemma comment_end_eof star d v : at_eof v = true → comment_end star d v = Some (v_pos v).
Proof.
  intros He. apply at_eof_rem, nil_length_inv in He. unfold comment_end. rewrite He.
  destruct star; simpl; f_equal; lia.
Qed.

Lemma comment_end_nul star d v : at_eof v = false → look v = NUL → comment_end star d v = None.
Proof.
  intros He Hl. unfold comment_end. rewrite (rest_cons v), Hl by by apply not_eof_pos.
  destruct star; simpl; by destruct (tail _).
Qed.

Lemma wp_scan_multiline_comment n v y s :
  (rem v < n)%nat → Z.of_nat (rem v) < 4294967296 →
  look v = "/" → look (adv false v) = "*" →
  wp (S := Stack) scan_multiline_comment n v y s (λ r v' y' s', s' = s ∧
    match comment_tail 1 (drop 2 (v_rest v)) with
    | Some k => r = true ∧ y' = TokenType_to_Z MULTILINE_COMMENT
        ∧ v_end v' = Some (v_pos v + 2 + k)%nat
    | None => r = false
    end).
Proof.
  intros Hn H32 H1 H2. unfold scan_multiline_comment.
  assert (0 < rem v)%nat as Hr by (apply look_pos; by rewrite H1).
  assert (0 < rem (adv false v))%nat as Hr2 by (apply look_pos; by rewrite H2).
  wps; try (rewrite ?H1, ?H2 in *; done). clear E E0.
  set (v2 := adv false (adv false v)).
  assert (v_rest v2 = drop 2 (v_rest v)) as Hrest
    by (unfold v2; rewrite !rest_adv; by destruct (v_rest v) as [|? []]).
  assert (v_pos v2 = v_pos v + 2)%nat as Hpos by (unfold v2; rewrite !v_pos_adv by done; lia).
  rewrite <- Hrest, <- Hpos. rewrite rem_adv in Hr2.
  assert (rem v2 + 2 = rem v)%nat as Hrem by (unfold v2; rewrite !rem_adv; lia).
  clearbody v2. clear Hrest Hpos Hr Hr2 H1 H2.
  apply (wp_iter (λ '(star, depth) v' _ s', s' = s ∧ (rem v' ≤ rem v2)%nat ∧
      ∃ d, depth = Z.of_nat (S d) ∧ (S d + rem v' ≤ 1 + rem v2)%nat
        ∧ comment_end star (S d) v' = comment_end false 1 v2) (λ _ v', rem v'));
    [|split_and!; [done..|]; by exists 0%nat|lia].
  intros [star depth] v1 y1 s1 (->&Hr1&d&->&Hd&Hend). unfold multiline_comment_body.
  assert (∀ e, comment_end star (S d) v1 = e →
    e = (λ k, v_pos v2 + k)%nat <$> comment_tail 1 (v_rest v2)) as Hlast
    by (intros e <-; exact Hend).
  wps; look_facts; repeat match goal with H : (look _ =? _) = true |- _ => apply Z.eqb_eq in H end;
    repeat match goal with H : (look _ =? _) = false |- _ => apply Z.eqb_neq in H end.
  - split; [|rem_tac]. split_and!; [done|rem_tac|]. exists d. split_and!; [done|rem_tac|].
    by rewrite (comment_end_star star) by done.
  - rewrite to_u32_small in E2 by rem_tac. assert (d = 0)%nat as -> by lia.
    specialize (Hlast _ (comment_end_last v1 ltac:(done) E0)).
    destruct (comment_tail 1 (v_rest v2)); [by split_and!|done].
  - rewrite to_u32_small in * by rem_tac. destruct d as [|d]; [done|].
    split; [|rem_tac]. split_and!; [done|rem_tac|]. exists d. split_and!; [lia|rem_tac|].
    by rewrite comment_end_close by done.
  - rewrite to_u32_small by rem_tac. rewrite rem_adv in *.
    split; [|rewrite !rem_adv; lia]. split_and!; [done|rewrite !rem_adv; lia|].
    exists (S d). split_and!; [lia|rewrite !rem_adv; lia|]. by rewrite comment_end_open by done.
  - split; [|rem_tac]. split_and!; [done|rem_tac|]. exists d. split_and!; [done|rem_tac|].
    by rewrite (comment_end_skip false) by (done || congruence).
  - specialize (Hlast _ (comment_end_eof star (S d) v1 ltac:(done))).
    destruct (comment_tail 1 (v_rest v2)); [by split_and!|done].
  - specialize (Hlast _ (comment_end_nul star (S d) v1 ltac:(done) ltac:(done))).
    by destruct (comment_tail 1 (v_rest v2)).
  - split; [|rewrite rem_adv; apply look_pos in E1; lia]. split_and!; [done|rem_tac|].
    exists d. apply look_pos in E1 as Hp. split_and!; [done|rem_tac|].
    by rewrite (comment_end_skip star) by (done || congruence).
Qed.
End comments.

(** ** Automatic semicolons *)

Section semicolons.
Context {L : Type} {HL : TSLexer L} {HW : WCType} {HS : TSLexerSpec L}.

Lemma wp_match_word sk word n v y s :
  Forall (λ c, c ≠ 0) word →
  wp (S := Stack) (match_word sk word) n v y s (λ r v' y' s',
    y' = y ∧ s' = s ∧ v_end v' = v_end v
    ∧ starts_with_word word (v_rest v) = if r : bool then negb (is_word_char (look v')) else false).
Proof.
  intros Hw. revert v. induction Hw as [|c word Hc _ IH]; intros v; simpl; wps.
  - split_and!; [done..|]. unfold look. destruct (v_rest v); [|done].
    unfold is_word_char. simpl. by rewrite iswalnum_nul.
  - split_and!; [done..|]. unfold look in E. destruct (v_rest v) as [|d r]; [done|].
    apply negb_true_iff in E. simpl in *. by rewrite E.
  - apply negb_false_iff, Z.eqb_eq in E. assert (0 < rem v)%nat by (apply look_pos; congruence).
    eapply wp_mono; [apply IH|]. intros r v' y' s' (->&->&He&Hr).
    rewrite v_end_adv in He. rewrite rest_adv in Hr.
    rewrite (rest_cons v), E, Z.eqb_refl by done. by split_and!.
Qed.

Lemma wp_check_word word n v y s :
  Forall (λ c, c ≠ 0) word →
  wp (S := Stack) (check_word word) n v y s (λ r v' y' s',
    r = starts_with_word word (v_rest v) ∧ y' = y ∧ s' = s ∧ v_end v' = v_end v).
Proof.
  intros Hw. unfold check_word. wps. eapply wp_mono; [by apply wp_match_word|].
  intros r v' y' s' (->&->&He&->). destruct r; wps; done.
Qed.

Lemma wp_unless_word w word n v y s :
  Forall (λ c, c ≠ 0) word → w ≠ 0 → look v = w →
  wp (S := Stack) (unless_word word) n v y s (λ r v' y' s',
    r = negb (starts_with_word (w :: word) (v_rest v)) ∧ y' = y ∧ s' = s ∧ v_end v' = v_end v).
Proof.
  intros Hw H0 Hl. unfold unless_word, scan_for_word. wps.
  eapply wp_mono; [by apply wp_check_word|]. intros r v' y' s' (->&->&->&He). wps.
  assert (0 < rem v)%nat by (apply look_pos; congruence).
  rewrite He, v_end_adv, rest_adv, (rest_cons v), Hl by done. simpl. by rewrite Z.eqb_refl.
Qed.

Lemma nonzero_word w : forallb (λ c, negb (c =? 0)) w = true → Forall (λ c, c ≠ 0) w.
Proof.
  induction w as [|c w IH]; simpl; [done|]. rewrite andb_true_iff, negb_true_iff, Z.eqb_neq.
  intros [? ?]. constructor; auto.
Qed.

Lemma continuation_words_eq : continuation_words =
  ["e" :: cstr "lse"; "a" :: cstr "s"; "w" :: cstr "here"; "c" :: cstr "atch";
   "f" :: cstr "inally"].
Proof. reflexivity. Qed.

Lemma starts_with_word_cons w word c rest :
  starts_with_word (w :: word) (c :: rest) = (c =? w) && starts_with_word word rest.
Proof. done. Qed.

(** The tests of [asi_switch] decide [continues]. *)
Lemma wp_asi_switch vs n v y s :
  vs PRIMARY_CONSTRUCTOR_KEYWORD && negb (vs STRING_CONTENT) = false →
  look v ≠ ";" →
  (look v = "/" → look (adv false v) ≠ "/" ∧ look (adv false v) ≠ "*") →
  wp (S := Stack) (asi_switch vs) n v y s (λ r v' y' s',
    r = negb (continues (v_rest v)) ∧ y' = y ∧ s' = s ∧ v_end v' = v_end v).
Proof.
  intros Hvs Hsemi Hslash. unfold asi_switch. rewrite Hvs.
  assert (Hcont : continues (v_rest v) = is_continuation (look v) || (look v =? "/")
    || (look v =? "!") && (look (adv false v) =? "=")
    || existsb (λ w, starts_with_word w (v_rest v)) continuation_words)
    by (unfold continues; by rewrite look_adv).
  assert (Hwords : look v ≠ "e" → look v ≠ "a" → look v ≠ "w" → look v ≠ "c" → look v ≠ "f" →
    existsb (λ w, starts_with_word w (v_rest v)) continuation_words = false).
  { unfold look. destruct (v_rest v) as [|c r]; [done|]. rewrite continuation_words_eq.
    cbn [existsb hd]. rewrite !starts_with_word_cons. intros He Ha Hw Hc Hf.
    by rewrite !(proj2 (Z.eqb_neq _ _)) by done. }
  assert (Hword : ∀ w word, look v = w → w ≠ 0 → (w :: word) ∈ continuation_words →
    existsb (λ w, starts_with_word w (v_rest v)) continuation_words
    = starts_with_word (w :: word) (v_rest v)).
  { unfold look. rewrite continuation_words_eq.
    destruct (v_rest v) as [|c r]; [simpl; intros; congruence|].
    intros w word Hw _ Hin. cbn [hd] in Hw. subst c.
    rewrite !elem_of_cons, elem_of_nil in Hin.
    destruct_or! Hin; simplify_eq; cbn [existsb]; rewrite !starts_with_word_cons; simpl;
      by rewrite ?orb_false_r. }
  rewrite Hcont. clear Hcont. unfold asi_slash.
  wps; try lia;
    try (eapply wp_mono;
         [eapply wp_unless_word; cycle 2; [by apply Z.eqb_eq|by apply nonzero_word|done]|];
         intros r v' y' s' H; cbv beta; erewrite Hword; [exact H|lia|done|];
         rewrite continuation_words_eq, !elem_of_cons; tauto).
  all: try (rewrite Hwords by lia); rewrite ?v_end_adv, ?v_end_mark, ?look_adv, ?orb_false_r;
    split_and!; (done || lia).
Qed.

(** White space inside a line. *)
Definition inline_space (c : Z) : Prop := iswspace c = true ∧ c ≠ LF ∧ c ≠ CR.

(** The view behind a line break and the white space that follows it. *)
Lemma wp_asi_line_break n v y s ws nl rest :
  v_rest v = ws ++ nl :: rest → Forall inline_space ws → nl = LF ∨ nl = CR →
  (rem v < n)%nat →
  wp (S := Stack) asi_line_break n v y s (λ r v' y' s', r = Some false ∧ y' = y ∧ s' = s
    ∧ v_end v' = v_end v ∧ (rem v' < n)%nat
    ∧ drop (span iswspace (v_rest v')) (v_rest v') = drop (span iswspace rest) rest).
Proof.
  intros Hv Hws Hnl Hn. unfold asi_line_break.
  assert (∀ c, c = LF ∨ c = CR ∨ c = ";" → iswspace c = negb (c =? ";")) as Hsp
    by (intros c Hc; rewrite iswspace_ascii by lia; destruct_or! Hc; by subst).
  apply (wp_iter (λ _ v1 y1 s1, y1 = y ∧ s1 = s ∧ v_end v1 = v_end v ∧ (rem v1 < n)%nat ∧
      ∃ ws, v_rest v1 = ws ++ nl :: rest ∧ Forall inline_space ws) (λ _ v1, rem v1));
    [|by eauto 10|done].
  clear Hv Hn ws Hws. intros [] v1 y1 s1 (->&->&He&Hn&ws&Hv&Hws).
  assert (0 < rem v1)%nat as Hr by (unfold rem; rewrite Hv, length_app; simpl; lia).
  assert (look v1 = hd nl ws) as Hl by (unfold look; rewrite Hv; by destruct ws).
  assert (inline_space (look v1) ∧ tail (v_rest v1) = tail ws ++ nl :: rest
          ∧ Forall inline_space (tail ws)
        ∨ look v1 = nl ∧ tail (v_rest v1) = rest) as Hcase.
  { rewrite Hv, Hl. destruct Hws as [|c ws Hc Hws]; simpl; auto. }
  wps; look_facts;
    repeat match goal with H : (look _ =? _) = true |- _ => apply Z.eqb_eq in H end.
  - apply at_eof_rem in E. lia.
  - exfalso. rewrite E0 in Hcase.
    destruct Hcase as [[[Hc _] _]|[Hc _]]; [by rewrite Hsp in Hc by auto|lia].
  - exfalso. destruct Hcase as [[[Hc _] _]|[Hc _]]; [congruence|].
    rewrite Hc, Hsp in E1 by lia. lia.
  - destruct Hcase as [[(_&?&_) _]|[_ Ht]]; [done|].
    rewrite !rest_adv, Ht, v_end_adv, rem_adv. split_and!; try done. lia.
  - destruct Hcase as [[(_&_&?) _]|[_ Ht]]; [done|].
    rewrite !v_end_adv, !rem_adv. split_and!; try done; try lia.
    rewrite !rest_adv, Ht. rewrite look_adv, Ht in E4. destruct rest as [|c rest]; [done|].
    simpl in *. subst c. by rewrite Hsp by auto.
  - destruct Hcase as [[(_&_&?) _]|[_ Ht]]; [done|].
    rewrite rest_adv, Ht, v_end_adv, rem_adv. split_and!; try done. lia.
  - destruct Hcase as [[Hc [Ht Hws']]|[Hc _]]; [|exfalso; lia].
    rewrite v_end_adv, rem_adv. split; [|lia]. split_and!; try done; [lia|].
    exists (tail ws). by rewrite rest_adv.
Qed.

Lemma wp_scan_automatic_semicolon vs n v y s ws nl rest :
  v_rest v = ws ++ nl :: rest → Forall inline_space ws → nl = LF ∨ nl = CR →
  (rem v < n)%nat →
  vs PRIMARY_CONSTRUCTOR_KEYWORD && negb (vs STRING_CONTENT) = false →
  let next := drop (span iswspace rest) rest in
  hd 0 next ≠ ";" →
  (hd 0 next = "/" → hd 0 (tail next) ≠ "/" ∧ hd 0 (tail next) ≠ "*") →
  wp (S := Stack) (scan_automatic_semicolon vs) n v y s (λ r v' y' s',
    r = negb (continues next) ∧ y' = TokenType_to_Z AUTOMATIC_SEMICOLON ∧ s' = s
    ∧ v_end v' = Some (v_pos v)).
Proof.
  intros Hv Hws Hnl Hn Hvs next Hsemi Hslash.
  unfold scan_automatic_semicolon, scan_whitespace_and_comments. wps.
  eapply wp_mono; [by eapply (wp_asi_line_break n (mark v))|].
  intros r v1 y1 s1 (->&->&->&He&Hn1&Hr). wps.
  apply wp_while_look; [by apply iswspace_nul|done|]. wps.
  assert (v_rest (adv_span iswspace true v1) = next) as Hnext by by rewrite rest_adv_span.
  eapply wp_mono; [apply wp_asi_switch; [done|..]|].
  - unfold look. by rewrite Hnext.
  - rewrite look_adv. unfold look. by rewrite Hnext.
  - intros r v2 y2 s2. rewrite Hnext, v_end_adv_span, He. done.
Qed.
End semicolons.

(** ** Serialization *)

#[export] Instance kotlin_codec :
  ScannerCodec repr (λ stack : list Delimiter, (length stack ≤ 1024)%nat)
    tree_sitter_kotlin_external_scanner_serialize
    tree_sitter_kotlin_external_scanner_deserialize.
Proof.
  refine {| encode := λ stack, stack |}.
  - done.
  - intros s stack Hs Hl. unfold tree_sitter_kotlin_external_scanner_serialize.
    destruct (repr_size _ _ Hs) as [Hsz _]. unfold TREE_SITTER_SERIALIZATION_BUFFER_SIZE.
    repeat case_match; try lia; [by apply repr_read_block|]. destruct stack; [done|simpl in *; lia].
  - intros s0 stack0 stack H0 Hl.
    unfold tree_sitter_kotlin_external_scanner_deserialize.
    destruct (0 <? _) eqn:E.
    + destruct (repr_load s0 stack0 stack H0 ltac:(lia)) as (c&Hc&Hr).
      rewrite Hc. simpl. by eexists.
    + destruct stack; [|done]. eexists; split; [done|]. by eapply repr_clear.
  - intros s. apply repr_inj.
Defined.

(** ** Properties of the Kotlin scanner *)

(** C4: on every input, with fewer than 1024 open strings, a call of the
    scanner ends without [abort] and without an access out of bounds, moves
    forward only, and opens or closes at most one string. *)
Theorem kotlin_scan_total {L} {HL : TSLexer L} {HW : WCType} {HS : TSLexerSpec L}
    (valid_symbols : TokenType → bool) n l y s stack :
  (rem (view_of l) < n)%nat →
  repr s stack → Forall is_delimiter stack → (length stack < 1024)%nat →
  ∃ r l' y' s' stack',
    tree_sitter_kotlin_external_scanner_scan valid_symbols n (mkst l y s)
      = Done (r, mkst l' y' s')
    ∧ advanced (view_of l) (view_of l') ∧ repr s' stack' ∧ stack_step stack stack'.
Proof.
  intros Hn Hs Hd Hl.
  destruct (wp_run _ n l y s _ (wp_kotlin_scan valid_symbols n _ y s stack Hn Hs Hd Hl))
    as (r&l'&y'&s'&Hrun&Ha&stack'&Hs'&Hstep). by exists r, l', y', s', stack'.
Qed.

Lemma kotlin_scan_total_witness :
  ∃ r l' y' s' stack',
    tree_sitter_kotlin_external_scanner_scan (λ _, true) 20%nat
        (mkst (input (cstr "//x")) 0 array_init) = Done (r, mkst l' y' s')
    ∧ advanced (input (cstr "//x")) l' ∧ repr s' stack' ∧ stack_step [] stack'.
Proof.
  refine (kotlin_scan_total (λ _, true) 20%nat (input (cstr "//x")) 0 array_init [] _ _ _ _);
    [vm_compute; lia|exact repr_init|constructor|simpl; lia].
Defined.

(** Saving the stack of open strings and restoring the bytes, over any
    other state of the scanner, gives back the same stack, in at most the
    1024 bytes of the buffer. *)
Theorem kotlin_serialize_roundtrip s stack s0 stack0 :
  repr s stack → (length stack ≤ 1024)%nat → repr s0 stack0 →
  ∃ buffer s', tree_sitter_kotlin_external_scanner_serialize s = Done buffer
    ∧ (length buffer ≤ SERIALIZATION_BUFFER_SIZE)%nat
    ∧ tree_sitter_kotlin_external_scanner_deserialize s0 buffer = Done s'
    ∧ repr s' stack.
Proof. intros. by eapply (codec_roundtrip (HC := kotlin_codec)). Qed.

Lemma kotlin_serialize_roundtrip_witness :
  ∃ buffer s', tree_sitter_kotlin_external_scanner_serialize example_array = Done buffer
    ∧ (length buffer ≤ SERIALIZATION_BUFFER_SIZE)%nat
    ∧ tree_sitter_kotlin_external_scanner_deserialize array_init buffer = Done s'
    ∧ repr s' [2; 4; 6].
Proof.
  refine (kotlin_serialize_roundtrip example_array [2; 4; 6] array_init [] _ _ _);
    [exact example_array_repr|simpl; lia|exact repr_init].
Defined.

(** A string that opens while 1024 are open aborts the process. *)
Theorem kotlin_stack_full_aborts {L} {HL : TSLexer L} {HS : TSLexerSpec L} n l y s stack :
  repr s stack → (1024 ≤ length stack)%nat → lookahead_of l = DQUOTE →
  scan_string_start n (mkst l y s) = Aborted.
Proof.
  intros Hs Hl Hq. destruct (repr_size _ _ Hs) as [Hsz _].
  assert (∀ b (l : L) y, stack_push DQUOTE b n (mkst l y s) = Aborted) as Hpush.
  { intros b l' y'. unfold stack_push, bind, get_payload. simpl.
    unfold TREE_SITTER_SERIALIZATION_BUFFER_SIZE. by replace (_ <=? _) with true by lia. }
  unfold scan_string_start. change (Z.to_nat (DELIMITER_LENGTH - 1)) with 2%nat.
  cbn [string_start_loop]. unfold bind at 1, lookahead at 1. simpl. rewrite Hq. simpl.
  unfold advance, bind, lookahead, mark_end, advance_. simpl.
  repeat (case_match; simpl; rewrite ?Hpush; try done).
Qed.

Lemma kotlin_stack_full_aborts_witness :
  scan_string_start 20%nat
    (mkst (input [DQUOTE]) 0 (mkArray (replicate 1024 (Some DQUOTE)) 1024 1024)) = Aborted.
Proof.
  refine (kotlin_stack_full_aborts 20%nat (input [DQUOTE]) 0
    (mkArray (replicate 1024 (Some DQUOTE)) 1024 1024) (replicate 1024 DQUOTE) _ _ _).
  - exists []. split_and!; [by vm_compute..|done].
  - rewrite length_replicate. lia.
  - done.
Defined.

(** C21: a block comment ends where counting the nested openings and closings
    says, or at the end of the input; a null character makes the scanner give
    up. (Below 2^32 characters the depth does not wrap.) *)
Theorem kotlin_nested_comment {L} {HL : TSLexer L} {HS : TSLexerSpec L} n l y (s : Stack) rest :
  v_rest (view_of l) = cstr "/*" ++ rest →
  (rem (view_of l) < n)%nat → Z.of_nat (rem (view_of l)) < 4294967296 →
  ∃ r l' y', scan_multiline_comment n (mkst l y s) = Done (r, mkst l' y' s)
    ∧ match comment_tail 1 rest with
      | Some k => r = true ∧ y' = TokenType_to_Z MULTILINE_COMMENT
          ∧ v_end (view_of l') = Some (v_pos (view_of l) + 2 + k)%nat
      | None => r = false
      end.
Proof.
  intros Hr Hn H32.
  assert (wp scan_multiline_comment n (view_of l) y s (λ r v' y' s', s' = s ∧
    match comment_tail 1 (drop 2 (v_rest (view_of l))) with
    | Some k => r = true ∧ y' = TokenType_to_Z MULTILINE_COMMENT
        ∧ v_end v' = Some (v_pos (view_of l) + 2 + k)%nat
    | None => r = false
    end)) as Hwp.
  { apply wp_scan_multiline_comment; [done..| |]; unfold look; rewrite ?rest_adv, Hr; done. }
  rewrite Hr in Hwp. destruct (wp_run _ n l y s _ Hwp) as (r&l'&y'&s'&Hrun&->&H).
  by exists r, l', y'.
Qed.

Lemma kotlin_nested_comment_witness :
  ∃ r l' y', scan_multiline_comment 20%nat
      (mkst (input (cstr "/*a/*b*/c*/d")) 0 (array_init : Stack))
      = Done (r, mkst l' y' (array_init : Stack))
    ∧ match Some 9%nat with
      | Some k => r = true ∧ y' = TokenType_to_Z MULTILINE_COMMENT ∧ v_end l' = Some (2 + k)%nat
      | None => r = false
      end.
Proof.
  refine (kotlin_nested_comment 20%nat (input (cstr "/*a/*b*/c*/d")) 0 array_init
            (cstr "a/*b*/c*/d") _ _ _); [by vm_compute|vm_compute; lia|by vm_compute].
Defined.



(** Inside a string, the scanner ends, and it closes the string (popping
    its delimiter and nothing else) exactly when it returns [STRING_END];
    whatever else it answers leaves the stack of open strings as it was. *)
Theorem kotlin_string_stack {L} {HL : TSLexer L} {HW : WCType} {HS : TSLexerSpec L}
    n l y s stack d :
  (rem (view_of l) < n)%nat → repr s (stack ++ [d]) → is_delimiter d →
  ∃ r l' y' s', scan_string_content n (mkst l y s) = Done (r, mkst l' y' s')
    ∧ advanced (view_of l) (view_of l')
    ∧ if r : bool then y' = TokenType_to_Z STRING_CONTENT ∧ s' = s
                       ∨ y' = TokenType_to_Z STRING_END ∧ repr s' stack
      else s' = s.
Proof.
  intros Hn Hs Hd.
  destruct (wp_run _ n l y s _ (wp_scan_string_content n _ y s stack d Hn Hs Hd))
    as (r&l'&y'&s'&Hrun&H). by exists r, l', y', s'.
Qed.

Lemma kotlin_string_stack_witness :
  ∃ r l' y' s', scan_string_content 20%nat
      (mkst (input (cstr "ab$c")) 0 (mkArray [Some DQUOTE] 1 1)) = Done (r, mkst l' y' s')
    ∧ advanced (input (cstr "ab$c")) l'
    ∧ if r : bool then y' = TokenType_to_Z STRING_CONTENT ∧ s' = mkArray [Some DQUOTE] 1 1
                       ∨ y' = TokenType_to_Z STRING_END ∧ repr s' []
      else s' = mkArray [Some DQUOTE] 1 1.
Proof.
  refine (kotlin_string_stack 20%nat (input (cstr "ab$c")) 0 (mkArray [Some DQUOTE] 1 1)
            [] DQUOTE _ _ _); [vm_compute; lia|by exists []|by left].
Defined.

(** ** Deviations *)

(** Behind an escaped dollar sign the next character is consumed without being
    looked at, so an escaped quote mark there ends the string: the token stops
    in front of the quote mark, which the next call takes for the delimiter. *)
Theorem kotlin_escaped_dollar_quote k rest :
  ∃ v, scan_string_content (S (S (S k)))
      (mkst (input (BACKSLASH :: "$" :: BACKSLASH :: DQUOTE :: rest)) 0
         (mkArray [Some DQUOTE] 1 1))
    = Done (true, mkst v (TokenType_to_Z STRING_CONTENT) (mkArray [Some DQUOTE] 1 1))
    ∧ v_end v = Some 3%nat.
Proof. eexists. split; [lazy; reflexivity|reflexivity]. Qed.

(** A locale in which the letters of Latin Extended-A are alphabetic. *)
Definition latin_locale : WCType.
Proof.
  refine {| iswspace := ascii_space; iswlower := ascii_lower;
    iswupper := ascii_upper; iswdigit := ascii_digit;
    iswalpha := λ c, ascii_upper c || ascii_lower c || (256 <=? c) && (c <? 384) |}; try done.
  intros c Hc. replace (_ && _) with false by lia. by rewrite orb_false_r.
Defined.

(** The characters of a modifier are truncated to eight bits: with U+0175 for
    its second letter, a word is still taken for [public]. *)
Theorem kotlin_modifier_truncated :
  ∃ st, check_modifier_then_constructor (HW := latin_locale) 40%nat
      (mkst (input ("p" :: 373 :: cstr "blic constructor(")) 0 (array_init : Stack))
    = Done (true, st).
Proof. eexists. vm_compute. reflexivity. Qed.
