(* ===== verification/KotlinReplay.v ===== *)
(** * Replay of the Kotlin scanner

    The scan sees the stack of open strings, and not how its array came about. *)

From S2P Require Import Prelude CArray CArrayProofs Codec Scan Logic Replay Session Kotlin KotlinProofs.

Section replay.
Context {L : Type} {HL : TSLexer L} {HW : WCType}.
Local Abbreviation sim := (sim (L := L) (same_state (repr := repr (T := Z)))).

Lemma sim_stack_push chr triple : sim eq (stack_push chr triple) (stack_push chr triple).
Proof.
  unfold stack_push. apply sim_get. intros s1 s2 (l&H1&H2). rewrite (size_same s1 s2 l l) by done.
  destruct (_ <=? _); [by apply sim_abort|]. eapply sim_lift_bind; [by eapply push_same|].
  intros b1 b2 [? ?]. apply sim_set. by eexists.
Qed.

Lemma sim_stack_pop : sim eq stack_pop stack_pop.
Proof.
  unfold stack_pop. apply sim_get. intros s1 s2 (l&H1&H2). rewrite (size_same s1 s2 l l) by done.
  destruct (_ =? 0); [by apply sim_abort|]. eapply sim_lift_bind; [by eapply pop_same|].
  intros [x1 b1] [x2 b2] [<- Hb]. cbn [fst snd] in *. apply sim_bind_eq; [by apply sim_set|]. intros []. by apply sim_ret.
Qed.
#[local] Hint Resolve sim_stack_push sim_stack_pop : sim.

Lemma sim_string_start_loop n : sim eq (string_start_loop n) (string_start_loop n).
Proof. induction n as [|n IH]; cbn [string_start_loop]; sim_tac. Qed.

Lemma sim_triple_loop c n : sim eq (triple_loop c n) (triple_loop c n).
Proof. induction n as [|n IH]; cbn [triple_loop]; sim_tac. Qed.

Lemma sim_match_word sk w : sim eq (match_word sk w) (match_word sk w).
Proof. induction w as [|x w IH]; cbn [match_word]; sim_tac. Qed.
#[local] Hint Resolve sim_string_start_loop sim_triple_loop sim_match_word : sim.

Lemma sim_string_content : sim eq scan_string_content scan_string_content.
Proof.
  unfold scan_string_content. apply sim_get. intros s1 s2 (l&H1&H2). rewrite (size_same s1 s2 l l) by done.
  destruct (repr_size _ _ H2) as [-> _]. destruct l as [|x l _] using rev_ind; [by apply sim_ret|].
  pose proof (repr_read_last s1 l x H1) as E1. pose proof (repr_read_last s2 l x H2) as E2.
  destruct (repr_size _ _ H1) as [Hs1 _], (repr_size _ _ H2) as [Hs2 _]. rewrite Hs1 in E1. rewrite Hs2 in E2.
  rewrite E1, E2. sim_tac.
Qed.
#[local] Hint Resolve sim_string_content : sim.

Lemma sim_kotlin_scan vs : sim eq (tree_sitter_kotlin_external_scanner_scan vs) (tree_sitter_kotlin_external_scanner_scan vs).
Proof. sim_tac. Qed.
End replay.

(** The stack with one open string. *)
Definition quote_open : Stack := mkArray [Some DQUOTE] 1 1.
Lemma quote_open_repr : repr quote_open [DQUOTE].
Proof. by exists []. Qed.
Definition in_string (t : TokenType) : bool := match t with STRING_CONTENT | STRING_END => true | _ => false end.
Definition quoted_text : view := input [97; 98; DQUOTE].

(** Restoring what was saved is as good as going on: the scan from a restored
    stack, on any input, gives the token of the scan from the saved one, leaves
    the lexer at the same place, and the same strings open. *)
Theorem kotlin_replay {L} {HL : TSLexer L} {HW : WCType} {HS : TSLexerSpec L}
    (valid_symbols : TokenType → bool) n l y s stack s0 stack0 :
  (rem (view_of l) < n)%nat → repr s stack → Forall is_delimiter stack → (length stack < 1024)%nat → repr s0 stack0 →
  ∃ buffer s' b l' y' s1 s2 stack',
    tree_sitter_kotlin_external_scanner_serialize s = Done buffer
    ∧ tree_sitter_kotlin_external_scanner_deserialize s0 buffer = Done s'
    ∧ tree_sitter_kotlin_external_scanner_scan valid_symbols n (mkst l y s) = Done (b, mkst l' y' s1)
    ∧ tree_sitter_kotlin_external_scanner_scan valid_symbols n (mkst l y s') = Done (b, mkst l' y' s2)
    ∧ repr s1 stack' ∧ repr s2 stack'.
Proof.
  intros Hn Hs Hd Hl H0.
  apply (codec_replay (HC := kotlin_codec) (same_state (repr := repr)) _ n l y s stack s0 stack0); [| | |done|lia|done].
  - intros s1 s2 H1 H2. apply sim_kotlin_scan. by exists stack.
  - apply (same_state_transfer (HC := kotlin_codec)).
  - intros t Ht. destruct (wp_run _ n l y t _ (wp_kotlin_scan valid_symbols n _ y t stack Hn Ht Hd Hl))
      as (r&l'&y'&s'&E&_&stack'&Hs'&_). by eexists _, _, _, _, _.
Qed.

(** A quote mark was read; the string, restored over other ones, ends at the next. *)
Lemma kotlin_replay_witness :
  ∃ buffer s' b l' y' s1 s2 stack',
    tree_sitter_kotlin_external_scanner_serialize quote_open = Done buffer
    ∧ tree_sitter_kotlin_external_scanner_deserialize example_array buffer = Done s'
    ∧ tree_sitter_kotlin_external_scanner_scan in_string 20%nat (mkst quoted_text 0 quote_open) = Done (b, mkst l' y' s1)
    ∧ tree_sitter_kotlin_external_scanner_scan in_string 20%nat (mkst quoted_text 0 s') = Done (b, mkst l' y' s2)
    ∧ repr s1 stack' ∧ repr s2 stack'.
Proof.
  refine (kotlin_replay in_string 20%nat quoted_text 0 quote_open [DQUOTE] example_array [2; 4; 6] _ _ _ _ _);
    [vm_compute; lia|exact quote_open_repr|repeat constructor|cbn; lia|exact example_array_repr].
Defined.

(** ** Sessions *)

Definition open_strings (s : Stack) (stack : list Delimiter) : Prop := repr s stack ∧ Forall is_delimiter stack.
Definition not_full (stack : list Delimiter) : Prop := (length stack < 1024)%nat.

Lemma stack_step_ok l l' : stack_step l l' → Forall is_delimiter l → Forall is_delimiter l'.
Proof. by destruct 1 as [|d Hd|l' d ->]; rewrite ?Forall_app, ?Forall_singleton; [|auto|intros []]. Qed.

#[export] Instance kotlin_runtime {L} `{HS : TSLexerSpec L} {HW : WCType} :
  RuntimeScanner (L := L) tree_sitter_kotlin_external_scanner_scan (saves tree_sitter_kotlin_external_scanner_serialize)
    tree_sitter_kotlin_external_scanner_deserialize open_strings not_full enough_fuel.
Proof.
  split.
  - intros s a1 a2 [H1 _] [H2 _]. by eapply repr_inj.
  - intros vs n l y s1 s2 stack [H1 Hd] [H2 _] Hl Hn. eapply same_call.
    + apply sim_kotlin_scan. by exists stack.
    + intros s Hs. assert (repr s stack) as Hr by (by destruct Hs as [->| ->]).
      destruct (wp_run _ n l y s _ (wp_kotlin_scan vs n _ y s stack Hn Hr Hd Hl)) as (r&l'&y'&t&E&_&stack'&Ht&Hstep).
      exists r, l', y', t. split; [done|]. exists stack'. split; [done|]. by eapply stack_step_ok.
    + intros t1 t2 a' HR [Ht Hd']. split; [|done]. by eapply (same_state_transfer (HC := kotlin_codec)).
  - intros s stack [Hs Hd] Hl. assert (length stack ≤ 1024)%nat as Hle by (unfold not_full in Hl; lia).
    destruct (codec_restores (HC := kotlin_codec) s stack Hs Hle) as (buffer&E&Hfit&Hr).
    exists buffer, s, stack. unfold saves. rewrite E. split_and!; [done..|]. intros s0 a0 [H0 _].
    destruct (Hr s0 a0 H0) as (s1&Hd1&Hs1). by exists s1.
Qed.

(** No bytes stand for no open strings. *)
Lemma kotlin_start : restores tree_sitter_kotlin_external_scanner_deserialize open_strings not_full array_init [].
Proof.
  exists []. split_and!; [by split; [exact repr_init|]|unfold not_full; cbn; lia|]. intros s0 a0 [H0 _].
  destruct (codec_deserialize (ScannerCodec := kotlin_codec) s0 a0 [] H0) as (s&Hd&Hs); [apply Nat.le_0_l|].
  exists s. split; [exact Hd|]. by split.
Qed.

(** C20: restoring and saving around every call is as good as keeping the payloads: in
    every session of fewer than 1024 nested strings, with any order of going back to
    recorded tokens, every call gives the same answer, the same place in the input
    and the same symbol, whatever the payload held before. *)
Theorem kotlin_sessions {L} {HL : TSLexer L} {HW : WCType} {HS : TSLexerSpec L}
    (calls : list (call L (TokenType → bool))) s0 stack0 :
  open_strings s0 stack0 →
  allowed tree_sitter_kotlin_external_scanner_scan open_strings not_full enough_fuel calls [array_init] →
  ∃ answers, keeping tree_sitter_kotlin_external_scanner_scan calls [array_init] = Done answers
    ∧ saving tree_sitter_kotlin_external_scanner_scan (saves tree_sitter_kotlin_external_scanner_serialize)
        tree_sitter_kotlin_external_scanner_deserialize calls s0 [[]] = Done answers.
Proof. intros H0. by apply (sessions_agree (HC := kotlin_runtime) _ _ _ _ stack0 kotlin_start). Qed.

(** A string from its first quote mark to its last; then its contents once more, with
    other text, from the state behind the first. *)
Definition kotlin_session : list (call view (TokenType → bool)) :=
  [Call 0 (λ t, match t with STRING_START => true | _ => false end) 20 (input [DQUOTE; 97; DQUOTE]) 0;
   Call 1 in_string 20 quoted_text 0; Call 2 in_string 20 (input [DQUOTE]) 0; Call 1 in_string 20 (input [99; DQUOTE]) 0].

Lemma kotlin_sessions_witness :
  ∃ answers, keeping tree_sitter_kotlin_external_scanner_scan kotlin_session [array_init] = Done answers
    ∧ saving tree_sitter_kotlin_external_scanner_scan (saves tree_sitter_kotlin_external_scanner_serialize)
        tree_sitter_kotlin_external_scanner_deserialize kotlin_session quote_open [[]] = Done answers.
Proof.
  refine (kotlin_sessions kotlin_session quote_open [DQUOTE] _ _).
  { split; [exact quote_open_repr|by repeat constructor]. }
  session_step (@nil Delimiter); [by split; [exact repr_init|]|by vm_compute; lia|intros _; exists [DQUOTE]|].
  2: session_step [DQUOTE]; [|by vm_compute; lia|intros _; exists [DQUOTE]|].
  4: session_step [DQUOTE]; [|by vm_compute; lia|intros _; exists (@nil Delimiter)|].
  6: session_step [DQUOTE]; [|by vm_compute; lia|intros _; exists [DQUOTE]|done].
  all: try (split; [|by vm_compute; lia]). all: split; [by eexists|by repeat constructor].
Defined.
