(* ===== verification/Ruby.v ===== *)
(** * The Ruby external scanner

    [crates/tree-sitter-ruby-sqry/grammar-src/scanner.c]. The payload holds the
    literals that are open (strings, symbols, regexes, arrays of words) and the
    heredocs that were announced or entered but not closed. *)

From S2P Require Import Prelude CArray Scan Logic.

Inductive TokenType : Type :=
  | LINE_BREAK
  | NO_LINE_BREAK
  | SIMPLE_SYMBOL
  | STRING_START
  | SYMBOL_START
  | SUBSHELL_START
  | REGEX_START
  | STRING_ARRAY_START
  | SYMBOL_ARRAY_START
  | HEREDOC_BODY_START
  | STRING_CONTENT
  | HEREDOC_CONTENT
  | STRING_END
  | HEREDOC_BODY_END
  | HEREDOC_START
  | FORWARD_SLASH
  | BLOCK_AMPERSAND
  | SPLAT_STAR
  | UNARY_MINUS
  | UNARY_MINUS_NUM
  | BINARY_MINUS
  | BINARY_STAR
  | SINGLETON_CLASS_LEFT_ANGLE_LEFT_ANGLE
  | HASH_KEY_SYMBOL
  | IDENTIFIER_SUFFIX
  | CONSTANT_SUFFIX
  | HASH_SPLAT_STAR_STAR
  | BINARY_STAR_STAR
  | ELEMENT_REFERENCE_BRACKET
  | SHORT_INTERPOLATION
  | NONE.

#[export] Instance TokenType_eq_dec : EqDecision TokenType.
Proof. solve_decision. Defined.

(** The value of an enumerator. *)
Definition TokenType_to_Z (t : TokenType) : Z :=
  match t with
  | LINE_BREAK => 0
  | NO_LINE_BREAK => 1
  | SIMPLE_SYMBOL => 2
  | STRING_START => 3
  | SYMBOL_START => 4
  | SUBSHELL_START => 5
  | REGEX_START => 6
  | STRING_ARRAY_START => 7
  | SYMBOL_ARRAY_START => 8
  | HEREDOC_BODY_START => 9
  | STRING_CONTENT => 10
  | HEREDOC_CONTENT => 11
  | STRING_END => 12
  | HEREDOC_BODY_END => 13
  | HEREDOC_START => 14
  | FORWARD_SLASH => 15
  | BLOCK_AMPERSAND => 16
  | SPLAT_STAR => 17
  | UNARY_MINUS => 18
  | UNARY_MINUS_NUM => 19
  | BINARY_MINUS => 20
  | BINARY_STAR => 21
  | SINGLETON_CLASS_LEFT_ANGLE_LEFT_ANGLE => 22
  | HASH_KEY_SYMBOL => 23
  | IDENTIFIER_SUFFIX => 24
  | CONSTANT_SUFFIX => 25
  | HASH_SPLAT_STAR_STAR => 26
  | BINARY_STAR_STAR => 27
  | ELEMENT_REFERENCE_BRACKET => 28
  | SHORT_INTERPOLATION => 29
  | NONE => 30
  end.

Definition String : Type := Array Z.

(** [type] holds the value of an enumerator: it is restored from a byte, which
    the code does not check. *)
Record Literal := mkLiteral {
  type : Z;
  open_delimiter : Z;
  close_delimiter : Z;
  nesting_depth : Z;
  allows_interpolation : bool;
}.

Record Heredoc := mkHeredoc {
  word : String;
  end_word_indentation_allowed : bool;
  h_allows_interpolation : bool;
  started : bool;
}.

Record Scanner := mkScanner {
  has_leading_whitespace : bool;
  literal_stack : Array Literal;
  open_heredocs : Array Heredoc;
}.

Definition TREE_SITTER_SERIALIZATION_BUFFER_SIZE : Z := 1024.

Definition NON_IDENTIFIER_CHARS : list Z :=
  [ NUL; LF; CR; TAB; " "; ":"; ";"; "`"; DQUOTE; "'"; "@"; "$"; "#"; "."; ",";
    "|"; "^"; "&"; "<"; "="; ">"; "+"; "-"; "*"; "/"; BACKSLASH; "%"; "?"; "!";
    "~"; "("; ")"; "["; "]"; "{"; "}" ].

(** ** Saving and restoring the state *)

Definition reset (scanner : Scanner) : Scanner :=
  mkScanner (has_leading_whitespace scanner)
    (array_delete (literal_stack scanner)) (array_delete (open_heredocs scanner)).

Definition serialize_literal (literal : Literal) : list Z :=
  [ to_char (type literal); to_char (open_delimiter literal);
    to_char (close_delimiter literal); to_char (nesting_depth literal);
    of_bool (allows_interpolation literal) ].

(** The loop over the heredocs, behind the bytes already in the [buffer];
    nothing is saved when the next one does not fit. *)
Fixpoint serialize_heredocs (heredocs : list Heredoc) (buffer : list Z)
  : outcome (list Z) :=
  match heredocs with
  | [] => Done buffer
  | heredoc :: heredocs =>
      if TREE_SITTER_SERIALIZATION_BUFFER_SIZE
         <=? Z.of_nat (length buffer) + 3 + 4 + size (word heredoc)
      then Done []
      else
        let? bytes := read_block (contents (word heredoc))
                        (Z.to_nat (size (word heredoc))) in
        serialize_heredocs heredocs
          (buffer ++ [ of_bool (end_word_indentation_allowed heredoc);
                       of_bool (h_allows_interpolation heredoc);
                       of_bool (started heredoc) ]
           ++ u32_bytes (size (word heredoc)) ++ bytes)
  end.

(** The bytes written to the buffer; the returned length is their number. *)
Definition serialize (scanner : Scanner) : outcome (list Z) :=
  if TREE_SITTER_SERIALIZATION_BUFFER_SIZE
     <=? to_u32 (size (literal_stack scanner) * 5 + 2)
  then Done []
  else
    let? literals := read_block (contents (literal_stack scanner))
                       (Z.to_nat (size (literal_stack scanner))) in
    let? heredocs := read_block (contents (open_heredocs scanner))
                       (Z.to_nat (size (open_heredocs scanner))) in
    serialize_heredocs heredocs
      ([to_char (size (literal_stack scanner))]
       ++ concat (serialize_literal <$> literals)
       ++ [to_char (size (open_heredocs scanner))]).

(** [buffer[size++]]: reading behind the [length] bytes is undefined. *)
Definition next_byte (buffer : list Z) : outcome (Z * list Z) :=
  match buffer with
  | b :: buffer => Done (b, buffer)
  | [] => Undefined
  end.

Definition deserialize_literal (buffer : list Z) : outcome (Literal * list Z) :=
  let? '(t, buffer) := next_byte buffer in
  let? '(o, buffer) := next_byte buffer in
  let? '(c, buffer) := next_byte buffer in
  let? '(d, buffer) := next_byte buffer in
  let? '(i, buffer) := next_byte buffer in
  Done (mkLiteral t (to_uchar o) (to_uchar c) (to_uchar d) (to_bool i), buffer).

Fixpoint deserialize_literals (n : nat) (stack : Array Literal)
    (buffer : list Z) : outcome (Array Literal * list Z) :=
  match n with
  | O => Done (stack, buffer)
  | S n =>
      let? '(literal, buffer) := deserialize_literal buffer in
      let? stack := array_push stack literal in
      deserialize_literals n stack buffer
  end.

Definition deserialize_heredoc (buffer : list Z) : outcome (Heredoc * list Z) :=
  let? '(e, buffer) := next_byte buffer in
  let? '(i, buffer) := next_byte buffer in
  let? '(s, buffer) := next_byte buffer in
  let? '(b0, buffer) := next_byte buffer in
  let? '(b1, buffer) := next_byte buffer in
  let? '(b2, buffer) := next_byte buffer in
  let? '(b3, buffer) := next_byte buffer in
  let word_length := bytes_u32 b0 b1 b2 b3 in
  let word := array_reserve array_init word_length in
  if word_length <=? Z.of_nat (length buffer) then
    let? c := memcpy (contents word) 0
                (Some <$> take (Z.to_nat word_length) buffer) in
    Done (mkHeredoc (mkArray c word_length (capacity word))
            (to_bool e) (to_bool i) (to_bool s),
          drop (Z.to_nat word_length) buffer)
  else Undefined.

Fixpoint deserialize_heredocs (n : nat) (heredocs : Array Heredoc)
    (buffer : list Z) : outcome (Array Heredoc * list Z) :=
  match n with
  | O => Done (heredocs, buffer)
  | S n =>
      let? '(heredoc, buffer) := deserialize_heredoc buffer in
      let? heredocs := array_push heredocs heredoc in
      deserialize_heredocs n heredocs buffer
  end.

Definition deserialize (scanner : Scanner) (buffer : list Z) : outcome Scanner :=
  let scanner := reset scanner in
  match buffer with
  | [] => Done (mkScanner false (literal_stack scanner) (open_heredocs scanner))
  | _ =>
      let? '(literal_depth, buffer) := next_byte buffer in
      let? '(literals, buffer) :=
        deserialize_literals (Z.to_nat (to_uchar literal_depth))
          (literal_stack scanner) buffer in
      let? '(open_heredoc_count, buffer) := next_byte buffer in
      let? '(heredocs, buffer) :=
        deserialize_heredocs (Z.to_nat (to_uchar open_heredoc_count))
          (open_heredocs scanner) buffer in
      match buffer with
      | [] => Done (mkScanner false literals heredocs)
      | _ => Aborted
      end
  end.

(** ** Characters *)

Definition is_iden_char (c : Z) : bool :=
  negb (existsb (λ k, c =? k) NON_IDENTIFIER_CHARS).

(** [strchr(s, c) != NULL]: the terminator of the string is found as well. *)
Definition strchr (s : list Z) (c : Z) : bool :=
  existsb (λ k, to_char c =? k) (s ++ [NUL]).


Section scanner.
Context {L : Type} {HL : TSLexer L} {HW : WCType}.
Local Abbreviation M := (M L Scanner).

Definition set_result (t : TokenType) : M unit := set_symbol (TokenType_to_Z t).

Definition set_leading_whitespace (b : bool) : M unit :=
  scanner <- get_payload;;
  set_payload (mkScanner b (literal_stack scanner) (open_heredocs scanner)).

Definition set_literals (a : Array Literal) : M unit :=
  scanner <- get_payload;;
  set_payload (mkScanner (has_leading_whitespace scanner) a (open_heredocs scanner)).

Definition set_heredocs (a : Array Heredoc) : M unit :=
  scanner <- get_payload;;
  set_payload (mkScanner (has_leading_whitespace scanner) (literal_stack scanner) a).

Definition skip : M unit :=
  set_leading_whitespace true;;
  advance_ true.

Definition advance : M unit := advance_ false.

(** [array_push(&scanner->literal_stack, literal)] *)
Definition push_literal (literal : Literal) : M unit :=
  scanner <- get_payload;;
  a <- lift (array_push (literal_stack scanner) literal);;
  set_literals a.

(** [array_back(&scanner->literal_stack)], and an assignment through it. *)
Definition current_literal : M Literal :=
  scanner <- get_payload;;
  lift (array_back (literal_stack scanner)).

Definition assign_literal (literal : Literal) : M unit :=
  scanner <- get_payload;;
  let a := literal_stack scanner in
  c <- lift (memcpy (contents a) (to_u32 (size a - 1)) [Some literal]);;
  set_literals (mkArray c (size a) (capacity a)).

(** [array_get(&scanner->open_heredocs, 0)] *)
Definition current_heredoc : M Heredoc :=
  scanner <- get_payload;;
  lift (array_get (open_heredocs scanner) 0).

(** [scanner->open_heredocs.contents[0].started = true] *)
Definition start_heredoc : M unit :=
  scanner <- get_payload;;
  let a := open_heredocs scanner in
  h <- lift (read (contents a) 0);;
  c <- lift (memcpy (contents a) 0
        [Some (mkHeredoc (word h) (end_word_indentation_allowed h)
                 (h_allows_interpolation h) true)]);;
  set_heredocs (mkArray c (size a) (capacity a)).

(** ** White space and operators *)

Definition is_heredoc_body_start_valid (valid_symbols : TokenType → bool)
  : M bool :=
  scanner <- get_payload;;
  if (0 <? size (open_heredocs scanner)) then
    h <- lift (read (contents (open_heredocs scanner)) 0);;
    ret (negb (started h) && valid_symbols HEREDOC_BODY_START)
  else ret false.

Definition heredoc_body_start : M (bool + bool) :=
  set_result HEREDOC_BODY_START;;
  start_heredoc;;
  ret (inr true).

(** The [default] case of [scan_whitespace]. *)
Definition whitespace_end (crossed_newline : bool) : M (bool + bool) :=
  c <- lookahead;;
  if crossed_newline then
    if negb (c =? ".") && negb (c =? "&") && negb (c =? "#") then
      set_result LINE_BREAK;;
      ret (inr true)
    else if c =? "." then
      advance;;
      e <- eof;;
      c <- lookahead;;
      if negb e && (c =? ".") then
        set_result LINE_BREAK;;
        ret (inr true)
      else ret (inr false)
    else ret (inr true)
  else ret (inr true).

(** A round of the loop of [scan_whitespace]. *)
Definition whitespace_body (valid_symbols : TokenType → bool)
    (heredoc_body_start_is_valid crossed_newline : bool) : M (bool + bool) :=
  let line_break_is_valid :=
    negb (valid_symbols NO_LINE_BREAK) && valid_symbols LINE_BREAK in
  range_start <- is_at_included_range_start;;
  if line_break_is_valid && range_start then
    mark_end;;
    set_result LINE_BREAK;;
    ret (inr true)
  else
    c <- lookahead;;
    if (c =? " ") || (c =? TAB) then
      skip;;
      ret (inl crossed_newline)
    else if c =? CR then
      if heredoc_body_start_is_valid then heredoc_body_start
      else
        skip;;
        ret (inl crossed_newline)
    else if c =? LF then
      if heredoc_body_start_is_valid then heredoc_body_start
      else if line_break_is_valid && negb crossed_newline then
        mark_end;;
        advance;;
        ret (inl true)
      else
        skip;;
        ret (inl crossed_newline)
    else if c =? BACKSLASH then
      advance;;
      c <- lookahead;;
      when (c =? CR) skip;;
      c <- lookahead;;
      if iswspace c then
        skip;;
        ret (inl crossed_newline)
      else ret (inr false)
    else whitespace_end crossed_newline.

Definition scan_whitespace (valid_symbols : TokenType → bool) : M bool :=
  heredoc_body_start_is_valid <- is_heredoc_body_start_valid valid_symbols;;
  iter (whitespace_body valid_symbols heredoc_body_start_is_valid) false.

Definition scan_operator : M bool :=
  c <- lookahead;;
  (* <, <=, <<, <=> *)
  if c =? "<" then
    advance;; c <- lookahead;;
    (if c =? "<" then advance
     else when (c =? "=") (
       advance;; c <- lookahead;;
       when (c =? ">") advance));;
    ret true
  (* >, >=, >> *)
  else if c =? ">" then
    advance;; c <- lookahead;;
    when ((c =? ">") || (c =? "=")) advance;;
    ret true
  (* ==, ===, =~ *)
  else if c =? "=" then
    advance;; c <- lookahead;;
    if c =? "~" then advance;; ret true
    else if c =? "=" then
      advance;; c <- lookahead;;
      when (c =? "=") advance;;
      ret true
    else ret false
  (* +, -, ~, +@, -@, ~@ *)
  else if (c =? "+") || (c =? "-") || (c =? "~") then
    advance;; c <- lookahead;;
    when (c =? "@") advance;;
    ret true
  (* .. *)
  else if c =? "." then
    advance;; c <- lookahead;;
    if c =? "." then advance;; ret true else ret false
  (* &, ^, |, /, %, ` *)
  else if (c =? "&") || (c =? "^") || (c =? "|") || (c =? "/") || (c =? "%")
          || (c =? "`") then
    advance;;
    ret true
  (* !, !=, !~ *)
  else if c =? "!" then
    advance;; c <- lookahead;;
    when ((c =? "=") || (c =? "~")) advance;;
    ret true
  (* *, ** *)
  else if c =? "*" then
    advance;; c <- lookahead;;
    when (c =? "*") advance;;
    ret true
  (* [], []= *)
  else if c =? "[" then
    advance;; c <- lookahead;;
    if c =? "]" then
      advance;; c <- lookahead;;
      when (c =? "=") advance;;
      ret true
    else ret false
  else ret false.

Definition while_iden_char : M unit :=
  while_look (λ c, is_iden_char (to_char c)) false.

Definition scan_symbol_identifier : M bool :=
  c <- lookahead;;
  (if c =? "@" then
     advance;; c <- lookahead;;
     when (c =? "@") advance
   else when (c =? "$") advance);;
  c <- lookahead;;
  ok <- (if is_iden_char (to_char c) then advance;; ret true
         else scan_operator);;
  if negb ok then ret false
  else
    while_iden_char;;
    c <- lookahead;;
    when ((c =? "?") || (c =? "!")) advance;;
    c <- lookahead;;
    when (c =? "=") (
      mark_end;;
      advance;;
      c <- lookahead;;
      when (negb (c =? ">")) mark_end);;
    ret true.

(** ** Opening a literal *)

(** The switch on the letter of a percent literal: its type and whether it
    allows interpolation, or [None] when the function returns [false]. *)
Definition percent_type (valid_symbols : TokenType → bool)
  : M (option (TokenType * bool)) :=
  let kind (valid t : TokenType) (interpolation : bool) :=
    if negb (valid_symbols valid) then ret None
    else
      advance;;
      ret (Some (t, interpolation)) in
  c <- lookahead;;
  if c =? "s" then kind SIMPLE_SYMBOL SYMBOL_START false
  else if c =? "r" then kind REGEX_START REGEX_START true
  else if c =? "x" then kind SUBSHELL_START SUBSHELL_START true
  else if c =? "q" then kind STRING_START STRING_START false
  else if c =? "Q" then kind STRING_START STRING_START true
  else if c =? "w" then kind STRING_ARRAY_START STRING_ARRAY_START false
  else if c =? "i" then kind SYMBOL_ARRAY_START SYMBOL_ARRAY_START false
  else if c =? "W" then kind STRING_ARRAY_START STRING_ARRAY_START true
  else if c =? "I" then kind SYMBOL_ARRAY_START SYMBOL_ARRAY_START true
  else if negb (valid_symbols STRING_START) then ret None
  else ret (Some (STRING_START, true)).

(** Characters that open and close a percent literal by themselves. *)
Definition unbalanced_delimiters : list Z :=
  [ "|"; "!"; "#"; "/"; BACKSLASH; "@"; "$"; "%"; "^"; "&"; "*"; ")"; "]"; "}";
    ">"; "+"; "-"; "~"; "`"; ","; "."; "?"; ":"; ";"; "_"; DQUOTE; "'" ].

(** The switch on its delimiter: the opening and closing one. White space
    leaves both at their initial value 0. *)
Definition percent_delimiters (valid_symbols : TokenType → bool) (c : Z)
  : option (Z * Z) :=
  if c =? "(" then Some ("(", ")")
  else if c =? "[" then Some ("[", "]")
  else if c =? "{" then Some ("{", "}")
  else if c =? "<" then Some ("<", ">")
  else if (c =? CR) || (c =? LF) || (c =? " ") || (c =? TAB) then
    if valid_symbols FORWARD_SLASH then None else Some (0, 0)
  else if existsb (λ k, c =? k) unbalanced_delimiters then Some (c, c)
  else None.

(** The literal that is opened, with nesting depth 1, or [None] for
    [false]. *)
Definition scan_open_delimiter (valid_symbols : TokenType → bool)
  : M (option Literal) :=
  let literal t o c interpolation :=
    mkLiteral (TokenType_to_Z t) o c 1 interpolation in
  c <- lookahead;;
  if c =? DQUOTE then
    advance;;
    ret (Some (literal STRING_START c c true))
  else if c =? "'" then
    advance;;
    ret (Some (literal STRING_START c c false))
  else if c =? "`" then
    if negb (valid_symbols SUBSHELL_START) then ret None
    else
      advance;;
      ret (Some (literal SUBSHELL_START c c true))
  else if c =? "/" then
    if negb (valid_symbols REGEX_START) then ret None
    else
      advance;;
      scanner <- get_payload;;
      d <- lookahead;;
      if valid_symbols FORWARD_SLASH
         && (negb (has_leading_whitespace scanner)
             || (d =? " ") || (d =? TAB) || (d =? LF) || (d =? CR) || (d =? "="))
      then ret None
      else ret (Some (literal REGEX_START c c true))
  else if c =? "%" then
    advance;;
    kind <- percent_type valid_symbols;;
    match kind with
    | None => ret None
    | Some (t, interpolation) =>
        c <- lookahead;;
        match percent_delimiters valid_symbols c with
        | None => ret None
        | Some (o, c) =>
            advance;;
            ret (Some (literal t o c interpolation))
        end
    end
  else ret None.

(** ** Heredocs *)

Definition is_word_char (c : Z) : bool := iswalnum c || (c =? "_").

(** [while (p) { array_push(&word, lookahead); advance }]: a character is
    stored in one [char]. *)
Definition word_loop (p : Z → bool → bool) (word : String) : M String :=
  iter (λ word : String,
    c <- lookahead;;
    e <- eof;;
    if p c e then
      word <- lift (array_push word (to_char c));;
      advance;;
      ret (inl word)
    else ret (inr word)) word.

Definition scan_heredoc_word (heredoc : Heredoc) : M Heredoc :=
  let finish (word : String) (quote : Z) :=
    ret (mkHeredoc word (end_word_indentation_allowed heredoc)
           (negb (quote =? "'")) (started heredoc)) in
  c <- lookahead;;
  if (c =? "'") || (c =? DQUOTE) || (c =? "`") then
    advance;;
    word <- word_loop (λ d e, negb (d =? c) && negb e) array_init;;
    advance;;
    finish word c
  else if is_word_char c then
    word <- lift (array_push array_init (to_char c));;
    advance;;
    word <- word_loop (λ d _, is_word_char d) word;;
    finish word 0
  else finish array_init 0.

Definition short_interpolation_chars : list Z :=
  [ "!"; "@"; "&"; "`"; "'"; "+"; "~"; "="; "/"; BACKSLASH; ","; ";"; "."; "<";
    ">"; "*"; "$"; "?"; ":"; DQUOTE ].

Definition scan_short_interpolation (has_content : bool)
    (content_symbol : TokenType) : M bool :=
  c <- lookahead;;
  let start := to_char c in
  if (start =? "@") || (start =? "$") then
    if has_content then
      set_result content_symbol;;
      ret true
    else
      mark_end;;
      advance;;
      is_short_interpolation <- (
        if start =? "$" then
          c <- lookahead;;
          if strchr short_interpolation_chars c then ret true
          else if c =? "-" then
            advance;;
            c <- lookahead;;
            ret (iswalpha c || (c =? "_"))
          else ret (iswalnum c || (c =? "_"))
        else
          c <- lookahead;;
          when (c =? "@") advance;;
          c <- lookahead;;
          ret (is_iden_char (to_char c) && negb (iswdigit c)));;
      if is_short_interpolation : bool then
        set_result SHORT_INTERPOLATION;;
        ret true
      else ret false
  else ret false.

(** The end of a heredoc: its content so far, or its body. *)
Definition heredoc_end (has_content : bool) : M bool :=
  (if has_content then set_result HEREDOC_CONTENT
   else
     scanner <- get_payload;;
     a <- lift (array_erase (open_heredocs scanner) 0);;
     set_heredocs a;;
     set_result HEREDOC_BODY_END);;
  ret true.

(** The variables of the loop of [scan_heredoc_content]. *)
Record heredoc_locals := mkLocals {
  position_in_word : Z;
  look_for_heredoc_end : bool;
  has_content : bool;
}.

(** The white space in front of a line, and whether the end word may follow. *)
Definition heredoc_indentation (heredoc : Heredoc) : M bool :=
  iter (λ look_for_heredoc_end : bool,
    c <- lookahead;;
    if (c =? " ") || (c =? TAB) then
      advance;;
      ret (inl (look_for_heredoc_end && end_word_indentation_allowed heredoc))
    else ret (inr look_for_heredoc_end)) true.

(** The part of a round behind a character that does not continue the end
    word. *)
Definition heredoc_char (heredoc : Heredoc) (has_content : bool)
  : M (heredoc_locals + bool) :=
  c <- lookahead;;
  if h_allows_interpolation heredoc && (c =? BACKSLASH) then
    when has_content (set_result HEREDOC_CONTENT);;
    ret (inr has_content)
  else if h_allows_interpolation heredoc && (c =? "#") then
    mark_end;;
    advance;;
    c <- lookahead;;
    if c =? "{" then
      when has_content (set_result HEREDOC_CONTENT);;
      ret (inr has_content)
    else
      short <- scan_short_interpolation has_content HEREDOC_CONTENT;;
      if short : bool then ret (inr true)
      else ret (inl (mkLocals 0 false has_content))
  else if (c =? CR) || (c =? LF) then
    (if c =? CR then
       advance;;
       c <- lookahead;;
       when (c =? LF) advance
     else advance);;
    look_for_heredoc_end <- heredoc_indentation heredoc;;
    mark_end;;
    ret (inl (mkLocals 0 look_for_heredoc_end true))
  else
    advance;;
    mark_end;;
    ret (inl (mkLocals 0 false true)).

(** A round from the test of the end of the input on. *)
Definition heredoc_step (heredoc : Heredoc) (locals : heredoc_locals)
  : M (heredoc_locals + bool) :=
  e <- eof;;
  if e : bool then
    mark_end;;
    r <- heredoc_end (has_content locals);;
    ret (inr r)
  else
    c <- lookahead;;
    w <- lift (array_get (word heredoc) (position_in_word locals));;
    if (c =? w) && look_for_heredoc_end locals then
      advance;;
      ret (inl (mkLocals (position_in_word locals + 1)
                  (look_for_heredoc_end locals) (has_content locals)))
    else heredoc_char heredoc (has_content locals).

Definition heredoc_body (heredoc : Heredoc) (locals : heredoc_locals)
  : M (heredoc_locals + bool) :=
  if position_in_word locals =? size (word heredoc) then
    when (negb (has_content locals)) mark_end;;
    while_look (λ c, (c =? " ") || (c =? TAB)) false;;
    c <- lookahead;;
    if (c =? LF) || (c =? CR) then
      r <- heredoc_end (has_content locals);;
      ret (inr r)
    else heredoc_step heredoc (mkLocals 0 (look_for_heredoc_end locals) true)
  else heredoc_step heredoc locals.

Definition scan_heredoc_content : M bool :=
  heredoc <- current_heredoc;;
  iter (heredoc_body heredoc) (mkLocals 0 true false).

(** ** Literals *)

(** The closing delimiter of the outermost level. *)
Definition literal_end (literal : Literal) (has_content : bool) : M bool :=
  (if has_content then set_result STRING_CONTENT
   else
     advance;;
     when (type literal =? TokenType_to_Z REGEX_START)
       (while_look iswlower false);;
     scanner <- get_payload;;
     r <- lift (array_pop (literal_stack scanner));;
     set_literals (snd r);;
     set_result STRING_END;;
     mark_end);;
  ret true.

Definition set_nesting_depth (literal : Literal) (depth : Z) : M unit :=
  assign_literal (mkLiteral (type literal) (open_delimiter literal)
    (close_delimiter literal) depth (allows_interpolation literal)).

(** A round of the loop of [scan_literal_content]; the local is
    [has_content]. *)
Definition literal_body (has_content : bool) : M (bool + bool) :=
  literal <- current_literal;;
  c <- lookahead;;
  e <- eof;;
  let stop_on_space := (type literal =? TokenType_to_Z SYMBOL_ARRAY_START)
                       || (type literal =? TokenType_to_Z STRING_ARRAY_START) in
  if stop_on_space && iswspace c then
    when has_content (mark_end;; set_result STRING_CONTENT);;
    ret (inr has_content)
  else if c =? close_delimiter literal then
    mark_end;;
    if nesting_depth literal =? 1 then
      r <- literal_end literal has_content;;
      ret (inr r)
    else
      depth <- lift (i32_decr (nesting_depth literal));;
      set_nesting_depth literal depth;;
      advance;;
      ret (inl true)
  else if c =? open_delimiter literal then
    depth <- lift (i32_incr (nesting_depth literal));;
    set_nesting_depth literal depth;;
    advance;;
    ret (inl true)
  else if allows_interpolation literal && (c =? "#") then
    mark_end;;
    advance;;
    c <- lookahead;;
    if c =? "{" then
      when has_content (set_result STRING_CONTENT);;
      ret (inr has_content)
    else
      short <- scan_short_interpolation has_content STRING_CONTENT;;
      if short : bool then ret (inr true)
      else ret (inl true)
  else if c =? BACKSLASH then
    if allows_interpolation literal then
      when has_content (mark_end;; set_result STRING_CONTENT);;
      ret (inr has_content)
    else
      advance;;
      advance;;
      ret (inl true)
  else if e : bool then
    advance;;
    mark_end;;
    ret (inr false)
  else
    advance;;
    ret (inl true).

Definition scan_literal_content : M bool := iter literal_body false.

(** ** The scanner *)

Definition leading_whitespace : M bool :=
  scanner <- get_payload;;
  ret (has_leading_whitespace scanner).

(** Return [true] with a symbol. *)
Definition emit (t : TokenType) : M (option bool) :=
  set_result t;;
  ret (Some true).

Definition fail : M (option bool) := ret (Some false).

(** The case of [*] in [scan]. *)
Definition scan_star (valid_symbols : TokenType → bool) : M (option bool) :=
  white <- leading_whitespace;;
  advance;;
  c <- lookahead;;
  if c =? "=" then fail
  else if c =? "*" then
    if valid_symbols HASH_SPLAT_STAR_STAR || valid_symbols BINARY_STAR_STAR then
      advance;;
      c <- lookahead;;
      if c =? "=" then fail
      else if valid_symbols BINARY_STAR_STAR && negb white then emit BINARY_STAR_STAR
      else if valid_symbols HASH_SPLAT_STAR_STAR && negb (iswspace c)
      then emit HASH_SPLAT_STAR_STAR
      else if valid_symbols BINARY_STAR_STAR then emit BINARY_STAR_STAR
      else if valid_symbols HASH_SPLAT_STAR_STAR then emit HASH_SPLAT_STAR_STAR
      else fail
    else fail
  else if valid_symbols BINARY_STAR && negb white then emit BINARY_STAR
  else if valid_symbols SPLAT_STAR && negb (iswspace c) then emit SPLAT_STAR
  else if valid_symbols BINARY_STAR then emit BINARY_STAR
  else if valid_symbols SPLAT_STAR then emit SPLAT_STAR
  else fail.

(** The case of [-]. *)
Definition scan_minus (valid_symbols : TokenType → bool) : M (option bool) :=
  white <- leading_whitespace;;
  advance;;
  c <- lookahead;;
  if negb (c =? "=") && negb (c =? ">") then
    if valid_symbols UNARY_MINUS_NUM && (negb (valid_symbols BINARY_STAR) || white)
       && iswdigit c
    then emit UNARY_MINUS_NUM
    else if valid_symbols UNARY_MINUS && white && negb (iswspace c)
    then emit UNARY_MINUS
    else if valid_symbols BINARY_MINUS then emit BINARY_MINUS
    else emit UNARY_MINUS
  else fail.

(** The case of [:]. *)
Definition scan_symbol : M (option bool) :=
  let open (quote : Z) (interpolation : bool) :=
    advance;;
    push_literal (mkLiteral (TokenType_to_Z SYMBOL_START) quote quote 1 interpolation);;
    emit SYMBOL_START in
  advance;;
  c <- lookahead;;
  if c =? DQUOTE then open DQUOTE true
  else if c =? "'" then open "'" false
  else
    b <- scan_symbol_identifier;;
    if b : bool then emit SIMPLE_SYMBOL else fail.

(** The switch of [scan]: [None] when it is left by [break]. *)
Definition scan_switch (valid_symbols : TokenType → bool) : M (option bool) :=
  c <- lookahead;;
  if (c =? "&") && valid_symbols BLOCK_AMPERSAND then
    advance;;
    c <- lookahead;;
    if negb (c =? "&") && negb (c =? ".") && negb (c =? "=") && negb (iswspace c)
    then emit BLOCK_AMPERSAND
    else fail
  else if (c =? "<") && valid_symbols SINGLETON_CLASS_LEFT_ANGLE_LEFT_ANGLE then
    advance;;
    c <- lookahead;;
    if c =? "<" then
      advance;;
      emit SINGLETON_CLASS_LEFT_ANGLE_LEFT_ANGLE
    else fail
  else if (c =? "*")
          && (valid_symbols SPLAT_STAR || valid_symbols BINARY_STAR
              || valid_symbols HASH_SPLAT_STAR_STAR || valid_symbols BINARY_STAR_STAR)
  then scan_star valid_symbols
  else if (c =? "-")
          && (valid_symbols UNARY_MINUS || valid_symbols UNARY_MINUS_NUM
              || valid_symbols BINARY_MINUS)
  then scan_minus valid_symbols
  else if (c =? ":") && valid_symbols SYMBOL_START then scan_symbol
  else if (c =? "[") && valid_symbols ELEMENT_REFERENCE_BRACKET then
    white <- leading_whitespace;;
    if negb white || negb (valid_symbols STRING_START) then
      advance;;
      emit ELEMENT_REFERENCE_BRACKET
    else ret None
  else ret None.

(** Hash keys and the suffixes of identifiers and constants. *)
Definition scan_identifier (valid_symbols : TokenType → bool) : M bool :=
  c <- lookahead;;
  let validIdentifierSymbol :=
    if iswupper c then CONSTANT_SUFFIX else IDENTIFIER_SUFFIX in
  while_look is_word_char false;;
  c <- lookahead;;
  if valid_symbols HASH_KEY_SYMBOL && (c =? ":") then
    mark_end;;
    advance;;
    c <- lookahead;;
    if negb (c =? ":") then
      set_result HASH_KEY_SYMBOL;;
      ret true
    else ret false
  else if valid_symbols validIdentifierSymbol && (c =? "!") then
    advance;;
    c <- lookahead;;
    if negb (c =? "=") then
      set_result validIdentifierSymbol;;
      ret true
    else ret false
  else ret false.

(** [<] in front of a heredoc word. *)
Definition scan_heredoc_start : M bool :=
  advance;;
  c <- lookahead;;
  if negb (c =? "<") then ret false
  else
    advance;;
    c <- lookahead;;
    let indent := (c =? "-") || (c =? "~") in
    when indent advance;;
    heredoc <- scan_heredoc_word (mkHeredoc array_init indent false false);;
    if size (word heredoc) =? 0 then ret false
    else
      scanner <- get_payload;;
      a <- lift (array_push (open_heredocs scanner) heredoc);;
      set_heredocs a;;
      set_result HEREDOC_START;;
      ret true.

(** The opening of literals. *)
Definition scan_literal_start (valid_symbols : TokenType → bool) : M bool :=
  if valid_symbols STRING_START then
    c <- lookahead;;
    if c =? "<" then scan_heredoc_start
    else
      literal <- scan_open_delimiter valid_symbols;;
      match literal with
      | Some literal =>
          push_literal literal;;
          set_symbol (type literal);;
          ret true
      | None => ret false
      end
  else ret false.

(** The part of [scan] behind the white space. *)
Definition scan_token (valid_symbols : TokenType → bool) : M bool :=
  r <- scan_switch valid_symbols;;
  match r with
  | Some b => ret b
  | None =>
      c <- lookahead;;
      if ((valid_symbols HASH_KEY_SYMBOL || valid_symbols IDENTIFIER_SUFFIX)
          && (iswalpha c || (c =? "_")))
         || (valid_symbols CONSTANT_SUFFIX && iswupper c)
      then scan_identifier valid_symbols
      else scan_literal_start valid_symbols
  end.

Definition scan_outside (valid_symbols : TokenType → bool) : M bool :=
  set_result NONE;;
  white <- scan_whitespace valid_symbols;;
  if negb white then ret false
  else
    symbol <- get_symbol;;
    if negb (symbol =? TokenType_to_Z NONE) then ret true
    else scan_token valid_symbols.

Definition scan (valid_symbols : TokenType → bool) : M bool :=
  set_leading_whitespace false;;
  scanner <- get_payload;;
  if negb (valid_symbols STRING_START)
     && (valid_symbols STRING_CONTENT || valid_symbols STRING_END)
     && (0 <? size (literal_stack scanner))
  then scan_literal_content
  else if negb (valid_symbols STRING_START)
     && (valid_symbols HEREDOC_CONTENT || valid_symbols HEREDOC_BODY_END)
     && (0 <? size (open_heredocs scanner))
  then scan_heredoc_content
  else scan_outside valid_symbols.

Definition tree_sitter_ruby_external_scanner_scan
    (valid_symbols : TokenType → bool) : M bool := scan valid_symbols.
End scanner.

(** A zeroed block. *)
Definition tree_sitter_ruby_external_scanner_create : Scanner :=
  mkScanner false array_init array_init.

Definition tree_sitter_ruby_external_scanner_serialize (payload : Scanner)
  : outcome (list Z) := serialize payload.

Definition tree_sitter_ruby_external_scanner_deserialize (payload : Scanner)
    (buffer : list Z) : outcome Scanner := deserialize payload buffer.

(** What is left of the payload, before its block is freed. *)
Definition tree_sitter_ruby_external_scanner_destroy (payload : Scanner)
  : Scanner := reset payload.
