(* ===== verification/RubyState.v ===== *)
(** * The state of the Ruby scanner and its serialization

    The abstract state: the list of open literals and the list of heredocs,
    each with its end word. Saving and restoring it is the identity as long as
    it fits the buffer and the counters fit a byte; a state that does not fit
    is saved as the initial one. *)

From S2P Require Import Prelude CArray CArrayProofs Codec Scan Ruby.

Lemma to_char_range z : -128 ≤ to_char z < 128.
Proof. unfold to_char. pose proof (Z.mod_pos_bound (z + 128) 256). lia. Qed.

Lemma to_bool_of_bool b : to_bool (of_bool b) = b.
Proof. by destruct b. Qed.

(** A heredoc with the list of the characters of its end word. *)
Record heredoc := AHeredoc {
  a_word : list Z;
  a_indent : bool;
  a_interpolation : bool;
  a_started : bool;
}.

Definition heredoc_repr (h : Heredoc) (a : heredoc) : Prop :=
  repr (word h) (a_word a) ∧ end_word_indentation_allowed h = a_indent a
  ∧ h_allows_interpolation h = a_interpolation a ∧ started h = a_started a.

Definition state : Type := list Literal * list heredoc.

(** The scanner [s] stands for the abstract state. *)
Definition state_repr (s : Scanner) (a : state) : Prop :=
  repr (literal_stack s) a.1
  ∧ ∃ hs, repr (open_heredocs s) hs ∧ Forall2 heredoc_repr hs a.2.

(** ** The bytes of a state *)

Definition encode_heredoc (h : heredoc) : list Z :=
  [of_bool (a_indent h); of_bool (a_interpolation h); of_bool (a_started h)]
  ++ u32_bytes (Z.of_nat (length (a_word h))) ++ a_word h.

Definition encode_state (a : state) : list Z :=
  [to_char (Z.of_nat (length a.1))] ++ concat (serialize_literal <$> a.1)
  ++ [to_char (Z.of_nat (length a.2))] ++ concat (encode_heredoc <$> a.2).

(** A literal whose fields fit the bytes they are saved in. *)
Definition literal_fits (l : Literal) : Prop :=
  0 ≤ type l < 128 ∧ 0 ≤ open_delimiter l < 256 ∧ 0 ≤ close_delimiter l < 256
  ∧ 0 ≤ nesting_depth l < 256.

Definition state_fits (a : state) : Prop :=
  Forall literal_fits a.1 ∧ (length (encode_state a) < 1024)%nat.

Lemma length_concat_literals ls : length (concat (serialize_literal <$> ls)) = (5 * length ls)%nat.
Proof. induction ls as [|l ls IH]; [done|]. simpl. unfold fmap in IH. rewrite IH. lia. Qed.

Lemma length_encode_heredoc h : length (encode_heredoc h) = (7 + length (a_word h))%nat.
Proof. unfold encode_heredoc. by rewrite !length_app. Qed.

Lemma length_concat_heredocs hs : (7 * length hs ≤ length (concat (encode_heredoc <$> hs)))%nat.
Proof.
  induction hs as [|h hs IH]; [done|]. rewrite fmap_cons. cbn [concat].
  rewrite length_app, length_encode_heredoc. simpl. lia.
Qed.

Lemma length_encode_state a : length (encode_state a) =
  (2 + 5 * length a.1 + length (concat (encode_heredoc <$> a.2)))%nat.
Proof. unfold encode_state. rewrite !length_app, length_concat_literals. simpl. lia. Qed.

(** ** Saving *)

Lemma serialize_heredocs_fit hs ahs buffer :
  Forall2 heredoc_repr hs ahs →
  (length (buffer ++ concat (encode_heredoc <$> ahs)) < 1024)%nat →
  serialize_heredocs hs buffer = Done (buffer ++ concat (encode_heredoc <$> ahs)).
Proof.
  intros Hh. revert buffer. induction Hh as [|h a hs ahs Hha _ IH]; intros buffer Hl.
  { simpl. by rewrite app_nil_r. }
  destruct Hha as (Hw&He&Hi&Hs). destruct (repr_size _ _ Hw) as [Hsz ?].
  rewrite fmap_cons in *. cbn [concat] in *. rewrite app_assoc in *.
  assert (length buffer + (7 + length (a_word a)) < 1024)%nat
    by (rewrite !length_app, length_encode_heredoc in Hl; lia).
  simpl. unfold TREE_SITTER_SERIALIZATION_BUFFER_SIZE. replace (_ <=? _) with false by lia.
  rewrite (repr_read_block _ _ Hw). simpl.
  rewrite He, Hi, Hs, Hsz. change (_ :: _ :: _ :: _) with (encode_heredoc a). by apply IH.
Qed.

(** A heredoc that does not fit makes the whole state be saved as nothing. *)
Lemma serialize_heredocs_overflow hs ahs buffer :
  Forall2 heredoc_repr hs ahs → ahs ≠ [] →
  (1024 ≤ length (buffer ++ concat (encode_heredoc <$> ahs)))%nat →
  serialize_heredocs hs buffer = Done [].
Proof.
  intros Hh. revert buffer. induction Hh as [|h a hs ahs Hha Hh IH]; intros buffer Hne Hl; [done|].
  destruct Hha as (Hw&He&Hi&Hs). destruct (repr_size _ _ Hw) as [Hsz ?].
  rewrite fmap_cons in *. cbn [concat] in *. rewrite app_assoc in *.
  simpl. unfold TREE_SITTER_SERIALIZATION_BUFFER_SIZE.
  destruct (1024 <=? _) eqn:E; [done|].
  rewrite (repr_read_block _ _ Hw). simpl.
  rewrite He, Hi, Hs, Hsz in *. change (_ :: _ :: _ :: _) with (encode_heredoc a).
  apply IH; [|done]. intros ->. simpl in Hl.
  rewrite app_nil_r, length_app, length_encode_heredoc in Hl. lia.
Qed.

Lemma heredocs_length hs ahs : Forall2 heredoc_repr hs ahs → length hs = length ahs.
Proof. apply Forall2_length. Qed.

Lemma serialize_fits s a : state_repr s a → (length (encode_state a) < 1024)%nat →
  serialize s = Done (encode_state a).
Proof.
  intros (Hl&hs&Hh&Hhs) Hfit. rewrite length_encode_state in Hfit. unfold serialize.
  destruct (repr_size _ _ Hl) as [Hsl ?], (repr_size _ _ Hh) as [Hsh ?].
  unfold TREE_SITTER_SERIALIZATION_BUFFER_SIZE. rewrite Hsl, to_u32_small by lia.
  replace (_ <=? _) with false by lia.
  rewrite <- Hsl, (repr_read_block _ _ Hl). simpl. rewrite (repr_read_block _ _ Hh). simpl.
  rewrite Hsl, Hsh, (heredocs_length _ _ Hhs).
  rewrite (serialize_heredocs_fit hs a.2); [|done|].
  - unfold encode_state. cbn [app]. by rewrite <- !app_assoc.
  - rewrite app_comm_cons, !length_app. simpl. rewrite length_concat_literals. lia.
Qed.

Lemma serialize_overflow s a : state_repr s a → (1024 ≤ length (encode_state a))%nat →
  Z.of_nat (length a.1) < 800000000 → serialize s = Done [].
Proof.
  intros (Hl&hs&Hh&Hhs) Hfit Hmax. rewrite length_encode_state in Hfit. unfold serialize.
  destruct (repr_size _ _ Hl) as [Hsl ?], (repr_size _ _ Hh) as [Hsh ?].
  unfold TREE_SITTER_SERIALIZATION_BUFFER_SIZE. rewrite Hsl, to_u32_small by lia.
  destruct (1024 <=? _) eqn:E; [done|].
  rewrite <- Hsl, (repr_read_block _ _ Hl). simpl. rewrite (repr_read_block _ _ Hh). simpl.
  rewrite Hsl, Hsh, (heredocs_length _ _ Hhs).
  apply (serialize_heredocs_overflow hs a.2); [done|..].
  - intros Ha. rewrite Ha in Hfit. simpl in Hfit. lia.
  - rewrite app_comm_cons, !length_app. simpl. rewrite length_concat_literals. lia.
Qed.

(** ** Restoring *)

(** What restoring a literal gives: every field reduced to its byte. *)
Definition restored_literal (l : Literal) : Literal :=
  mkLiteral (to_char (type l)) (to_uchar (open_delimiter l)) (to_uchar (close_delimiter l))
    (to_uchar (nesting_depth l)) (allows_interpolation l).

Lemma restored_literal_fits l : literal_fits l → restored_literal l = l.
Proof.
  intros (Ht&Ho&Hc&Hd). destruct l; simpl in *. unfold restored_literal; simpl.
  unfold to_uchar. rewrite !Z.mod_small, to_char_small by lia. done.
Qed.

Lemma deserialize_literals_app ls l0 stack rest :
  repr stack l0 → Z.of_nat (length l0 + length ls) < 4294967296 →
  ∃ stack', deserialize_literals (length ls) stack (concat (serialize_literal <$> ls) ++ rest)
      = Done (stack', rest)
    ∧ repr stack' (l0 ++ (restored_literal <$> ls)).
Proof.
  revert l0 stack. induction ls as [|l ls IH]; intros l0 stack Hs Hl.
  { exists stack. split; [done|]. by rewrite app_nil_r. }
  rewrite !fmap_cons. cbn [concat length deserialize_literals]. rewrite <- app_assoc.
  unfold serialize_literal at 1. cbn -[array_push].
  rewrite !to_uchar_of_char, to_bool_of_bool. fold (restored_literal l). simpl length in Hl.
  destruct (repr_push stack l0 (restored_literal l) Hs ltac:(lia)) as (st1&->&H1). simpl.
  destruct (IH (l0 ++ [restored_literal l]) st1 H1) as (st2&Hrun&H2).
  { rewrite length_app. simpl. lia. }
  exists st2. split; [exact Hrun|]. by rewrite <- app_assoc in H2.
Qed.

Lemma deserialize_heredoc_app h rest :
  Z.of_nat (length (a_word h)) < 4294967296 →
  ∃ h', deserialize_heredoc (encode_heredoc h ++ rest) = Done (h', rest) ∧ heredoc_repr h' h.
Proof.
  intros Hl. unfold encode_heredoc. rewrite <- !app_assoc. unfold deserialize_heredoc, u32_bytes.
  cbn [app next_byte obind]. rewrite bytes_u32_bytes by lia.
  replace (_ <=? _) with true by (rewrite length_app; lia).
  rewrite Nat2Z.id, take_app_length, drop_app_length.
  destruct (repr_load array_init [] (a_word h) repr_init Hl) as (c&Hc&Hr). simpl in Hc. rewrite Hc.
  simpl. eexists; split; [done|]. rewrite !to_bool_of_bool. by split_and!.
Qed.

Lemma deserialize_heredocs_app ahs hs0 arr rest :
  repr arr hs0 → Forall (λ h, Z.of_nat (length (a_word h)) < 4294967296) ahs →
  Z.of_nat (length hs0 + length ahs) < 4294967296 →
  ∃ arr' hs, deserialize_heredocs (length ahs) arr (concat (encode_heredoc <$> ahs) ++ rest)
      = Done (arr', rest)
    ∧ repr arr' (hs0 ++ hs) ∧ Forall2 heredoc_repr hs ahs.
Proof.
  intros Ha Hw. revert hs0 arr Ha. induction Hw as [|h ahs Hh _ IH]; intros hs0 arr Ha Hl.
  { exists arr, []. split_and!; [done|by rewrite app_nil_r|constructor]. }
  rewrite fmap_cons. cbn [concat length deserialize_heredocs]. rewrite <- app_assoc.
  destruct (deserialize_heredoc_app h (concat (encode_heredoc <$> ahs) ++ rest) Hh)
    as (h'&->&Hh'). cbn [obind]. simpl length in Hl.
  destruct (repr_push arr hs0 h' Ha ltac:(lia)) as (a1&->&H1). cbn [obind].
  destruct (IH (hs0 ++ [h']) a1 H1) as (a2&hs&Hrun&H2&Hhs).
  { rewrite length_app. simpl. lia. }
  exists a2, (h' :: hs). rewrite <- app_assoc in H2. split_and!; [done|done|by constructor].
Qed.

Lemma reset_repr s a : state_repr s a →
  literal_stack (reset s) = array_init ∧ open_heredocs (reset s) = array_init.
Proof.
  intros (Hl&hs&Hh&_). split; simpl; by eapply repr_delete.
Qed.

Lemma deserialize_encode s0 a0 a : state_repr s0 a0 → (length (encode_state a) < 1024)%nat →
  ∃ s, deserialize s0 (encode_state a) = Done s ∧ state_repr s (restored_literal <$> a.1, a.2).
Proof.
  intros H0 Hfit. destruct (reset_repr s0 a0 H0) as [Hr1 Hr2].
  unfold deserialize. rewrite Hr1, Hr2. clear Hr1 Hr2 H0 s0 a0.
  pose proof (length_encode_state a) as Hlen. pose proof (length_concat_heredocs a.2).
  unfold encode_state. cbn [app next_byte obind].
  rewrite to_uchar_to_char, Nat2Z.id by lia.
  destruct (deserialize_literals_app a.1 [] array_init
    (to_char (Z.of_nat (length a.2)) :: concat (encode_heredoc <$> a.2)) repr_init)
    as (st&->&Hst); [simpl; lia|].
  cbn [obind next_byte]. rewrite to_uchar_to_char, Nat2Z.id by lia.
  destruct (deserialize_heredocs_app a.2 [] array_init [] repr_init) as (arr&hs&Hrun&Harr&Hhs).
  { apply Forall_forall. intros h Hh.
    assert (length (encode_heredoc h) ≤ length (concat (encode_heredoc <$> a.2)))%nat as Hle.
    { clear -Hh. induction Hh as [h hs|h g hs Hin IH]; rewrite fmap_cons; cbn [concat];
        rewrite length_app; lia. }
    rewrite length_encode_heredoc in Hle. lia. }
  { simpl. lia. }
  rewrite app_nil_r in Hrun. rewrite Hrun. cbn [obind].
  eexists; split; [done|]. split; [done|]. by exists hs.
Qed.

Lemma heredoc_repr_inj h a1 a2 : heredoc_repr h a1 → heredoc_repr h a2 → a1 = a2.
Proof.
  intros (Hw1&He1&Hi1&Hs1) (Hw2&He2&Hi2&Hs2). destruct a1, a2; simpl in *.
  f_equal; [by eapply repr_inj|congruence..].
Qed.

Lemma state_repr_inj s a1 a2 : state_repr s a1 → state_repr s a2 → a1 = a2.
Proof.
  intros (Hl1&hs1&Hh1&Hhs1) (Hl2&hs2&Hh2&Hhs2). destruct a1 as [l1 ahs1], a2 as [l2 ahs2]; simpl in *.
  f_equal; [by eapply repr_inj|].
  rewrite (repr_inj _ _ _ Hh1 Hh2) in Hhs1. clear -Hhs1 Hhs2. revert ahs2 Hhs2.
  induction Hhs1; intros ? Hh; inversion Hh; subst; f_equal; eauto using heredoc_repr_inj.
Qed.

#[export] Instance ruby_codec :
  ScannerCodec state_repr state_fits
    tree_sitter_ruby_external_scanner_serialize
    tree_sitter_ruby_external_scanner_deserialize.
Proof.
  refine {| encode := encode_state |}.
  - intros a [_ Hl]. unfold SERIALIZATION_BUFFER_SIZE. lia.
  - intros s a Hs [_ Hl]. by apply serialize_fits.
  - intros s0 a0 a H0 [Hf Hl]. destruct (deserialize_encode s0 a0 a H0 Hl) as (s&Hrun&Hs).
    exists s. split; [exact Hrun|]. destruct a as [ls hs]; simpl in *.
    replace (restored_literal <$> ls) with ls in Hs; [done|].
    clear -Hf. induction Hf as [|l ls Hlf _ IH]; [done|].
    rewrite fmap_cons, restored_literal_fits by done. by f_equal.
  - intros s. apply state_repr_inj.
Defined.

(** ** Steps of the state *)

(** What the scanner relies on: a delimiter is 0 only for the pair of zeros,
    which does not nest; the fields fit in bytes. *)
Definition literal_ok (l : Literal) : Prop :=
  (close_delimiter l = 0 → open_delimiter l = 0 ∧ nesting_depth l = 1)
  ∧ (open_delimiter l = 0 → close_delimiter l = 0)
  ∧ 0 ≤ type l < 128 ∧ 0 ≤ open_delimiter l < 128 ∧ 0 ≤ close_delimiter l < 128.

(** An end word is not empty and holds [char]s. *)
Definition heredoc_ok (h : heredoc) : Prop :=
  a_word h ≠ [] ∧ Forall (λ c, -128 ≤ c < 128) (a_word h).

Definition state_ok (a : state) : Prop := Forall literal_ok a.1 ∧ Forall heredoc_ok a.2.

Definition with_depth (l : Literal) (d : Z) : Literal :=
  mkLiteral (type l) (open_delimiter l) (close_delimiter l) d (allows_interpolation l).

Definition start (h : heredoc) : heredoc :=
  AHeredoc (a_word h) (a_indent h) (a_interpolation h) true.

(** The effect of one scan on the state. *)
Inductive state_step : state → state → Prop :=
  | step_same a : state_step a a
  | step_open ls l hs : literal_ok l → nesting_depth l = 1 →
      state_step (ls, hs) (ls ++ [l], hs)
  | step_nest ls l d hs : literal_ok (with_depth l d) →
      state_step (ls ++ [l], hs) (ls ++ [with_depth l d], hs)
  | step_close ls l hs : state_step (ls ++ [l], hs) (ls, hs)
  | step_heredoc ls hs h : heredoc_ok h → a_started h = false →
      state_step (ls, hs) (ls, hs ++ [h])
  | step_enter ls h hs : state_step (ls, h :: hs) (ls, start h :: hs)
  | step_leave ls h hs : state_step (ls, h :: hs) (ls, hs).

Lemma state_step_ok a a' : state_step a a' → state_ok a → state_ok a'.
Proof.
  unfold state_ok. destruct 1; simpl; rewrite ?Forall_app, ?Forall_cons, ?Forall_nil; tauto.
Qed.

Lemma literal_ok_depth l : literal_ok l → literal_ok (with_depth l (nesting_depth l)).
Proof. by destruct l. Qed.
