(* ===== verification/RubySpec.v ===== *)
(** * Reference definitions for the Ruby scanner *)

From S2P Require Import Prelude Scan Logic OpTable Ruby.

(** The operators that may be the name of a symbol, as in [:<=>]. *)
Definition method_operators : list (list Z * bool) :=
  (λ s, (cstr s, true)) <$>
    [ "<"; "<="; "<<"; "<=>"; ">"; ">="; ">>"; "=="; "==="; "=~"; "+"; "-"; "~";
      "+@"; "-@"; "~@"; ".."; "&"; "^"; "|"; "/"; "%"; "`"; "!"; "!="; "!~"; "*";
      "**"; "[]"; "[]=" ]%string.
