(* ===== verification/RubyProofs.v ===== *)
(** * Properties of the Ruby external scanner *)

From S2P Require Import Prelude CArray CArrayProofs Codec Scan Logic OpTable Ruby RubyState RubySpec.

Ltac wp_hook ::=
  first [ progress unfold advance | progress unfold skip | progress unfold set_result
        | progress unfold set_leading_whitespace | progress unfold emit
        | progress unfold fail | progress unfold leading_whitespace ].

(** ** Termination of the functions that leave the stacks alone *)

(** [I] does not depend on [has_leading_whitespace]. *)
Class IgnoresWhite (I : Scanner → Prop) : Prop :=
  ignores_white b s : I s → I (mkScanner b (literal_stack s) (open_heredocs s)).

#[export] Instance stops_iden_char : StopsAtEof (λ c, is_iden_char (to_char c)).
Proof. reflexivity. Qed.
#[export] Instance stops_ruby_word_char `{!WCType} : StopsAtEof is_word_char.
Proof. unfold StopsAtEof, is_word_char. by rewrite iswalnum_nul. Qed.

Section reads.
Context {L : Type} {HL : TSLexer L} {HW : WCType} {HS : TSLexerSpec L}.
Context (I : Scanner → Prop).

#[export] Instance reads_ruby_advance : Reads I advance.
Proof. apply _. Qed.
#[export] Instance reads_ruby_set_result t : Reads I (set_result t).
Proof. apply _. Qed.
#[export] Instance reads_ruby_emit t : Reads I (emit t).
Proof. unfold emit. apply _. Qed.
#[export] Instance reads_ruby_fail : Reads I fail.
Proof. unfold fail. apply _. Qed.
#[export] Instance reads_leading_whitespace : Reads I leading_whitespace.
Proof. unfold leading_whitespace. apply _. Qed.
#[export] Instance reads_scan_operator : Reads I scan_operator.
Proof. unfold scan_operator. apply _. Qed.
#[export] Instance reads_while_iden_char : Reads I while_iden_char.
Proof. unfold while_iden_char. apply _. Qed.
#[export] Instance reads_scan_symbol_identifier : Reads I scan_symbol_identifier.
Proof. unfold scan_symbol_identifier. apply _. Qed.
#[export] Instance reads_percent_type vs : Reads I (percent_type vs).
Proof. unfold percent_type. apply _. Qed.
#[export] Instance reads_scan_open_delimiter vs : Reads I (scan_open_delimiter vs).
Proof.
  unfold scan_open_delimiter.
  repeat first [apply _ | apply reads_bind; [apply _|intros ?] | apply reads_if | case_match].
Qed.
#[export] Instance reads_scan_short_interpolation b t : Reads I (scan_short_interpolation b t).
Proof. unfold scan_short_interpolation. apply _. Qed.
#[export] Instance reads_scan_star vs : Reads I (scan_star vs).
Proof. unfold scan_star. apply _. Qed.
#[export] Instance reads_scan_minus vs : Reads I (scan_minus vs).
Proof. unfold scan_minus. apply _. Qed.
#[export] Instance reads_scan_identifier vs : Reads I (scan_identifier vs).
Proof. unfold scan_identifier. apply _. Qed.
#[export] Instance reads_whitespace_end b : Reads I (whitespace_end b).
Proof. unfold whitespace_end. apply _. Qed.

#[export] Instance reads_heredoc_indentation h : Reads I (heredoc_indentation h).
Proof. unfold heredoc_indentation. reads_loop. Qed.

#[export] Instance reads_ruby_skip : IgnoresWhite I → Reads I skip.
Proof. intros HI n v y s Hn Hs. wps. split; [auto with scan|]. by apply HI. Qed.
End reads.

(** ** The primitives on the state *)

(** Everything but [has_leading_whitespace] is as in [s0]. *)
Definition same_state (s0 s : Scanner) : Prop :=
  literal_stack s = literal_stack s0 ∧ open_heredocs s = open_heredocs s0.

#[export] Instance same_state_ignores s0 : IgnoresWhite (same_state s0).
Proof. intros b s [??]. by split. Qed.

Lemma same_state_repr s0 s a : same_state s0 s → state_repr s0 a → state_repr s a.
Proof. intros [Hl Hh]. unfold state_repr. by rewrite Hl, Hh. Qed.

#[export] Instance state_repr_ignores a : IgnoresWhite (λ s, state_repr s a).
Proof. intros b s [??]. by split. Qed.

Section state.
Context {L : Type} {HL : TSLexer L} {HS : TSLexerSpec L}.
Local Abbreviation P := (post (S := Scanner)).

Lemma wp_current_literal n v y s ls l hs (Q : P Literal) :
  state_repr s (ls ++ [l], hs) → Q l v y s → wp (L := L) current_literal n v y s Q.
Proof.
  intros [Hl _] HQ. unfold current_literal. wps.
  eapply wp_lift; [by eapply repr_back|done].
Qed.

Lemma wp_set_nesting_depth n v y s ls l d hs (Q : P unit) :
  state_repr s (ls ++ [l], hs) →
  (∀ s', state_repr s' (ls ++ [with_depth l d], hs) → Q tt v y s') →
  wp (L := L) (set_nesting_depth l d) n v y s Q.
Proof.
  intros [Hl Hh] HQ. unfold set_nesting_depth, assign_literal, set_literals. wps. simpl in Hl.
  destruct (repr_size _ _ Hl) as [Hs ?]. rewrite length_app in Hs; simpl in Hs.
  destruct (repr_write (literal_stack s) ls l (with_depth l d) []
    (to_u32 (size (literal_stack s) - 1)) Hl) as (c&Hc&Hr).
  { rewrite Hs, to_u32_small by lia. lia. }
  eapply wp_lift; [exact Hc|]. wps. apply HQ. by split.
Qed.

Lemma wp_push_literal n v y s ls l hs (Q : P unit) :
  state_repr s (ls, hs) → Z.of_nat (length ls) + 1 < 4294967296 →
  (∀ s', state_repr s' (ls ++ [l], hs) → Q tt v y s') →
  wp (L := L) (push_literal l) n v y s Q.
Proof.
  intros [Hl Hh] Hn HQ. unfold push_literal, set_literals. wps.
  destruct (repr_push _ _ l Hl Hn) as (a&Ha&Hr). eapply wp_lift; [exact Ha|]. wps.
  apply HQ. by split.
Qed.

Lemma heredocs_cons s ls h hs : state_repr s (ls, h :: hs) →
  ∃ H Hs, repr (open_heredocs s) (H :: Hs) ∧ heredoc_repr H h ∧ Forall2 heredoc_repr Hs hs.
Proof.
  intros [_ (Hs&Hr&Hf)]. simpl in Hf. inversion Hf; subst. eauto.
Qed.

Lemma wp_start_heredoc n v y s ls h hs (Q : P unit) :
  state_repr s (ls, h :: hs) →
  (∀ s', state_repr s' (ls, start h :: hs) → Q tt v y s') →
  wp (L := L) start_heredoc n v y s Q.
Proof.
  intros Hs HQ. destruct (heredocs_cons _ _ _ _ Hs) as (H&Hr&Hrep&Hh&Hf).
  unfold start_heredoc, set_heredocs. wps.
  destruct (repr_read _ _ 0 Hrep) as (H'&E&Hread); [simpl; lia|]. injection E as <-.
  eapply wp_lift; [exact Hread|]. wps.
  destruct (repr_write (open_heredocs s) [] H
    (mkHeredoc (word H) (end_word_indentation_allowed H) (h_allows_interpolation H) true)
    Hr 0 Hrep eq_refl) as (c&Hc&Hr'). eapply wp_lift; [exact Hc|]. wps.
  apply HQ. split; [apply Hs|]. eexists; split; [exact Hr'|]. simpl. constructor; [|done].
  by destruct Hh as (?&?&?&?).
Qed.

Lemma wp_current_heredoc n v y s ls h hs (Q : P Heredoc) :
  state_repr s (ls, h :: hs) → (∀ H, heredoc_repr H h → Q H v y s) →
  wp (L := L) current_heredoc n v y s Q.
Proof.
  intros Hs HQ. destruct (heredocs_cons _ _ _ _ Hs) as (H&Hr&Hrep&Hh&Hf).
  unfold current_heredoc. wps. eapply wp_lift; [by apply (repr_get _ (H :: Hr) 0 H)|]. auto.
Qed.

(** Closing a heredoc, or handing out its content. *)
Lemma wp_heredoc_end has n v y s ls h hs (Q : P bool) :
  state_repr s (ls, h :: hs) →
  (∀ y' s', (state_repr s' (ls, h :: hs) ∨ state_repr s' (ls, hs)) → Q true v y' s') →
  wp (L := L) (heredoc_end has) n v y s Q.
Proof.
  intros Hs HQ. unfold heredoc_end, set_heredocs. wps; [by apply HQ; left|].
  destruct (heredocs_cons _ _ _ _ Hs) as (H&Hr&Hrep&Hh&Hf).
  destruct (repr_erase _ _ 0 Hrep) as (a&Ha&Har); [simpl; lia|].
  eapply wp_lift; [exact Ha|]. wps. apply HQ. right. split; [apply Hs|]. by exists Hr.
Qed.
End state.

(** ** Effect of a scan on the state *)

Section steps.
Context {L : Type} {HL : TSLexer L} {HW : WCType} {HS : TSLexerSpec L}.

(** What a scan promises: it moves forward and takes a step of the state. *)
Definition ruby_post {A} (a : state) (v : view) : post (S := Scanner) A :=
  λ _ v' _ s', advanced v v' ∧ ∃ a', state_repr s' a' ∧ state_step a a'.

Lemma ruby_post_same {A} a v (r : A) v' y s :
  advanced v v' → state_repr s a → ruby_post a v r v' y s.
Proof. intros Ha Hs. split; [done|]. exists a. split; [done|constructor]. Qed.

Lemma ruby_post_trans {A} a v v1 (r : A) v' y s :
  advanced v v1 → ruby_post a v1 r v' y s → ruby_post a v r v' y s.
Proof. intros Ha [Hv Hs]. split; [by etrans|done]. Qed.

(** A computation that only may set [has_leading_whitespace]. *)
Lemma wp_same {A} (m : M L Scanner A) a n v y s :
  Reads (λ s, state_repr s a) m → (rem v < n)%nat → state_repr s a →
  wp m n v y s (ruby_post a v).
Proof.
  intros Hm Hn Hs. eapply wp_mono; [by apply Hm|]. intros r v' y' s' [??].
  by apply ruby_post_same.
Qed.

Lemma wp_is_heredoc_body_start_valid vs n v y s a (Q : post (S := Scanner) bool) :
  state_repr s a →
  (∀ b, (b = true → ∃ h hs, a.2 = h :: hs) → Q b v y s) →
  wp (L := L) (is_heredoc_body_start_valid vs) n v y s Q.
Proof.
  intros Hs HQ. unfold is_heredoc_body_start_valid. wps.
  - destruct a as [ls [|h hs]].
    + destruct Hs as [_ (Hs&Hr&Hf)]. simpl in Hf. inversion Hf; subst.
      destruct (repr_size _ _ Hr). simpl in *. lia.
    + destruct (heredocs_cons _ _ _ _ Hs) as (H&Hr&Hrep&_).
      destruct (repr_read _ _ 0 Hrep) as (H'&E'&Hread); [simpl; lia|].
      eapply wp_lift; [exact Hread|]. wps. apply HQ. eauto.
  - by apply HQ.
Qed.

Lemma wp_scan_whitespace vs n v y s a :
  (rem v < n)%nat → state_repr s a →
  wp (scan_whitespace vs) n v y s (λ r v' y' s', advanced v v'
    ∧ (state_repr s' a
       ∨ r = true ∧ y' = TokenType_to_Z HEREDOC_BODY_START
         ∧ ∃ a', state_repr s' a' ∧ state_step a a')).
Proof.
  intros Hn Hs. unfold scan_whitespace. apply wp_bind.
  eapply wp_is_heredoc_body_start_valid; [done|]. intros start Hstart.
  apply (wp_iter (λ _ v' _ s', advanced v v' ∧ state_repr s' a) (λ _ v', rem v'));
    [|done|done].
  clear s y Hs. intros crossed v1 y1 s1 [Ha Hs].
  assert (Hbody : start = true → wp (L := L) heredoc_body_start n v1 y1 s1
    (λ r v' y' s', ∃ b, r = inr b ∧ advanced v v' ∧ b = true
       ∧ y' = TokenType_to_Z HEREDOC_BODY_START ∧ ∃ a', state_repr s' a' ∧ state_step a a')).
  { intros Hst. destruct (Hstart Hst) as (h&hs&E). destruct a as [ls hs0]; simpl in E; subst hs0.
    unfold heredoc_body_start. wps. eapply wp_start_heredoc; [done|]. intros s' Hs'. wps.
    exists true. split_and!; try done. eexists; split; [done|constructor]. }
  unfold whitespace_body, whitespace_end. apply wp_bind, wp_range_start. intros range. wps.
  all: try (eapply wp_mono; [by apply Hbody|];
            intros r v' y' s' (b&->&?&->&->&?); by eauto 10).
  all: try (split; [split; [advanced_tac|by try apply state_repr_ignores]|rem_tac]).
  all: try (split; [advanced_tac|left; by try apply state_repr_ignores]).
Qed.

(** ** Literals *)

Lemma wp_literal_end n v y s ls l hs has (Q : post (S := Scanner) bool) :
  (rem v < n)%nat → state_repr s (ls ++ [l], hs) →
  (∀ v' y' s', advanced v v' →
     (state_repr s' (ls ++ [l], hs) ∨ state_repr s' (ls, hs)) → Q true v' y' s') →
  wp (literal_end l has) n v y s Q.
Proof.
  intros Hn Hs HQ. unfold literal_end, set_literals.
  wps; [apply HQ; [done|by left]|apply wp_while_look; [apply iswlower_nul|rem_tac|]|].
  all: wps; destruct Hs as [Hl Hh]; simpl in Hl;
    destruct (repr_pop _ _ _ Hl) as (a&Ha&Hr);
    (eapply wp_lift; [exact Ha|]); wps; apply HQ; [advanced_tac|right; by split].
Qed.

(** The nesting depth stays in the range of [int32_t] while reading [v]. *)
Definition depth_bound (v : view) (d : Z) : Prop :=
  Z.abs d + Z.of_nat (rem v) < 2147483647.

Lemma wp_scan_literal_content n v y s ls l hs :
  (rem v < n)%nat → state_repr s (ls ++ [l], hs) → literal_ok l →
  depth_bound v (nesting_depth l) →
  wp scan_literal_content n v y s (ruby_post (ls ++ [l], hs) v).
Proof.
  intros Hn Hs Hl Hb. unfold scan_literal_content.
  apply (wp_iter (λ _ v1 _ s1, advanced v v1 ∧ ∃ d, state_repr s1 (ls ++ [with_depth l d], hs)
      ∧ literal_ok (with_depth l d) ∧ depth_bound v1 d) (λ _ v1, rem v1)); [| |done].
  2: { split; [done|]. exists (nesting_depth l). by destruct l. }
  clear s y Hs Hb. intros has v1 y1 s1 (Ha&d&Hs&Hd&Hb). unfold literal_body, depth_bound in *.
  apply wp_bind. eapply wp_current_literal; [done|]. cbn [type open_delimiter close_delimiter
    nesting_depth allows_interpolation with_depth].
  assert (Hdone : ∀ v' y' s', advanced v1 v' →
    state_repr s' (ls ++ [with_depth l d], hs) → ∀ r : bool, ruby_post (ls ++ [l], hs) v r v' y' s').
  { intros v' y' s' Ha' Hs' r. split; [by etrans|]. eexists; split; [done|by constructor]. }
  assert (Hnext : ∀ v' s' d', advanced v1 v' → (rem v' < rem v1)%nat →
    state_repr s' (ls ++ [with_depth l d'], hs) → (close_delimiter l ≠ 0 ∨ d' = d) →
    Z.abs d' ≤ Z.abs d + 1 →
    (advanced v v' ∧ ∃ d, state_repr s' (ls ++ [with_depth l d], hs)
      ∧ literal_ok (with_depth l d) ∧ Z.abs d + Z.of_nat (rem v') < 2147483647)
    ∧ (rem v' < rem v1)%nat).
  { intros v' s' d' Ha' Hr Hs' Hc Hd'. split; [|done]. split; [by etrans|].
    exists d'. split_and!; [done| |lia]. clear -Hd Hc. revert Hd. unfold literal_ok; simpl.
    intros (H0&H1&H2). split_and!; [|tauto..]. intros Hz. destruct (H0 Hz).
    destruct Hc; [done|]. by subst d'. }
  assert (Hdepth : ∀ d', (0 < rem v1)%nat → close_delimiter l ≠ 0 → Z.abs d' ≤ Z.abs d + 1 →
    ∀ sk y v0, advanced v1 v0 → rem v0 = rem v1 →
    wp (L := L) (set_nesting_depth (with_depth l d) d';; advance_ sk;; ret (inl true)) n v0 y s1
      (λ (r : bool + bool) v' y' s', match r with
       | inl _ => (advanced v v' ∧ ∃ d, state_repr s' (ls ++ [with_depth l d], hs)
           ∧ literal_ok (with_depth l d) ∧ Z.abs d + Z.of_nat (rem v') < 2147483647)
         ∧ (rem v' < rem v1)%nat
       | inr r => ruby_post (ls ++ [l], hs) v r v' y' s'
       end)).
  { intros d' Hr Hc Habs sk y0 v0 Ha0 Hr0. wps.
    eapply wp_set_nesting_depth; [done|]. intros s' Hs'. wps.
    apply (Hnext _ s' d'); [advanced_tac|rewrite rem_adv; lia|done|by left|done]. }
  wps; try (apply Hdone; [advanced_tac|done]);
    try (apply (Hnext _ s1 d); [advanced_tac|rem_tac|done|by right|lia]).
  - eapply wp_literal_end; [rem_tac|done|]. intros v' y' s' Ha' [Hs'|Hs']; wps.
    + apply Hdone; [advanced_tac|done].
    + split; [advanced_tac|]. eexists; split; [done|constructor].
  - apply Z.eqb_eq in E0. assert (close_delimiter l ≠ 0) as Hc.
    { intros Hc. destruct Hd as [Hd _]. simpl in Hd. destruct (Hd Hc). lia. }
    assert (0 < rem v1)%nat by (apply look_pos; congruence).
    eapply wp_lift; [apply i32_decr_small; lia|].
    apply Hdepth; [done|done|lia|advanced_tac|done].
  - apply Z.eqb_eq in E1. apply Z.eqb_neq in E0.
    assert (close_delimiter l ≠ 0 ∧ open_delimiter l ≠ 0) as [Hc Ho].
    { destruct Hd as (Hd&Hd2&_). simpl in *. split; intros Hz.
      - destruct (Hd Hz). congruence.
      - specialize (Hd2 Hz). congruence. }
    assert (0 < rem v1)%nat by (apply look_pos; congruence).
    eapply wp_lift; [apply i32_incr_small; lia|].
    apply Hdepth; [done|done|lia|done|done].
  - keep. wps; [apply Hdone; [advanced_tac|done]|].
    apply (Hnext _ s1 d); [advanced_tac|rem_tac|done|by right|lia].
Qed.

(** ** Heredocs *)

Lemma wp_heredoc_char H has n v y s :
  (rem v < n)%nat → (0 < rem v)%nat →
  wp (heredoc_char H has) n v y s (λ r v' _ s', advanced v v' ∧ s' = s
    ∧ match r with
      | inl locals => position_in_word locals = 0 ∧ (rem v' < rem v)%nat
      | inr _ => True
      end).
Proof.
  intros Hn Hr. unfold heredoc_char.
  wps; repeat (keep; wps); split_and!; (done || advanced_tac || rem_tac).
Qed.

Lemma wp_heredoc_step H p look has n v y s ls h hs :
  (rem v < n)%nat → state_repr s (ls, h :: hs) → heredoc_repr H h →
  0 ≤ p < Z.of_nat (length (a_word h)) →
  wp (heredoc_step H (mkLocals p look has)) n v y s (λ r v' y' s',
    match r with
    | inl locals => advanced v v' ∧ (rem v' < rem v)%nat ∧ s' = s
        ∧ 0 ≤ position_in_word locals ≤ Z.of_nat (length (a_word h))
    | inr r => ruby_post (ls, h :: hs) v r v' y' s'
    end).
Proof.
  intros Hn Hs Hh Hp. unfold heredoc_step. cbn [position_in_word look_for_heredoc_end has_content].
  wps.
  - eapply wp_heredoc_end; [done|]. intros y' s' [Hs'|Hs']; wps;
      (split; [advanced_tac|]); eexists; (split; [done|]); constructor.
  - destruct Hh as [Hw _].
    destruct (repr_read _ _ (Z.to_nat p) Hw) as (w&Hx&_); [lia|].
    eapply wp_lift; [rewrite <- (Z2Nat.id p) by lia; by eapply repr_get|].
    assert (0 < rem v)%nat by by apply not_eof_pos.
    wps; [split_and!; simpl; (done || advanced_tac || rem_tac)|].
    eapply wp_mono; [by apply wp_heredoc_char|].
    intros [l|r] v' y' s' (Ha&->&Hr); [|by apply ruby_post_same].
    destruct Hr as [-> ?]. split_and!; (done || lia).
Qed.

Lemma wp_scan_heredoc_content n v y s ls h hs :
  (rem v < n)%nat → state_repr s (ls, h :: hs) → heredoc_ok h →
  wp scan_heredoc_content n v y s (ruby_post (ls, h :: hs) v).
Proof.
  intros Hn Hs [Hne _]. unfold scan_heredoc_content. apply wp_bind.
  eapply wp_current_heredoc; [done|]. intros H Hh.
  assert (0 < length (a_word h))%nat as Hlen by (destruct (a_word h); [done|simpl; lia]).
  apply (wp_iter (λ locals v' _ s', advanced v v' ∧ s' = s
      ∧ 0 ≤ position_in_word locals ≤ Z.of_nat (length (a_word h))) (λ _ v', rem v'));
    [|split_and!; simpl; (done || lia)|done].
  clear y. intros [p look has] v1 y1 s1 (Ha&->&Hp). cbn [position_in_word] in Hp.
  assert (Hstep : ∀ p has v2 y2, 0 ≤ p < Z.of_nat (length (a_word h)) → advanced v1 v2 →
    wp (heredoc_step H (mkLocals p look has)) n v2 y2 s (λ r v' y' s',
      match r with
      | inl locals => (advanced v v' ∧ s' = s
          ∧ 0 ≤ position_in_word locals ≤ Z.of_nat (length (a_word h))) ∧ (rem v' < rem v1)%nat
      | inr r => ruby_post (ls, h :: hs) v r v' y' s'
      end)).
  { intros p' has' v2 y2 Hp' Ha2. eapply wp_mono; [by apply wp_heredoc_step; [rem_tac|..]|].
    intros [l|r] v' y' s'; [|apply ruby_post_trans; by etrans].
    intros (Ha'&Hr'&->&Hp2). split; [split_and!; (done || lia || advanced_tac)|rem_tac]. }
  unfold heredoc_body. cbn [position_in_word look_for_heredoc_end has_content].
  destruct Hh as [Hw _]. destruct (repr_size _ _ Hw) as [Hsz _].
  destruct (p =? size (word H)) eqn:E; [|apply Hstep; [lia|done]].
  wps; (apply wp_while_look; [done|rem_tac|]); wps;
    try (apply Hstep; [lia|advanced_tac]);
    (eapply wp_heredoc_end; [done|]); intros y' s' [Hs'|Hs']; wps;
    (split; [advanced_tac|]); eexists; (split; [done|]); constructor.
Qed.

(** ** Announcing heredocs *)

Definition chars (l : list Z) : Prop := Forall (λ c, -128 ≤ c < 128) l.

Lemma wp_word_loop p w wl n v y s :
  (∀ v, p (look v) (at_eof v) = true → (0 < rem v)%nat) →
  (rem v < n)%nat → repr w wl → chars wl → Z.of_nat (length wl + rem v) < 4294967295 →
  wp (L := L) (S := Scanner) (word_loop p w) n v y s (λ w' v' y' s', advanced v v' ∧ s' = s
    ∧ ∃ wl', repr w' wl' ∧ chars wl' ∧ (length wl ≤ length wl')%nat).
Proof.
  intros Hp Hn Hw Hc Hl. unfold word_loop.
  apply (wp_iter (λ w1 v1 _ s1, advanced v v1 ∧ s1 = s ∧ ∃ wl1, repr w1 wl1 ∧ chars wl1
      ∧ (length wl ≤ length wl1)%nat ∧ Z.of_nat (length wl1 + rem v1) < 4294967295)
    (λ _ v1, rem v1)); [|split_and!; [done..|]; exists wl; split_and!; (done || lia)|done].
  clear w Hw Hc. intros w1 v1 y1 s1 (Ha&->&wl1&Hw&Hc&Hle&Hb). wps; [|by eauto 10].
  assert (0 < rem v1)%nat as Hr by by apply Hp.
  destruct (repr_push w1 wl1 (to_char (look v1)) Hw ltac:(lia)) as (w2&Hw2&Hr2).
  eapply wp_lift; [exact Hw2|]. wps. split; [|rem_tac]. split_and!; [advanced_tac|done|].
  eexists; split; [done|]. rewrite length_app. simpl. split_and!; [|lia|rem_tac].
  apply Forall_app_2; [done|]. apply Forall_singleton, to_char_range.
Qed.

Lemma chars_nil : chars [].
Proof. constructor. Qed.

Lemma wp_scan_heredoc_word h n v y s :
  (rem v < n)%nat → Z.of_nat (rem v) < 4294967294 →
  wp (scan_heredoc_word h) n v y s (λ h' v' _ s', advanced v v' ∧ s' = s
    ∧ ∃ a, heredoc_repr h' a ∧ chars (a_word a) ∧ a_started a = started h).
Proof.
  intros Hn H32. unfold scan_heredoc_word.
  assert (Hfinish : ∀ w wl q v', repr w wl → chars wl → advanced v v' →
    advanced v v' ∧ s = s ∧ ∃ a,
      heredoc_repr (mkHeredoc w (end_word_indentation_allowed h) (negb (q =? "'")) (started h)) a
      ∧ chars (a_word a) ∧ a_started a = started h).
  { intros w wl q v' Hw Hc Ha. split_and!; [done|done|].
    by exists (AHeredoc wl (end_word_indentation_allowed h) (negb (q =? "'")) (started h)). }
  wps.
  - eapply wp_mono; [apply (wp_word_loop _ _ []); [|rem_tac|apply repr_init|apply chars_nil|]|].
    + intros v' Hv'. apply andb_true_iff in Hv' as [_ Hv'].
      apply not_eof_pos. by apply negb_true_iff.
    + simpl. rem_tac.
    + intros w v' y' s' (Ha&->&wl&Hw&Hc&_). wps. eapply Hfinish; [done|done|advanced_tac].
  - destruct (repr_push array_init [] (to_char (look v)) repr_init) as (w0&Hw0&Hr0); [simpl; lia|].
    eapply wp_lift; [exact Hw0|]. wps.
    eapply wp_mono; [apply (wp_word_loop _ _ [to_char (look v)]);
      [|rem_tac|exact Hr0|apply Forall_singleton, to_char_range|]|].
    + intros v' Hv'. by apply (look_class_pos is_word_char).
    + simpl. rem_tac.
    + intros w v' y' s' (Ha&->&wl&Hw&Hc&_). wps.
      apply (Hfinish w wl 0); [done|done|advanced_tac].
  - apply (Hfinish array_init [] 0); [apply repr_init|apply chars_nil|done].
Qed.

Lemma wp_scan_heredoc_start n v y s ls hs :
  (rem v < n)%nat → Z.of_nat (rem v) < 4294967294 → state_repr s (ls, hs) →
  Z.of_nat (length hs) + 1 < 4294967296 →
  wp scan_heredoc_start n v y s (ruby_post (ls, hs) v).
Proof.
  intros Hn H32 Hs Hl. unfold scan_heredoc_start, set_heredocs.
  wps; [apply ruby_post_same; [advanced_tac|done]|..].
  all: eapply wp_mono; [apply wp_scan_heredoc_word; rem_tac|].
  all: intros h v' y' s' (Ha&->&a&Hh&Hc&Hst); wps;
    [apply ruby_post_same; [advanced_tac|done]|].
  all: destruct Hs as [Hls (Hs&Hr&Hf)]; simpl in Hf.
  all: destruct (repr_push _ _ h Hr) as (arr&Harr&Hr'); [rewrite (heredocs_length _ _ Hf); lia|].
  all: (eapply wp_lift; [exact Harr|]); wps; (split; [advanced_tac|]).
  all: exists (ls, hs ++ [a]); split;
    [split; [done|]; eexists; split; [done|]; by apply Forall2_app; [|constructor]|].
  all: constructor; [split; [|done]|exact Hst].
  all: intros Hnil; destruct Hh as [Hw _]; rewrite Hnil in Hw; destruct (repr_size _ _ Hw).
  all: simpl in *; lia.
Qed.

(** ** Opening literals *)

Lemma literal_ok_open t o c i : 0 < o < 128 → 0 < c < 128 →
  literal_ok (mkLiteral (TokenType_to_Z t) o c 1 i).
Proof. intros ??. unfold literal_ok; simpl. split_and!; try lia; destruct t; simpl; lia. Qed.

Lemma percent_delimiters_ok vs t i c o d : percent_delimiters vs c = Some (o, d) →
  literal_ok (mkLiteral (TokenType_to_Z t) o d 1 i).
Proof.
  unfold percent_delimiters. intros H. repeat case_match; simplify_eq; try (apply literal_ok_open; lia).
  - split; [done|]. split; [done|]. destruct t; simpl; lia.
  - match goal with H : existsb _ _ = true |- _ => apply existsb_exists in H as (k&Hk&Hc) end.
    assert (Forall (λ k, 0 < k < 128) unbalanced_delimiters) as Hall
      by (repeat constructor; lia).
    rewrite Forall_forall in Hall. apply literal_ok_open; apply Z.eqb_eq in Hc; subst;
      apply Hall; by apply list_elem_of_In.
Qed.

Lemma wp_scan_open_delimiter vs n v y s :
  (rem v < n)%nat →
  wp (S := Scanner) (scan_open_delimiter vs) n v y s (λ r v' _ s', advanced v v' ∧ s' = s
    ∧ match r with Some l => literal_ok l ∧ nesting_depth l = 1 | None => True end).
Proof.
  intros Hn. unfold scan_open_delimiter. wps;
    try (split_and!; [advanced_tac|done|apply literal_ok_open; lia|done]);
    try (split_and!; (advanced_tac || done)).
  keep. destruct a as [[t i]|]; wps; [|split_and!; (advanced_tac || done)].
  destruct (percent_delimiters vs (look w)) as [[o d]|] eqn:E'; wps;
    split_and!; try (advanced_tac || done).
  by eapply percent_delimiters_ok.
Qed.

Lemma wp_scan_literal_start vs n v y s ls hs :
  (rem v < n)%nat → Z.of_nat (rem v) < 4294967294 → state_repr s (ls, hs) →
  Z.of_nat (length ls) + 1 < 4294967296 → Z.of_nat (length hs) + 1 < 4294967296 →
  wp (scan_literal_start vs) n v y s (ruby_post (ls, hs) v).
Proof.
  intros Hn H32 Hs Hls Hhs. unfold scan_literal_start. wps.
  - by apply wp_scan_heredoc_start.
  - eapply wp_mono; [by apply wp_scan_open_delimiter|].
    intros [l|] v' y' s' (Ha&->&Hl); [|wps; by apply ruby_post_same].
    wps. eapply wp_push_literal; [done..|]. intros s' Hs'. wps.
    split; [done|]. eexists; split; [done|]. apply step_open; apply Hl.
  - by apply ruby_post_same.
Qed.

Lemma wp_scan_symbol n v y s ls hs :
  (rem v < n)%nat → state_repr s (ls, hs) → Z.of_nat (length ls) + 1 < 4294967296 →
  wp scan_symbol n v y s (λ r v' y' s', ruby_post (ls, hs) v r v' y' s' ∧ r ≠ None).
Proof.
  intros Hn Hs Hls. unfold scan_symbol. wps.
  1, 2: eapply wp_push_literal; [done..|]; intros s' Hs'; wps; (split; [|done]);
    (split; [advanced_tac|]);
    eexists; (split; [done|]); apply step_open; [apply literal_ok_open; lia|done].
  keep. wps; (split; [|done]); (apply ruby_post_same; [advanced_tac|done]).
Qed.

Lemma wp_scan_switch vs n v y s ls hs :
  (rem v < n)%nat → state_repr s (ls, hs) → Z.of_nat (length ls) + 1 < 4294967296 →
  wp (scan_switch vs) n v y s (λ r v' y' s', ruby_post (ls, hs) v r v' y' s'
    ∧ (r = None → state_repr s' (ls, hs))).
Proof.
  intros Hn Hs Hls. unfold scan_switch.
  assert (Hsame : ∀ r : option bool, ∀ v' y', advanced v v' →
    ruby_post (ls, hs) v r v' y' s ∧ (r = None → state_repr s (ls, hs)))
    by (intros; split; [by apply ruby_post_same|done]).
  wps; try (apply Hsame; advanced_tac); try (keep; apply Hsame; advanced_tac).
  eapply wp_mono; [by apply wp_scan_symbol|]. by intros r v' y' s' [? ?].
Qed.

(** ** The whole scanner *)

(** What bounds the input and the state, so that no counter overflows. *)
Definition in_bounds (v : view) (a : state) : Prop :=
  Z.of_nat (rem v) < 2147483647
  ∧ Forall (λ l, depth_bound v (nesting_depth l)) a.1
  ∧ Z.of_nat (length a.1) + 1 < 4294967296 ∧ Z.of_nat (length a.2) + 1 < 4294967296.

Lemma wp_scan_token vs n v y s ls hs :
  (rem v < n)%nat → in_bounds v (ls, hs) → state_repr s (ls, hs) →
  wp (scan_token vs) n v y s (ruby_post (ls, hs) v).
Proof.
  intros Hn (H32&_&Hls&Hhs) Hs. simpl in *. unfold scan_token. apply wp_bind.
  eapply wp_mono; [by apply wp_scan_switch|].
  intros [b|] v1 y1 s1 [Hpost Hsame]; [by wps|]. specialize (Hsame eq_refl).
  destruct Hpost as [Ha _]. wps.
  - keep. apply ruby_post_same; [advanced_tac|done].
  - eapply wp_mono; [apply wp_scan_literal_start; [rem_tac|rem_tac|done..]|].
    intros r v2 y2 s2. apply ruby_post_trans. done.
Qed.

Lemma wp_ruby_scan vs n v y s a :
  (rem v < n)%nat → in_bounds v a → state_repr s a → state_ok a →
  wp (scan vs) n v y s (ruby_post a v).
Proof.
  intros Hn Hb Hs [Hok1 Hok2]. destruct a as [ls hs]. simpl in *. unfold scan.
  apply wp_bind. wps.
  all: set (s1 := mkScanner false (literal_stack s) (open_heredocs s)).
  all: assert (state_repr s1 (ls, hs)) as Hs1 by by apply state_repr_ignores.
  - destruct ls as [|l ls _] using rev_ind.
    { destruct Hs as [Hs _]. destruct (repr_size _ _ Hs). simpl in *. lia. }
    destruct Hb as (_&Hd&_). simpl in Hd.
    rewrite Forall_app, Forall_singleton in Hd, Hok1. destruct Hd as [_ Hd], Hok1 as [_ Hok1].
    by apply wp_scan_literal_content.
  - destruct hs as [|h hs].
    { destruct Hs as [_ (Hs'&Hr&Hf)]. simpl in Hf. inversion Hf; subst.
      destruct (repr_size _ _ Hr). simpl in *. lia. }
    rewrite Forall_cons in Hok2. destruct Hok2 as [Hok2 _].
    by apply wp_scan_heredoc_content.
  - unfold scan_outside. wps. eapply wp_mono; [by apply wp_scan_whitespace|].
    intros r v1 y1 s2 (Ha&[Hs2|(->&->&a'&Hs2&Hstep)]).
    + wps; [by apply ruby_post_same|by apply ruby_post_same|].
      eapply wp_mono; [apply wp_scan_token; [rem_tac|..|done]|].
      * destruct Hb as (H32&Hd&Hls&Hhs). simpl in *. split_and!; [rem_tac| |done..].
        simpl. eapply Forall_impl; [exact Hd|]. unfold depth_bound. cbv beta. intros l Hl. rem_tac.
      * intros r' v2 y2 s3. by apply ruby_post_trans.
    + wps; try discriminate. split; [done|]. by exists a'.
Qed.
End steps.

(** ** Operators *)

Definition operator_table : list (list Z * bool) := Eval vm_compute in method_operators.

Lemma method_operators_eq : method_operators = operator_table.
Proof. vm_compute. reflexivity. Qed.

Lemma wp_scan_operator {L} {HL : TSLexer L} {HS : TSLexerSpec L} n v y (s : Scanner) :
  wp scan_operator n v y s (λ r v' y' s', y' = y ∧ s' = s
    ∧ (v_rest v', r) = (drop (walk 4 method_operators (v_rest v)).1 (v_rest v),
                        (walk 4 method_operators (v_rest v)).2)).
Proof.
  unfold scan_operator. wps.
  all: char_facts; (split; [done|]); (split; [done|]).
  all: rewrite method_operators_eq; unfold operator_table; walk_steps.
  all: cbn [fst snd]; by rewrite ?drop_S_tail, ?drop_0.
Qed.

(** ** End words that are never recognised *)

Section negative.
Context {L : Type} {HL : TSLexer L} {HW : WCType} {HS : TSLexerSpec L}.

(** No input character is negative. *)
Definition code_points (v : view) : Prop := Forall (λ c, 0 ≤ c) (text v).

Lemma code_points_advanced v v' : advanced v v' → code_points v → code_points v'.
Proof. intros (Ht&_) ?. unfold code_points. by rewrite Ht. Qed.

Lemma code_points_look v : code_points v → 0 ≤ look v.
Proof.
  unfold code_points, text, look. rewrite Forall_app. intros [_ H]. destruct H; simpl; lia.
Qed.

Lemma wp_heredoc_char_symbol H has n v y s :
  (rem v < n)%nat → (0 < rem v)%nat →
  wp (heredoc_char H has) n v y s (λ r v' y' s', advanced v v' ∧ s' = s
    ∧ match r with
      | inl locals => position_in_word locals = 0 ∧ (rem v' < rem v)%nat
      | inr r => r = true → y' ≠ TokenType_to_Z HEREDOC_BODY_END
      end).
Proof.
  intros Hn Hr. unfold heredoc_char, scan_short_interpolation.
  wps; repeat (keep; wps); split_and!; try (done || advanced_tac || rem_tac).
Qed.

Lemma wp_heredoc_negative n v y s ls h hs i c :
  (rem v < n)%nat → state_repr s (ls, h :: hs) → code_points v →
  a_word h !! i = Some c → c < 0 →
  wp scan_heredoc_content n v y s (λ r v' y' s',
    r = true → y' = TokenType_to_Z HEREDOC_BODY_END → at_eof v' = true).
Proof.
  intros Hn Hs Hcp Hi Hc. unfold scan_heredoc_content. apply wp_bind.
  eapply wp_current_heredoc; [done|]. intros H [Hw _].
  pose proof (lookup_lt_Some _ _ _ Hi) as Hlt. destruct (repr_size _ _ Hw) as [Hsz _].
  apply (wp_iter (λ locals v' _ s', advanced v v' ∧ s' = s
      ∧ 0 ≤ position_in_word locals ≤ Z.of_nat i) (λ _ v', rem v'));
    [|split_and!; simpl; (done || lia)|done].
  clear y. intros [p look has] v1 y1 s1 (Ha&->&Hp). cbn [position_in_word] in Hp.
  unfold heredoc_body, heredoc_step. cbn [position_in_word look_for_heredoc_end has_content].
  replace (p =? size (word H)) with false by lia. wps.
  - eapply wp_heredoc_end; [done|]. intros y' s' _. by wps.
  - destruct (lookup_lt_is_Some_2 (a_word h) (Z.to_nat p)) as [w Hx]; [lia|].
    eapply wp_lift; [rewrite <- (Z2Nat.id p) by lia; by eapply repr_get|].
    assert (0 < rem v1)%nat by by apply not_eof_pos.
    pose proof (code_points_look v1 (code_points_advanced _ _ Ha Hcp)).
    assert (p = Z.of_nat i → w = c) by (intros ->; rewrite Nat2Z.id in Hx; congruence).
    wps; [split; [split_and!; simpl; (done || advanced_tac || lia)|rem_tac]|].
    eapply wp_mono; [apply wp_heredoc_char_symbol; [rem_tac|done]|].
    intros [l|r] v' y' s' (Ha'&->&Hr); [|intros Ht E'; by destruct (Hr Ht)].
    destruct Hr as [-> ?]. split; [split_and!; (advanced_tac || done || lia)|done].
Qed.
End negative.

(** ** Properties of the Ruby scanner *)

(** C2: on every input, from every well-formed state, a call of the scanner
    ends without a failed assertion, an access out of bounds or an overflow of
    a nesting depth; it moves forward only, and changes the state by at most
    one step: a literal opened, nested or closed, a heredoc announced, entered
    or left. Well-formedness is preserved. *)
Theorem ruby_scan_total {L} {HL : TSLexer L} {HW : WCType} {HS : TSLexerSpec L}
    (valid_symbols : TokenType → bool) n l y s a :
  (rem (view_of l) < n)%nat → in_bounds (view_of l) a → state_repr s a → state_ok a →
  ∃ r l' y' s' a',
    tree_sitter_ruby_external_scanner_scan valid_symbols n (mkst l y s)
      = Done (r, mkst l' y' s')
    ∧ advanced (view_of l) (view_of l') ∧ state_repr s' a' ∧ state_step a a' ∧ state_ok a'.
Proof.
  intros Hn Hb Hs Hok.
  destruct (wp_run _ n l y s _ (wp_ruby_scan valid_symbols n _ y s a Hn Hb Hs Hok))
    as (r&l'&y'&s'&Hrun&Ha&a'&Hs'&Hstep).
  exists r, l', y', s', a'. split_and!; try done; [apply Hstep..|]. by eapply state_step_ok.
Qed.

Lemma create_repr : state_repr tree_sitter_ruby_external_scanner_create ([], []).
Proof. split; [apply repr_init|]. exists []. split; [apply repr_init|constructor]. Qed.

Lemma ruby_scan_total_witness :
  ∃ r l' y' s' a',
    tree_sitter_ruby_external_scanner_scan (λ _, true) 20%nat
        (mkst (input (cstr " %w(a b)")) 0 tree_sitter_ruby_external_scanner_create)
      = Done (r, mkst l' y' s')
    ∧ advanced (input (cstr " %w(a b)")) l' ∧ state_repr s' a' ∧ state_step ([], []) a'
    ∧ state_ok a'.
Proof.
  refine (ruby_scan_total (λ _, true) 20%nat (input (cstr " %w(a b)")) 0 _ ([], []) _ _ _ _).
  - vm_compute; lia.
  - split_and!; [by vm_compute|constructor|done|done].
  - exact create_repr.
  - split; constructor.
Defined.

(** A state that fits the buffer, its delimiters and depths in bytes, is
    restored as it was saved, over whatever state the scanner had. *)
Theorem ruby_serialize_roundtrip s a s0 a0 :
  state_repr s a → state_fits a → state_repr s0 a0 →
  ∃ buffer s', tree_sitter_ruby_external_scanner_serialize s = Done buffer
    ∧ (length buffer ≤ SERIALIZATION_BUFFER_SIZE)%nat
    ∧ tree_sitter_ruby_external_scanner_deserialize s0 buffer = Done s' ∧ state_repr s' a.
Proof. intros. by eapply (codec_roundtrip (HC := ruby_codec)). Qed.

Definition example_state : state :=
  ([mkLiteral 3 40 41 2 true], [AHeredoc (cstr "EOS") true true false]).

Definition example_scanner : Scanner :=
  mkScanner false (mkArray [Some (mkLiteral 3 40 41 2 true)] 1 1)
    (mkArray [Some (mkHeredoc (mkArray (Some <$> cstr "EOS") 3 3) true true false)] 1 1).

Lemma example_scanner_repr : state_repr example_scanner example_state.
Proof.
  split; [by exists []|]. exists [mkHeredoc (mkArray (Some <$> cstr "EOS") 3 3) true true false].
  split; [by exists []|]. constructor; [|constructor]. split; [by exists []|done].
Qed.

Lemma ruby_serialize_roundtrip_witness :
  ∃ buffer s', tree_sitter_ruby_external_scanner_serialize example_scanner = Done buffer
    ∧ (length buffer ≤ SERIALIZATION_BUFFER_SIZE)%nat
    ∧ tree_sitter_ruby_external_scanner_deserialize example_scanner buffer = Done s'
    ∧ state_repr s' example_state.
Proof.
  refine (ruby_serialize_roundtrip example_scanner example_state example_scanner example_state _ _ _).
  - exact example_scanner_repr.
  - split; [constructor; [unfold literal_fits; simpl; lia|constructor]|vm_compute; lia].
  - exact example_scanner_repr.
Defined.

(** A state whose bytes do not fit the buffer is saved as nothing at all,
    and restoring that gives the initial state: every open literal and heredoc
    is forgotten. *)
Theorem ruby_serialize_overflow s a s0 a0 :
  state_repr s a → (1024 ≤ length (encode_state a))%nat → Z.of_nat (length a.1) < 800000000 →
  state_repr s0 a0 →
  ∃ s', tree_sitter_ruby_external_scanner_serialize s = Done []
    ∧ tree_sitter_ruby_external_scanner_deserialize s0 [] = Done s' ∧ state_repr s' ([], []).
Proof.
  intros Hs Hl Hn H0. destruct (reset_repr s0 a0 H0) as [H1 H2].
  eexists. split_and!; [by apply (serialize_overflow s a)|done|].
  rewrite H1, H2. exact create_repr.
Qed.

Lemma ruby_serialize_overflow_witness :
  ∃ s', tree_sitter_ruby_external_scanner_serialize
      (mkScanner false (mkArray (replicate 205 (Some (mkLiteral 3 40 41 1 true))) 205 205) array_init)
      = Done []
    ∧ tree_sitter_ruby_external_scanner_deserialize example_scanner [] = Done s'
    ∧ state_repr s' ([], []).
Proof.
  refine (ruby_serialize_overflow _ (replicate 205 (mkLiteral 3 40 41 1 true), [])
            example_scanner example_state _ _ _ _).
  - split; [exists []; by vm_compute|]. exists []. split; [apply repr_init|constructor].
  - apply Nat.leb_le. by vm_compute.
  - by vm_compute.
  - exact example_scanner_repr.
Defined.

(** C28: behind a colon, the operators that name a symbol are recognised as by
    the longest walk in the table of operators: the result is whether it ends
    on an operator, and the characters read are those it walked over. *)
Theorem ruby_operators {L} {HL : TSLexer L} {HS : TSLexerSpec L} n l y (s : Scanner) :
  ∃ l', scan_operator n (mkst l y s)
      = Done ((walk 4 method_operators (v_rest (view_of l))).2, mkst l' y s)
    ∧ v_rest (view_of l') = drop (walk 4 method_operators (v_rest (view_of l))).1
                              (v_rest (view_of l)).
Proof.
  destruct (wp_run _ n l y s _ (wp_scan_operator n _ y s)) as (r&l'&y'&s'&Hrun&->&->&E).
  apply pair_equal_spec in E as [E1 E2]. exists l'. rewrite <- E2. by split.
Qed.

(** ** Deviations *)

(** A literal is saved with its nesting depth modulo 256, so at depth 256
    it comes back with depth 0. *)
Theorem ruby_depth_truncated s a s0 a0 l ls :
  state_repr s a → a = (l :: ls, []) → nesting_depth l = 256 →
  (5 * length ls < 1017)%nat → state_repr s0 a0 →
  ∃ buffer s' l' ls', tree_sitter_ruby_external_scanner_serialize s = Done buffer
    ∧ tree_sitter_ruby_external_scanner_deserialize s0 buffer = Done s'
    ∧ state_repr s' (l' :: ls', []) ∧ nesting_depth l' = 0.
Proof.
  intros Hs -> Hd Hn H0.
  assert (length (encode_state (l :: ls, [])) < 1024)%nat as Hfit
    by (rewrite length_encode_state; simpl; lia).
  destruct (deserialize_encode s0 a0 _ H0 Hfit) as (s'&Hrun&Hs').
  exists (encode_state (l :: ls, [])), s', (restored_literal l), (restored_literal <$> ls).
  split_and!; [by apply serialize_fits|done|done|]. simpl. by rewrite Hd.
Qed.

Lemma ruby_depth_truncated_witness :
  ∃ buffer s' l' ls', tree_sitter_ruby_external_scanner_serialize
      (mkScanner false (mkArray [Some (mkLiteral 3 40 41 256 true)] 1 1) array_init) = Done buffer
    ∧ tree_sitter_ruby_external_scanner_deserialize example_scanner buffer = Done s'
    ∧ state_repr s' (l' :: ls', []) ∧ nesting_depth l' = 0.
Proof.
  refine (ruby_depth_truncated _ _ example_scanner example_state (mkLiteral 3 40 41 256 true) []
            _ eq_refl eq_refl _ example_scanner_repr).
  - split; [by exists []|]. exists []. split; [apply repr_init|constructor].
  - simpl; lia.
Defined.

(** The characters of an end word are stored in a signed [char], those
    above 127 as negative numbers, which no input character equals: such a
    heredoc only ends with the input. *)
Theorem ruby_heredoc_non_ascii {L} {HL : TSLexer L} {HW : WCType} {HS : TSLexerSpec L}
    n l y s ls h hs i c :
  (rem (view_of l) < n)%nat → state_repr s (ls, h :: hs) → code_points (view_of l) →
  a_word h !! i = Some c → c < 0 →
  ∃ r l' y' s', scan_heredoc_content n (mkst l y s) = Done (r, mkst l' y' s')
    ∧ (r = true → y' = TokenType_to_Z HEREDOC_BODY_END → at_eof (view_of l') = true).
Proof.
  intros Hn Hs Hcp Hi Hc.
  destruct (wp_run _ n l y s _ (wp_heredoc_negative n _ y s ls h hs i c Hn Hs Hcp Hi Hc))
    as (r&l'&y'&s'&Hrun&H). by exists r, l', y', s'.
Qed.

Lemma ruby_heredoc_non_ascii_witness :
  ∃ r l' y' s', scan_heredoc_content 20%nat
      (mkst (input [201; LF]) 0
         (mkScanner false array_init
            (mkArray [Some (mkHeredoc (mkArray [Some (to_char 201)] 1 1) false true true)] 1 1)))
      = Done (r, mkst l' y' s')
    ∧ (r = true → y' = TokenType_to_Z HEREDOC_BODY_END → at_eof l' = true).
Proof.
  refine (ruby_heredoc_non_ascii 20%nat (input [201; LF]) 0 _ []
            (AHeredoc [to_char 201] false true true) [] 0 (to_char 201) _ _ _ _ _).
  - vm_compute; lia.
  - split; [apply repr_init|].
    exists [mkHeredoc (mkArray [Some (to_char 201)] 1 1) false true true].
    split; [by exists []|]. constructor; [|constructor]. split; [by exists []|done].
  - change (Forall (λ c, 0 ≤ c) [201; LF]).
    repeat (apply Forall_cons_2; [lia|]). apply Forall_nil_2.
  - done.
  - done.
Defined.

(** At the end of the input, [strchr] finds the terminator of its string,
    so a final dollar sign is taken for a short interpolation. *)
Theorem ruby_short_interpolation_eof (s : Scanner) :
  ∃ v, scan_short_interpolation false STRING_CONTENT 1%nat (mkst (input (cstr "$")) 0 s)
    = Done (true, mkst v (TokenType_to_Z SHORT_INTERPOLATION) s).
Proof. eexists. lazy. reflexivity. Qed.

(** [is_iden_char] is given the low byte of a character: the letter U+0120
    (low byte a space) ends a symbol, which is cut in front of it. *)
Theorem ruby_symbol_truncated (s : Scanner) rest :
  ∃ v, scan_symbol_identifier 3%nat (mkst (input ("a" :: 288 :: rest)) 0 s)
    = Done (true, mkst v 0 s) ∧ v_rest v = 288 :: rest.
Proof. eexists. split; [lazy; reflexivity|reflexivity]. Qed.
