(* ===== verification/RubyReplay.v ===== *)
(** * Replay of the Ruby scanner

    The scan sees the open literals and heredocs, and not how their arrays and
    those of the end words came about. *)

From S2P Require Import Prelude CArray CArrayProofs Codec Scan Logic Replay Session Ruby RubyState RubyProofs.

(** Two heredocs that differ at most in the array of the end word. *)
Definition same_heredoc (h1 h2 : Heredoc) : Prop :=
  end_word_indentation_allowed h1 = end_word_indentation_allowed h2
  ∧ h_allows_interpolation h1 = h_allows_interpolation h2 ∧ started h1 = started h2
  ∧ (word h1 = word h2 ∨ ∃ w, repr (word h1) w ∧ repr (word h2) w).

Definition same_scanner (s1 s2 : Scanner) : Prop :=
  has_leading_whitespace s1 = has_leading_whitespace s2
  ∧ (∃ ls, repr (literal_stack s1) ls ∧ repr (literal_stack s2) ls)
  ∧ ∃ hs1 hs2, repr (open_heredocs s1) hs1 ∧ repr (open_heredocs s2) hs2 ∧ Forall2 same_heredoc hs1 hs2.

Lemma same_heredoc_of h1 h2 a : heredoc_repr h1 a → heredoc_repr h2 a → same_heredoc h1 h2.
Proof.
  intros (Hw1&He1&Hi1&Hs1) (Hw2&He2&Hi2&Hs2). split_and!; [congruence..|]. right. by exists (a_word a).
Qed.

Lemma same_heredoc_repr h1 h2 a : same_heredoc h1 h2 → heredoc_repr h1 a → heredoc_repr h2 a.
Proof.
  intros (He&Hi&Hs&Hw) (Hw1&He1&Hi1&Hs1). split_and!; [|congruence..].
  destruct Hw as [<-|(w&H1&H2)]; [done|]. by rewrite (repr_inj _ _ _ Hw1 H1).
Qed.

Lemma same_scanner_of b s1 s2 a : state_repr s1 a → state_repr s2 a →
  same_scanner (mkScanner b (literal_stack s1) (open_heredocs s1)) (mkScanner b (literal_stack s2) (open_heredocs s2)).
Proof.
  intros (Hl1&hs1&Hh1&Ha1) (Hl2&hs2&Hh2&Ha2). split_and!; [done|by exists a.1|]. exists hs1, hs2. split_and!; [done..|].
  clear -Ha1 Ha2. revert hs2 Ha2. induction Ha1 as [|h1 x hs1 xs Hx _ IH]; intros hs2 Ha2.
  - inversion Ha2. constructor.
  - inversion Ha2; subst. constructor; [by eapply same_heredoc_of|by apply IH].
Qed.

Lemma same_scanner_repr s1 s2 a : same_scanner s1 s2 → state_repr s1 a → state_repr s2 a.
Proof.
  intros (_&(ls&Hl1&Hl2)&hs1&hs2&Hh1&Hh2&Hs) (Hl&hs&Hh&Ha). split; [by rewrite (repr_inj _ _ _ Hl Hl1)|].
  exists hs2. split; [done|]. rewrite (repr_inj _ _ _ Hh Hh1) in Ha. clear -Hs Ha. revert Ha. generalize a.2.
  induction Hs as [|h1 h2 hs1 hs2 H12 _ IH]; intros xs Ha; inversion Ha; subst; constructor; [by eapply same_heredoc_repr|auto].
Qed.

Section replay.
Context {L : Type} {HL : TSLexer L} {HW : WCType}.
Local Abbreviation sim := (sim (L := L) same_scanner).

(** ** The payload *)

Lemma sim_set_leading_whitespace b : sim eq (set_leading_whitespace b) (set_leading_whitespace b).
Proof. apply sim_get. intros s1 s2 (_&Hl&Hh). by apply sim_set. Qed.

Lemma sim_set_literals a1 a2 ls : repr a1 ls → repr a2 ls → sim eq (set_literals a1) (set_literals a2).
Proof. intros H1 H2. apply sim_get. intros s1 s2 (Hw&_&Hh). apply sim_set. split_and!; [done|by exists ls|done]. Qed.

Lemma sim_set_heredocs a1 a2 hs1 hs2 : repr a1 hs1 → repr a2 hs2 → Forall2 same_heredoc hs1 hs2 →
  sim eq (set_heredocs a1) (set_heredocs a2).
Proof.
  intros H1 H2 HF. apply sim_get. intros s1 s2 (Hw&Hl&_). apply sim_set. split_and!; [done|done|by exists hs1, hs2].
Qed.

Lemma sim_push_literal x : sim eq (push_literal x) (push_literal x).
Proof.
  apply sim_get. intros s1 s2 (_&(ls&H1&H2)&_). eapply sim_lift_bind; [by eapply push_same|].
  intros a1 a2 [? ?]. by eapply sim_set_literals.
Qed.

Lemma sim_current_literal : sim eq current_literal current_literal.
Proof.
  apply sim_get. intros s1 s2 (_&(ls&H1&H2)&_). apply sim_lift. unfold array_back.
  rewrite (size_same _ _ ls ls H1 H2) by done. by eapply get_same_eq.
Qed.

Lemma sim_assign_literal x : sim eq (assign_literal x) (assign_literal x).
Proof.
  apply sim_get. intros s1 s2 (_&(ls&H1&H2)&_). cbv zeta. rewrite (size_same _ _ ls ls H1 H2) by done.
  eapply sim_lift_bind; [by apply (store_same _ _ ls ls)|]. intros c1 c2 [R1 R2].
  rewrite (size_same _ _ ls ls H1 H2) in R1 by done. by eapply sim_set_literals.
Qed.

Lemma same_heredoc_refl h : same_heredoc h h.
Proof. split_and!; try done. by left. Qed.

Lemma sim_current_heredoc : sim same_heredoc current_heredoc current_heredoc.
Proof.
  apply sim_get. intros s1 s2 (_&_&hs1&hs2&H1&H2&HF). apply sim_lift. by eapply get_same.
Qed.

Lemma read_first {T} (a : Array T) x l : repr a (x :: l) → read (contents a) 0 = Done x.
Proof. intros Ha. destruct (repr_read a _ 0 Ha) as (y&Hy&Hr); [cbn; lia|]. cbn in Hy. by simplify_eq. Qed.

Lemma sim_start_heredoc : sim eq start_heredoc start_heredoc.
Proof.
  apply sim_get. intros s1 s2 (_&_&hs1&hs2&H1&H2&HF). cbv zeta. destruct HF as [|h1 h2 hs1 hs2 Hh HF].
  - eapply (sim_lift_bind _ (λ _ _, True)); [by destruct (read (contents (open_heredocs s1)) 0), (read (contents (open_heredocs s2)) 0)|]. intros h1 h2 _.
    eapply sim_lift_bind; [by apply (store_same _ _ [] [])|]. intros c1 c2 [R1 R2]. by eapply sim_set_heredocs.
  - rewrite (read_first _ _ _ H1), (read_first _ _ _ H2). apply (sim_lift_bind _ (λ x y, x = h1 ∧ y = h2)); [done|].
    intros ? ? [-> ->]. eapply sim_lift_bind; [by eapply store_same|]. intros c1 c2 [R1 R2].
    eapply sim_set_heredocs; [done|done|]. cbn. constructor; [|done]. destruct Hh as (?&?&?&?). by split_and!.
Qed.

Lemma sim_is_heredoc_body_start_valid vs : sim eq (is_heredoc_body_start_valid vs) (is_heredoc_body_start_valid vs).
Proof.
  apply sim_get. intros s1 s2 (_&_&hs1&hs2&H1&H2&HF). destruct (repr_size _ _ H1) as [-> _], (repr_size _ _ H2) as [-> _].
  rewrite <- (Forall2_length _ _ _ HF). destruct HF as [|h1 h2 hs1 hs2 Hh HF]; [by apply sim_ret|].
  rewrite (read_first _ _ _ H1), (read_first _ _ _ H2). destruct (_ <? _); [|by apply sim_ret].
  apply (sim_lift_bind _ same_heredoc); [done|]. intros x y (_&_&Hs&_). apply sim_ret. by rewrite Hs.
Qed.

Lemma sim_leading_whitespace : sim eq leading_whitespace leading_whitespace.
Proof. apply sim_get. intros s1 s2 (Hw&_). by apply sim_ret. Qed.
#[local] Hint Resolve sim_set_leading_whitespace sim_push_literal sim_current_literal sim_assign_literal
  sim_start_heredoc sim_is_heredoc_body_start_valid sim_leading_whitespace : sim.

(** ** Heredocs *)

Lemma heredoc_char_same h1 h2 b : same_heredoc h1 h2 → heredoc_char (L := L) h1 b = heredoc_char h2 b.
Proof. intros (He&Hi&_). unfold heredoc_char, heredoc_indentation. by rewrite He, Hi. Qed.

Lemma sim_heredoc_end b : sim eq (heredoc_end b) (heredoc_end b).
Proof.
  unfold heredoc_end. apply sim_bind_eq; [|sim_tac]. destruct b; [sim_tac|].
  apply sim_get. intros s1 s2 (_&_&hs1&hs2&H1&H2&HF).
  eapply sim_lift_bind; [apply (erase_same _ _ hs1 hs2); [done|done|by eapply Forall2_length]|].
  intros a1 a2 [R1 R2]. apply sim_bind_eq; [|sim_tac]. eapply sim_set_heredocs; [done|done|]. by destruct HF.
Qed.
#[local] Hint Resolve sim_heredoc_end : sim.

Lemma sim_heredoc_char h1 h2 b : same_heredoc h1 h2 → sim eq (heredoc_char h1 b) (heredoc_char h2 b).
Proof. intros H. rewrite (heredoc_char_same h1 h2 b H). sim_tac. Qed.

Lemma sim_heredoc_step h1 h2 ls : same_heredoc h1 h2 → sim eq (heredoc_step h1 ls) (heredoc_step h2 ls).
Proof.
  intros H. unfold heredoc_step. apply sim_bind_eq; [sim_tac|]. intros [|]; [sim_tac|].
  apply sim_bind_eq; [sim_tac|]. intros c. apply sim_bind_eq.
  - apply sim_lift. destruct H as (_&_&_&[->|(w&H1&H2)]); [by destruct (array_get _ _)|by eapply get_same_eq].
  - intros x. destruct (_ && _); [sim_tac|]. by apply sim_heredoc_char.
Qed.

Lemma sim_heredoc_body h1 h2 ls : same_heredoc h1 h2 → sim (sum_rel eq eq) (heredoc_body h1 ls) (heredoc_body h2 ls).
Proof.
  intros H. assert (size (word h1) = size (word h2)) as Hs.
  { destruct H as (_&_&_&[->|(w&H1&H2)]); [done|by eapply size_same]. }
  assert (∀ ls, sim (sum_rel eq eq) (heredoc_step h1 ls) (heredoc_step h2 ls)) as Hstep.
  { intros ls'. eapply sim_mono; [by apply sim_heredoc_step|]. intros r ? <-. apply sum_rel_refl. }
  unfold heredoc_body. rewrite Hs. destruct (_ =? _); [|done].
  do 3 (apply sim_bind_eq; [sim_tac|intros ?]). destruct (_ || _); [sim_tac|done].
Qed.

Lemma sim_scan_heredoc_content : sim eq scan_heredoc_content scan_heredoc_content.
Proof.
  unfold scan_heredoc_content. eapply sim_bind; [apply sim_current_heredoc|]. intros h1 h2 H.
  apply sim_iter_eq. intros ls. by apply sim_heredoc_body.
Qed.
#[local] Hint Resolve sim_scan_heredoc_content : sim.

Lemma sim_scan_heredoc_start : sim eq scan_heredoc_start scan_heredoc_start.
Proof.
  unfold scan_heredoc_start. do 2 (apply sim_bind_eq; [sim_tac|intros ?]). destruct (negb _); [sim_tac|].
  do 2 (apply sim_bind_eq; [sim_tac|intros ?]). cbv zeta. apply sim_bind_eq; [sim_tac|intros []].
  apply sim_bind_eq; [sim_tac|intros h]. destruct (_ =? 0); [sim_tac|].
  apply sim_get. intros s1 s2 (_&_&hs1&hs2&H1&H2&HF).
  eapply sim_lift_bind; [apply (push_same _ _ hs1 hs2); [done|done|by eapply Forall2_length]|].
  intros b1 b2 [R1 R2]. apply sim_bind_eq; [|sim_tac]. eapply sim_set_heredocs; [done|done|].
  apply Forall2_app; [done|]. constructor; [apply same_heredoc_refl|constructor].
Qed.
#[local] Hint Resolve sim_scan_heredoc_start : sim.

(** ** Literals and the scan *)

Lemma sim_literal_end x b : sim eq (literal_end x b) (literal_end x b).
Proof.
  unfold literal_end. apply sim_bind_eq; [|sim_tac]. destruct b; [sim_tac|].
  do 2 (apply sim_bind_eq; [sim_tac|intros ?]). apply sim_get. intros s1 s2 (_&(ls&H1&H2)&_).
  eapply sim_lift_bind; [by eapply pop_same|]. intros r1 r2 (_&l'&R1&R2). apply sim_bind_eq; [by eapply sim_set_literals|]. sim_tac.
Qed.
#[local] Hint Resolve sim_literal_end : sim.

Lemma sim_scan_open_delimiter vs : sim eq (scan_open_delimiter vs) (scan_open_delimiter vs).
Proof. sim_tac. apply sim_get. intros s1 s2 (Hw&_). rewrite Hw. sim_tac. Qed.
#[local] Hint Resolve sim_scan_open_delimiter : sim.

Lemma sim_scan_literal_content : sim eq scan_literal_content scan_literal_content.
Proof. sim_tac. Qed.
Lemma sim_scan_outside vs : sim eq (scan_outside vs) (scan_outside vs).
Proof. sim_tac. Qed.

Lemma ruby_scan_same vs n l y s1 s2 a : state_repr s1 a → state_repr s2 a →
  related same_scanner eq (scan vs n (mkst l y s1)) (scan vs n (mkst l y s2)).
Proof.
  intros H1 H2. pose proof (same_scanner_of false s1 s2 a H1 H2) as HR.
  assert (sim eq (scan vs) (scan vs)) as Hsim.
  { unfold scan. apply sim_bind_eq; [sim_tac|intros _]. apply sim_get. intros t1 t2 (_&(ls&Hl1&Hl2)&hs1&hs2&Hh1&Hh2&HF).
    rewrite (size_same _ _ ls ls Hl1 Hl2), (size_same _ _ hs1 hs2 Hh1 Hh2) by (done || by eapply Forall2_length).
    destruct (_ && _); [apply sim_scan_literal_content|]. destruct (_ && _); [sim_tac|apply sim_scan_outside]. }
  exact (Hsim n l y _ _ HR).
Qed.
End replay.

(** The parser expects the contents of a literal. *)
Definition in_literal (t : TokenType) : bool := match t with STRING_CONTENT | STRING_END => true | _ => false end.

(** Restoring what was saved is as good as going on: the scan from a restored
    state, on any input, gives the token of the scan from the saved one, leaves
    the lexer at the same place, and the same literals and heredocs open. *)
Theorem ruby_replay {L} {HL : TSLexer L} {HW : WCType} {HS : TSLexerSpec L}
    (valid_symbols : TokenType → bool) n l y s a s0 a0 :
  (rem (view_of l) < n)%nat → in_bounds (view_of l) a → state_repr s a → state_ok a → state_fits a → state_repr s0 a0 →
  ∃ buffer s' b l' y' s1 s2 a',
    tree_sitter_ruby_external_scanner_serialize s = Done buffer
    ∧ tree_sitter_ruby_external_scanner_deserialize s0 buffer = Done s'
    ∧ tree_sitter_ruby_external_scanner_scan valid_symbols n (mkst l y s) = Done (b, mkst l' y' s1)
    ∧ tree_sitter_ruby_external_scanner_scan valid_symbols n (mkst l y s') = Done (b, mkst l' y' s2)
    ∧ state_repr s1 a' ∧ state_repr s2 a'.
Proof.
  intros Hn Hb Hs Hok Hfit H0. apply (codec_replay (HC := ruby_codec) same_scanner _ n l y s a s0 a0); [| | |done..].
  - intros s1 s2. apply ruby_scan_same.
  - apply same_scanner_repr.
  - intros t Ht. destruct (wp_run _ n l y t _ (wp_ruby_scan valid_symbols n _ y t a Hn Hb Ht Hok)) as (r&l'&y'&s'&E&_&a'&Hs'&_).
    by exists r, l', y', s', a'.
Qed.

Lemma ruby_replay_witness :
  ∃ buffer s' b l' y' s1 s2 a',
    tree_sitter_ruby_external_scanner_serialize example_scanner = Done buffer
    ∧ tree_sitter_ruby_external_scanner_deserialize tree_sitter_ruby_external_scanner_create buffer = Done s'
    ∧ tree_sitter_ruby_external_scanner_scan in_literal 20%nat (mkst (input (cstr "a(b))")) 0 example_scanner) = Done (b, mkst l' y' s1)
    ∧ tree_sitter_ruby_external_scanner_scan in_literal 20%nat (mkst (input (cstr "a(b))")) 0 s') = Done (b, mkst l' y' s2)
    ∧ state_repr s1 a' ∧ state_repr s2 a'.
Proof.
  refine (ruby_replay in_literal 20%nat (input (cstr "a(b))")) 0 example_scanner example_state
    tree_sitter_ruby_external_scanner_create ([], []) _ _ _ _ _ _).
  - vm_compute; lia.
  - split_and!; [by vm_compute|repeat constructor; by vm_compute|done|done].
  - exact example_scanner_repr.
  - split; repeat constructor; by vm_compute.
  - split; [constructor; [unfold literal_fits; simpl; lia|constructor]|vm_compute; lia].
  - exact create_repr.
Defined.

(** ** Sessions *)

Definition open_state (s : Scanner) (a : state) : Prop := state_repr s a ∧ state_ok a.

(** No counter of nesting overflows in the input that is left. *)
Definition callable {L} `{HS : TSLexerSpec L} (valid : TokenType → bool) (n : nat) (l : L) (a : state) : Prop :=
  (rem (view_of l) < n)%nat ∧ Z.of_nat (rem (view_of l)) < 2147483392.

Lemma fits_in_bounds v a : state_fits a → Z.of_nat (rem v) < 2147483392 → in_bounds v a.
Proof.
  intros [Hl He] Hn. rewrite length_encode_state in He. pose proof (length_concat_heredocs a.2).
  split_and!; [lia| |lia|lia]. eapply Forall_impl; [exact Hl|]. intros x (_&_&_&Hd). unfold depth_bound. lia.
Qed.

#[export] Instance ruby_runtime {L} `{HS : TSLexerSpec L} {HW : WCType} :
  RuntimeScanner (L := L) tree_sitter_ruby_external_scanner_scan (saves tree_sitter_ruby_external_scanner_serialize)
    tree_sitter_ruby_external_scanner_deserialize open_state state_fits callable.
Proof.
  split.
  - intros s a1 a2 [H1 _] [H2 _]. by eapply state_repr_inj.
  - intros vs n l y s1 s2 a [H1 Hok] [H2 _] Hf [Hn Hmax]. eapply same_call.
    + by eapply ruby_scan_same.
    + intros s Hs. assert (state_repr s a) as Hr by (by destruct Hs as [->| ->]).
      destruct (wp_run _ n l y s _ (wp_ruby_scan vs n _ y s a Hn (fits_in_bounds _ _ Hf Hmax) Hr Hok)) as (r&l'&y'&t&E&_&a'&Ht&Hstep).
      exists r, l', y', t. split; [done|]. exists a'. split; [done|]. by eapply state_step_ok.
    + intros t1 t2 a' HR [Ht Hok']. split; [|done]. by eapply same_scanner_repr.
  - intros s a [Hs Hok] Hf. destruct (codec_restores (HC := ruby_codec) s a Hs Hf) as (buffer&E&Hfit&Hr).
    exists buffer, s, a. unfold saves. rewrite E. split_and!; [done..|]. intros s0 a0 [H0 _].
    destruct (Hr s0 a0 H0) as (s1&Hd1&Hs1). by exists s1.
Qed.

(** No bytes stand for no open literals and heredocs. *)
Lemma ruby_start : restores tree_sitter_ruby_external_scanner_deserialize open_state state_fits tree_sitter_ruby_external_scanner_create [].
Proof.
  exists ([], []). split_and!; [by split; [exact create_repr|split]|by split; [constructor|vm_compute; lia]|].
  intros s0 a0 [H0 _]. destruct (reset_repr s0 a0 H0) as [H1 H2].
  eexists. split; [done|]. split; [rewrite H1, H2; exact create_repr|by split].
Qed.

(** C8: restoring and saving around every call is as good as keeping the payloads: in
    every session whose recorded states fit the buffer, with any order of going back
    to recorded tokens, every call gives the same answer, the same place in the
    input and the same symbol, whatever the payload held before. *)
Theorem ruby_sessions {L} {HL : TSLexer L} {HW : WCType} {HS : TSLexerSpec L}
    (calls : list (call L (TokenType → bool))) s0 a0 :
  open_state s0 a0 →
  allowed tree_sitter_ruby_external_scanner_scan open_state state_fits callable calls [tree_sitter_ruby_external_scanner_create] →
  ∃ answers, keeping tree_sitter_ruby_external_scanner_scan calls [tree_sitter_ruby_external_scanner_create] = Done answers
    ∧ saving tree_sitter_ruby_external_scanner_scan (saves tree_sitter_ruby_external_scanner_serialize)
        tree_sitter_ruby_external_scanner_deserialize calls s0 [[]] = Done answers.
Proof. intros H0. by apply (sessions_agree (HC := ruby_runtime) _ _ _ _ a0 ruby_start). Qed.

(** A list of words is opened, its contents are scanned, and scanned again in another
    text, from the state behind its opening. *)
Definition ruby_session : list (call view (TokenType → bool)) :=
  [Call 0 (λ t, match t with STRING_START | STRING_ARRAY_START => true | _ => false end) 20 (input (cstr "%w(a(b))")) 0;
   Call 1 in_literal 20 (input (cstr "a(b))")) 0; Call 2 in_literal 20 (input (cstr ")")) 0;
   Call 1 in_literal 20 (input (cstr "c)")) 0].

Definition word_list : state := ([mkLiteral 7 40 41 1 false], []).

Lemma open_literals b a ls : repr a ls → Forall literal_ok ls → open_state (mkScanner b a array_init) (ls, []).
Proof. intros Ha Hl. split; [|by split]. split; [done|]. exists []. split; [exact repr_init|constructor]. Qed.

Lemma word_list_ok : Forall literal_ok word_list.1.
Proof. repeat constructor; by vm_compute. Qed.

Lemma word_list_fits : state_fits word_list.
Proof. split; [constructor; [unfold literal_fits; cbn; lia|constructor]|vm_compute; lia]. Qed.

(** Over the example payload, with a literal and a heredoc from another text. *)
Lemma ruby_sessions_witness :
  ∃ answers, keeping tree_sitter_ruby_external_scanner_scan ruby_session [tree_sitter_ruby_external_scanner_create] = Done answers
    ∧ saving tree_sitter_ruby_external_scanner_scan (saves tree_sitter_ruby_external_scanner_serialize)
        tree_sitter_ruby_external_scanner_deserialize ruby_session example_scanner [[]] = Done answers.
Proof.
  refine (ruby_sessions ruby_session example_scanner example_state _ _).
  { split; [exact example_scanner_repr|by repeat constructor]. }
  session_step (([], []) : state); [by split; [exact create_repr|split]|by split; [vm_compute; lia|]|intros _|].
  2: session_step word_list; [|by split; [vm_compute; lia|]|intros _|].
  4: session_step word_list; [|by split; [vm_compute; lia|]|intros _|].
  6: session_step word_list; [|by split; [vm_compute; lia|]|intros _|done].
  all: first [apply open_literals; [by eexists|exact word_list_ok]|idtac].
  3: { exists ([], []). split; [apply open_literals; [by eexists|constructor]|]. split; [constructor|vm_compute; lia]. }
  all: exists word_list; split; [apply open_literals; [by eexists|exact word_list_ok]|exact word_list_fits].
Defined.
