(* ===== verification/RubyHeredoc.v ===== *)
(** * The body of a Ruby heredoc

    [body_end]: a reference on the lines of the text, for a heredoc without
    interpolations in its body. The call of the scanner behind the announcing line
    gives the whole of this body as one token, and the next call the end word. *)

From S2P Require Import Prelude CArray CArrayProofs Scan Logic Session Ruby RubyState RubyProofs.

(** ** The reference *)

Definition blank (c : Z) : bool := (c =? " ") || (c =? TAB).
Definition eol (c : Z) : bool := (c =? LF) || (c =? CR).

Definition line_of (rest : list Z) : list Z := take (span (λ c, negb (eol c)) rest) rest.
Definition after_line (rest : list Z) : list Z := drop (span (λ c, negb (eol c)) rest) rest.
Definition after_blanks (l : list Z) : list Z := drop (span blank l) l.

(** The length of the line ending at the head of a text: LF, CR, or CR LF. *)
Definition eol_length (rest : list Z) : nat :=
  match rest with c :: d :: _ => if (c =? CR) && (d =? LF) then 2 else 1 | _ => 1 end.

Fixpoint strip (w l : list Z) : option (list Z) :=
  match w, l with
  | [], _ => Some l
  | c :: w, d :: l => if d =? c then strip w l else None
  | _ :: _, [] => None
  end.

Section reference.
(** The end word, and whether white space may stand in front of it ([<<-], [<<~]). *)
Context (w : list Z) (indented : bool).

(** A line that is the end word, with white space behind it. The scanner takes a line
    of several end words for one as well. *)
Fixpoint end_words (n : nat) (line : list Z) : bool :=
  match n, strip w line with
  | S n, Some r => match after_blanks r with [] => true | r => end_words n r end
  | _, _ => false
  end.

Definition end_line (line : list Z) : bool :=
  ((span blank line =? 0)%nat || indented) && end_words (length line) (after_blanks line).

(** How much of a text that starts with a line is in the body: the lines in front of
    the first that ends it, and its white space, or all. *)
Fixpoint body_end_fuel (n : nat) (rest : list Z) : nat :=
  match n, after_line rest with
  | S n, (_ :: _) as more =>
      if end_line (line_of rest) then span blank rest
      else length (line_of rest) + eol_length more + body_end_fuel n (drop (eol_length more) more)
  | _, _ => length (line_of rest)
  end%nat.

Definition body_end (rest : list Z) : nat := body_end_fuel (length rest) rest.
End reference.

(** ** Laws of the reference *)

Lemma line_cons c r : eol c = false → line_of (c :: r) = c :: line_of r.
Proof. intros E. unfold line_of. cbn [span]. by rewrite E. Qed.
Lemma after_cons c r : eol c = false → after_line (c :: r) = after_line r.
Proof. intros E. unfold after_line. cbn [span]. by rewrite E. Qed.
Lemma line_eol c r : eol c = true → line_of (c :: r) = [].
Proof. intros E. unfold line_of. cbn [span]. by rewrite E. Qed.
Lemma after_eol c r : eol c = true → after_line (c :: r) = c :: r.
Proof. intros E. unfold after_line. cbn [span]. by rewrite E. Qed.

Lemma after_line_hd rest c r : after_line rest = c :: r → eol c = true.
Proof.
  induction rest as [|d rest IH]; [done|]. destruct (eol d) eqn:E.
  - rewrite after_eol by done. by intros [= -> ->].
  - by rewrite after_cons.
Qed.

Lemma length_after rest : length rest = (length (line_of rest) + length (after_line rest))%nat.
Proof. unfold line_of, after_line. rewrite length_take, length_drop. lia. Qed.

Lemma blank_not_eol c : blank c = true → eol c = false.
Proof. unfold blank, eol. intros H. repeat (apply orb_true_iff in H as [H|H]); apply Z.eqb_eq in H as ->; done. Qed.

(** White space at the head of a text is in its first line. *)
Lemma line_blanks rest : span blank (line_of rest) = span blank rest ∧ after_blanks (line_of rest) = line_of (after_blanks rest)
  ∧ after_line (after_blanks rest) = after_line rest ∧ length (line_of rest) = (span blank rest + length (line_of (after_blanks rest)))%nat.
Proof.
  unfold after_blanks. induction rest as [|c rest (I1&I2&I3&I4)]; [done|]. destruct (blank c) eqn:E.
  - pose proof (blank_not_eol c E) as He. rewrite line_cons, after_cons by done. cbn [span drop length].
    rewrite E. cbn [drop]. rewrite I1, I2, I3 in *. split_and!; [done..|lia].
  - cbn [span]. rewrite E. cbn [drop]. destruct (eol c) eqn:He; [by rewrite line_eol|].
    rewrite line_cons by done. cbn [span]. by rewrite E.
Qed.

Lemma strip_length w l r : strip w l = Some r → length l = (length w + length r)%nat.
Proof.
  revert l. induction w as [|c w IH]; intros [|d l]; cbn; try done; try (by intros [= <-]).
  destruct (d =? c); [|done]. intros H. by rewrite (IH l H).
Qed.

Lemma length_after_blanks l : (length (after_blanks l) ≤ length l)%nat.
Proof. unfold after_blanks. rewrite length_drop. lia. Qed.

Section laws.
Context (w : list Z) (indented : bool) (Hw : w ≠ []).

Lemma end_words_fuel n m line : (length line ≤ n)%nat → (length line ≤ m)%nat → end_words w n line = end_words w m line.
Proof.
  assert (∀ k, end_words w k [] = false) as Hnil by (intros [|k]; cbn; destruct w; done).
  revert m line. induction n as [|n IH]; intros [|m] line Hn Hm; [done| | |].
  1,2: destruct line; [by rewrite !Hnil|cbn in *; lia].
  cbn [end_words]. destruct (strip w line) as [r|] eqn:E; [|done]. apply strip_length in E.
  pose proof (length_after_blanks r). assert (0 < length w)%nat by (destruct w; [done|cbn; lia]).
  destruct (after_blanks r) eqn:Er; [done|]. rewrite <- Er. apply IH; rewrite Er; cbn in *; lia.
Qed.

(** The rest of an end word at the head of a line, and what else ends it. *)
Definition ends (w' line : list Z) : bool :=
  match strip w' line with
  | Some r => match after_blanks r with [] => true | r => end_words w (length r) r end
  | None => false
  end.

Lemma ends_word line : end_words w (length line) line = ends w line.
Proof.
  rewrite (end_words_fuel _ (S (length line))) by lia. unfold ends. cbn [end_words].
  destruct (strip w line) as [r|] eqn:E; [|done]. apply strip_length in E. pose proof (length_after_blanks r).
  destruct (after_blanks r) eqn:Er; [done|]. rewrite <- Er. apply end_words_fuel; rewrite Er in *; cbn in *; lia.
Qed.

Lemma body_end_eq rest : body_end w indented rest =
  match after_line rest with
  | [] => length (line_of rest)
  | more => if end_line w indented (line_of rest) then span blank rest
            else length (line_of rest) + eol_length more + body_end w indented (drop (eol_length more) more)
  end%nat.
Proof.
  assert (∀ n m rest, (length rest ≤ n)%nat → (length rest ≤ m)%nat → body_end_fuel w indented n rest = body_end_fuel w indented m rest) as Hf.
  { clear. induction n as [|n IH]; intros [|m] rest Hn Hm; [done| | |].
    1,2: by destruct rest; [|cbn in *; lia].
    cbn [body_end_fuel]. pose proof (length_after rest) as Hl. destruct (after_line rest) as [|c more] eqn:E; [done|].
    destruct (end_line _ _ _); [done|]. f_equal. assert (1 ≤ eol_length (c :: more))%nat by (destruct more; cbn; [lia|case_match; lia]).
    apply IH; rewrite length_drop; cbn [length] in *; lia. }
  unfold body_end. destruct rest as [|c0 rest0]; [done|]. set (rest := c0 :: rest0).
  assert (length rest = S (length rest0)) as Hr by done. pose proof (length_after rest) as Hl. rewrite Hr at 1. cbn [body_end_fuel].
  destruct (after_line rest) as [|c more] eqn:E; [done|]. destruct (end_line _ _ _); [done|]. f_equal.
  assert (1 ≤ eol_length (c :: more))%nat by (destruct more; cbn; [lia|case_match; lia]).
  apply Hf; rewrite length_drop; cbn [length] in *; lia.
Qed.

(** Where the body ends, seen from inside of a line: at [e], which is marked, if the
    rest [w'] of the end word is found, and where the lines behind say otherwise. *)
Definition goal (pos e : nat) (w' : list Z) (look : bool) (rest : list Z) : nat :=
  match after_line rest with
  | [] => pos + length (line_of rest)
  | more => if look && ends w' (line_of rest) then e
            else pos + (length (line_of rest) + eol_length more + body_end w indented (drop (eol_length more) more))
  end%nat.

Lemma goal_nil pos e w' look : goal pos e w' look [] = pos.
Proof. unfold goal. cbn. lia. Qed.

(** A character of the end word. *)
Lemma goal_match pos e c w' r : eol c = false → goal pos e (c :: w') true (c :: r) = goal (S pos) e w' true r.
Proof.
  intros Hc. unfold goal. rewrite line_cons, after_cons by done. unfold ends at 1. cbn [strip]. rewrite Z.eqb_refl.
  fold (ends w' (line_of r)). cbn [length andb]. destruct (after_line r); [lia|]. destruct (ends _ _); lia.
Qed.

(** Another character. *)
Lemma goal_other pos e e' w' w2 look c r : eol c = false → (look = true → ∃ d w3, w' = d :: w3 ∧ c ≠ d) →
  goal pos e w' look (c :: r) = goal (S pos) e' w2 false r.
Proof.
  intros Hc Hl. unfold goal. rewrite line_cons, after_cons by done. cbn [length andb].
  destruct (after_line r); [lia|]. destruct look; [|cbn [andb]; lia]. destruct (Hl eq_refl) as (d&w3&->&Hd).
  unfold ends. cbn [strip]. replace (c =? d) with false by (symmetry; by apply Z.eqb_neq). cbn [andb]. lia.
Qed.

(** A line ending, before the whole end word. *)
Lemma goal_eol pos e w' look c r : eol c = true → (look = true → w' ≠ []) →
  goal pos e w' look (c :: r) = (pos + (eol_length (c :: r) + body_end w indented (drop (eol_length (c :: r)) (c :: r))))%nat.
Proof.
  intros Hc Hl. unfold goal. rewrite line_eol, after_eol by done. cbn [length].
  replace (look && ends w' []) with false; [lia|]. destruct look; [|done]. by destruct w'; [destruct (Hl eq_refl)|].
Qed.

(** The beginning of a line, behind its white space. *)
Lemma goal_line pos rest : let k := span blank rest in
  (pos + body_end w indented rest)%nat = goal (pos + k) (pos + k) w ((k =? 0)%nat || indented) (after_blanks rest).
Proof.
  cbv zeta. destruct (line_blanks rest) as (H1&H2&H3&H4). rewrite body_end_eq by done. unfold goal. rewrite H3.
  destruct (after_line rest) as [|c more]; [lia|]. unfold end_line. rewrite H1, H2, (end_words_fuel _ (length (line_of (after_blanks rest)))) by lia.
  rewrite ends_word by done. destruct (_ && _); lia.
Qed.

(** Behind the whole end word and white space: the line ends, or goes on. *)
Lemma goal_word pos e c rest r : after_blanks rest = c :: r →
  goal pos e [] true rest = if eol c then e else goal (pos + span blank rest) e w true (c :: r).
Proof.
  intros E. destruct (line_blanks rest) as (H1&H2&H3&H4). rewrite E in *. unfold goal. rewrite <- H3.
  unfold ends at 1. cbn [strip]. rewrite H2. destruct (eol c) eqn:Hc.
  - by rewrite line_eol, after_eol by done.
  - rewrite line_cons, after_cons in * by done. rewrite ends_word by done. cbn [length] in *.
    destruct (after_line r); [lia|]. cbn [andb]. destruct (ends _ _); lia.
Qed.

Lemma goal_word_eof pos e rest : after_blanks rest = [] → goal pos e [] true rest = (pos + span blank rest)%nat.
Proof.
  intros E. destruct (line_blanks rest) as (H1&H2&H3&H4). rewrite E in *. unfold goal. rewrite <- H3. cbn in *. lia.
Qed.
End laws.

(** ** The content *)

(** Without interpolation in it. *)
Definition plain (interpolation : bool) (rest : list Z) : Prop :=
  interpolation = true → Forall (λ c, c ≠ "#" ∧ c ≠ BACKSLASH) rest.

Section content.
Context {L : Type} {HL : TSLexer L} {HW : WCType} {HS : TSLexerSpec L}.
Local Abbreviation P := (post (S := Scanner)).

Lemma wp_heredoc_indentation H n v y s (Q : P bool) : (rem v < n)%nat →
  Q ((span blank (v_rest v) =? 0)%nat || end_word_indentation_allowed H) (adv_span blank false v) y s →
  wp (heredoc_indentation H) n v y s Q.
Proof.
  intros Hn HQ. unfold heredoc_indentation.
  apply (wp_iter (λ lk v' y' s', adv_span blank false v' = adv_span blank false v ∧ y' = y ∧ s' = s
    ∧ lk && ((span blank (v_rest v') =? 0)%nat || end_word_indentation_allowed H)
      = (span blank (v_rest v) =? 0)%nat || end_word_indentation_allowed H) (λ _ v', rem v')); [|done|done].
  intros lk v1 y1 s1 (Hv&->&->&Hlook). wps.
  - assert (blank (look v1) = true) as Hb by done. assert (0 < rem v1)%nat as Hr by (apply look_pos; intros E0; rewrite E0 in Hb; done).
    split; [|rem_tac]. split_and!; [by rewrite <- adv_span_true by (done || lia)|done..|]. rewrite rest_adv.
    rewrite rest_cons in Hlook by done. cbn [span] in Hlook. rewrite Hb in Hlook. cbn [Nat.eqb orb] in Hlook. rewrite <- Hlook.
    destruct lk, (end_word_indentation_allowed H); by rewrite ?orb_true_r, ?andb_true_r, ?andb_false_r.
  - rewrite <- Hv, (adv_span_false blank false v1) in * by done.
    assert (span blank (v_rest v1) = 0%nat) as H0.
    { destruct (v_rest v1) as [|c r] eqn:Er; [done|]. unfold look in E. rewrite Er in E. cbn [hd span] in *. fold (blank c) in E. by rewrite E. }
    rewrite H0 in Hlook. cbn [Nat.eqb orb] in Hlook. rewrite andb_true_r in Hlook. by rewrite Hlook.
Qed.

(** Reading on in the token that begins at [v0]. *)
Definition same_token (v0 v : view) : Prop := text v = text v0 ∧ v_start v = v_start v0.

Lemma same_token_adv v0 v : same_token v0 v → same_token v0 (adv false v).
Proof. intros [Ht Hs]. split; [rewrite <- Ht; apply advanced_adv|]. by destruct v as [p [|c r] b e]. Qed.
Lemma same_token_mark v0 v : same_token v0 v → same_token v0 (mark v).
Proof. done. Qed.
Lemma same_token_span p v0 v : same_token v0 v → same_token v0 (adv_span p false v).
Proof. intros [Ht Hs]. split; [rewrite <- Ht; apply advanced_adv_n|by rewrite <- Hs; apply v_start_adv_n]. Qed.
#[local] Hint Resolve same_token_adv same_token_mark same_token_span : core.

Lemma plain_tail b c r : plain b (c :: r) → plain b r.
Proof. intros H Hb. specialize (H Hb). by inversion H. Qed.
Lemma plain_drop b k l : plain b l → plain b (drop k l).
Proof. intros H Hb. by apply Forall_drop, H. Qed.

Section body.
Context (H : Heredoc) (h : heredoc) (Hh : heredoc_repr H h) (Hw : a_word h ≠ []) (Hln : Forall (λ c, eol c = false) (a_word h)).
Context (v0 : view) (goal_end : nat).
Local Abbreviation w := (a_word h).
Local Abbreviation goal := (goal w (a_indent h)).

(** A round of the loop goes on to the end [goal_end] of the body. *)
Definition inside (locals : heredoc_locals) (v : view) : Prop :=
  same_token v0 v ∧ plain (a_interpolation h) (v_rest v) ∧
  ∃ p e, position_in_word locals = Z.of_nat p ∧ (p ≤ length w)%nat ∧ (look_for_heredoc_end locals = false → p = 0%nat)
    ∧ (if has_content locals then v_end v = Some e else p = 0%nat ∧ ∃ c r, v_rest v = c :: r ∧ eol c = true)
    ∧ goal (v_pos v) e (drop p w) (look_for_heredoc_end locals) (v_rest v) = goal_end.

(** Behind a line ending. *)
Lemma wp_line_start n v y s : (rem v < n)%nat → same_token v0 v → plain (a_interpolation h) (v_rest v) →
  (v_pos v + body_end w (a_indent h) (v_rest v))%nat = goal_end →
  wp (b <- heredoc_indentation H;; mark_end;; ret (inl (mkLocals 0 b true))) n v y s
    (λ (r : heredoc_locals + bool) v' y' s', s' = s ∧ match r with inl locals => inside locals v' ∧ (rem v' ≤ rem v)%nat | inr _ => False end).
Proof.
  intros Hn Hv Hp Hg. apply wp_bind, wp_heredoc_indentation; [done|]. destruct Hh as (_&->&_). wps. split; [done|].
  split; [|apply rem_adv_span_le]. split; [auto|]. rewrite rest_mark, rest_adv_span. split; [by apply plain_drop|].
  exists 0%nat, (v_pos (adv_span blank false v)). cbn [position_in_word look_for_heredoc_end has_content drop].
  split_and!; [done|lia|done|done|]. change (v_pos (mark ?x)) with (v_pos x).
  by rewrite <- Hg, (goal_line _ _ Hw), v_pos_adv_span.
Qed.

Lemma wp_heredoc_char_inside has lk p e n v y s :
  (rem v < n)%nat → (0 < rem v)%nat → same_token v0 v → plain (a_interpolation h) (v_rest v) →
  (has = true ∨ eol (look v) = true) →
  (lk = true → ∃ d w3, drop p w = d :: w3 ∧ look v ≠ d) → goal (v_pos v) e (drop p w) lk (v_rest v) = goal_end →
  wp (heredoc_char H has) n v y s (λ r v' y' s', s' = s ∧ match r with inl locals => inside locals v' ∧ (rem v' < rem v)%nat | inr _ => False end).
Proof.
  intros Hn Hr Hv Hp Hhas Hlk Hg. destruct Hh as (_&Hi&Hint&_). rewrite rest_cons in Hp, Hg by done.
  assert (h_allows_interpolation H && (look v =? BACKSLASH) = false) as E1.
  { rewrite Hint. destruct (a_interpolation h) eqn:E; [|done]. specialize (Hp eq_refl). inversion Hp as [|? ? [? ?]]. cbn. by apply Z.eqb_neq. }
  assert (h_allows_interpolation H && (look v =? "#") = false) as E2.
  { rewrite Hint. destruct (a_interpolation h) eqn:E; [|done]. specialize (Hp eq_refl). inversion Hp as [|? ? [? ?]]. cbn. by apply Z.eqb_neq. }
  unfold heredoc_char. apply wp_bind, wp_lookahead. rewrite E1, E2.
  rewrite (orb_comm (look v =? CR)). fold (eol (look v)). destruct (eol (look v)) eqn:El.
  - rewrite goal_eol in Hg by first [done|intros Hl; by destruct (Hlk Hl) as (d&w3&->&_)].
    assert (∀ v1, (rem v1 < rem v)%nat → same_token v0 v1 → v_pos v1 = (v_pos v + eol_length (look v :: tail (v_rest v)))%nat →
      v_rest v1 = drop (eol_length (look v :: tail (v_rest v))) (look v :: tail (v_rest v)) →
      wp (b <- heredoc_indentation H;; mark_end;; ret (inl (mkLocals 0 b true))) n v1 y s
        (λ (r : heredoc_locals + bool) v' y' s', s' = s ∧ match r with inl locals => inside locals v' ∧ (rem v' < rem v)%nat | inr _ => False end)) as Hstart.
    { intros v1 Hr1 Hv1 Hpos Hrest. eapply wp_mono; [apply wp_line_start; [lia|done| |]|].
      - rewrite Hrest. by apply plain_drop.
      - rewrite Hrest, Hpos. lia.
      - intros [l|] v' y' s' (->&Hi'); [|done]. split; [done|]. destruct Hi'. split; [done|lia]. }
    assert (eol_length (look v :: tail (v_rest v)) = (if (look v =? CR) && (look (adv false v) =? LF) then 2%nat else 1%nat)) as Hlen
      by (rewrite look_adv; by destruct (tail (v_rest v)) as [|d r]; [rewrite andb_false_r|]).
    apply wp_bind.
    destruct (look v =? CR) eqn:E; [|apply wp_advance; apply Hstart; [rem_tac|auto|..]].
    { apply wp_bind, wp_advance, wp_bind, wp_lookahead. unfold when.
      destruct (look (adv false v) =? LF) eqn:E0; [apply wp_advance|apply wp_ret]; apply Hstart; [rem_tac|auto| | |rem_tac|auto|..].
      all: rewrite Hlen; cbn [andb drop]; rewrite ?rest_adv; try done.
      - rewrite !v_pos_adv; [lia|done|]. apply (look_eqb_pos _ LF); done.
      - rewrite v_pos_adv by done. lia. }
    all: rewrite Hlen; cbn [andb drop]; rewrite ?rest_adv; try done. rewrite v_pos_adv by done. lia.
  - destruct Hhas as [->|?]; [|done]. wps. split; [done|]. split; [|rem_tac]. split; [auto|].
    rewrite rest_mark, rest_adv. split; [by eapply plain_tail|].
    exists 0%nat, (v_pos (adv false v)). cbn [position_in_word look_for_heredoc_end has_content]. split_and!; [done|lia|done|done|].
    change (v_pos (mark ?x)) with (v_pos x). rewrite v_pos_adv by done. rewrite <- Hg. symmetry. by apply goal_other.
Qed.

Definition content_post (s : Scanner) (v' : view) (y' : Z) (s' : Scanner) : Prop :=
  y' = TokenType_to_Z HEREDOC_CONTENT ∧ s' = s ∧ same_token v0 v' ∧ token_end v' = goal_end.

Definition round_post (v : view) (s : Scanner) (r : heredoc_locals + bool) (v' : view) (y' : Z) (s' : Scanner) : Prop :=
  match r with
  | inl locals => s' = s ∧ inside locals v' ∧ (rem v' < rem v)%nat
  | inr b => b = true ∧ content_post s v' y' s'
  end.

Lemma wp_heredoc_step_inside locals n v y s : (rem v < n)%nat → inside locals v → position_in_word locals < Z.of_nat (length w) →
  wp (heredoc_step H locals) n v y s (round_post v s).
Proof.
  intros Hn (Hv&Hp&p&e&Ep&Hle&Hlk&Hhas&Hg) Hlt. rewrite Ep in Hlt. unfold heredoc_step, heredoc_end. apply wp_bind, wp_eof.
  destruct (at_eof v) eqn:Ee.
  - destruct (has_content locals) eqn:Eh; [|destruct Hhas as (_&c&r&Hr&_); unfold at_eof in Ee; by rewrite Hr in Ee].
    wps. split; [done|]. split_and!; [done|done|auto|]. rewrite at_eof_rem in Ee. unfold rem in Ee.
    rewrite (nil_length_inv _ Ee), goal_nil in Hg. exact Hg.
  - apply not_eof_pos in Ee. apply wp_bind, wp_lookahead, wp_bind. pose proof Hh as (Hword&_).
    destruct (lookup_lt_is_Some_2 w p) as [d Hd]; [lia|]. eapply wp_lift; [rewrite Ep; by eapply repr_get|].
    pose proof (drop_S _ _ _ Hd) as Hdrop. pose proof (Forall_lookup_1 _ _ _ _ Hln Hd) as Hdl. cbv beta in Hdl.
    destruct ((look v =? d) && look_for_heredoc_end locals) eqn:E.
    + apply andb_true_iff in E as [Ed El]. apply Z.eqb_eq in Ed.
      destruct (has_content locals) eqn:Eh; [|destruct Hhas as (_&c&r&Hr&Hc); unfold look in Ed; rewrite Hr in Ed; cbn in Ed; congruence].
      wps. split; [done|]. split; [|rem_tac]. split; [auto|]. rewrite rest_cons in Hp, Hg by done. rewrite rest_adv.
      split; [by eapply plain_tail|]. exists (S p), e. cbn [position_in_word look_for_heredoc_end has_content].
      rewrite ?Eh, ?El, Ep, v_end_adv, v_pos_adv by done. split_and!; [lia|lia|done|done|].
      rewrite El, Hdrop, <- Ed, goal_match in Hg by (by rewrite Ed). exact Hg.
    + eapply wp_mono; [apply (wp_heredoc_char_inside _ (look_for_heredoc_end locals) p e); try done|].
      * destruct (has_content locals); [by left|right]. destruct Hhas as (_&c&r&Hr&Hc). unfold look. by rewrite Hr.
      * intros El. rewrite El, andb_true_r in E. apply Z.eqb_neq in E. rewrite Hdrop. eauto.
      * intros [l|] v' y' s' [-> Hi]; [|done]. by split.
Qed.

Lemma wp_heredoc_body_inside locals n v y s : (rem v < n)%nat → inside locals v →
  wp (heredoc_body H locals) n v y s (round_post v s).
Proof.
  intros Hn Hi. pose proof Hi as (Hv&Hp&p&e&Ep&Hle&Hlk&Hhas&Hg). pose proof Hh as (Hword&_).
  unfold heredoc_body, heredoc_end. rewrite (proj1 (repr_size _ _ Hword)), Ep.
  destruct (Z.of_nat p =? Z.of_nat (length w)) eqn:E; [|by apply wp_heredoc_step_inside; [..|lia]].
  assert (p = length w) as -> by lia. assert (length w ≠ 0%nat) by (by destruct w).
  destruct (look_for_heredoc_end locals) eqn:El; [|by specialize (Hlk eq_refl)].
  destruct (has_content locals) eqn:Eh; [|by destruct Hhas]. rewrite drop_all in Hg. cbn [negb].
  apply wp_bind. unfold when. apply wp_ret, wp_bind, (wp_while_look blank); [done|done|]. apply wp_bind, wp_lookahead.
  set (v1 := adv_span blank false v). assert (v_rest v1 = after_blanks (v_rest v)) as Hr1 by apply rest_adv_span.
  assert (v_pos v1 = v_pos v + span blank (v_rest v))%nat as Hp1 by apply v_pos_adv_span.
  fold (eol (look v1)). destruct (eol (look v1)) eqn:E1.
  - wps. split; [done|]. split_and!; [done|done|by apply same_token_span|]. unfold token_end, v1. rewrite v_end_adv_span, Hhas. cbn [default].
    assert (0 < rem v1)%nat as Hr by (apply look_pos; intros E0; rewrite E0 in E1; done).
    rewrite (goal_word _ _ Hw _ _ (look v1) _ (tail (v_rest v1))), E1 in Hg by (by rewrite <- Hr1, <- rest_cons). done.
  - assert (rem v1 ≤ rem v)%nat by apply rem_adv_span_le.
    eapply wp_mono; [apply wp_heredoc_step_inside; [lia| |cbn; lia]|].
    + split; [by apply same_token_span|]. rewrite Hr1 at 1. split; [by apply plain_drop|].
      exists 0%nat, e. cbn [position_in_word look_for_heredoc_end has_content]. unfold v1 at 1. rewrite v_end_adv_span.
      split_and!; [done|lia|done|done|]. rewrite <- Hg, Hp1. destruct (v_rest v1) as [|c r] eqn:Er.
      * by rewrite goal_word_eof, goal_nil by (by rewrite <- Hr1).
      * rewrite (goal_word _ _ Hw _ _ c _ r) by (by rewrite <- Hr1). unfold look in E1. rewrite Er in E1. cbn in E1. by rewrite E1.
    + intros [l|b] v' y' s'; [|done]. intros (->&Hi'&Hl). split_and!; [done|done|lia].
Qed.
End body.

Lemma wp_content h v0 E n v y s ls hs : a_word h ≠ [] → Forall (λ c, eol c = false) (a_word h) →
  (rem v < n)%nat → state_repr s (ls, h :: hs) → inside h v0 E (mkLocals 0 true false) v →
  wp scan_heredoc_content n v y s (λ r v' y' s', r = true ∧ content_post v0 E s v' y' s').
Proof.
  intros Hw Hln Hn Hs Hi. unfold scan_heredoc_content. apply wp_bind. eapply wp_current_heredoc; [done|]. intros H Hh.
  apply (wp_iter (λ locals v1 _ s1, s1 = s ∧ inside h v0 E locals v1 ∧ (rem v1 ≤ rem v)%nat) (λ _ v1, rem v1)); [|done|done].
  intros locals v1 y1 s1 (->&Hi1&Hr1). eapply wp_mono; [apply (wp_heredoc_body_inside H h Hh Hw Hln v0 E); [lia|done]|].
  intros [l|b] v2 y2 s2; [|done]. intros (->&Hi2&Hr2). split_and!; (done || lia).
Qed.
(** ** The end word *)

(** The text is the end word [t] with white space and the end of the line behind it;
    or all of the input is read. *)
Inductive closing (w : list Z) : list Z → list Z → Prop :=
  | closing_line bl c r : Forall (λ c, blank c = true) bl → eol c = true → closing w (w ++ bl ++ c :: r) w
  | closing_eof : closing w [] [].

Lemma wp_close h has n v y s ls hs (Q : P bool) : state_repr s (ls, h :: hs) → has = false →
  (∀ s', state_repr s' (ls, hs) → Q true v (TokenType_to_Z HEREDOC_BODY_END) s') → wp (L := L) (heredoc_end has) n v y s Q.
Proof.
  intros Hs -> HQ. unfold heredoc_end, set_heredocs. wps. destruct (heredocs_cons _ _ _ _ Hs) as (H&Hr&Hrep&Hh&Hf).
  destruct (repr_erase _ _ 0 Hrep) as (a&Ha&Har); [simpl; lia|].
  eapply wp_lift; [exact Ha|]. wps. apply HQ. split; [apply Hs|]. by exists Hr.
Qed.

Lemma token_text_span p k v : v_start v = v_pos v → (k ≤ rem v)%nat →
  token_text (adv_span p false (mark (adv_n false k v))) = take k (v_rest v).
Proof.
  intros Hs Hk. apply token_text_split.
  - unfold adv_span. rewrite v_start_adv_n. cbn [mark v_start]. by rewrite v_start_adv_n.
  - unfold token_end. rewrite v_end_adv_span. cbn [mark v_end default]. by apply v_pos_adv_n.
  - transitivity (text (mark (adv_n false k v))); [apply advanced_adv_n|]. change (text (mark ?w)) with (text w). apply advanced_adv_n.
Qed.

(** What the last call of a heredoc leaves. *)
Definition closed (ls : list Literal) (hs : list heredoc) (t : list Z) : P bool :=
  λ r v' y' s', r = true ∧ y' = TokenType_to_Z HEREDOC_BODY_END ∧ token_text v' = t ∧ state_repr s' (ls, hs).

Lemma wp_word_round H h n v y s ls hs bl c r p :
  (rem v < n)%nat → state_repr s (ls, h :: hs) → heredoc_repr H h → Forall (λ c, eol c = false) (a_word h) → at_start v →
  v_rest v = a_word h ++ bl ++ c :: r → Forall (λ c, blank c = true) bl → eol c = true → (p ≤ length (a_word h))%nat →
  wp (heredoc_body H (mkLocals (Z.of_nat p) true false)) n (adv_n false p v) y s (λ r v' y' s',
    match r with
    | inl locals => s' = s ∧ locals = mkLocals (Z.of_nat (S p)) true false ∧ v' = adv_n false (S p) v ∧ (S p ≤ length (a_word h))%nat
    | inr b => closed ls hs (a_word h) b v' y' s'
    end).
Proof.
  intros Hn Hs Hh Hln [Hv0 He0] Hrest Hbl Heol Hp. pose proof (proj1 Hh) as Hword. set (w := a_word h) in *.
  assert (length w < rem v)%nat as Hrem by (unfold rem; rewrite Hrest, !length_app; cbn; lia).
  unfold heredoc_body. cbn [position_in_word look_for_heredoc_end has_content negb]. rewrite (proj1 (repr_size _ _ Hword)).
  destruct (Z.of_nat p =? Z.of_nat (length w)) eqn:E.
  - assert (p = length w) as -> by lia. apply wp_bind. unfold when. apply wp_mark_end, wp_bind, (wp_while_look blank); [done|pose proof (advanced_rem _ _ (advanced_adv_n false (length w) v)); rewrite rem_mark; lia|].
    assert (look (adv_span blank false (mark (adv_n false (length w) v))) = c) as Hlook.
    { unfold look. rewrite rest_adv_span, rest_mark, rest_adv_n, Hrest, drop_app_length, span_app by done.
      cbn [span]. assert (blank c = false) as -> by (destruct (blank c) eqn:Eb; [|done]; apply blank_not_eol in Eb; congruence).
      by rewrite Nat.add_0_r, drop_app_length. }
    apply wp_bind, wp_lookahead. rewrite Hlook. fold (eol c). rewrite Heol. apply wp_bind. eapply wp_close; [done..|].
    intros s' Hs'. apply wp_ret. split_and!; [done|done| |done]. rewrite token_text_span by (done || lia). by rewrite Hrest, take_app_length.
  - assert (p < length w)%nat as Hlt by lia. unfold heredoc_step. cbn [position_in_word look_for_heredoc_end has_content].
    destruct (lookup_lt_is_Some_2 w p Hlt) as [d Hd]. pose proof (Forall_lookup_1 _ _ _ _ Hln Hd) as Hdl. cbv beta in Hdl.
    assert (v_rest (adv_n false p v) = d :: drop (S p) (v_rest v)) as Hr.
    { rewrite rest_adv_n. apply drop_S. rewrite Hrest. by rewrite lookup_app_l. }
    apply wp_bind, wp_eof. unfold at_eof. rewrite Hr. apply wp_bind, wp_lookahead, wp_bind.
    eapply wp_lift; [by eapply repr_get|]. unfold look. rewrite Hr. cbn [hd]. rewrite Z.eqb_refl. cbn [andb]. wps.
    split_and!; [done|f_equal; lia| |lia]. unfold adv_n. by rewrite <- Nat.iter_succ.
Qed.

Lemma wp_end_word h n v y s ls hs t : a_word h ≠ [] → Forall (λ c, eol c = false) (a_word h) →
  (rem v < n)%nat → state_repr s (ls, h :: hs) → at_start v → closing (a_word h) (v_rest v) t →
  wp scan_heredoc_content n v y s (closed ls hs t).
Proof.
  intros Hw Hln Hn Hs Hv Hc. unfold scan_heredoc_content. apply wp_bind. eapply wp_current_heredoc; [done|]. intros H Hh.
  inversion Hc as [bl c r Hbl Heol Hrest Ht|Hrest Ht]; subst t.
  - apply (wp_iter (λ locals v1 _ s1, s1 = s ∧ ∃ p, locals = mkLocals (Z.of_nat p) true false ∧ v1 = adv_n false p v
      ∧ (p ≤ length (a_word h))%nat) (λ _ v1, rem v1)); [|split; [done|]; exists 0%nat; by split_and!; [..|lia]|done].
    intros locals v1 y1 s1 (->&p&->&->&Hp). eapply wp_mono; [by eapply wp_word_round|].
    intros [l|b] v2 y2 s2; [|done]. intros (->&->&->&Hp2). split; [split; [done|by exists (S p)]|].
    assert (length (a_word h) < rem v)%nat by (unfold rem; rewrite <- Hrest, !length_app; cbn; lia).
    unfold rem. rewrite !rest_adv_n, !length_drop. unfold rem in *. lia.
  - apply (wp_iter (λ locals v1 _ s1, s1 = s ∧ locals = mkLocals 0 true false ∧ v1 = v) (λ _ v1, rem v1)); [|done|done].
    intros locals v1 y1 s1 (->&->&->). unfold heredoc_body. cbn [position_in_word look_for_heredoc_end has_content negb].
    rewrite (proj1 (repr_size _ _ (proj1 Hh))). assert (length (a_word h) ≠ 0%nat) by (by destruct (a_word h)).
    replace (0 =? Z.of_nat (length (a_word h))) with false by lia.
    unfold heredoc_step. apply wp_bind, wp_eof. unfold at_eof. rewrite <- Hrest. apply wp_bind, wp_mark_end, wp_bind.
    eapply wp_close; [done..|]. intros s' Hs'. apply wp_ret. split_and!; [done|done| |done].
    destruct Hv as [Hv0 _]. exact (token_text_mark 0 v Hv0 ltac:(lia)).
Qed.

(** ** Whole calls *)

(** What the parser asks for in a heredoc. *)
Definition in_heredoc (valid : TokenType → bool) : Prop :=
  valid STRING_START = false ∧ valid STRING_CONTENT = false ∧ valid STRING_END = false
  ∧ (valid HEREDOC_CONTENT = true ∨ valid HEREDOC_BODY_END = true).

Lemma wp_scan_in_heredoc valid n v y s a Q : in_heredoc valid → a.2 ≠ [] → state_repr s a →
  (∀ s', state_repr s' a → wp scan_heredoc_content n v y s' Q) → wp (L := L) (scan valid) n v y s Q.
Proof.
  intros (E1&E2&E3&E4) Ha Hs HQ. unfold scan. wps.
  - rewrite E2, E3, andb_false_r in E. done.
  - apply HQ. by apply state_repr_ignores.
  - destruct a as [ls [|h hs]]; [done|]. destruct (heredocs_cons _ _ _ _ Hs) as (H&Hr&Hrep&_).
    destruct (repr_size _ _ Hrep) as [Hsz _]. cbn [length open_heredocs] in *. rewrite E1 in E0.
    replace (0 <? size (open_heredocs s)) with true in E0 by lia.
    destruct E4 as [E4|E4]; by rewrite E4, ?orb_true_r in E0.
Qed.

Lemma wp_content_call valid n v y s ls h hs body : in_heredoc valid → state_repr s (ls, h :: hs) → a_word h ≠ [] →
  Forall (λ c, eol c = false) (a_word h) → plain (a_interpolation h) body → at_start v → v_rest v = LF :: body → (rem v < n)%nat →
  let k := body_end (a_word h) (a_indent h) body in
  wp (scan valid) n v y s (λ r v' y' s', r = true ∧ y' = TokenType_to_Z HEREDOC_CONTENT ∧ state_repr s' (ls, h :: hs)
    ∧ text v' = text v ∧ token_end v' = (v_pos v + S k)%nat ∧ token_text v' = LF :: take k body).
Proof.
  intros Hvalid Hs Hw Hln Hp [Hst Hend] Hrest Hn k.
  assert (inside h v (v_pos v + S k) (mkLocals 0 true false) v) as Hi.
  { split; [done|]. rewrite Hrest. split; [intros Hb; constructor; [done|by apply Hp]|].
    exists 0%nat, 0%nat. cbn [position_in_word look_for_heredoc_end has_content drop]. split_and!; [done|lia|done|done|by eexists _, _|].
    rewrite goal_eol by done. assert (eol_length (LF :: body) = 1%nat) as -> by (by destruct body). cbn [drop]. done. }
  apply (wp_scan_in_heredoc _ _ _ _ _ (ls, h :: hs)); [done..|]. intros s' Hs'. eapply wp_mono; [by eapply wp_content|].
  intros r v' y' s2 (->&->&->&(Ht&Hst')&He). split_and!; try done.
  rewrite (token_text_split v v' (S k)) by (done || congruence). by rewrite Hrest.
Qed.

(** C13: the calls on the body of a heredoc without interpolations. From the end of the
    line that announced it, the first gives as one token the lines up to the first
    that is the end word, with white space in front of it where the heredoc allows
    that, or all of the input; the second, behind that token, gives the end word or,
    at the end of the input, an empty token, and the heredoc is no longer open. *)
Theorem ruby_heredoc_body (valid : TokenType → bool) n l s ls h hs body t :
  in_heredoc valid → state_repr s (ls, h :: hs) → a_word h ≠ [] → Forall (λ c, eol c = false) (a_word h) →
  plain (a_interpolation h) body → at_start (view_of l) → v_rest (view_of l) = LF :: body → (rem (view_of l) < n)%nat →
  let k := body_end (a_word h) (a_indent h) body in
  closing (a_word h) (drop k body) t →
  yields tree_sitter_ruby_external_scanner_scan valid n (TokenType_to_Z HEREDOC_CONTENT) (LF :: take k body) l s (λ l1 s1,
    yields tree_sitter_ruby_external_scanner_scan valid n (TokenType_to_Z HEREDOC_BODY_END) t l1 s1 (λ _ s2,
      state_repr s2 (ls, hs))).
Proof.
  intros Hvalid Hs Hw Hln Hp Hv Hrest Hn k Hc y.
  destruct (wp_run _ n l y s _ (wp_content_call valid n _ y s ls h hs body Hvalid Hs Hw Hln Hp Hv Hrest Hn))
    as (r&l1&y1&s1&Hrun&->&->&Hs1&Ht&He&Htext).
  exists l1, s1. split_and!; [done..|]. intros l2 (Ht2&Hp2&Hst2&He2) y2.
  assert (v_rest (view_of l2) = drop k body) as Hr2.
  { rewrite (rest_at_pos (view_of l) (view_of l2) (S k)); [by rewrite Hrest|by rewrite Ht2|by rewrite Hp2]. }
  destruct (wp_run (scan valid) n l2 y2 s1 (closed ls hs t)) as (r&l3&y3&s3&Hrun3&->&->&Htext3&Hs3).
  { apply (wp_scan_in_heredoc _ _ _ _ _ (ls, h :: hs)); [done..|]. intros s' Hs'. eapply wp_end_word; [done|done| |done|by split|by rewrite Hr2].
    unfold rem in *. rewrite Hr2, length_drop. rewrite Hrest in Hn. cbn in Hn. lia. }
  exists l3, s3. by split_and!.
Qed.
End content.

(** ** Examples *)

(** A heredoc with an indented end word, [<<~EOS]. *)
Definition squiggly : heredoc := AHeredoc (cstr "EOS") true true true.

Definition squiggly_open : Scanner :=
  mkScanner false array_init (mkArray [Some (mkHeredoc (mkArray (Some <$> cstr "EOS") 3 3) true true true)] 1 1).

Lemma squiggly_repr : state_repr squiggly_open ([], [squiggly]).
Proof.
  split; [apply repr_init|]. exists [mkHeredoc (mkArray (Some <$> cstr "EOS") 3 3) true true true].
  split; [by exists []|]. constructor; [|constructor]. split; [by exists []|done].
Qed.

(** A line, one that goes on behind the end word, an empty one, and the end word. *)
Definition squiggly_body : list Z := cstr "  a EOS" ++ LF :: cstr "EOS b" ++ [CR; LF; LF] ++ cstr "  EOS " ++ LF :: cstr "EOS".

Definition heredoc_symbols (t : TokenType) : bool := match t with HEREDOC_CONTENT | HEREDOC_BODY_END => true | _ => false end.

Lemma ruby_heredoc_body_witness :
  yields tree_sitter_ruby_external_scanner_scan heredoc_symbols 60%nat (TokenType_to_Z HEREDOC_CONTENT)
    (LF :: cstr "  a EOS" ++ LF :: cstr "EOS b" ++ [CR; LF; LF] ++ cstr "  ") (input (LF :: squiggly_body)) squiggly_open (λ l1 s1,
    yields tree_sitter_ruby_external_scanner_scan heredoc_symbols 60%nat (TokenType_to_Z HEREDOC_BODY_END) (cstr "EOS") l1 s1
      (λ _ s2, state_repr s2 ([], []))).
Proof.
  refine (ruby_heredoc_body heredoc_symbols 60%nat (input (LF :: squiggly_body)) squiggly_open [] squiggly [] squiggly_body (cstr "EOS")
    _ squiggly_repr _ _ _ _ _ _ _).
  - split_and!; try done. by left.
  - done.
  - by repeat constructor.
  - intros _. apply (bool_decide_unpack _). by vm_compute.
  - done.
  - done.
  - by vm_compute; lia.
  - apply (closing_line (cstr "EOS") [" "] LF (cstr "EOS")); [by repeat constructor|done].
Defined.

(** Behind the end word and white space the scanner looks for the end word again, so a
    line of two end words ends a heredoc in its middle: the first is given as content
    of the body, and the second as its end. *)
Lemma ruby_heredoc_two_words :
  body_end (cstr "EOS") false (cstr "EOSEOS" ++ LF :: cstr "a") = 0%nat
  ∧ ∃ l1, scan heredoc_symbols 20%nat (mkst (input (cstr "EOSEOS" ++ LF :: cstr "a")) 0 squiggly_open)
      = Done (true, mkst l1 (TokenType_to_Z HEREDOC_CONTENT) squiggly_open)
    ∧ token_text l1 = cstr "EOS"
  ∧ ∃ l2 s2, scan heredoc_symbols 20%nat (mkst (input (cstr "EOS" ++ LF :: cstr "a")) 0 squiggly_open)
      = Done (true, mkst l2 (TokenType_to_Z HEREDOC_BODY_END) s2)
    ∧ token_text l2 = cstr "EOS".
Proof.
  split; [by vm_compute|]. eexists. split; [vm_compute; reflexivity|]. split; [by vm_compute|].
  eexists _, _. split; [vm_compute; reflexivity|]. by vm_compute.
Qed.
