(* ===== verification/CString.v ===== *)
(** * C strings in blocks of memory

    A block of [char]s is a list of cells, [None] for one that was never
    written. Reading such a cell, or behind the block, is [Undefined]. *)

From S2P Require Import Prelude CArray.

(** The string at the start of a block. *)
Fixpoint read_cstring (b : list (option Z)) : outcome (list Z) :=
  match b with
  | Some c :: b =>
      if c =? 0 then Done [] else let? s := read_cstring b in Done (c :: s)
  | _ => Undefined
  end.

(** [strcmp(a, b) == 0] *)
Definition strcmp_eq (a b : list (option Z)) : outcome bool :=
  let? s := read_cstring a in
  let? t := read_cstring b in
  Done (bool_decide (s = t)).

(** The [n] bytes that [strncpy(dst, src, n)] writes: the string, then zeros. *)
Fixpoint strncpy (src : list (option Z)) (n : nat) {struct n} : outcome (list Z) :=
  match n with
  | O => Done []
  | S n' =>
      match src with
      | Some c :: src =>
          if c =? 0 then Done (replicate n 0)
          else let? s := strncpy src n' in Done (c :: s)
      | _ => Undefined
      end
  end.

(** A string held by a block: its characters up to the first 0. *)
Lemma read_cstring_app s junk : read_cstring ((Some <$> s) ++ Some 0 :: junk) = Done (c_string s).
Proof.
  induction s as [|c s IH]; [done|]. rewrite fmap_cons, <- app_comm_cons. cbn [read_cstring c_string].
  destruct (c =? 0); [done|]. by rewrite IH.
Qed.

(** A string cut at its first 0 and padded with zeros. *)
Definition zero_pad (s : list Z) (n : nat) : list Z :=
  c_string s ++ replicate (n - length (c_string s)) 0.

Lemma length_c_string s : (length (c_string s) ≤ length s)%nat.
Proof. induction s as [|c s IH]; simpl; [lia|]. destruct (c =? 0); simpl; lia. Qed.

Lemma length_zero_pad s n : (length s ≤ n)%nat → length (zero_pad s n) = n.
Proof.
  intros Hn. unfold zero_pad. rewrite length_app, length_replicate.
  pose proof (length_c_string s). lia.
Qed.

Lemma strncpy_app s junk n : (length s ≤ n)%nat →
  strncpy ((Some <$> s) ++ Some 0 :: junk) n = Done (zero_pad s n).
Proof.
  revert n. induction s as [|c s IH]; intros n Hn.
  { unfold zero_pad. simpl. rewrite Nat.sub_0_r. by destruct n. }
  destruct n as [|n]; [simpl in Hn; lia|]. simpl in Hn.
  rewrite fmap_cons, <- app_comm_cons. cbn [strncpy].
  unfold zero_pad. cbn [c_string]. destruct (c =? 0) eqn:E; [done|].
  rewrite IH by lia. done.
Qed.

(** A string without 0. *)
Definition no_nul (s : list Z) : Prop := Forall (λ c, c ≠ 0) s.

Lemma c_string_no_nul s : no_nul s → c_string s = s.
Proof.
  induction 1 as [|c s Hc _ IH]; simpl; [done|].
  by rewrite (proj2 (Z.eqb_neq _ _) Hc), IH.
Qed.

Lemma c_string_app_nul s t : c_string (s ++ 0 :: t) = c_string s.
Proof. induction s as [|c s IH]; simpl; [done|]. destruct (c =? 0); by rewrite ?IH. Qed.

Lemma no_nul_c_string s : no_nul (c_string s).
Proof.
  induction s as [|c s IH]; simpl; [constructor|]. destruct (c =? 0) eqn:E; [constructor|].
  constructor; [lia|done].
Qed.

Lemma zero_pad_no_nul s n : no_nul s → (length s ≤ n)%nat →
  zero_pad s n = s ++ replicate (n - length s) 0.
Proof. intros Hs Hn. unfold zero_pad. by rewrite c_string_no_nul. Qed.

(** Appending to two buffers of the same length with the same string. *)
Lemma c_string_app_eq s s' t : length s = length s' → c_string s = c_string s' →
  c_string (s ++ t) = c_string (s' ++ t).
Proof.
  revert s'. induction s as [|c s IH]; intros [|c' s'] Hl Hc; try done.
  simpl in *. destruct (c =? 0) eqn:E, (c' =? 0) eqn:E'; try done.
  injection Hc as -> Hc. f_equal. apply IH; [lia|done].
Qed.

Lemma c_string_zero_pad s n : c_string (zero_pad s n) = c_string s.
Proof.
  unfold zero_pad. destruct (n - length (c_string s))%nat as [|k]; simpl.
  - rewrite app_nil_r. apply c_string_no_nul, no_nul_c_string.
  - rewrite c_string_app_nul. apply c_string_no_nul, no_nul_c_string.
Qed.

Lemma zero_pad_split s n : (length s ≤ n)%nat →
  zero_pad s n = zero_pad s (length s) ++ replicate (n - length s) 0.
Proof.
  intros Hn. unfold zero_pad. rewrite <- app_assoc, <- replicate_add. do 2 f_equal.
  pose proof (length_c_string s). lia.
Qed.

Lemma read_cstring_inv b s : read_cstring b = Done s →
  no_nul s ∧ ∃ junk, b = (Some <$> s) ++ Some 0 :: junk.
Proof.
  revert s. induction b as [|[c|] b IH]; intros s; simpl; try done. destruct (c =? 0) eqn:E.
  - intros [= <-]. split; [constructor|]. exists b. by replace c with 0 by lia.
  - destruct (read_cstring b) as [t| | |]; try done. intros [= <-].
    destruct (IH t eq_refl) as (Hn&junk&->). split; [by constructor; [lia|]|by exists junk].
Qed.
