(* ===== verification/Sql.v ===== *)
(** * The SQL external scanner

    [third-party/tree-sitter-sequel/src/scanner.c]: dollar-quoted strings. The
    payload is the start tag that is open, a heap block with a C string, or
    the null pointer. Allocation is taken to succeed, as the code does. *)

From S2P Require Import Prelude CArray CString Scan Logic.

Inductive TokenType : Type :=
  | DOLLAR_QUOTED_STRING_START_TAG
  | DOLLAR_QUOTED_STRING_END_TAG
  | DOLLAR_QUOTED_STRING.

#[export] Instance TokenType_eq_dec : EqDecision TokenType.
Proof. solve_decision. Defined.

Definition TokenType_to_Z (t : TokenType) : Z :=
  match t with
  | DOLLAR_QUOTED_STRING_START_TAG => 0
  | DOLLAR_QUOTED_STRING_END_TAG => 1
  | DOLLAR_QUOTED_STRING => 2
  end.

Definition MALLOC_STRING_SIZE : Z := 1024.
Definition TREE_SITTER_SERIALIZATION_BUFFER_SIZE : Z := 1024.

(** A block of [char]s, and the pointer to one. *)
Definition block : Type := list (option Z).

Record LexerState := mkState { start_tag : option block }.

Definition tree_sitter_sql_external_scanner_create : LexerState := mkState None.

(** What is left of the payload, before it is freed. *)
Definition tree_sitter_sql_external_scanner_destroy (payload : LexerState)
  : LexerState := mkState None.

(** The new block and its size. *)
Definition add_char (text : option block) (text_size c index : Z)
  : outcome (block * Z) :=
  let '(text, text_size) :=
    match text with
    | None => (replicate (Z.to_nat MALLOC_STRING_SIZE) None, MALLOC_STRING_SIZE)
    | Some text => (text, text_size)
    end in
  let? '(text, text_size) :=
    if text_size <=? index + 1 then
      let text_size := text_size + MALLOC_STRING_SIZE in
      let? tmp := strncpy text (Z.to_nat text_size) in
      Done (Some <$> tmp, text_size)
    else Done (text, text_size) in
  let? text := memcpy text index [Some c] in
  let? text := memcpy text (index + 1) [Some NUL] in
  Done (text, text_size).

Section scanner.
Context {L : Type} {HL : TSLexer L} {HW : WCType}.
Local Abbreviation M := (M L LexerState).

Definition advance : M unit := advance_ false.
Definition set_result (t : TokenType) : M unit := set_symbol (TokenType_to_Z t).

(** The [while] loop of [scan_dollar_string_tag], over the block, its size and
    the index of its last character. *)
Definition tag_loop (p : block * Z * Z) : M (block * Z * Z) :=
  iter (λ '(tag, text_size, index),
    c <- lookahead;;
    e <- eof;;
    if negb (c =? "$") && negb (iswspace c) && negb e then
      r <- lift (add_char (Some tag) text_size (to_char c) (index + 1));;
      advance;;
      ret (inl (r, index + 1))
    else ret (inr (tag, text_size, index))) p.

Definition scan_dollar_string_tag : M (option block) :=
  c <- lookahead;;
  if c =? "$" then
    r <- lift (add_char None 0 "$" 0);;
    advance;;
    r <- tag_loop (r, 0);;
    let '(tag, text_size, index) := r in
    c <- lookahead;;
    if c =? "$" then
      r <- lift (add_char (Some tag) text_size (to_char c) (index + 1));;
      advance;;
      ret (Some (fst r))
    else ret None
  else ret None.

(** A round of the search for the end of a string. *)
Definition string_body (start : block) (_ : unit) : M (unit + bool) :=
  e <- eof;;
  if e : bool then ret (inr false)
  else
    end_tag <- scan_dollar_string_tag;;
    match end_tag with
    | None =>
        advance;;
        ret (inl tt)
    | Some end_tag =>
        same <- lift (strcmp_eq end_tag start);;
        if same : bool then
          mark_end;;
          set_result DOLLAR_QUOTED_STRING;;
          ret (inr true)
        else ret (inl tt)
    end.

(** [tag != NULL && strcmp(tag, other) == 0] *)
Definition same_tag (tag : option block) (other : block) : M bool :=
  match tag with
  | Some tag => lift (strcmp_eq tag other)
  | None => ret false
  end.

(** A whole string, from its start tag to its end tag. *)
Definition scan_string : M bool :=
  mark_end;;
  while_look iswspace true;;
  state <- get_payload;;
  tag <- scan_dollar_string_tag;;
  match tag with
  | None => ret false
  | Some tag =>
      open <- same_tag (start_tag state) tag;;
      if open : bool then ret false
      else iter (string_body tag) tt
  end.

Definition tree_sitter_sql_external_scanner_scan
    (valid_symbols : TokenType → bool) : M bool :=
  state <- get_payload;;
  match start_tag state with
  | None =>
      if valid_symbols DOLLAR_QUOTED_STRING_START_TAG then
        while_look iswspace true;;
        tag <- scan_dollar_string_tag;;
        match tag with
        | None => ret false
        | Some tag =>
            set_payload (mkState (Some tag));;
            set_result DOLLAR_QUOTED_STRING_START_TAG;;
            ret true
        end
      else if valid_symbols DOLLAR_QUOTED_STRING then scan_string
      else ret false
  | Some open =>
      if valid_symbols DOLLAR_QUOTED_STRING_END_TAG then
        while_look iswspace true;;
        end_tag <- scan_dollar_string_tag;;
        same <- same_tag end_tag open;;
        if same : bool then
          set_payload (mkState None);;
          set_result DOLLAR_QUOTED_STRING_END_TAG;;
          ret true
        else ret false
      else if valid_symbols DOLLAR_QUOTED_STRING then scan_string
      else ret false
  end.
End scanner.

(** The bytes written to the buffer, and the state, whose tag is freed when it
    was written. *)
Definition tree_sitter_sql_external_scanner_serialize (payload : LexerState)
  : outcome (list Z * LexerState) :=
  match start_tag payload with
  | None => Done ([], payload)
  | Some tag =>
      let? s := read_cstring tag in
      let tag_length := Z.of_nat (length s) + 1 in
      if TREE_SITTER_SERIALIZATION_BUFFER_SIZE <=? tag_length
      then Done ([], payload)
      else
        let? bytes := read_block tag (Z.to_nat tag_length) in
        Done (bytes, mkState None)
  end.

Definition tree_sitter_sql_external_scanner_deserialize (payload : LexerState)
    (buffer : list Z) : outcome LexerState :=
  if 1 <? Z.of_nat (length buffer)
  then Done (mkState (Some (Some <$> buffer)))
  else Done (mkState None).
