(* ===== verification/SqlProofs.v ===== *)
(** * Properties of the SQL external scanner *)

From S2P Require Import Prelude CArray CArrayProofs CString Codec Scan Logic Sql.

Ltac wp_hook ::= first [ progress unfold advance | progress unfold set_result ].

(** ** Reference *)

(** The tag [$...$] at the head of the input, with no white space and no other
    dollar sign between the two: how many characters are consumed to find out,
    and whether there is one. *)
Definition is_tag_char `{!WCType} (c : Z) : bool := negb (c =? "$") && negb (iswspace c).

Definition dollar_tag `{!WCType} (rest : list Z) : nat * bool :=
  if hd 0 rest =? "$" then
    let k := span is_tag_char (tail rest) in
    if hd 0 (drop k (tail rest)) =? "$" then (S (S k), true) else (S k, false)
  else (0%nat, false).

(** The C string in which a tag is stored. *)
Definition tag_string (tag : list Z) : list Z := c_string (to_char <$> tag).

(** ** The buffer *)

(** A block of [size] bytes with the characters [s], then a 0. *)
Definition text_repr (b : block) (size : Z) (s : list Z) : Prop :=
  ∃ junk, b = (Some <$> s) ++ Some 0 :: junk ∧ Z.of_nat (length b) = size ∧ 1024 ≤ size.

Lemma text_repr_string b size s : text_repr b size s → read_cstring b = Done (c_string s).
Proof. intros (junk&->&_). apply read_cstring_app. Qed.

Lemma add_char_first c : ∃ b, add_char None 0 c 0 = Done (b, 1024) ∧ text_repr b 1024 [c].
Proof.
  eexists. split; [vm_compute; reflexivity|]. exists (replicate 1022 None). split_and!; by vm_compute.
Qed.

(** Writing the next character and the terminator, where there is room. *)
Lemma write_char b size s junk c : b = (Some <$> s) ++ junk → Z.of_nat (length b) = size →
  (2 ≤ length junk)%nat → 1024 ≤ size →
  ∃ b', (let? text := memcpy b (Z.of_nat (length s)) [Some c] in
         let? text := memcpy text (Z.of_nat (length s) + 1) [Some NUL] in
         Done (text, size)) = Done (b', size) ∧ text_repr b' size (s ++ [c]).
Proof.
  intros -> Hl Hj Hsz. destruct junk as [|x [|z junk]]; simpl in Hj; [lia..|].
  rewrite (memcpy_at _ _ _ (Some <$> s) [x] (z :: junk)) by (rewrite ?length_fmap; done).
  cbn [obind].
  rewrite (memcpy_at _ _ _ ((Some <$> s) ++ [Some c]) [z] junk);
    [|by rewrite <- app_assoc|rewrite length_app, length_fmap; simpl; lia|done].
  cbn [obind]. eexists; split; [done|]. exists junk.
  rewrite fmap_app, <- !app_assoc. split_and!; [done| |done].
  rewrite <- Hl, !length_app. simpl. lia.
Qed.

Lemma add_char_next b size s c : text_repr b size s →
  ∃ b' size' s', add_char (Some b) size c (Z.of_nat (length s)) = Done (b', size')
    ∧ text_repr b' size' (s' ++ [c]) ∧ length s' = length s ∧ c_string s' = c_string s.
Proof.
  intros (junk&Hb&Hl&Hsz). unfold add_char.
  pose proof Hl as Hl'. rewrite Hb, length_app, length_fmap in Hl'. simpl in Hl'.
  destruct (size <=? _) eqn:E.
  - unfold MALLOC_STRING_SIZE. rewrite Hb, strncpy_app by lia. cbn [obind].
    rewrite zero_pad_split by lia.
    pose proof (length_zero_pad s (length s) ltac:(lia)) as Hz.
    set (s' := zero_pad s (length s)) in *. set (n := (Z.to_nat (size + 1024) - length s)%nat).
    destruct (write_char (Some <$> s' ++ replicate n 0) (size + 1024) s'
                (Some <$> replicate n 0) c) as (b'&Hrun&Hr).
    + by rewrite fmap_app.
    + rewrite length_fmap, length_app, length_replicate. lia.
    + rewrite length_fmap, length_replicate. lia.
    + lia.
    + exists b', (size + 1024), s'. rewrite Hz in Hrun. split_and!; [done..|].
      apply c_string_zero_pad.
  - cbn [obind]. destruct (write_char b size s (Some 0 :: junk) c Hb Hl) as (b'&Hrun&Hr);
      [simpl; lia|done|]. by exists b', size, s.
Qed.

(** ** Tags *)

Lemma tag_string_snoc s b c : length s = length b → c_string s = tag_string b →
  c_string (s ++ [to_char c]) = tag_string (b ++ [c]).
Proof.
  intros Hl Hs. unfold tag_string. rewrite fmap_app. apply c_string_app_eq; [|done].
  by rewrite length_fmap.
Qed.

Section tags.
Context {L : Type} {HL : TSLexer L} {HW : WCType} {HS : TSLexerSpec L}.

(** The block at index [k] of the loop that reads the characters of [rest]. *)
Definition tag_inv (rest : list Z) (k : nat) (p : block * Z * Z) : Prop :=
  ∃ b size s, p = (b, size, Z.of_nat k) ∧ text_repr b size s ∧ length s = S k
    ∧ c_string s = tag_string (("$" : Z) :: take k rest).

Lemma tag_inv_next rest k b size index c : tag_inv rest k (b, size, index) →
  (k < length rest)%nat → c = hd 0 (drop k rest) →
  ∃ b' size', add_char (Some b) size (to_char c) (index + 1) = Done (b', size')
    ∧ tag_inv rest (S k) (b', size', index + 1).
Proof.
  intros (b0&size0&s&[= <- <- ->]&Hr&Hl&Hs) Hk ->.
  destruct (add_char_next b size s (to_char (hd 0 (drop k rest))) Hr)
    as (b'&size'&s'&Hrun&Hr'&Hl'&Hs').
  exists b', size'. replace (Z.of_nat k + 1) with (Z.of_nat (length s)) by lia.
  split; [done|]. exists b', size', (s' ++ [to_char (hd 0 (drop k rest))]).
  split_and!; [by rewrite Hl|done|rewrite length_app; simpl; lia|].
  rewrite take_snoc by done. change (?x :: ?l ++ ?r) with ((x :: l) ++ r).
  apply tag_string_snoc; [|by rewrite Hs'].
  simpl. rewrite length_take. lia.
Qed.

Lemma wp_tag_loop n v y s p (Q : post (S := LexerState) (block * Z * Z)) :
  (rem v < n)%nat → tag_inv (v_rest v) 0 p →
  (∀ p', let k := span is_tag_char (v_rest v) in
     tag_inv (v_rest v) k p' → Q p' (adv_n false k v) y s) →
  wp (tag_loop p) n v y s Q.
Proof.
  intros Hn Hp HQ. unfold tag_loop.
  apply (wp_iter (λ p' v' y' s', y' = y ∧ s' = s ∧ ∃ k, v' = adv_n false k v
           ∧ (k ≤ span is_tag_char (v_rest v))%nat ∧ tag_inv (v_rest v) k p')
         (λ _ v', rem v')); [| |done].
  2: { split_and!; [done..|]. exists 0%nat. split_and!; [done|lia|done]. }
  intros [[b size] index] v' y' s' (->&->&k&->&Hk&Hinv). wps.
  - assert (k < length (v_rest v))%nat as Hlt.
    { look_facts. unfold rem in *. rewrite rest_adv_n, length_drop in *. lia. }
    destruct (tag_inv_next _ _ _ _ _ (look (adv_n false k v)) Hinv Hlt) as (b'&size'&Hrun&Hinv').
    { unfold look. by rewrite rest_adv_n. }
    eapply wp_lift; [exact Hrun|]. wps. rewrite rem_adv. split; [|look_facts; lia].
    split_and!; [done..|]. exists (S k). split_and!; [done| |done].
    pose proof (span_S is_tag_char (v_rest v) k Hk Hlt) as Hsp.
    unfold is_tag_char at 1 in Hsp. unfold look in *. rewrite rest_adv_n in *.
    look_facts. rewrite H, H1 in Hsp. done.
  - assert (span is_tag_char (v_rest v) = k) as <-; [|by apply HQ].
    destruct (decide (k < length (v_rest v))%nat) as [Hlt|Hge].
    + pose proof (span_S is_tag_char (v_rest v) k Hk Hlt) as Hsp.
      destruct (is_tag_char _) eqn:Hc in Hsp; [|done].
      unfold is_tag_char in Hc. unfold look, at_eof in *. rewrite rest_adv_n in *.
      rewrite Hc in *. destruct (drop k (v_rest v)) eqn:Hd; [|done].
      apply (f_equal length) in Hd. rewrite length_drop in Hd. simpl in Hd. lia.
    + pose proof (span_length is_tag_char (v_rest v)). lia.
Qed.

(** [scan_dollar_string_tag] consumes what [dollar_tag] says, and returns a block
    with the tag when there is one. *)
Lemma wp_scan_tag n v y s (Q : post (S := LexerState) (option block)) :
  (rem v < n)%nat →
  (∀ r, let k := fst (dollar_tag (v_rest v)) in
     (if snd (dollar_tag (v_rest v))
      then ∃ b, r = Some b ∧ read_cstring b = Done (tag_string (take k (v_rest v)))
      else r = None) →
     Q r (adv_n false k v) y s) →
  wp scan_dollar_string_tag n v y s Q.
Proof.
  intros Hn HQ. unfold scan_dollar_string_tag. do 2 wp_step. wp_step.
  2: { assert (dollar_tag (v_rest v) = (0%nat, false)) as Ht.
       { unfold dollar_tag. fold (look v). by rewrite E. }
       wps. rewrite Ht in HQ. by apply HQ. }
  destruct (add_char_first "$") as (b&Hrun&Hr). wp_step. eapply wp_lift; [exact Hrun|].
  wps. apply wp_tag_loop; [rem_tac| |].
  { exists b, 1024, [("$" : Z)]. split_and!; [done..|by rewrite take_0]. }
  intros [[b' size] index] k (b0&size0&s'&[= <- <- ->]&Hr'&Hl&Hs). cbv beta iota.
  assert (dollar_tag (v_rest v) = if hd 0 (drop k (tail (v_rest v))) =? "$"
    then (S (S k), true) else (S k, false)) as Ht.
  { unfold dollar_tag. fold (look v). rewrite E. unfold k. by rewrite rest_adv. }
  rewrite rest_adv in *. fold k in Hs, Hl, Hr'.
  assert (look (adv_n false k (adv false v)) = hd 0 (drop k (tail (v_rest v)))) as Hlook.
  { unfold look. by rewrite rest_adv_n, rest_adv. }
  do 2 wp_step. wp_step.
  - rewrite Hlook in E0. rewrite E0 in Ht. rewrite Ht in HQ. cbn [fst snd] in HQ.
    assert (k < length (tail (v_rest v)))%nat as Hk.
    { destruct (drop k (tail (v_rest v))) eqn:Hd; [done|]. apply (f_equal length) in Hd.
      rewrite length_drop in Hd. simpl in Hd. lia. }
    assert (tag_inv (tail (v_rest v)) k (b', size, Z.of_nat k)) as Hinv
      by (exists b', size, s'; done).
    destruct (tag_inv_next _ _ _ _ _ _ Hinv Hk eq_refl) as (b2&size2&Hrun2&Hinv2).
    wp_step. eapply wp_lift; [rewrite Hlook; exact Hrun2|]. wps.
    rewrite <- (adv_n_S false k v). change (adv false (adv_n false (S k) v)) with (adv_n false (S (S k)) v).
    apply HQ. exists b2. split; [done|].
    destruct Hinv2 as (b3&size3&s3&[= <- <- _]&Hr3&Hl3&Hs3).
    rewrite (text_repr_string _ _ _ Hr3), Hs3. do 2 f_equal.
    rewrite (rest_cons v) at 2 by (apply (look_eqb_pos v "$"); done). simpl. f_equal. lia.
  - wps. rewrite Hlook in E0. rewrite E0 in Ht. rewrite Ht in HQ. cbn [fst snd] in HQ.
    rewrite <- (adv_n_S false k v). by apply HQ.
Qed.
End tags.

(** ** Strings *)

(** How many characters to go to the end of the string that was opened with the
    tag [open], if there is an end. *)
Fixpoint find_end `{!WCType} (fuel : nat) (open rest : list Z) : option nat :=
  match fuel, rest with
  | S fuel, _ :: _ =>
      let '(k, b) := dollar_tag rest in
      if b then
        if bool_decide (tag_string (take k rest) = open) then Some k
        else Nat.add k <$> find_end fuel open (drop k rest)
      else Nat.add (S k) <$> find_end fuel open (drop (S k) rest)
  | _, _ => None
  end.

Section strings.
Context {L : Type} {HL : TSLexer L} {HW : WCType} {HS : TSLexerSpec L}.

Lemma dollar_tag_pos rest k : dollar_tag rest = (k, true) → (0 < k)%nat.
Proof. unfold dollar_tag. repeat case_match; intros [= <-]; lia. Qed.

Lemma dollar_tag_nonempty rest k : dollar_tag rest = (k, true) → tag_string (take k rest) ≠ [].
Proof.
  unfold dollar_tag. destruct rest as [|c r]; [done|]. cbn [hd]. destruct (c =? "$") eqn:E; [|done].
  destruct (_ =? _) in |- *; [|done]. intros [= <-]. by replace c with ("$" : Z) by lia.
Qed.

Lemma find_end_fuel f f' open rest : (length rest < f)%nat → (length rest < f')%nat →
  find_end f open rest = find_end f' open rest.
Proof.
  revert f' rest. induction f as [|f IH]; intros [|f'] rest Hf Hf'; try lia.
  destruct rest as [|c r]; [done|]. cbn [find_end].
  destruct (dollar_tag (c :: r)) as [k b] eqn:Hd. destruct b.
  - case_match; [done|]. pose proof (dollar_tag_pos _ _ Hd). f_equal.
    apply IH; rewrite length_drop; simpl in *; lia.
  - f_equal. apply IH; rewrite length_drop; simpl in *; lia.
Qed.

(** A round of the loop is a step of [find_end]. *)
Lemma wp_string_body start open n v y s (Q : post (S := LexerState) (unit + bool)) :
  read_cstring start = Done open → (rem v < n)%nat →
  (rem v = 0%nat → Q (inr false) v y s) →
  (∀ k, (0 < k)%nat → (0 < rem v)%nat →
    find_end (S (rem v)) open (v_rest v)
      = Nat.add k <$> find_end (S (rem v)) open (drop k (v_rest v)) →
    Q (inl tt) (adv_n false k v) y s) →
  (∀ k, find_end (S (rem v)) open (v_rest v) = Some k →
    Q (inr true) (mark (adv_n false k v)) 2 s) →
  wp (string_body start tt) n v y s Q.
Proof.
  intros Hstart Hn Hend Hnext Hfound. unfold string_body. do 2 wp_step. wp_step.
  { wps. apply Hend. by apply at_eof_rem. }
  apply not_eof_pos in E.
  assert (find_end (S (rem v)) open (v_rest v) =
    let '(k, b) := dollar_tag (v_rest v) in
    if b then
      if bool_decide (tag_string (take k (v_rest v)) = open) then Some k
      else Nat.add k <$> find_end (rem v) open (drop k (v_rest v))
    else Nat.add (S k) <$> find_end (rem v) open (drop (S k) (v_rest v))) as Hf.
  { destruct (v_rest v) eqn:Hr; [unfold rem in E; rewrite Hr in E; simpl in E; lia|done]. }
  assert (∀ k, (0 < k)%nat → find_end (rem v) open (drop k (v_rest v))
    = find_end (S (rem v)) open (drop k (v_rest v))) as Hfuel.
  { intros k Hk. apply find_end_fuel; rewrite length_drop; unfold rem in *; lia. }
  wp_step. apply wp_scan_tag; [done|]. intros r.
  destruct (dollar_tag (v_rest v)) as [k b] eqn:Hd in Hf |- *. cbn [fst snd]. destruct b.
  - intros (b&->&Hb). wp_step. eapply wp_lift.
    { unfold strcmp_eq. rewrite Hb, Hstart. reflexivity. }
    pose proof (dollar_tag_pos _ _ Hd). wps.
    + by apply Hfound.
    + rewrite Hfuel in Hf by done. by apply Hnext.
  - intros ->. wps. change (adv false (adv_n false k v)) with (adv_n false (S k) v).
    rewrite Hfuel in Hf by lia. apply Hnext; [lia|done|done].
Qed.

Lemma wp_string_loop start open n v y s (Q : post (S := LexerState) bool) :
  read_cstring start = Done open → (rem v < n)%nat →
  match find_end (S (rem v)) open (v_rest v) with
  | Some k => Q true (mark (adv_n false k v)) 2 s
  | None => ∀ v', advanced v v' → Q false v' y s
  end →
  wp (iter (string_body start) tt) n v y s Q.
Proof.
  intros Hstart Hn HQ.
  apply (wp_iter (λ _ v' y' s', y' = y ∧ s' = s ∧ ∃ j, v' = adv_n false j v ∧
      find_end (S (rem v)) open (v_rest v) = Nat.add j <$> find_end (S (rem v')) open (v_rest v'))
    (λ _ v', rem v')); [| |done].
  2: { split_and!; [done..|]. exists 0%nat. split; [done|]. by destruct (find_end _ _ _). }
  intros [] v' y' s' (->&->&j&->&Hj).
  assert (rem (adv_n false j v) ≤ rem v)%nat as Hle by (apply advanced_rem, advanced_adv_n).
  eapply wp_string_body; [done|lia|..].
  - intros H0. rewrite Hj in HQ. unfold rem in H0, HQ. destruct (v_rest (adv_n false j v)); [|done].
    apply HQ, advanced_adv_n.
  - intros k Hk H0 Hf. rewrite adv_n_add. assert (rem (adv_n false (k + j) v) < rem (adv_n false j v))%nat.
    { unfold rem in *. rewrite !rest_adv_n, !length_drop in *. lia. }
    split; [|done]. split_and!; [done..|]. exists (k + j)%nat. split; [done|].
    rewrite Hj, Hf. replace (drop k _) with (v_rest (adv_n false (k + j) v))
      by (by rewrite !rest_adv_n, drop_drop, Nat.add_comm).
    rewrite (find_end_fuel (S (rem (adv_n false j v))) (S (rem (adv_n false (k + j) v)))) by (unfold rem in *; lia).
    generalize (find_end (S (rem (adv_n false (k + j) v))) open (v_rest (adv_n false (k + j) v))).
    intros [i|]; simpl; [apply (f_equal Some); lia|done].
  - intros k Hf. rewrite Hf in Hj. change (_ <$> Some k) with (Some (j + k)%nat) in Hj. rewrite Hj, Nat.add_comm in HQ.
    by rewrite adv_n_add.
Qed.
End strings.

(** ** The grammar of strings *)

Section grammar.
Context {HW : WCType}.

(** The characters between the dollar signs. *)
Definition tag_name (name : list Z) : Prop := Forall (λ c, is_tag_char c = true) name.

(** [$name$] *)
Definition tag_of (name : list Z) : list Z := ("$" : Z) :: name ++ [("$" : Z)].

(** What the search for the tag [open] passes over: plain characters, a dollar
    sign whose name runs into white space, and any other tag. *)
Inductive passes (open : list Z) : list Z → Prop :=
  | passes_nil : passes open []
  | passes_char c body : c ≠ "$" → passes open body → passes open (c :: body)
  | passes_dollar name c body :
      tag_name name → iswspace c = true → passes open body →
      passes open ((("$" : Z) :: name) ++ c :: body)
  | passes_tag name body :
      tag_name name → tag_string (tag_of name) ≠ open → passes open body →
      passes open (tag_of name ++ body).

(** A string: a tag, what the search passes over, and a tag that is stored as
    the first one. *)
Definition sql_string (open text : list Z) : Prop :=
  ∃ name body name', text = tag_of name ++ body ++ tag_of name'
    ∧ tag_name name ∧ tag_name name' ∧ open = tag_string (tag_of name)
    ∧ passes open body ∧ tag_string (tag_of name') = open.

Lemma not_tag_char c : is_tag_char c = false → c = "$" ∨ iswspace c = true.
Proof. unfold is_tag_char. destruct (c =? "$") eqn:E; [lia|]. intros H. right. by destruct (iswspace c). Qed.

Lemma length_tag_of name : length (tag_of name) = S (S (length name)).
Proof. unfold tag_of. simpl. rewrite length_app. simpl. lia. Qed.

Lemma dollar_tag_of name r : tag_name name →
  dollar_tag (tag_of name ++ r) = (length (tag_of name), true).
Proof.
  intros Hn. unfold dollar_tag, tag_of. simpl. rewrite <- app_assoc, span_app by done. simpl.
  rewrite Nat.add_0_r, drop_app_length. simpl. by rewrite length_app, Nat.add_comm.
Qed.

Lemma dollar_tag_true rest k : dollar_tag rest = (k, true) →
  ∃ name r, rest = tag_of name ++ r ∧ tag_name name ∧ k = length (tag_of name).
Proof.
  unfold dollar_tag. destruct rest as [|c r]; [done|]. simpl. destruct (c =? "$") eqn:Ec; [|done].
  set (j := span _ _). destruct (hd 0 (drop j r) =? "$") eqn:E; [|done]. intros [= <-].
  destruct (drop j r) as [|d t] eqn:Hd; [done|]. simpl in E. exists (take j r), t.
  assert (length (take j r) = j) as Hj.
  { rewrite length_take. apply (f_equal length) in Hd. rewrite length_drop in Hd. simpl in Hd. lia. }
  unfold tag_of. split_and!.
  - rewrite <- (take_drop j r) at 1. rewrite Hd. simpl. rewrite <- app_assoc. simpl.
    f_equal; [lia|]. do 2 f_equal. lia.
  - apply take_span.
  - simpl. rewrite length_app, Hj. simpl. lia.
Qed.

Lemma dollar_tag_iff rest :
  (∃ name more, rest = tag_of name ++ more ∧ tag_name name) ↔ snd (dollar_tag rest) = true.
Proof.
  split.
  - intros (name&more&->&Hn). by rewrite dollar_tag_of.
  - intros Hb. destruct (dollar_tag rest) as [k b] eqn:Hd. simpl in Hb. subst b.
    destruct (dollar_tag_true _ _ Hd) as (name&more&?&?&_). by exists name, more.
Qed.

(** Where there is no tag the loop goes on behind one character, or behind the
    white space that ended the name. *)
Lemma passes_skip open rest k body : dollar_tag rest = (k, false) →
  rest ≠ [] → (k < length rest)%nat → passes open body → passes open (take (S k) rest ++ body).
Proof.
  unfold dollar_tag. destruct rest as [|c r]; [done|]. intros Hd _ Hk Hp.
  cbn [hd tail] in Hd. destruct (c =? "$") eqn:Ec.
  - set (j := span is_tag_char r) in *. destruct (hd 0 (drop j r) =? "$") eqn:E; [done|]. injection Hd as <-.
    simpl in Hk. rewrite (take_snoc (c :: r)) by (simpl; lia).
    assert (j < length r)%nat as Hj by lia.
    rewrite <- app_assoc. simpl. assert (c = ("$" : Z)) as -> by lia.
    apply (passes_dollar open (take j r)); [apply take_span| |done].
    destruct (not_tag_char (hd 0 (drop j r))) as [?|?]; [|lia|done].
    apply hd_drop_span. by right.
  - injection Hd as <-. simpl. apply passes_char; [lia|done].
Qed.

Lemma find_end_sound f open rest k : find_end f open rest = Some k →
  ∃ body name r, rest = body ++ tag_of name ++ r ∧ k = length (body ++ tag_of name)
    ∧ passes open body ∧ tag_name name ∧ tag_string (tag_of name) = open.
Proof.
  revert rest k. induction f as [|f IH]; intros rest k Hf; [done|].
  destruct rest as [|c r]; [done|]. cbn [find_end] in Hf.
  destruct (dollar_tag (c :: r)) as [j b] eqn:Hd. destruct b.
  - destruct (dollar_tag_true _ _ Hd) as (name&t&Hr&Hn&->). rewrite Hr, take_app_length in Hf.
    case_bool_decide as Ho.
    + injection Hf as <-. exists [], name, t. split_and!; [done..|constructor|done|done].
    + rewrite drop_app_length in Hf. apply fmap_Some in Hf as (j&Hf&->).
      destruct (IH _ _ Hf) as (body&name'&r'&->&->&Hp&Hn'&Ho').
      exists (tag_of name ++ body), name', r'. rewrite Hr, <- !app_assoc.
      split_and!; [done|by rewrite !length_app|by constructor|done|done].
  - apply fmap_Some in Hf as (i&Hf&->).
    assert (j < length (c :: r))%nat as Hj.
    { destruct (decide (j < length (c :: r))%nat); [done|]. rewrite drop_ge in Hf by lia. by destruct f. }
    destruct (IH _ _ Hf) as (body&name'&r'&Hr&->&Hp&Hn'&Ho').
    exists (take (S j) (c :: r) ++ body), name', r'.
    split_and!; [by rewrite <- app_assoc, <- Hr, take_drop| |by apply passes_skip|done|done].
    rewrite <- app_assoc, (length_app (take _ _)), length_take. lia.
Qed.

Lemma find_end_tag f open name r : tag_name name →
  find_end (S f) open (tag_of name ++ r) =
    if bool_decide (tag_string (tag_of name) = open) then Some (length (tag_of name))
    else Nat.add (length (tag_of name)) <$> find_end f open r.
Proof.
  intros Hn. assert (∃ c t, tag_of name ++ r = c :: t) as (c&t&Ht) by (by eexists _, _).
  rewrite Ht. cbn [find_end]. by rewrite <- Ht, dollar_tag_of, take_app_length, drop_app_length.
Qed.

Lemma find_end_complete f open body name r :
  passes open body → tag_name name → tag_string (tag_of name) = open →
  (length (body ++ tag_of name ++ r) < f)%nat →
  find_end f open (body ++ tag_of name ++ r) = Some (length (body ++ tag_of name)).
Proof.
  intros Hp Hn Ho. revert f. induction Hp as [|c body Hc Hp IH|n c body Hn1 Hc Hp IH|n body Hn1 Ho1 Hp IH];
    intros [|f] Hf; try lia.
  - cbn [app]. by rewrite find_end_tag, bool_decide_true.
  - cbn [length app] in Hf. rewrite <- app_comm_cons. cbn [find_end].
    unfold dollar_tag. cbn [hd]. replace (c =? "$") with false by lia.
    change (drop 1 ?l) with (tail l). cbn [tail]. rewrite IH by lia. done.
  - rewrite <- app_assoc in *. rewrite <- !app_comm_cons in *. cbn [find_end].
    unfold dollar_tag. cbn [hd tail Z.eqb Pos.eqb]. rewrite span_app by done.
    assert (is_tag_char c = false) as Hc' by (unfold is_tag_char; rewrite Hc; apply andb_false_r).
    cbn [span]. rewrite Hc', Nat.add_0_r, drop_app_length. cbn [hd].
    destruct (c =? "$") eqn:E.
    { assert (c = ("$" : Z)) as -> by lia. by rewrite iswspace_ascii in Hc. }
    replace (drop (S (S (length n))) _) with (body ++ tag_of name ++ r)
      by (cbn [drop]; rewrite drop_app_ge, Nat.sub_succ_l, Nat.sub_diag by lia; done).
    rewrite IH.
    + apply (f_equal Some). cbn [app length]. rewrite ?length_app. cbn [length]. rewrite ?length_app. lia.
    + cbn [length] in Hf. rewrite !length_app in *. cbn [length] in Hf. rewrite !length_app in Hf. lia.
  - rewrite <- !app_assoc, find_end_tag, bool_decide_false by done.
    rewrite IH.
    + apply (f_equal Some). rewrite !length_app. lia.
    + rewrite <- !app_assoc, length_app, length_tag_of in Hf. lia.
Qed.
End grammar.

(** ** The scanner *)

(** The tag that is open in a state. *)
Definition tag_repr (s : LexerState) (t : option (list Z)) : Prop :=
  match start_tag s, t with
  | None, None => True
  | Some b, Some t => read_cstring b = Done t ∧ t ≠ []
  | _, _ => False
  end.

(** The length of the string at the head of the input, while [t] is open. *)
Definition string_end `{!WCType} (t : option (list Z)) (rest : list Z) : option nat :=
  let '(k, b) := dollar_tag rest in
  let open := tag_string (take k rest) in
  if b && negb (bool_decide (t = Some open))
  then Nat.add k <$> find_end (S (length (drop k rest))) open (drop k rest)
  else None.

Lemma string_end_spec `{!WCType} t rest k :
  string_end t rest = Some k ↔
  ∃ open text more, rest = text ++ more ∧ k = length text ∧ sql_string open text ∧ t ≠ Some open.
Proof.
  unfold string_end. split.
  - destruct (dollar_tag rest) as [j b] eqn:Hd. destruct b; [|done]. case_bool_decide as Ht; [done|].
    intros (i&Hf&->)%fmap_Some. destruct (dollar_tag_true _ _ Hd) as (name&r&->&Hn&->).
    rewrite take_app_length in *. rewrite drop_app_length in Hf.
    destruct (find_end_sound _ _ _ _ Hf) as (body&name'&r'&->&->&Hp&Hn'&Ho).
    exists (tag_string (tag_of name)), (tag_of name ++ body ++ tag_of name'), r'.
    split_and!; [by rewrite <- !app_assoc|by rewrite !length_app| |done].
    by exists name, body, name'.
  - intros (open&text&more&->&->&(name&body&name'&->&Hn&Hn'&->&Hp&Ho)&Ht).
    rewrite <- !app_assoc, dollar_tag_of by done.
    rewrite take_app_length, drop_app_length, bool_decide_false by done. cbn [andb negb].
    rewrite (find_end_complete _ _ body name' more Hp Hn' Ho) by lia.
    apply (f_equal Some). rewrite !length_app. done.
Qed.

Section scanner.
Context {L : Type} {HL : TSLexer L} {HW : WCType} {HS : TSLexerSpec L}.

Lemma wp_same_tag tag other t n v y s (Q : post (S := LexerState) bool) :
  read_cstring other = Done t →
  (∃ b, tag = Some b ∧ ∃ u, read_cstring b = Done u ∧ Q (bool_decide (u = t)) v y s)
    ∨ (tag = None ∧ Q false v y s) →
  wp (same_tag tag other) n v y s Q.
Proof.
  intros Ho [(b&->&u&Hb&HQ)|[-> HQ]]; unfold same_tag; [|by wps].
  eapply wp_lift; [unfold strcmp_eq; rewrite Hb, Ho; reflexivity|done].
Qed.

Lemma wp_scan_string n v y s t (Q : post (S := LexerState) bool) :
  (rem v < n)%nat → tag_repr s t →
  let w := adv_span iswspace true (mark v) in
  match string_end t (v_rest w) with
  | Some k => Q true (mark (adv_n false k w)) 2 s
  | None => ∀ v', advanced v v' → Q false v' y s
  end →
  wp scan_string n v y s Q.
Proof.
  intros Hn Ht w HQ. assert (advanced v w) as Hw by (unfold w; auto with scan).
  pose proof (advanced_rem _ _ Hw). unfold scan_string. wps.
  apply wp_while_look; [apply iswspace_nul|by rewrite rem_mark|]. fold w. wps.
  apply wp_scan_tag; [lia|]. intros r. unfold string_end in HQ.
  destruct (dollar_tag (v_rest w)) as [k b] eqn:Hd. cbn [fst snd]. destruct b.
  2: { intros ->. wps. apply HQ. etrans; [done|apply advanced_adv_n]. }
  intros (b&->&Hb). wps.
  set (open := tag_string (take k (v_rest w))) in *.
  assert (∀ Q : post (S := LexerState) bool,
    Q (bool_decide (t = Some open)) (adv_n false k w) y s →
    wp (same_tag (start_tag s) b) n (adv_n false k w) y s Q) as Hsame.
  { intros Q' HQ'. eapply wp_same_tag; [done|]. unfold tag_repr in Ht.
    destruct (start_tag s) as [b0|], t as [t|]; try done; [left|by right].
    exists b0. split; [done|]. exists t. split; [apply Ht|].
    rewrite (bool_decide_ext _ (Some t = Some open)) by (split; congruence). exact HQ'. }
  apply Hsame. case_bool_decide as Ho; cbn [andb negb] in HQ; wps.
  - apply HQ. etrans; [done|apply advanced_adv_n].
  - apply wp_string_loop with (open := open); [done| |].
    { pose proof (advanced_rem _ _ (advanced_adv_n false k w)). lia. }
    rewrite rest_adv_n. replace (rem (adv_n false k w)) with (length (drop k (v_rest w)))
      by (unfold rem; by rewrite rest_adv_n).
    destruct (find_end _ _ _) as [i|]; cbn [fmap option_fmap option_map] in HQ.
    + rewrite adv_n_add, Nat.add_comm. exact HQ.
    + intros v' Hv'. apply HQ. etrans; [exact Hw|]. etrans; [apply advanced_adv_n|done].
Qed.

(** A tag at the head of the input, behind white space. *)
Lemma wp_space_tag {A} n v y s (k : option block → M L LexerState A) (Q : post (S := LexerState) A) :
  (rem v < n)%nat →
  let w := adv_span iswspace true v in
  let i := fst (dollar_tag (v_rest w)) in
  (∀ r, (if snd (dollar_tag (v_rest w))
         then ∃ b, r = Some b ∧ read_cstring b = Done (tag_string (take i (v_rest w)))
         else r = None) →
    wp (k r) n (adv_n false i w) y s Q) →
  wp (while_look iswspace true;; bind scan_dollar_string_tag k) n v y s Q.
Proof.
  intros Hn w i Hk. wp_step. apply wp_while_look; [apply iswspace_nul|done|]. fold w. wp_step.
  apply wp_scan_tag; [|done]. pose proof (advanced_rem _ _ (advanced_adv_span iswspace true v)).
  unfold w. lia.
Qed.

Lemma wp_start_tag (valid_symbols : TokenType → bool) n v y s (Q : post (S := LexerState) bool) :
  (rem v < n)%nat → tag_repr s None → valid_symbols DOLLAR_QUOTED_STRING_START_TAG = true →
  let w := adv_span iswspace true v in
  let '(k, b) := dollar_tag (v_rest w) in
  (∀ s', tag_repr s' (if b then Some (tag_string (take k (v_rest w))) else None) →
    Q b (adv_n false k w) (if b then 0 else y) s') →
  wp (tree_sitter_sql_external_scanner_scan valid_symbols) n v y s Q.
Proof.
  intros Hn Hs Hv w. destruct (dollar_tag (v_rest w)) as [k b] eqn:Hd. intros HQ.
  unfold tree_sitter_sql_external_scanner_scan. do 2 wp_step. unfold tag_repr in Hs.
  destruct (start_tag s) eqn:Hst; [done|]. rewrite Hv. apply wp_space_tag; [done|]. intros r.
  fold w. rewrite Hd. cbn [fst snd]. destruct b.
  - intros (b&->&Hb). wps. apply HQ. split; [done|]. eapply dollar_tag_nonempty. by rewrite Hd.
  - intros ->. wps. apply HQ. unfold tag_repr. by rewrite Hst.
Qed.

Lemma wp_end_tag (valid_symbols : TokenType → bool) n v y s t (Q : post (S := LexerState) bool) :
  (rem v < n)%nat → tag_repr s (Some t) → valid_symbols DOLLAR_QUOTED_STRING_END_TAG = true →
  let w := adv_span iswspace true v in
  let '(k, b) := dollar_tag (v_rest w) in
  let r := b && bool_decide (tag_string (take k (v_rest w)) = t) in
  (∀ s', tag_repr s' (if r then None else Some t) →
    Q r (adv_n false k w) (if r then 1 else y) s') →
  wp (tree_sitter_sql_external_scanner_scan valid_symbols) n v y s Q.
Proof.
  intros Hn Hs Hv w. destruct (dollar_tag (v_rest w)) as [k b] eqn:Hd. intros r HQ.
  unfold tree_sitter_sql_external_scanner_scan. do 2 wp_step. pose proof Hs as Hs'.
  unfold tag_repr in Hs'. destruct (start_tag s) as [b0|] eqn:Hst; [|done]. rewrite Hv.
  apply wp_space_tag; [done|]. intros tag. fold w. rewrite Hd. cbn [fst snd]. intros Htag. wp_step.
  eapply wp_same_tag; [apply Hs'|]. destruct b; [left|right].
  - destruct Htag as (b&->&Hb). exists b. split; [done|]. eexists; split; [done|].
    cbn [andb] in r. unfold r in HQ. case_bool_decide; wps; by apply HQ.
  - split; [done|]. wps. by apply HQ.
Qed.

(** The tag that the scanner looks for first. *)
Definition tag_symbol (t : option (list Z)) : TokenType :=
  match t with
  | Some _ => DOLLAR_QUOTED_STRING_END_TAG
  | None => DOLLAR_QUOTED_STRING_START_TAG
  end.

(** The symbols for which the scanner looks for a whole string. *)
Definition string_only (valid_symbols : TokenType → bool) (t : option (list Z)) : bool :=
  valid_symbols DOLLAR_QUOTED_STRING
    && negb (valid_symbols (tag_symbol t)).

Lemma wp_only_string (valid_symbols : TokenType → bool) n v y s t (Q : post (S := LexerState) bool) :
  tag_repr s t → string_only valid_symbols t = true →
  wp scan_string n v y s Q →
  wp (tree_sitter_sql_external_scanner_scan valid_symbols) n v y s Q.
Proof.
  unfold tag_repr, string_only. intros Hs [Hv Hn%negb_true_iff]%andb_prop HQ.
  unfold tree_sitter_sql_external_scanner_scan. do 2 wp_step.
  destruct (start_tag s), t; try done; cbn [tag_symbol] in Hn; by rewrite Hn, Hv.
Qed.

(** Every call ends, moves forward, and leaves a state that stands for a tag. *)
Lemma wp_sql_scan (valid_symbols : TokenType → bool) n v y s t :
  (rem v < n)%nat → tag_repr s t →
  wp (tree_sitter_sql_external_scanner_scan valid_symbols) n v y s
    (λ r v' y' s', advanced v v' ∧ ∃ t', tag_repr s' t'
      ∧ (t' ≠ t → r = true ∧ (t = None ∧ y' = 0 ∨ t' = None ∧ y' = 1))).
Proof.
  intros Hn Hs. destruct (string_only valid_symbols t) eqn:Hso.
  { eapply wp_only_string; [done..|]. apply wp_scan_string with (t := t); [done..|].
    destruct (string_end _ _); [|intros v' Hv']; (split; [|by exists t]); [|done].
    apply mark_r. etrans; [|apply advanced_adv_n]. auto with scan. }
  destruct (valid_symbols (tag_symbol t)) eqn:Hv.
  - assert (∀ k, advanced v (adv_n false k (adv_span iswspace true v))) as Hadv.
    { intros k. etrans; [|apply advanced_adv_n]. auto with scan. }
    destruct t as [t|].
    + pose proof (wp_end_tag valid_symbols n v y s t) as H. cbv zeta in H.
      destruct (dollar_tag _) as [k b]. apply H; [done..|]. intros s' Hs'. split; [done|].
      eexists; split; [exact Hs'|]. case_match; [|done]. auto.
    + pose proof (wp_start_tag valid_symbols n v y s) as H. cbv zeta in H.
      destruct (dollar_tag _) as [k b]. apply H; [done..|]. intros s' Hs'. split; [done|].
      eexists; split; [exact Hs'|]. destruct b; [|done]. auto.
  - unfold string_only in Hso. rewrite Hv, andb_true_r in Hso.
    unfold tree_sitter_sql_external_scanner_scan. do 2 wp_step. pose proof Hs as Hs'.
    unfold tag_repr in Hs'. destruct (start_tag s), t; try done; cbn [tag_symbol] in Hv;
      rewrite Hv, Hso; wps;
      (split; [done|]); by eexists.
Qed.
End scanner.

(** ** Serialization *)

(** The bytes that are saved. *)
Definition serialize_bytes (s : LexerState) : outcome (list Z) :=
  let? '(bytes, s') := tree_sitter_sql_external_scanner_serialize s in Done bytes.

(** A tag that fits the buffer, with its terminator and a byte to spare. *)
Definition tag_fits (t : option (list Z)) : Prop :=
  match t with
  | None => True
  | Some t => no_nul t ∧ Z.of_nat (length t) + 1 < 1024
  end.

Lemma tag_repr_fits s t : tag_repr s t → (∀ u, t = Some u → Z.of_nat (length u) + 1 < 1024) →
  tag_fits t.
Proof.
  unfold tag_repr. intros Hs Hl. destruct (start_tag s) as [b|], t as [t|]; try done.
  destruct Hs as [Hb _]. split; [by eapply read_cstring_inv|auto].
Qed.

Lemma serialize_tag s t : tag_repr s (Some t) → Z.of_nat (length t) + 1 < 1024 →
  tree_sitter_sql_external_scanner_serialize s = Done (t ++ [0], mkState None).
Proof.
  unfold tag_repr, tree_sitter_sql_external_scanner_serialize.
  destruct (start_tag s) as [b|]; [|done]. intros [Hb _] Hl. rewrite Hb. cbn [obind].
  unfold TREE_SITTER_SERIALIZATION_BUFFER_SIZE. replace (_ <=? _) with false by lia.
  destruct (read_cstring_inv _ _ Hb) as (_&junk&->).
  replace ((Some <$> t) ++ Some 0 :: junk) with ((Some <$> (t ++ [0])) ++ junk)
    by (by rewrite fmap_app, <- app_assoc).
  replace (Z.to_nat _) with (length (t ++ [0])) by (rewrite length_app; simpl; lia).
  by rewrite read_block_app.
Qed.

#[export] Instance sql_codec : ScannerCodec tag_repr
  (λ t, tag_fits t ∧ t ≠ Some []) serialize_bytes tree_sitter_sql_external_scanner_deserialize.
Proof.
  refine {| encode := λ t, match t with Some t => t ++ [0] | None => [] end |}.
  - intros [t|] [Ht _]; simpl in *; [|unfold SERIALIZATION_BUFFER_SIZE; lia].
    rewrite length_app. unfold SERIALIZATION_BUFFER_SIZE. simpl. lia.
  - intros s [t|] Hs [Ht _]; unfold serialize_bytes.
    + by rewrite (serialize_tag s t) by (done || apply Ht).
    + unfold tag_repr in Hs. unfold tree_sitter_sql_external_scanner_serialize.
      by destruct (start_tag s).
  - intros s0 a0 [t|] _ [Ht Hne]; [|by exists (mkState None)].
    unfold tree_sitter_sql_external_scanner_deserialize. rewrite length_app. simpl.
    replace (1 <? _) with true by (destruct t; [done|simpl; lia]). eexists; split; [done|].
    split; [|congruence]. rewrite fmap_app.
    change (read_cstring ((Some <$> t) ++ Some 0 :: []) = Done t).
    by rewrite read_cstring_app, c_string_no_nul by apply Ht.
  - unfold tag_repr. intros s [t1|] [t2|]; destruct (start_tag s); try done.
    intros [H1 _] [H2 _]. congruence.
Defined.

(** ** Properties of the SQL scanner *)





(** Where an end tag may come and [open] is open, the scanner skips white
    space and returns [true] exactly in front of a tag that is stored as
    [open]; no tag is open after that, and [open] still is otherwise. *)
Theorem sql_end_tag {L} {HL : TSLexer L} {HW : WCType} {HS : TSLexerSpec L}
    (valid_symbols : TokenType → bool) n l y s open :
  (rem (view_of l) < n)%nat → v_start (view_of l) = v_pos (view_of l) → v_end (view_of l) = None →
  tag_repr s (Some open) → valid_symbols DOLLAR_QUOTED_STRING_END_TAG = true →
  ∃ r l' y' s',
    tree_sitter_sql_external_scanner_scan valid_symbols n (mkst l y s) = Done (r, mkst l' y' s')
    ∧ (r = true ↔ ∃ name more, after_space (v_rest (view_of l)) = tag_of name ++ more
                               ∧ tag_name name ∧ tag_string (tag_of name) = open)
    ∧ if r then after_space (v_rest (view_of l)) = token_text (view_of l') ++ v_rest (view_of l')
          ∧ y' = TokenType_to_Z DOLLAR_QUOTED_STRING_END_TAG ∧ tag_repr s' None
      else tag_repr s' (Some open).
Proof.
  intros Hn Hst Hen Hs Hv. destruct (wp_run (tree_sitter_sql_external_scanner_scan valid_symbols)
    n l y s (λ r v' y' s',
      (r = true ↔ ∃ name more, after_space (v_rest (view_of l)) = tag_of name ++ more
                               ∧ tag_name name ∧ tag_string (tag_of name) = open)
      ∧ if r then after_space (v_rest (view_of l)) = token_text v' ++ v_rest v' ∧ y' = 1
            ∧ tag_repr s' None
        else tag_repr s' (Some open))) as (r&l'&y'&s'&Hrun&HQ); [|by exists r, l', y', s'].
  pose proof (wp_end_tag valid_symbols n (view_of l) y s open) as H. cbv zeta in H.
  set (w := adv_span iswspace true (view_of l)) in *. unfold after_space.
  rewrite <- (rest_adv_span iswspace true). fold w.
  assert (v_start w = v_pos w) as Hw by (by apply v_start_skip).
  assert (v_end w = None) as Hw' by (unfold w; by rewrite v_end_adv_span).
  destruct (dollar_tag (v_rest w)) as [k b] eqn:Hd. apply H; [done..|]. intros s' Hs'.
  destruct b; cbn [andb] in *.
  - destruct (dollar_tag_true _ _ Hd) as (name&more&Hr&Hname&->).
    rewrite Hr, take_app_length in *. split.
    + rewrite bool_decide_eq_true. split; [by exists name, more|].
      intros (name'&more'&Heq&Hn'&<-). pose proof (dollar_tag_of name' more' Hn') as Hd'.
      rewrite <- Heq, Hd in Hd'. injection Hd' as Hl.
      by destruct (app_inj_1 (tag_of name) (tag_of name') more more' (f_equal S Hl) Heq)
        as [-> _].
    + case_bool_decide; [|done]. split_and!; [|done..].
      rewrite token_text_no_mark, rest_adv_n, Hr, take_drop by
        (done || (unfold rem; rewrite Hr, length_app; lia)).
      done.
  - split; [|done]. split; [done|]. intros (name&more&Heq&Hn'&_).
    rewrite Heq, dollar_tag_of in Hd by done. done.
Qed.

Lemma sql_end_tag_witness :
  ∃ r l' y' s',
    tree_sitter_sql_external_scanner_scan (λ _, true) 20%nat
        (mkst (input (cstr "$a$")) 0 (mkState (Some (Some <$> cstr "$a$" ++ [0]))))
      = Done (r, mkst l' y' s')
    ∧ (r = true ↔ ∃ name more, cstr "$a$" = tag_of name ++ more
                               ∧ tag_name name ∧ tag_string (tag_of name) = cstr "$a$")
    ∧ if r then cstr "$a$" = token_text l' ++ v_rest l' ∧ y' = 1 ∧ tag_repr s' None
      else tag_repr s' (Some (cstr "$a$")).
Proof.
  refine (sql_end_tag (λ _, true) 20%nat (input (cstr "$a$")) 0
    (mkState (Some (Some <$> cstr "$a$" ++ [0]))) (cstr "$a$") _ _ _ _ _);
    [vm_compute; lia|done..].
Defined.



(** Saving the state and restoring the bytes, over any other state, gives
    back the tag that was open, if its length is below 1023. *)
Theorem sql_serialize_roundtrip s t s0 t0 :
  tag_repr s t → (∀ tag, t = Some tag → Z.of_nat (length tag) + 1 < 1024) → tag_repr s0 t0 →
  ∃ buffer s', serialize_bytes s = Done buffer
    ∧ (length buffer ≤ SERIALIZATION_BUFFER_SIZE)%nat
    ∧ tree_sitter_sql_external_scanner_deserialize s0 buffer = Done s' ∧ tag_repr s' t.
Proof.
  intros Hs Hl H0. eapply (codec_roundtrip (HC := sql_codec)); [done| |done].
  split; [by eapply tag_repr_fits|]. unfold tag_repr in Hs. destruct (start_tag s), t; try done.
  destruct Hs as [_ Hne]. congruence.
Qed.

Lemma sql_serialize_roundtrip_witness :
  ∃ buffer s', serialize_bytes (mkState (Some (Some <$> cstr "$a$" ++ [0]))) = Done buffer
    ∧ (length buffer ≤ SERIALIZATION_BUFFER_SIZE)%nat
    ∧ tree_sitter_sql_external_scanner_deserialize (mkState None) buffer = Done s'
    ∧ tag_repr s' (Some (cstr "$a$")).
Proof.
  refine (sql_serialize_roundtrip (mkState (Some (Some <$> cstr "$a$" ++ [0])))
    (Some (cstr "$a$")) (mkState None) None _ _ _); [done| |done].
  intros tag [= <-]. by vm_compute.
Defined.

(** A tag of 1023 characters or more is saved as nothing, so that no tag
    is open when the state is restored. *)
Theorem sql_long_tag_lost s tag s0 :
  tag_repr s (Some tag) → 1024 ≤ Z.of_nat (length tag) + 1 →
  serialize_bytes s = Done []
  ∧ tree_sitter_sql_external_scanner_deserialize s0 [] = Done (mkState None).
Proof.
  intros Hs Hl. split; [|done]. unfold serialize_bytes, tag_repr,
    tree_sitter_sql_external_scanner_serialize, TREE_SITTER_SERIALIZATION_BUFFER_SIZE in *.
  destruct (start_tag s) as [b|]; [|done]. destruct Hs as [Hb _]. rewrite Hb. cbn [obind].
  by replace (_ <=? _) with true by lia.
Qed.

Lemma sql_long_tag_lost_witness :
  serialize_bytes (mkState (Some (Some <$> replicate 1023 97 ++ [0]))) = Done []
  ∧ tree_sitter_sql_external_scanner_deserialize (mkState None) [] = Done (mkState None).
Proof.
  refine (sql_long_tag_lost (mkState (Some (Some <$> replicate 1023 97 ++ [0])))
    (replicate 1023 97) (mkState None) _ _); [by vm_compute|by vm_compute].
Defined.

(** Scan for a whole string in the C locale. *)
Definition scan_whole (s : list Z) : outcome (bool * list Z) :=
  let? '(r, t) := tree_sitter_sql_external_scanner_scan
    (λ x, bool_decide (x = DOLLAR_QUOTED_STRING)) (S (length s))
    (mkst (input s) 0 tree_sitter_sql_external_scanner_create) in
  Done (r, if (r : bool) then token_text (lex t) else []).

(** A dollar sign in the body that is not followed by white space hides the
    end tag behind it: [$x$ a $y$x$] holds [$x$] again, but the scanner reads
    [$y$] as a tag, [x$] as text, and finds no end. *)
Theorem sql_overlapping_end_tag :
  scan_whole (cstr "$x$ a $x$") = Done (true, cstr "$x$ a $x$")
  ∧ scan_whole (cstr "$x$ a $y$x$") = Done (false, []).
Proof. split; by vm_compute. Qed.

(** The characters of a tag are truncated to eight bits, so that a tag of
    the letter U+0178 closes a string that was opened with [$x$]. *)
Theorem sql_tag_truncated :
  scan_whole (cstr "$x$ a " ++ [36; 376; 36]) = Done (true, cstr "$x$ a " ++ [36; 376; 36]).
Proof. by vm_compute. Qed.
