(* ===== verification/SqlReplay.v ===== *)
(** * Replay of the SQL scanner

    The scan sees the characters of the open tag, and not its block. *)

From S2P Require Import Prelude CArray CString Codec Scan Logic Replay Session Sql SqlProofs.

(** No open tag, or tags with the same characters. *)
Definition same_tags (s1 s2 : LexerState) : Prop :=
  match start_tag s1, start_tag s2 with
  | None, None => True
  | Some b1, Some b2 => read_cstring b1 = read_cstring b2
  | _, _ => False
  end.

Lemma same_tags_of s1 s2 t : tag_repr s1 t → tag_repr s2 t → same_tags s1 s2.
Proof.
  unfold tag_repr, same_tags. destruct (start_tag s1), (start_tag s2), t; try done. intros [H1 _] [H2 _]. congruence.
Qed.

Lemma same_tags_repr s1 s2 t : same_tags s1 s2 → tag_repr s1 t → tag_repr s2 t.
Proof. unfold tag_repr, same_tags. destruct (start_tag s1), (start_tag s2), t; try done. by intros ->. Qed.

Section replay.
Context {L : Type} {HL : TSLexer L} {HW : WCType}.
Local Abbreviation sim := (sim (L := L) same_tags).

Lemma sim_same_tag tag b1 b2 : read_cstring b1 = read_cstring b2 → sim eq (same_tag tag b1) (same_tag tag b2).
Proof. intros H. unfold same_tag, strcmp_eq. rewrite H. sim_tac. Qed.

Lemma sim_scan_string : sim eq scan_string scan_string.
Proof.
  unfold scan_string. do 2 (apply sim_bind_eq; [sim_tac|intros _]). apply sim_get. intros s1 s2 H.
  apply sim_bind_eq; [sim_tac|]. intros [tag|]; [|sim_tac].
  apply sim_bind_eq; [|sim_tac]. unfold same_tags in H.
  destruct (start_tag s1), (start_tag s2); try done. unfold same_tag, strcmp_eq. rewrite H. sim_tac.
Qed.

Lemma sim_set_tag t : sim eq (set_payload (mkState t)) (set_payload (mkState t)).
Proof. apply sim_set. by destruct t. Qed.
#[local] Hint Resolve sim_scan_string sim_set_tag sim_same_tag : sim.

Lemma sim_sql_scan vs : sim eq (tree_sitter_sql_external_scanner_scan vs) (tree_sitter_sql_external_scanner_scan vs).
Proof.
  unfold tree_sitter_sql_external_scanner_scan. apply sim_get. intros s1 s2 H. unfold same_tags in H.
  destruct (start_tag s1) as [b1|], (start_tag s2) as [b2|]; try done; sim_tac.
Qed.
End replay.

(** Restoring what was saved is as good as going on: the scan from a restored
    tag, on any input, gives the token of the scan from the saved one, leaves the
    lexer at the same place, and the same tag open. *)
Theorem sql_replay {L} {HL : TSLexer L} {HW : WCType} {HS : TSLexerSpec L}
    (valid_symbols : TokenType → bool) n l y s t s0 t0 :
  (rem (view_of l) < n)%nat → tag_repr s t → (∀ tag, t = Some tag → Z.of_nat (length tag) + 1 < 1024) → tag_repr s0 t0 →
  ∃ buffer s' b l' y' s1 s2 t',
    serialize_bytes s = Done buffer ∧ tree_sitter_sql_external_scanner_deserialize s0 buffer = Done s'
    ∧ tree_sitter_sql_external_scanner_scan valid_symbols n (mkst l y s) = Done (b, mkst l' y' s1)
    ∧ tree_sitter_sql_external_scanner_scan valid_symbols n (mkst l y s') = Done (b, mkst l' y' s2)
    ∧ tag_repr s1 t' ∧ tag_repr s2 t'.
Proof.
  intros Hn Hs Hl H0. apply (codec_replay (HC := sql_codec) same_tags _ n l y s t s0 t0); [| | |done| |done].
  - intros s1 s2 H1 H2. apply sim_sql_scan. by eapply same_tags_of.
  - apply same_tags_repr.
  - intros u Hu. destruct (wp_run _ n l y u _ (wp_sql_scan valid_symbols n _ y u t Hn Hu)) as (r&l'&y'&s'&E&_&t'&Hs'&_).
    by eexists _, _, _, _, _.
  - split; [by eapply tag_repr_fits|]. unfold tag_repr in Hs. destruct (start_tag s), t; try done.
    destruct Hs as [_ Hne]. congruence.
Qed.

Lemma sql_replay_witness :
  ∃ buffer s' b l' y' s1 s2 t',
    serialize_bytes (mkState (Some (Some <$> cstr "$a$" ++ [0]))) = Done buffer
    ∧ tree_sitter_sql_external_scanner_deserialize (mkState None) buffer = Done s'
    ∧ tree_sitter_sql_external_scanner_scan (λ _, true) 20%nat
        (mkst (input (cstr " $a$")) 0 (mkState (Some (Some <$> cstr "$a$" ++ [0])))) = Done (b, mkst l' y' s1)
    ∧ tree_sitter_sql_external_scanner_scan (λ _, true) 20%nat (mkst (input (cstr " $a$")) 0 s') = Done (b, mkst l' y' s2)
    ∧ tag_repr s1 t' ∧ tag_repr s2 t'.
Proof.
  refine (sql_replay (λ _, true) 20%nat (input (cstr " $a$")) 0 (mkState (Some (Some <$> cstr "$a$" ++ [0])))
    (Some (cstr "$a$")) (mkState None) None _ _ _ _); [vm_compute; lia|done| |done].
  intros tag [= <-]. by vm_compute.
Defined.

(** ** Sessions *)

Lemma tag_repr_functional s t1 t2 : tag_repr s t1 → tag_repr s t2 → t1 = t2.
Proof. apply (codec_functional (ScannerCodec := sql_codec)). Qed.

#[export] Instance sql_runtime {L} `{HS : TSLexerSpec L} {HW : WCType} :
  RuntimeScanner (L := L) tree_sitter_sql_external_scanner_scan tree_sitter_sql_external_scanner_serialize
    tree_sitter_sql_external_scanner_deserialize tag_repr tag_fits enough_fuel.
Proof.
  split.
  - apply tag_repr_functional.
  - intros vs n l y s1 s2 t H1 H2 _ Hn. eapply same_call.
    + apply sim_sql_scan. by eapply same_tags_of.
    + intros s Hs. assert (tag_repr s t) as Hr by (by destruct Hs as [->| ->]).
      destruct (wp_run _ n l y s _ (wp_sql_scan vs n _ y s t Hn Hr)) as (r&l'&y'&u&E&_&t'&Hu&_).
      exists r, l', y', u. split; [done|]. by exists t'.
    + apply same_tags_repr.
  - intros s t Hs Hf. assert (t ≠ Some []) as Hne by (intros ->; unfold tag_repr in Hs; destruct (start_tag s); [by destruct Hs|done]).
    destruct (codec_restores (HC := sql_codec) s t Hs (conj Hf Hne)) as (buffer&E&Hfit&Hr). unfold serialize_bytes in E.
    destruct t as [t|].
    + rewrite (serialize_tag s t Hs (proj2 Hf)) in E |- *. injection E as <-. by eexists _, (mkState None), None.
    + exists buffer, s, None. unfold tag_repr in Hs. unfold tree_sitter_sql_external_scanner_serialize in *.
      destruct (start_tag s) eqn:Ht; [done|]. injection E as <-. split_and!; [done..| |done]. unfold tag_repr. by rewrite Ht.
Qed.

(** No bytes stand for no open tag. *)
Lemma sql_start : restores tree_sitter_sql_external_scanner_deserialize tag_repr tag_fits (mkState None) [].
Proof. exists None. split_and!; [done..|]. intros s0 a0 _. by exists (mkState None). Qed.


(** A start tag, a string in it, the end tag; and the end tag once more, behind
    another string, from the state behind the start tag. *)
Definition sql_session : list (call view (TokenType → bool)) :=
  [Call 0 (λ _, true) 20 (input (cstr "$a$ x")) 0; Call 1 (λ t, bool_decide (t = DOLLAR_QUOTED_STRING)) 20 (input (cstr "$b$x$b$")) 0;
   Call 2 (λ _, true) 20 (input (cstr " $a$")) 0; Call 1 (λ _, true) 20 (input (cstr "$a$")) 0].

