(* ===== verification/VcVector.v ===== *)
(** * Vectors and strings of the Svelte scanner

    [vc_vector.h]: a block of [reserved_size] bytes that holds [count] elements
    of [element_size] bytes, with byte offsets as the code computes them. What
    a byte is, is a parameter. [ekstring.h]: immutable character blocks with a
    length. Blocks are released with the allocator only, so that a pointer to a
    string is its contents; an access outside the requested size is
    [Undefined]. Allocation is taken to succeed. Sizes are taken to be below
    2^53, where the growth by a [double] factor is exact. *)

From S2P Require Import Prelude CArray CString.

(** ** Vectors *)

Record vc_vector (B : Type) := mkVector {
  count : Z;
  element_size : Z;
  reserved_size : Z;
  vdata : list (option B);
}.
Arguments mkVector {B} count element_size reserved_size vdata.
Arguments count {B} v : rename.
Arguments element_size {B} v : rename.
Arguments reserved_size {B} v : rename.
Arguments vdata {B} v : rename.

Definition DEFAULT_COUNT_OF_ELEMENTS : Z := 8.
Definition MINIMUM_COUNT_OF_ELEMENTS : Z := 2.

(** Conversion to [size_t]. *)
Definition to_size (z : Z) : Z := z mod 18446744073709551616.

Section vector.
Context {B : Type}.
Implicit Types v : vc_vector B.

(** A block that was not written yet. *)
Definition za_Alloc (size : Z) : list (option B) := replicate (Z.to_nat size) None.

Definition za_ReAlloc (addr : list (option B)) (size : Z) : list (option B) :=
  let kept := take (Z.to_nat size) addr in
  kept ++ za_Alloc (size - Z.of_nat (length kept)).

Definition vc_vector_create (count_elements size_of_element : Z) : vc_vector B :=
  let count_elements :=
    if count_elements <? MINIMUM_COUNT_OF_ELEMENTS then DEFAULT_COUNT_OF_ELEMENTS
    else count_elements in
  mkVector 0 size_of_element (count_elements * size_of_element)
    (za_Alloc (size_of_element * count_elements)).

(** The offset of an element in the block. *)
Definition vc_vector_at v (index : Z) : Z := index * element_size v.

Definition vc_vector_count v : Z := count v.

Definition vc_vector_clear v : vc_vector B :=
  mkVector 0 (element_size v) (reserved_size v) (vdata v).

Definition vc_vector_back v : Z := (count v - 1) * element_size v.

Definition vc_vector_realloc v (new_count : Z) : vc_vector B :=
  let new_size := new_count * element_size v in
  mkVector (count v) (element_size v) new_size (za_ReAlloc (vdata v) new_size).

(** The copies of the default value for the indices [i .. i + n - 1]; the
    offset is the index, it is not scaled. *)
Fixpoint resize_loop (n : nat) (data : list (option B)) (i : Z) (default : list (option B))
  : outcome (list (option B)) :=
  match n with
  | O => Done data
  | S n =>
      let? data := memcpy data i default in
      resize_loop n data (i + 1) default
  end.

(** Trimming only calls the deleter, and leaves the vector as it is. *)
Definition vc_vector_resize v (new_count : Z) (defaultValue : list (option B))
  : outcome (vc_vector B) :=
  let old_count := count v in
  if new_count =? old_count then Done v
  else if new_count <? old_count then Done v
  else
    let old_capacity := reserved_size v in
    let v := if old_capacity <? new_count then vc_vector_realloc v new_count else v in
    let? data := resize_loop (Z.to_nat (new_count - old_count)) (vdata v) old_count defaultValue in
    Done (mkVector new_count (element_size v) (reserved_size v) data).

Definition vc_vector_max_count v : Z := reserved_size v / element_size v.

(** [max * GROWTH_FACTOR], truncated, until [count_new] fits. *)
Fixpoint growth_loop (fuel : nat) (count_new max : Z) : outcome Z :=
  if max <? count_new then
    match fuel with
    | O => OutOfFuel
    | S fuel => growth_loop fuel count_new (max * 3 / 2)
    end
  else Done max.

Definition vc_vector_append v (values : list (option B)) (n : Z) : outcome (vc_vector B) :=
  let count_new := n + vc_vector_count v in
  let? v :=
    if vc_vector_max_count v <? count_new then
      let? max := growth_loop (Z.to_nat count_new) count_new (vc_vector_max_count v * 3 / 2) in
      Done (vc_vector_realloc v max)
    else Done v in
  let? data := memcpy (vdata v) (count v * element_size v)
    (take (Z.to_nat (element_size v * n)) values) in
  Done (mkVector count_new (element_size v) (reserved_size v) data).

Definition vc_vector_push_back v (value : list (option B)) : outcome (vc_vector B) :=
  vc_vector_append v value 1.

Definition vc_vector_pop_back v : vc_vector B :=
  mkVector (to_size (count v - 1)) (element_size v) (reserved_size v) (vdata v).
End vector.

(** ** The deleter

    A function that is called with the address of an element that goes away, or
    [NULL]; [X] is the state that it changes. The operations above are those of a
    vector whose deleter does nothing, as that of the scanner; with another one
    they call it first, in this order. *)

Section deleter.
Context {B X : Type}.
Implicit Types (v : vc_vector B) (deleter : option (Z → X → outcome X)).

Definition call_deleter deleter (offset : Z) (x : X) : outcome X :=
  match deleter with Some f => f offset x | None => Undefined end.

(** The indices [i .. i + n - 1]. *)
Fixpoint deleter_loop (n : nat) deleter v (i : Z) (x : X) : outcome X :=
  match n with
  | O => Done x
  | S n => let? x := call_deleter deleter (vc_vector_at v i) x in deleter_loop n deleter v (i + 1) x
  end.

Definition vc_vector_call_deleter deleter v (first_index last_index : Z) (x : X) : outcome X :=
  deleter_loop (Z.to_nat (last_index - first_index)) deleter v first_index x.

Definition vc_vector_call_deleter_all deleter v (x : X) : outcome X :=
  vc_vector_call_deleter deleter v 0 (vc_vector_count v) x.

Definition vc_vector_clear_with deleter v (x : X) : outcome (vc_vector B * X) :=
  let? x := match deleter with Some _ => vc_vector_call_deleter_all deleter v x | None => Done x end in
  Done (vc_vector_clear v, x).

(** When it trims, [vc_vector_resize] does not ask whether there is a deleter. *)
Definition vc_vector_resize_with deleter v (new_count : Z) (defaultValue : list (option B)) (x : X)
  : outcome (vc_vector B * X) :=
  let? x := if new_count <? count v then vc_vector_call_deleter deleter v new_count (count v) x else Done x in
  let? v := vc_vector_resize v new_count defaultValue in
  Done (v, x).

Definition vc_vector_pop_back_with deleter v (x : X) : outcome (vc_vector B * X) :=
  let? x := match deleter with Some _ => call_deleter deleter (vc_vector_back v) x | None => Done x end in
  Done (vc_vector_pop_back v, x).
End deleter.

(** ** Strings *)

Record ekstring := mkString { buf : option (list (option Z)); slength : Z }.

Definition NaS : ekstring := mkString None 0.

(** [strncpy] from a pointer. *)
Definition strncpy_ptr (src : option (list (option Z))) (n : Z) : outcome (list Z) :=
  match src with
  | Some src => strncpy src (Z.to_nat n)
  | None => Undefined
  end.

Definition init_string_str (b : option (list (option Z))) (length : Z) : outcome ekstring :=
  let? s := strncpy_ptr b length in
  Done (mkString (Some ((Some <$> s) ++ [Some NUL])) length).

Definition init_string_string (str : ekstring) : outcome ekstring :=
  let? s := strncpy_ptr (buf str) (slength str + 1) in
  Done (mkString (Some (Some <$> s)) (slength str)).

(** [strncmp(a, b, n) == 0] *)
Fixpoint strncmp_eq (a b : list (option Z)) (n : nat) {struct n} : outcome bool :=
  match n, a, b with
  | O, _, _ => Done true
  | S n, Some x :: a, Some y :: b =>
      if negb (x =? y) then Done false
      else if x =? 0 then Done true
      else strncmp_eq a b n
  | _, _, _ => Undefined
  end.

Definition compare_string_string (s1 s2 : ekstring) : outcome bool :=
  if slength s1 =? slength s2 then
    match buf s1, buf s2 with
    | Some b1, Some b2 => strncmp_eq b1 b2 (Z.to_nat (slength s1))
    | _, _ => Undefined
    end
  else Done false.

Definition concat_string_string (s1 s2 : ekstring) : outcome ekstring :=
  let length := slength s1 + slength s2 + 1 in
  let s := za_Alloc length in
  let? b1 := strncpy_ptr (buf s1) (slength s1) in
  let? s := memcpy s 0 (Some <$> b1) in
  let? b2 := strncpy_ptr (buf s2) (slength s2) in
  let? s := memcpy s (slength s1) (Some <$> b2) in
  let? s := memcpy s length [Some NUL] in
  Done (mkString (Some s) (length - 1)).

(** [atoi]: white space, a sign, and the digits behind; a number that is no [int]
    is undefined. *)
Fixpoint atoi_digits (s : list (option Z)) (n : Z) : outcome Z :=
  match s with
  | Some c :: s' => if (48 <=? c) && (c <=? 57) then atoi_digits s' (10 * n + (c - 48)) else Done n
  | _ => Undefined
  end.

Definition atoi_signed (s : list (option Z)) : outcome Z :=
  match s with
  | Some c :: s' =>
      if c =? 45 then let? n := atoi_digits s' 0 in Done (- n)
      else if c =? 43 then atoi_digits s' 0 else atoi_digits s 0
  | _ => Undefined
  end.

Fixpoint atoi (s : list (option Z)) : outcome Z :=
  match s with
  | Some c :: s' =>
      if (c =? 32) || ((9 <=? c) && (c <=? 13)) then atoi s'
      else let? n := atoi_signed s in
           if (-2147483648 <=? n) && (n <? 2147483648) then Done n else Undefined
  | _ => Undefined
  end.

Definition parse_int (s1 : ekstring) : outcome Z :=
  match buf s1 with Some b => atoi b | None => Undefined end.

Definition get_string_cstring (s : ekstring) : option (list (option Z)) := buf s.

Definition concat_string_char (s1 : ekstring) (c : Z) : outcome ekstring :=
  match buf s1 with
  | None => Done (mkString (Some [Some c; Some NUL]) 1)
  | Some _ =>
      let length := slength s1 + 2 in
      let s := za_Alloc length in
      let? b := strncpy_ptr (buf s1) (slength s1) in
      let? s := memcpy s 0 (Some <$> b) in
      let? s := memcpy s (length - 2) [Some c] in
      let? s := memcpy s (length - 1) [Some NUL] in
      Done (mkString (Some s) (length - 1))
  end.
