(* ===== verification/VcVectorProofs.v ===== *)
(** * Properties of the vectors and strings of the Svelte scanner

    [vec_repr es v els]: the vector holds the elements [els], each of [es]
    bytes. [str_repr s chars]: the string is a terminated copy of [chars]. *)

From S2P Require Import Prelude CArray CArrayProofs CString VcVector.

(** ** Vectors *)

Section vector.
Context {B : Type}.
Implicit Types (v : vc_vector B) (els : list (list (option B))).

Definition vec_repr (es : nat) v els : Prop :=
  (0 < es)%nat ∧ element_size v = Z.of_nat es ∧ count v = Z.of_nat (length els)
  ∧ Forall (λ e, length e = es) els
  ∧ ∃ junk k, vdata v = concat els ++ junk ∧ (2 ≤ k)%nat
    ∧ length (vdata v) = (k * es)%nat ∧ reserved_size v = Z.of_nat (k * es).

Lemma length_concat_eq es els : Forall (λ e, length e = es) els →
  length (concat els) = (length els * es)%nat.
Proof. induction 1 as [|e els He _ IH]; simpl; [done|]. rewrite length_app, IH, He. done. Qed.

Lemma vec_repr_create es n : (0 < es)%nat → 2 ≤ n →
  vec_repr es (vc_vector_create n (Z.of_nat es)) [].
Proof.
  intros He Hn. unfold vc_vector_create, MINIMUM_COUNT_OF_ELEMENTS. replace (n <? 2) with false by lia.
  split_and!; [done..|constructor|]. simpl. eexists _, (Z.to_nat n). split_and!; [done|lia| |lia].
  unfold za_Alloc. rewrite length_replicate. lia.
Qed.

Lemma vec_repr_clear es v els : vec_repr es v els → vec_repr es (vc_vector_clear v) [].
Proof.
  intros (?&?&?&?&junk&k&?&?&?&?). split_and!; try done. exists (vdata v), k. done.
Qed.

Lemma vec_repr_nil es v els : vec_repr es v els → count v = 0 ↔ els = [].
Proof. intros (_&_&->&_). destruct els; simpl; split; intros; (done || lia). Qed.

Lemma vec_repr_pop es v els e : vec_repr es v (els ++ [e]) →
  Z.of_nat (length els) < 18446744073709551615 → vec_repr es (vc_vector_pop_back v) els.
Proof.
  intros (Hes&He&Hc&Hf&junk&k&Hd&Hk&Hl&Hr) Hlt. apply Forall_app in Hf as [Hf _].
  split_and!; [done|done| |done|].
  - simpl. rewrite Hc, length_app. simpl. unfold to_size. rewrite Z.mod_small; lia.
  - exists (e ++ junk), k. simpl. split_and!; [|done..].
    by rewrite Hd, concat_app, <- app_assoc; simpl; rewrite app_nil_r.
Qed.

(** The cells of an element. *)
Lemma vec_repr_element es v els i e off n : vec_repr es v els → els !! i = Some e →
  (off + n ≤ es)%nat →
  take n (drop (i * es + off) (vdata v)) = take n (drop off e)
  ∧ (i * es + off + n ≤ length (vdata v))%nat.
Proof.
  intros (Hes&_&_&Hf&junk&k&Hd&_) Hi Hn. rewrite Hd. clear Hd.
  assert (length e = es) as Hle by (by eapply Forall_lookup_1 in Hf).
  apply list_elem_of_split_length in Hi as (l1&l2&->&->).
  apply Forall_app in Hf as [Hf1 Hf2]. pose proof (length_concat_eq es l1 Hf1) as Hc.
  rewrite concat_app, <- app_assoc. simpl. rewrite <- app_assoc.
  rewrite drop_app_ge by lia. replace (_ - length (concat l1))%nat with off by lia.
  rewrite drop_app_le by lia. rewrite take_app_le by (rewrite length_drop; lia).
  split; [done|]. rewrite !length_app. lia.
Qed.

Lemma vec_repr_max es v els : vec_repr es v els →
  ∃ k, (2 ≤ k)%nat ∧ vc_vector_max_count v = Z.of_nat k ∧ reserved_size v = Z.of_nat (k * es)
    ∧ (length els ≤ k)%nat.
Proof.
  intros (Hes&He&Hc&Hf&junk&k&Hd&Hk&Hl&Hr). exists k. split_and!; [done| |done|].
  - unfold vc_vector_max_count. rewrite Hr, He. rewrite Nat2Z.inj_mul, Z.div_mul; lia.
  - rewrite Hd, length_app, (length_concat_eq es) in Hl by done. nia.
Qed.

(** More room, the same elements. *)
Lemma vec_repr_realloc es v els n : vec_repr es v els → vc_vector_max_count v ≤ n →
  vec_repr es (vc_vector_realloc v n) els ∧ vc_vector_max_count (vc_vector_realloc v n) = n.
Proof.
  intros Hv Hn. destruct (vec_repr_max _ _ _ Hv) as (k&Hk&Hm&_).
  destruct Hv as (Hes&He&Hc&Hf&junk&k'&Hd&Hk'&Hl&Hr). split.
  - split_and!; [done..|]. simpl. unfold za_ReAlloc. rewrite He.
    assert (k = k') as ->.
    { unfold vc_vector_max_count in Hm. rewrite Hr, He, Nat2Z.inj_mul, Z.div_mul in Hm; lia. }
    rewrite take_ge by nia.
    eexists _, (Z.to_nat n). rewrite Hd, <- app_assoc. split_and!; [done|lia| |lia].
    unfold za_Alloc. rewrite !app_assoc, length_app, length_replicate, <- Hd. nia.
  - unfold vc_vector_max_count. simpl. rewrite Z.div_mul; lia.
Qed.

(** The vector with other data. *)
Definition with_data v (d : list (option B)) : vc_vector B :=
  mkVector (count v) (element_size v) (reserved_size v) d.

(** Writing into an element. *)
Lemma vec_repr_write es v els i e off src : vec_repr es v els → els !! i = Some e →
  (off + length src ≤ es)%nat →
  ∃ d e', memcpy (vdata v) (Z.of_nat (i * es + off)) src = Done d
    ∧ memcpy e (Z.of_nat off) src = Done e' ∧ length e' = es
    ∧ vec_repr es (with_data v d) (<[i := e']> els).
Proof.
  intros (Hes&He&Hc&Hf&junk&k&Hd&Hk&Hl&Hr) Hi Hn.
  assert (length e = es) as Hle by (by eapply Forall_lookup_1 in Hf).
  assert (e = take off e ++ take (length src) (drop off e) ++ drop (off + length src) e) as Hsplit.
  { by rewrite <- drop_drop, !take_drop. }
  set (e1 := take off e) in *. set (e2 := take (length src) (drop off e)) in *.
  set (e3 := drop (off + length src) e) in *.
  assert (length e1 = off) as He1 by (unfold e1; rewrite length_take; lia).
  assert (length e2 = length src) as He2 by (unfold e2; rewrite length_take, length_drop; lia).
  assert (length e3 = (es - (off + length src))%nat) as He3 by (unfold e3; rewrite length_drop; lia).
  pose proof (list_elem_of_split_length _ _ _ Hi) as (l1&l2&Hels&Hi').
  rewrite Hels in Hf. apply Forall_app in Hf as [Hf1 Hf2]. apply Forall_cons in Hf2 as [_ Hf2].
  pose proof (length_concat_eq es l1 Hf1) as Hcl.
  exists ((concat l1 ++ e1) ++ src ++ e3 ++ concat l2 ++ junk), (e1 ++ src ++ e3).
  assert (length (e1 ++ src ++ e3) = es) as Hle' by (rewrite !length_app; lia).
  split_and!; [| |done|].
  - apply memcpy_at with e2; [|rewrite length_app; lia|done].
    rewrite Hd, Hels, concat_app. simpl. rewrite Hsplit at 1. by rewrite <- !app_assoc.
  - rewrite Hsplit at 1. apply memcpy_at with e2; [done|lia|done].
  - rewrite Hels, Hi', insert_app_r_alt, Nat.sub_diag by done. split_and!; [done|done| | |].
    + simpl. rewrite Hc, Hels, !length_app. done.
    + apply Forall_app; split; [done|by constructor].
    + exists junk, k. simpl. split_and!; [|done| |done].
      * rewrite concat_app. simpl. by rewrite <- !app_assoc.
      * rewrite <- Hl, Hd, Hels, concat_app. simpl. rewrite !length_app. lia.
Qed.

(** Any data can be read as elements. *)
Lemma split_elements es n (d : list (option B)) : (n * es ≤ length d)%nat →
  ∃ els junk, d = concat els ++ junk ∧ Forall (λ e, length e = es) els ∧ length els = n.
Proof.
  revert d. induction n as [|n IH]; intros d Hd; [by exists [], d|].
  destruct (IH (drop es d)) as (els&junk&Heq&Hf&Hl); [rewrite length_drop; lia|].
  exists (take es d :: els), junk. simpl. rewrite <- app_assoc, <- Heq, take_drop. split_and!; [done| |lia].
  constructor; [rewrite length_take; lia|done].
Qed.

Lemma memcpy_length (d : list (option B)) i src :
  0 ≤ i → i + Z.of_nat (length src) ≤ Z.of_nat (length d) →
  ∃ d', memcpy d i src = Done d' ∧ length d' = length d.
Proof.
  intros Hi Hl. unfold memcpy. replace (_ && _) with true by lia. eexists; split; [done|].
  rewrite !length_app, length_take, length_drop. lia.
Qed.

Lemma resize_loop_done n (d : list (option B)) i src : 0 ≤ i →
  (n = 0%nat ∨ i + Z.of_nat n - 1 + Z.of_nat (length src) ≤ Z.of_nat (length d)) →
  ∃ d', resize_loop n d i src = Done d' ∧ length d' = length d.
Proof.
  revert d i. induction n as [|n IH]; intros d i Hi Hn; [by exists d|]. cbn [resize_loop].
  destruct (memcpy_length d i src) as (d1&->&Hl1); [lia|lia|]. cbn [obind].
  destruct (IH d1 (i + 1)) as (d2&->&Hl2); [lia|lia|]. exists d2. split; [done|lia].
Qed.

(** The vector has room for [n] elements, as far as [vc_vector_resize] can tell:
    it compares a number of elements with a number of bytes. *)
Definition resize_fits (es : nat) v (n : nat) : Prop :=
  Z.of_nat (n * es) ≤ reserved_size v ∨ reserved_size v < Z.of_nat n.

Lemma vec_repr_resize es v n default : vec_repr es v [] → length default = es →
  resize_fits es v n →
  ∃ v' els, vc_vector_resize v (Z.of_nat n) default = Done v' ∧ vec_repr es v' els ∧ length els = n.
Proof.
  intros Hv Hdef Hfit. pose proof Hv as (Hes&He&Hc&_&junk&k&_&Hk&Hl&Hr).
  change (count v = 0) in Hc.
  unfold vc_vector_resize. rewrite Hc. destruct (decide (n = 0%nat)) as [->|Hn0].
  { exists v, []. done. }
  replace (Z.of_nat n =? 0) with false by lia. replace (Z.of_nat n <? 0) with false by lia.
  rewrite Z.sub_0_r, Nat2Z.id. cbv zeta.
  assert (∃ v1 k1, (if reserved_size v <? Z.of_nat n then vc_vector_realloc v (Z.of_nat n) else v) = v1
    ∧ element_size v1 = Z.of_nat es ∧ (2 ≤ k1)%nat ∧ length (vdata v1) = (k1 * es)%nat
    ∧ reserved_size v1 = Z.of_nat (k1 * es) ∧ (n ≤ k1)%nat) as (v1&k1&->&He1&Hk1&Hl1&Hr1&Hroom).
  { unfold resize_fits in Hfit. case_match eqn:E.
    - eexists _, n. split; [done|]. simpl. rewrite He. unfold za_ReAlloc, za_Alloc.
      rewrite length_app, length_take, length_replicate. split_and!; [done|nia|nia|lia|done].
    - exists v, k. split_and!; try done. nia. }
  destruct (resize_loop_done n (vdata v1) 0 default) as (d&->&Hd); [lia|right; nia|].
  cbn [obind]. destruct (split_elements es n d) as (els&junk1&Hdd&Hf&Hle); [nia|].
  eexists _, els. split; [done|]. split; [|done]. split_and!; [done|done|by rewrite <- Hle|done|].
  exists junk1, k1. simpl. split_and!; [done|done|lia|done].
Qed.

Lemma growth_loop_done n max fuel : n ≤ max → growth_loop fuel n max = Done max.
Proof. intros H. destruct fuel; simpl; by replace (max <? n) with false by lia. Qed.

Lemma vec_repr_push es v els e : vec_repr es v els → length e = es →
  ∃ v', vc_vector_push_back v e = Done v' ∧ vec_repr es v' (els ++ [e]).
Proof.
  intros Hv Hle. destruct (vec_repr_max _ _ _ Hv) as (k&Hk&Hm&_&Hlk).
  assert (∃ v1, (if vc_vector_max_count v <? 1 + vc_vector_count v then
        let? max := growth_loop (Z.to_nat (1 + vc_vector_count v)) (1 + vc_vector_count v)
                      (vc_vector_max_count v * 3 / 2) in Done (vc_vector_realloc v max)
      else Done v) = Done v1 ∧ vec_repr es v1 els
      ∧ Z.of_nat (length els) + 1 ≤ vc_vector_max_count v1) as (v1&Hrun&Hv1&Hroom).
  { assert (count v = Z.of_nat (length els)) as Hcount by apply Hv. unfold vc_vector_count.
    case_match eqn:E; [|exists v; split_and!; [done..|lia]].
    pose proof (Z_div_mod_eq_full (vc_vector_max_count v * 3) 2).
    pose proof (Z.mod_pos_bound (vc_vector_max_count v * 3) 2 ltac:(lia)).
    rewrite growth_loop_done by lia. cbn [obind].
    destruct (vec_repr_realloc es v els (vc_vector_max_count v * 3 / 2) Hv ltac:(lia)) as [Hv1 Hmax].
    eexists; split_and!; [done|done|lia]. }
  unfold vc_vector_push_back, vc_vector_append. rewrite Hrun. cbn [obind].
  destruct (vec_repr_max _ _ _ Hv1) as (k1&_&Hm1&Hr1&_).
  destruct Hv1 as (Hes&He&Hc&Hf&junk&k2&Hd&Hk2&Hl&Hr).
  pose proof (length_concat_eq es els Hf) as Hcl.
  assert (es ≤ length junk)%nat as Hj.
  { rewrite Hd, length_app, Hcl in Hl. assert (k1 = k2) by nia. nia. }
  rewrite take_ge by lia.
  rewrite (memcpy_at _ _ _ (concat els) (take es junk) (drop es junk));
    [|by rewrite Hd, take_drop|rewrite Hc, He; lia|rewrite length_take; lia].
  cbn [obind]. eexists; split; [done|]. split_and!; [done|done| | |].
  - destruct Hv as (_&_&Hc'&_). unfold vc_vector_count. simpl. rewrite length_app. simpl. lia.
  - apply Forall_app. split; [done|by constructor].
  - exists (drop es junk), k2. simpl. split_and!; [|done| |done].
    + rewrite concat_app, <- app_assoc. simpl. by rewrite app_nil_r.
    + rewrite !length_app, length_drop. rewrite Hd, length_app in Hl. lia.
Qed.

(** ** The deleter

    Seen through a deleter that notes the offsets it is called with. *)

Definition noting : option (Z → list Z → outcome (list Z)) := Some (λ offset x, Done (x ++ [offset])).

Definition offsets (es : nat) (i n : nat) : list Z := (λ k, Z.of_nat (k * es)) <$> seq i n.

Lemma deleter_loop_notes es v n i x : element_size v = Z.of_nat es →
  deleter_loop n noting v (Z.of_nat i) x = Done (x ++ offsets es i n).
Proof.
  intros He. revert i x. induction n as [|n IH]; intros i x; [cbn; by rewrite app_nil_r|].
  cbn [deleter_loop call_deleter noting obind]. rewrite Z.add_1_r, <- Nat2Z.inj_succ, IH.
  unfold offsets. cbn [seq fmap list_fmap]. rewrite <- app_assoc. cbn [app].
  unfold vc_vector_at. by rewrite He, <- Nat2Z.inj_mul.
Qed.

(** Clearing a vector passes every element to the deleter once, in order; popping
    passes the last one. *)
Lemma clear_deletes es v els : vec_repr es v els →
  vc_vector_clear_with noting v [] = Done (vc_vector_clear v, offsets es 0 (length els)).
Proof.
  intros (_&He&Hc&_). unfold vc_vector_clear_with, vc_vector_call_deleter_all, vc_vector_call_deleter, vc_vector_count.
  cbn [noting]. rewrite Hc, Z.sub_0_r, Nat2Z.id. by rewrite (deleter_loop_notes es v _ 0).
Qed.

Lemma pop_deletes es v els e : vec_repr es v (els ++ [e]) →
  vc_vector_pop_back_with noting v [] = Done (vc_vector_pop_back v, [Z.of_nat (length els * es)]).
Proof.
  intros (_&He&Hc&_). unfold vc_vector_pop_back_with, vc_vector_back. cbn. rewrite Hc, He, length_app. cbn.
  do 3 f_equal. lia.
Qed.

(** Trimming passes the elements behind the new number to the deleter, but it
    does not lower the count: they are passed once more when the vector is cleared. *)
Lemma trim_deletes_twice es v els n default : vec_repr es v els → (n < length els)%nat →
  vc_vector_resize_with noting v (Z.of_nat n) default [] = Done (v, offsets es n (length els - n))
  ∧ vc_vector_clear_with noting v (offsets es n (length els - n))
    = Done (vc_vector_clear v, offsets es n (length els - n) ++ offsets es 0 (length els)).
Proof.
  intros (_&He&Hc&_) Hn. unfold vc_vector_resize_with, vc_vector_clear_with, vc_vector_call_deleter_all,
    vc_vector_call_deleter, vc_vector_count, vc_vector_resize. rewrite Hc.
  replace (Z.of_nat n <? Z.of_nat (length els)) with true by lia. rewrite (deleter_loop_notes es) by done. split.
  - cbn [obind app]. replace (Z.of_nat n =? _) with false by lia. cbn [obind]. do 4 f_equal. lia.
  - cbn [noting]. rewrite Z.sub_0_r, Nat2Z.id. by rewrite (deleter_loop_notes es v _ 0).
Qed.

(** Without a deleter, trimming is undefined. *)
Lemma trim_without_deleter (X : Type) es v els n default (x : X) : vec_repr es v els → (n < length els)%nat →
  vc_vector_resize_with None v (Z.of_nat n) default x = Undefined.
Proof.
  intros (_&He&Hc&_) Hn. unfold vc_vector_resize_with, vc_vector_call_deleter. rewrite Hc.
  replace (Z.of_nat n <? Z.of_nat (length els)) with true by lia.
  by replace (Z.to_nat _) with (S (length els - n - 1)) by lia.
Qed.
End vector.

(** ** Strings *)

(** A string of [chars] with the terminator behind it. *)
Definition str_repr (s : ekstring) (chars : list Z) : Prop :=
  buf s = Some ((Some <$> chars) ++ [Some 0]) ∧ slength s = Z.of_nat (length chars).

(** What a string function keeps of a string: everything up to the first 0,
    filled up with zeros. *)
Definition norm (chars : list Z) : list Z := zero_pad chars (length chars).

Lemma length_norm chars : length (norm chars) = length chars.
Proof. by apply length_zero_pad. Qed.

Lemma norm_no_nul chars : no_nul chars → norm chars = chars.
Proof. intros H. unfold norm. by rewrite zero_pad_no_nul, Nat.sub_diag, app_nil_r. Qed.

Lemma c_string_norm chars : c_string (norm chars) = c_string chars.
Proof. apply c_string_zero_pad. Qed.

Lemma norm_eq chars : norm chars = c_string chars ++ replicate (length chars - length (c_string chars)) 0.
Proof. done. Qed.

Lemma norm_norm chars : norm (norm chars) = norm chars.
Proof. by rewrite (norm_eq (norm chars)), length_norm, c_string_norm. Qed.

(** Copying exactly the characters that are there. *)
Lemma strncpy_exact chars junk n : length chars = n →
  strncpy ((Some <$> chars) ++ junk) n = Done (zero_pad chars n).
Proof.
  intros <-. induction chars as [|c s IH]; [done|]. rewrite fmap_cons, <- app_comm_cons.
  cbn [length strncpy]. unfold zero_pad. cbn [c_string]. destruct (c =? 0) eqn:E; [done|].
  rewrite IH. done.
Qed.

Lemma zero_pad_take chars n : (n ≤ length chars)%nat → zero_pad (take n chars) n = take n (norm chars).
Proof.
  unfold norm. revert n. induction chars as [|c s IH]; intros [|n] Hn; simpl in *; try lia; [done..|].
  unfold zero_pad in *. cbn [take c_string length]. destruct (c =? 0).
  - cbn [length app]. rewrite !Nat.sub_0_r, take_replicate. by rewrite Nat.min_l by lia.
  - cbn [app length]. simpl. f_equal. apply IH. lia.
Qed.

(** Copying a prefix. *)
Lemma strncpy_ptr_prefix s chars n : str_repr s chars → 0 ≤ n ≤ slength s →
  strncpy_ptr (buf s) n = Done (take (Z.to_nat n) (norm chars)).
Proof.
  intros [-> ->] Hn. unfold strncpy_ptr. rewrite <- (take_drop (Z.to_nat n) chars) at 1.
  rewrite fmap_app, <- app_assoc, strncpy_exact by (rewrite length_take; lia).
  f_equal. apply zero_pad_take. lia.
Qed.

Lemma strncpy_ptr_repr s chars : str_repr s chars →
  strncpy_ptr (buf s) (slength s) = Done (norm chars).
Proof.
  intros [-> ->]. unfold strncpy_ptr. rewrite Nat2Z.id. by apply strncpy_exact.
Qed.

Lemma str_repr_init_str chars junk : 
  ∃ s, init_string_str (Some ((Some <$> chars) ++ junk)) (Z.of_nat (length chars)) = Done s
    ∧ str_repr s (norm chars).
Proof.
  unfold init_string_str, strncpy_ptr. rewrite Nat2Z.id, strncpy_exact by done. cbn [obind].
  eexists; split; [done|]. split; simpl; [done|]. by rewrite length_norm.
Qed.

Lemma str_repr_init_string s chars : str_repr s chars →
  ∃ s', init_string_string s = Done s' ∧ str_repr s' (norm chars).
Proof.
  intros [Hb Hl]. unfold init_string_string, strncpy_ptr. rewrite Hb, Hl.
  replace (Z.to_nat _) with (S (length chars)) by lia.
  rewrite strncpy_app, zero_pad_split by lia. cbn [obind].
  replace (S _ - _)%nat with 1%nat by lia. fold (norm chars).
  eexists; split; [done|]. split; simpl; [by rewrite fmap_app|by rewrite length_norm].
Qed.

(** Appending a character, to no string or to one. *)
Lemma str_repr_concat_nas c :
  ∃ s, concat_string_char NaS c = Done s ∧ str_repr s [c].
Proof. by eexists. Qed.

Lemma str_repr_concat s chars c : str_repr s chars →
  ∃ s', concat_string_char s c = Done s' ∧ str_repr s' (norm chars ++ [c]).
Proof.
  intros Hs. unfold concat_string_char. rewrite (strncpy_ptr_repr _ _ Hs). destruct Hs as [-> ->].
  cbn [obind]. set (n := length chars). pose proof (length_norm chars) as Hn. fold n in Hn.
  unfold za_Alloc. replace (Z.to_nat _) with (n + 2)%nat by lia. rewrite replicate_add.
  rewrite (memcpy_at _ _ _ [] (replicate n None) (replicate 2 None)) by
    (rewrite ?length_replicate, ?length_fmap; done). cbn [obind app].
  rewrite (memcpy_at _ _ _ (Some <$> norm chars) [None] [None]) by
    (rewrite ?length_fmap; (done || lia)). cbn [obind].
  rewrite (memcpy_at _ _ _ ((Some <$> norm chars) ++ [Some c]) [None] []);
    [|by rewrite app_nil_r, <- app_assoc|rewrite length_app, length_fmap; simpl; lia|done].
  cbn [obind]. eexists; split; [done|]. split; simpl.
  - by rewrite fmap_app, <- !app_assoc.
  - rewrite length_app. simpl. lia.
Qed.

(** [concat_string_string] writes its terminator behind the block. *)
Lemma concat_string_string_undefined s1 s2 l1 l2 : str_repr s1 l1 → str_repr s2 l2 →
  concat_string_string s1 s2 = Undefined.
Proof.
  intros H1 H2. unfold concat_string_string. rewrite (strncpy_ptr_repr _ _ H1), (strncpy_ptr_repr _ _ H2).
  destruct H1 as [_ ->], H2 as [_ ->]. cbn [obind].
  pose proof (length_norm l1) as E1. pose proof (length_norm l2) as E2.
  set (n1 := length l1) in *. set (n2 := length l2) in *.
  unfold za_Alloc. replace (Z.to_nat _) with (n1 + (n2 + 1))%nat by lia. rewrite !replicate_add.
  rewrite (memcpy_at _ _ _ [] (replicate n1 None) (replicate n2 None ++ replicate 1 None)) by
    (rewrite ?length_replicate, ?length_fmap; done). cbn [obind app].
  rewrite (memcpy_at _ _ _ (Some <$> norm l1) (replicate n2 None) (replicate 1 None)) by
    (rewrite ?length_replicate, ?length_fmap; (done || lia)). cbn [obind].
  unfold memcpy. rewrite !length_app, !length_fmap, E1, E2. simpl.
  by replace (_ && _) with false by lia.
Qed.

Lemma strncmp_eq_repr l1 l2 j1 j2 : length l1 = length l2 →
  strncmp_eq ((Some <$> l1) ++ j1) ((Some <$> l2) ++ j2) (length l1)
    = Done (bool_decide (norm l1 = norm l2)).
Proof.
  revert l2. induction l1 as [|x l1 IH]; intros [|y l2] Hl; simpl in Hl; try done.
  cbn [length strncmp_eq fmap list_fmap app]. destruct (x =? y) eqn:E; cbn [negb].
  - assert (x = y) as <- by lia. destruct (x =? 0) eqn:E0.
    + unfold norm, zero_pad. cbn [c_string]. rewrite E0. simpl.
      injection Hl as ->. by rewrite bool_decide_true.
    + rewrite IH by lia. f_equal. apply bool_decide_ext. unfold norm, zero_pad.
      cbn [c_string]. rewrite E0. simpl. split; [by intros ->|by intros [= ?]].
  - rewrite bool_decide_false; [done|]. unfold norm, zero_pad. cbn [c_string].
    destruct (x =? 0) eqn:Ex, (y =? 0) eqn:Ey; simpl; intros [= ?]; lia.
Qed.

Lemma compare_string_repr s1 s2 l1 l2 : str_repr s1 l1 → str_repr s2 l2 →
  compare_string_string s1 s2 = Done (bool_decide (norm l1 = norm l2)).
Proof.
  intros [B1 S1] [B2 S2]. unfold compare_string_string. rewrite B1, B2, S1, S2, Nat2Z.id.
  destruct (_ =? _) eqn:E; [apply strncmp_eq_repr; lia|].
  rewrite bool_decide_false; [done|]. intros H%(f_equal length). rewrite !length_norm in H. lia.
Qed.

(** The number that a string of decimal digits stands for. *)
Definition decimal (ds : list Z) : Z := foldl (λ n d, 10 * n + (d - 48)) 0 ds.

Lemma atoi_digits_app ds n junk : Forall (λ d, 48 ≤ d ≤ 57) ds →
  atoi_digits ((Some <$> ds) ++ Some NUL :: junk) n = Done (foldl (λ n d, 10 * n + (d - 48)) n ds).
Proof.
  intros Hd. revert n. induction Hd as [|d ds Hd _ IH]; intros n; [done|].
  cbn [fmap list_fmap app atoi_digits foldl]. replace (_ && _) with true by lia. apply IH.
Qed.

Lemma parse_int_decimal s d ds : str_repr s (d :: ds) → Forall (λ d, 48 ≤ d ≤ 57) (d :: ds) →
  parse_int s = if (-2147483648 <=? decimal (d :: ds)) && (decimal (d :: ds) <? 2147483648)
                then Done (decimal (d :: ds)) else Undefined.
Proof.
  intros [Hb _] Hd. pose proof (Forall_inv Hd) as H1. cbn in H1. unfold parse_int. rewrite Hb.
  cbn [fmap list_fmap app atoi atoi_signed]. replace (_ || _) with false by lia.
  replace (d =? 45) with false by lia. replace (d =? 43) with false by lia.
  pose proof (atoi_digits_app (d :: ds) 0 [] Hd) as E. cbn [fmap list_fmap app] in E. change NUL with 0 in E.
  by rewrite E.
Qed.
