(* ===== verification/SvelteAlloc.v ===== *)
(** * The allocator of the Svelte scanner

    [allocator.h]: memory is carved from the chain of large blocks ([za_alloc]),
    each block of memory with its size in front of it. A small one has the chunk
    size of its bin, and goes to the bin's list when it is freed; a large one is
    a block of its own. The memory is the blocks that [malloc] gave out, and the
    [size_t] in front of each block of memory; the lists of nodes are lists of
    their addresses. *)

From stdpp Require Import gmap.
From S2P Require Import Prelude VcVector.

(** ** Memory *)

(** A pointer: a block of [malloc], and an offset in it. *)
Record ptr := mkPtr { blk : nat; off : Z }.

#[export] Instance ptr_eq_dec : EqDecision ptr.
Proof. solve_decision. Defined.
#[export] Instance ptr_countable : Countable ptr.
Proof.
  refine (inj_countable' (λ p, (blk p, off p)) (λ '(b, o), mkPtr b o) _). by intros [].
Defined.

Definition shift (p : ptr) (n : Z) : ptr := mkPtr (blk p) (off p + n).

(** The number of blocks given out so far, the sizes of those that were not
    released, and the sizes stored in them. *)
Record memory := mkMemory { next_block : nat; blocks : gmap nat Z; words : gmap ptr Z }.

Definition in_block (m : memory) (p : ptr) (len : Z) : bool :=
  match blocks m !! blk p with
  | Some size => (0 <=? off p) && (off p + len <=? size)
  | None => false
  end.

(** [*(size_t * )p]; a read needs that it was written. *)
Definition load (m : memory) (p : ptr) : outcome Z :=
  if in_block m p 8 then match words m !! p with Some v => Done v | None => Undefined end else Undefined.

Definition store (m : memory) (p : ptr) (v : Z) : outcome memory :=
  if in_block m p 8 then Done (mkMemory (next_block m) (blocks m) (<[p := v]> (words m))) else Undefined.

(** Whether [malloc] succeeds, for each call; no object is larger than
    [PTRDIFF_MAX]. *)
Class Malloc := {
  malloc_ok : nat → Z → bool;
  malloc_max n size : malloc_ok n size = true → size < 9223372036854775808;
}.

(** ** The allocator *)

Definition za_Delta : Z := 2.
Definition za_INIT_SIZE : Z := 1024 * 128.
Definition za_BIN_LEVEL : nat := 5.
Definition za_BIN_LEVEL_SIZE : Z := 16.
Definition za_BIN_MIN_CHUNK : Z := 8.

(** [sizeof] of the structures, and of [size_t]. *)
Definition ALLOCATOR_SIZE : Z := 2016.
Definition NODE_SIZE : Z := 32.
Definition BIN_NODE_SIZE : Z := 16.
Definition WORD : Z := 8.

(** The nodes of [Head] are at an address and point to a free block; those of
    [FreeHead] are at an address. *)
Record za_bin := mkBin { ChunkSize : Z; Head : list (ptr * ptr); FreeHead : list ptr }.

Record za_allocatorNode := mkNode { Data : ptr; Pos : Z; Size : Z }.

(** [Nodes] is the chain from [Head] to [End]. *)
Record za_Allocator := mkAllocator {
  Nodes : list za_allocatorNode;
  Bins : list za_bin;
  LevelMins : list Z;
  LevelMaxs : list Z;
}.

Definition set_bin (a : za_Allocator) (i : Z) (b : za_bin) : za_Allocator :=
  mkAllocator (Nodes a) (<[Z.to_nat i := b]> (Bins a)) (LevelMins a) (LevelMaxs a).
Definition set_nodes (a : za_Allocator) (ns : list za_allocatorNode) : za_Allocator :=
  mkAllocator ns (Bins a) (LevelMins a) (LevelMaxs a).
Definition bin_at (a : za_Allocator) (i : Z) : outcome za_bin :=
  match Bins a !! Z.to_nat i with Some b => Done b | None => Undefined end.

Section allocator.
Context {HM : Malloc}.

Definition za_innerNew (m : memory) (size : Z) : option ptr * memory :=
  if malloc_ok (next_block m) size then
    (Some (mkPtr (next_block m) 0),
     mkMemory (S (next_block m)) (<[next_block m := size]> (blocks m)) (words m))
  else (None, mkMemory (S (next_block m)) (blocks m) (words m)).

(** [free]: of a pointer that [malloc] gave out, and only once. *)
Definition za_innerFree (m : memory) (p : ptr) : outcome memory :=
  if (off p =? 0) && bool_decide (is_Some (blocks m !! blk p))
  then Done (mkMemory (next_block m) (delete (blk p) (blocks m)) (words m))
  else Undefined.

(** The bins of the [n] levels from one whose chunks are multiples of [chunk]. *)
Fixpoint new_levels (n : nat) (chunk : Z) : list za_bin * list Z * list Z :=
  match n with
  | O => ([], [], [])
  | S n =>
      let '(bins, mins, maxs) := new_levels n (chunk * za_BIN_LEVEL_SIZE * 2) in
      (((λ j, mkBin (chunk * (Z.of_nat j + 1)) [] []) <$> seq 0 (Z.to_nat za_BIN_LEVEL_SIZE)) ++ bins,
       chunk :: mins, chunk * za_BIN_LEVEL_SIZE :: maxs)
  end.

Definition za_New (m : memory) : option za_Allocator * memory :=
  let '(p, m) := za_innerNew m (ALLOCATOR_SIZE + NODE_SIZE + za_INIT_SIZE) in
  match p with
  | None => (None, m)
  | Some p =>
      let '(bins, mins, maxs) := new_levels za_BIN_LEVEL za_BIN_MIN_CHUNK in
      (Some (mkAllocator [mkNode (shift p (ALLOCATOR_SIZE + NODE_SIZE)) 0 za_INIT_SIZE] bins mins maxs), m)
  end.

(** The loop over the levels from [i]. *)
Fixpoint find_level (mins maxs : list Z) (i size : Z) : option Z :=
  match mins, maxs with
  | lo :: mins, hi :: maxs =>
      if size <=? hi then Some (to_size (size - 1) / lo + za_BIN_LEVEL_SIZE * i)
      else find_level mins maxs (i + 1) size
  | _, _ => None
  end.

(** The index of the bin for a size. *)
Definition za_findBin (a : za_Allocator) (size : Z) : option Z :=
  find_level (LevelMins a) (LevelMaxs a) 0 size.

Definition za_appendChild (init_size : Z) (a : za_Allocator) (m : memory) : bool * za_Allocator * memory :=
  let '(p, m) := za_innerNew m (to_size (NODE_SIZE + init_size)) in
  match p with
  | None => (false, a, m)
  | Some p => (true, set_nodes a (Nodes a ++ [mkNode (shift p NODE_SIZE) 0 init_size]), m)
  end.

(** [while (size > s) s *= za_Delta;], which 64 rounds end unless [s] becomes 0. *)
Fixpoint grow (fuel : nat) (size s : Z) : outcome Z :=
  if s <? size then
    match fuel with
    | O => OutOfFuel
    | S fuel => grow fuel size (to_size (s * za_Delta))
    end
  else Done s.

(** The next [size] bytes of the last node. *)
Definition carve (a : za_Allocator) (size : Z) : outcome (ptr * za_Allocator) :=
  match rev (Nodes a) with
  | [] => Undefined
  | node :: before =>
      Done (shift (Data node) (Pos node),
        set_nodes a (rev before ++ [mkNode (Data node) (to_size (Pos node + size)) (Size node)]))
  end.

Definition za_alloc (a : za_Allocator) (m : memory) (size : Z) : outcome (option ptr * za_Allocator * memory) :=
  match last (Nodes a) with
  | None => Undefined
  | Some cur_node =>
      if Size cur_node <? to_size (Pos cur_node + size) then
        let? s := grow 64 size (to_size (Size cur_node * za_Delta)) in
        let '(ok, a, m) := za_appendChild s a m in
        if ok : bool then let? '(p, a) := carve a size in Done (Some p, a, m)
        else Done (None, a, m)
      else let? '(p, a) := carve a size in Done (Some p, a, m)
  end.

Definition za_Alloc (a : za_Allocator) (m : memory) (size : Z) : outcome (option ptr * za_Allocator * memory) :=
  if size =? 0 then Done (None, a, m)
  else
    match za_findBin a size with
    | None =>
        let '(s, m) := za_innerNew m (to_size (WORD + size)) in
        match s with
        | None => Done (None, a, m)
        | Some s => let? m := store m s size in Done (Some (shift s WORD), a, m)
        end
    | Some i =>
        let? bin := bin_at a i in
        match Head bin with
        | (bn, s) :: rest =>
            let? m := store m s size in
            Done (Some (shift s WORD), set_bin a i (mkBin (ChunkSize bin) rest (bn :: FreeHead bin)), m)
        | [] =>
            let? '(s, a, m) := za_alloc a m (to_size (WORD + ChunkSize bin)) in
            match s with
            | None => Done (None, a, m)
            | Some s => let? m := store m s size in Done (Some (shift s WORD), a, m)
            end
        end
    end.

Definition za_Free (a : za_Allocator) (m : memory) (p : ptr) : outcome (za_Allocator * memory) :=
  let s := shift p (- WORD) in
  let? v := load m s in
  if v =? 0 then Done (a, m)
  else
    match za_findBin a v with
    | None => let? m := za_innerFree m s in Done (a, m)
    | Some i =>
        let? m := store m s 0 in
        let? bin := bin_at a i in
        match FreeHead bin with
        | bn :: rest => Done (set_bin a i (mkBin (ChunkSize bin) ((bn, s) :: Head bin) rest), m)
        | [] =>
            let? '(bn, a, m) := za_alloc a m BIN_NODE_SIZE in
            match bn with
            | None => Done (a, m)
            | Some bn => Done (set_bin a i (mkBin (ChunkSize bin) ((bn, s) :: Head bin) []), m)
            end
        end
    end.

(** Releases the blocks of the nodes behind the first. *)
Fixpoint release_nodes (m : memory) (ns : list za_allocatorNode) : outcome memory :=
  match ns with
  | [] => Done m
  | node :: ns => let? m := za_innerFree m (shift (Data node) (- NODE_SIZE)) in release_nodes m ns
  end.

Definition za_Release (a : za_Allocator) (m : memory) : outcome memory :=
  match Nodes a with
  | [] => Undefined
  | head :: ns =>
      let? m := release_nodes m ns in
      za_innerFree m (shift (Data head) (- (ALLOCATOR_SIZE + NODE_SIZE)))
  end.
End allocator.
