(* ===== verification/SvelteAllocProofs.v ===== *)
(** * Properties of the Svelte scanner's allocator

    [inv]: the blocks of memory that are in use, those in the lists of the bins
    and the nodes of these lists do not overlap, and lie in the carved part of a
    block of the chain, or are a block of their own. *)

From stdpp Require Import gmap.
From S2P Require Import Prelude VcVector SvelteAlloc.

(** ** Levels and bins *)

Definition MINS : list Z := Eval vm_compute in snd (fst (new_levels za_BIN_LEVEL za_BIN_MIN_CHUNK)).
Definition MAXS : list Z := Eval vm_compute in snd (new_levels za_BIN_LEVEL za_BIN_MIN_CHUNK).
Definition CHUNKS : list Z :=
  Eval vm_compute in ChunkSize <$> fst (fst (new_levels za_BIN_LEVEL za_BIN_MIN_CHUNK)).

Lemma chunk_of_level k lo j : MINS !! k = Some lo → (j < 16)%nat →
  CHUNKS !! (j + 16 * k)%nat = Some (lo * (Z.of_nat j + 1)).
Proof.
  intros Hk Hj. do 5 (destruct k as [|k]; [injection Hk as <-; do 16 (destruct j as [|j]; [done|]); lia|]).
  done.
Qed.

(** The chunk of the bin that is found is the smallest of its level that fits. *)
Lemma find_level_some size i : 0 < size < 18446744073709551616 → find_level MINS MAXS 0 size = Some i →
  ∃ c, CHUNKS !! Z.to_nat i = Some c ∧ size ≤ c ≤ 134217728.
Proof.
  intros Hs Hi.
  assert (∃ k lo, MINS !! k = Some lo ∧ 0 < lo ≤ 8388608 ∧ size ≤ lo * 16
    ∧ i = (size - 1) / lo + 16 * Z.of_nat k) as (k&lo&Hk&Hlo&Hmax&->).
  { unfold find_level, MINS, MAXS, to_size, za_BIN_LEVEL_SIZE in Hi. rewrite Z.mod_small in Hi by lia.
    repeat case_match; simplify_eq;
      [exists 0%nat, 8|exists 1%nat, 256|exists 2%nat, 8192|exists 3%nat, 262144|exists 4%nat, 8388608];
      split_and!; try done; lia. }
  assert (0 ≤ (size - 1) / lo < 16) as Hj.
  { split; [apply Z.div_pos; lia|]. apply Z.div_lt_upper_bound; lia. }
  exists (lo * ((size - 1) / lo + 1)). split.
  - replace (Z.to_nat _) with (Z.to_nat ((size - 1) / lo) + 16 * k)%nat by lia.
    rewrite (chunk_of_level k lo) by (done || lia). f_equal. lia.
  - pose proof (Z.mod_pos_bound (size - 1) lo ltac:(lia)). pose proof (Z.div_mod (size - 1) lo ltac:(lia)). nia.
Qed.

Lemma find_level_none size : find_level MINS MAXS 0 size = None → 134217728 < size.
Proof. unfold find_level, MINS, MAXS. repeat case_match; intros; simplify_eq; lia. Qed.

(** ** Regions of memory *)

(** An address, and a number of bytes. *)
Abbreviation region := (ptr * Z)%type (only parsing).

Definition disj (r1 r2 : region) : Prop :=
  blk r1.1 ≠ blk r2.1 ∨ off r1.1 + r1.2 ≤ off r2.1 ∨ off r2.1 + r2.2 ≤ off r1.1.

Lemma disj_sym r1 r2 : disj r1 r2 → disj r2 r1.
Proof. unfold disj. intros [?|[?|?]]; [left; congruence|right; by right|right; by left]. Qed.

Fixpoint pairwise (l : list region) : Prop :=
  match l with [] => True | r :: l => Forall (disj r) l ∧ pairwise l end.

Lemma pairwise_perm l l' : l ≡ₚ l' → pairwise l → pairwise l'.
Proof.
  induction 1 as [|r l l' Hp IH|r1 r2 l|l1 l2 l3 H1 IH1 H2 IH2]; [done|..].
  - intros [Hr Hl]. split; [by rewrite <- Hp|auto].
  - intros [[H12 H1]%Forall_cons [H2 Hl]]. split_and!; [|done..]. by apply Forall_cons; split; [apply disj_sym|].
  - auto.
Qed.

Lemma pairwise_app_r l1 l2 : pairwise (l1 ++ l2) → pairwise l2.
Proof. induction l1 as [|r l1 IH]; [done|]. intros [_ ?]. auto. Qed.

Lemma disj_ptr r1 r2 : disj r1 r2 → 0 < r1.2 → 0 < r2.2 → r1.1 ≠ r2.1.
Proof. intros H ?? E. unfold disj in H. rewrite E in H. destruct H as [?|[?|?]]; [done|lia|lia]. Qed.

(** A block in use is at the address of its size. *)
Definition chunk_of (size : Z) : Z :=
  match find_level MINS MAXS 0 size with Some i => nth (Z.to_nat i) CHUNKS 0 | None => size end.
Definition region_of (b : ptr * Z) : region := (b.1, WORD + chunk_of b.2).

Definition bin_regions (b : za_bin) : list region :=
  ((λ n, (n.2, WORD + ChunkSize b)) <$> Head b) ++ ((λ n, (n.1, BIN_NODE_SIZE)) <$> Head b)
  ++ ((λ n, (n, BIN_NODE_SIZE)) <$> FreeHead b).
Definition free_regions (bins : list za_bin) : list region := bins ≫= bin_regions.
Definition free_ptrs (bins : list za_bin) : list ptr := bins ≫= λ b, (Head b).*2.

Definition regions (a : za_Allocator) (live : list (ptr * Z)) : list region :=
  (region_of <$> live) ++ free_regions (Bins a).

(** ** The invariant *)

(** In the carved part of the chain; a block of its own. *)
Definition in_chain (ns : list za_allocatorNode) (r : region) : Prop :=
  ∃ node, node ∈ ns ∧ blk r.1 = blk (Data node) ∧ off (Data node) ≤ off r.1
    ∧ off r.1 + r.2 ≤ off (Data node) + Pos node.
Definition own (ns : list za_allocatorNode) (m : memory) (r : region) : Prop :=
  Forall (λ node, blk (Data node) ≠ blk r.1) ns ∧ off r.1 = 0 ∧ blocks m !! blk r.1 = Some r.2.

Definition node_ok (m : memory) (node : za_allocatorNode) : Prop :=
  0 ≤ Pos node ≤ Size node ∧ za_INIT_SIZE ≤ Size node < 9223372036854775776 ∧ 0 ≤ off (Data node)
  ∧ ∃ size, blocks m !! blk (Data node) = Some size ∧ off (Data node) + Size node ≤ size.

Definition chain_ok (m : memory) (ns : list za_allocatorNode) : Prop :=
  ns ≠ [] ∧ NoDup ((λ node, blk (Data node)) <$> ns) ∧ Forall (node_ok m) ns
  ∧ ∀ b size, blocks m !! b = Some size → (b < next_block m)%nat.

Definition live_ok (ns : list za_allocatorNode) (m : memory) (b : ptr * Z) : Prop :=
  0 < b.2 < 9223372036854775808 ∧ words m !! b.1 = Some b.2
  ∧ match find_level MINS MAXS 0 b.2 with
    | Some _ => in_chain ns (region_of b)
    | None => own ns m (region_of b)
    end.

Record inv (a : za_Allocator) (m : memory) (live : list (ptr * Z)) : Prop := {
  inv_levels : LevelMins a = MINS ∧ LevelMaxs a = MAXS ∧ ChunkSize <$> Bins a = CHUNKS;
  inv_chain : chain_ok m (Nodes a);
  inv_disj : pairwise (regions a live);
  inv_live : Forall (live_ok (Nodes a) m) live;
  inv_free : Forall (in_chain (Nodes a)) (free_regions (Bins a));
  inv_zero : Forall (λ p, words m !! p = Some 0) (free_ptrs (Bins a));
}.

(** ** Bins *)

Lemma delete_set_bin (bins : list za_bin) i b : delete i (<[i := b]> bins) = delete i bins.
Proof. revert i. induction bins as [|b' bins IH]; intros [|i]; [done..|]. cbn. f_equal. apply IH. Qed.

Lemma bind_bins {B} (f : za_bin → list B) bins i b : bins !! i = Some b →
  (bins ≫= f) ≡ₚ f b ++ (delete i bins ≫= f).
Proof. intros Hi. by rewrite (delete_Permutation _ _ _ Hi) at 1. Qed.

Lemma bind_set_bin {B} (f : za_bin → list B) bins i b b' : bins !! i = Some b →
  (<[i := b']> bins ≫= f) ≡ₚ f b' ++ (delete i bins ≫= f).
Proof.
  intros Hi. pose proof (lookup_lt_Some _ _ _ Hi).
  rewrite (delete_Permutation (<[i := b']> bins) i b') at 1 by (apply list_lookup_insert_eq; lia).
  by rewrite delete_set_bin.
Qed.

Section inv.
Context (a : za_Allocator) (m : memory) (live : list (ptr * Z)).
Hypothesis Hinv : inv a m live.

Lemma inv_bin size i : 0 < size < 18446744073709551616 → za_findBin a size = Some i →
  ∃ b, bin_at a i = Done b ∧ Bins a !! Z.to_nat i = Some b ∧ ChunkSize b = chunk_of size
    ∧ size ≤ ChunkSize b ≤ 134217728.
Proof.
  intros Hs Hi. destruct (inv_levels _ _ _ Hinv) as (Hmins&Hmaxs&Hchunks).
  unfold za_findBin in Hi. rewrite Hmins, Hmaxs in Hi.
  destruct (find_level_some _ _ Hs Hi) as (c&Hc&Hle).
  unfold chunk_of, bin_at. rewrite Hi, (nth_lookup_Some _ _ _ _ Hc).
  rewrite <- Hchunks, list_lookup_fmap_Some in Hc. destruct Hc as (b&->&Hb). rewrite Hb. by exists b.
Qed.

(** Every region is placed, and within what [malloc] gave out. *)
Lemma inv_placed : Forall (λ r, in_chain (Nodes a) r ∨ own (Nodes a) m r) (regions a live).
Proof.
  apply Forall_app. split.
  - apply Forall_fmap. eapply Forall_impl; [apply (inv_live _ _ _ Hinv)|].
    intros b (_&_&Hb). unfold compose. by case_match; [left|right].
  - eapply Forall_impl; [apply (inv_free _ _ _ Hinv)|]. by left.
Qed.

Lemma placed_block ns r : chain_ok m ns → in_chain ns r ∨ own ns m r → (blk r.1 < next_block m)%nat.
Proof.
  intros (_&_&Hns&Hfresh) [(node&Hin&Hblk&_)|(_&_&Hb)].
  - rewrite Forall_forall in Hns. destruct (Hns node Hin) as (_&_&_&size&Hb&_). rewrite Hblk. eauto.
  - eauto.
Qed.
End inv.

Lemma in_block_chain m ns r : chain_ok m ns → in_chain ns r → WORD ≤ r.2 → in_block m r.1 8 = true.
Proof.
  intros (_&_&Hns&_) (node&Hin&Hblk&Hlo&Hhi) Hr. rewrite Forall_forall in Hns.
  destruct (Hns node Hin) as (Hpos&Hsize&Hoff&size&Hb&Hle). unfold in_block. rewrite Hblk, Hb.
  unfold WORD in Hr. lia.
Qed.

Lemma in_block_own m ns r : own ns m r → WORD ≤ r.2 → in_block m r.1 8 = true.
Proof. intros (_&Ho&Hb) Hr. unfold in_block. rewrite Hb, Ho. unfold WORD in Hr. lia. Qed.

(** ** Carving *)

Section carve.
Context {HM : Malloc}.

(** What the chain and the memory of [malloc] may become. *)
Record extends (ns : list za_allocatorNode) (m : memory) (ns' : list za_allocatorNode) (m' : memory) : Prop := {
  ext_chain : chain_ok m' ns';
  ext_in r : in_chain ns r → in_chain ns' r;
  ext_own r : own ns m r → own ns' m' r;
  ext_words : words m' = words m;
}.

Lemma extends_refl ns m : chain_ok m ns → extends ns m ns m.
Proof. by split. Qed.

(** A failed or a successful call of [malloc]. *)
Lemma extends_malloc ns m k : chain_ok m ns →
  extends ns m ns (mkMemory (S (next_block m)) (blocks m) (words m))
  ∧ extends ns m ns (mkMemory (S (next_block m)) (<[next_block m := k]> (blocks m)) (words m))
  ∧ Forall (λ node, blk (Data node) ≠ next_block m) ns ∧ blocks m !! next_block m = None.
Proof.
  intros (Hne&Hnd&Hns&Hfresh).
  assert (blocks m !! next_block m = None) as Hnone.
  { destruct (blocks m !! next_block m) eqn:E; [|done]. apply Hfresh in E. lia. }
  split_and!; [| | |done].
  - split; [|done..]. split_and!; try done. intros b size Hb. apply Hfresh in Hb. cbn. lia.
  - split; [|done| |done].
    + split_and!; try done.
      * eapply Forall_impl; [exact Hns|]. intros node (?&?&?&size&Hb&?). split_and!; try done; try lia.
        exists size. split; [|done]. cbn. rewrite lookup_insert_ne; [done|congruence].
      * intros b size. cbn. destruct (decide (b = next_block m)) as [->|Hne']; [lia|].
        rewrite lookup_insert_ne by done. intros Hb%Hfresh. lia.
    + intros r (?&?&Hb). split_and!; try done. cbn. rewrite lookup_insert_ne; [done|congruence].
  - eapply Forall_impl; [exact Hns|]. intros node (_&_&_&size&Hb&_). congruence.
Qed.

Lemma carve_ok a m size node : chain_ok m (Nodes a) → last (Nodes a) = Some node →
  0 < size → Pos node + size ≤ Size node →
  ∃ p a', carve a size = Done (p, a') ∧ a' = set_nodes a (Nodes a')
    ∧ extends (Nodes a) m (Nodes a') m ∧ in_chain (Nodes a') (p, size)
    ∧ ∀ r, in_chain (Nodes a) r ∨ own (Nodes a) m r → disj (p, size) r.
Proof.
  intros (Hne&Hnd&Hns&Hfresh) [before Hlast]%last_Some Hsize Hfit. unfold carve. rewrite Hlast, rev_app_distr.
  cbn [rev app]. rewrite rev_involutive.
  set (node' := mkNode (Data node) (to_size (Pos node + size)) (Size node)).
  rewrite Hlast in Hnd, Hns. apply Forall_app in Hns as [Hbefore Hnode].
  rewrite Forall_singleton in Hnode.
  pose proof Hnode as (Hpos&Hsz&Hoff&bs&Hb&Hbs).
  assert (Pos node' = Pos node + size) as Hpos' by (cbn; unfold to_size; apply Z.mod_small; lia).
  eexists _, _. split; [done|]. split; [done|]. cbn [Nodes set_nodes].
  split_and!.
  - split.
    + split_and!; [by destruct before|by rewrite fmap_app in *|..|done].
      apply Forall_app. split; [done|]. apply Forall_singleton. unfold node_ok. rewrite Hpos'. change (Size node') with (Size node).
      split_and!; try lia; [done|]. by exists bs.
    + intros r (x&[Hx|Hx%list_elem_of_singleton]%elem_of_app&Hr).
      * exists x. split; [|done]. apply elem_of_app. by left.
      * subst x. exists node'. split; [apply elem_of_app; right; by left|].
        destruct Hr as (?&?&?). split_and!; try done. rewrite Hpos'. cbn. lia.
    + intros r (Hr&?&?). split_and!; try done. rewrite Forall_app, Forall_singleton in *. done.
    + done.
  - exists node'. split; [apply elem_of_app; right; by left|]. rewrite Hpos'. cbn. split_and!; [done|lia|lia].
  - intros r [(x&Hx&Hblk&Hlo&Hhi)|(Hown&_)].
    + apply elem_of_app in Hx as [Hx|Hx%list_elem_of_singleton].
      * left. cbn. rewrite Hblk. intros E. rewrite fmap_app, NoDup_app in Hnd. destruct Hnd as (_&Hnd&_).
        apply (Hnd (blk (Data x))); [apply list_elem_of_fmap; by exists x|]. rewrite <- E. by left.
      * subst x. right. right. cbn. lia.
    + left. cbn. rewrite Forall_app, Forall_singleton in Hown. destruct Hown as [_ Hown]. congruence.
Qed.

Lemma grow_ok size s : 0 < size ≤ 134217736 → 131072 ≤ s < 18446744073709551552 →
  ∃ s', grow 64 size s = Done s' ∧ size ≤ s' < 18446744073709551552 ∧ 131072 ≤ s'.
Proof.
  intros Hsize Hs.
  assert (∀ fuel s, 131072 ≤ s < 18446744073709551552 → 134217736 < s * 2 ^ Z.of_nat fuel →
    ∃ s', grow fuel size s = Done s' ∧ size ≤ s' < 18446744073709551552 ∧ 131072 ≤ s') as Hgrow.
  { clear s Hs. induction fuel as [|fuel IH]; intros s Hs Hf; cbn [grow].
    - replace (s <? size) with false by lia. exists s. split; [done|lia].
    - destruct (s <? size) eqn:E; [|exists s; split; [done|lia]].
      unfold za_Delta, to_size. rewrite Z.mod_small by lia. apply IH; [lia|].
      rewrite Nat2Z.inj_succ, Z.pow_succ_r in Hf by lia. lia. }
  apply Hgrow; [done|]. change (2 ^ Z.of_nat 64) with 18446744073709551616. lia.
Qed.
Lemma chain_last m ns : chain_ok m ns → ∃ node, last ns = Some node ∧ node_ok m node.
Proof.
  intros (Hne&_&Hns&_). apply last_is_Some in Hne as [node Hlast]. exists node. split; [done|].
  apply last_Some in Hlast as [before ->]. rewrite Forall_app, Forall_singleton in Hns. by destruct Hns.
Qed.

(** The next bytes of the chain: new ones, or none when [malloc] fails. *)
Lemma za_alloc_ok a m size : chain_ok m (Nodes a) → 0 < size ≤ 134217736 →
  ∃ r a' m', za_alloc a m size = Done (r, a', m') ∧ a' = set_nodes a (Nodes a')
    ∧ extends (Nodes a) m (Nodes a') m'
    ∧ match r with
      | Some p => in_chain (Nodes a') (p, size)
          ∧ ∀ r, in_chain (Nodes a) r ∨ own (Nodes a) m r → disj (p, size) r
      | None => True
      end.
Proof.
  intros Hchain Hsize. destruct (chain_last m _ Hchain) as (node&Hlast&Hnode).
  pose proof Hnode as (Hpos&Hsz&_). unfold za_INIT_SIZE in Hsz. unfold za_alloc. rewrite Hlast.
  replace (to_size (Pos node + size)) with (Pos node + size) by (unfold to_size; rewrite Z.mod_small; lia).
  destruct (Size node <? Pos node + size) eqn:Hfull.
  - destruct (grow_ok size (to_size (Size node * za_Delta))) as (s&->&Hs); [lia| |].
    { unfold to_size, za_Delta. rewrite Z.mod_small by lia. lia. }
    cbn [obind]. unfold za_appendChild, za_innerNew.
    destruct (extends_malloc (Nodes a) m (to_size (NODE_SIZE + s)) Hchain) as (Hno&Hyes&Hfresh&Hnone).
    destruct (malloc_ok (next_block m) (to_size (NODE_SIZE + s))) eqn:Hok; cbn [obind].
    2: { exists None, a. eexists. split_and!; try done. by destruct a. }
    pose proof (malloc_max _ _ Hok) as Hmax. unfold to_size, NODE_SIZE in Hmax.
    rewrite Z.mod_small in Hmax by lia. unfold to_size, NODE_SIZE in *. rewrite Z.mod_small in * by lia.
    set (new := mkNode (shift (mkPtr (next_block m) 0) 32) 0 s).
    set (m1 := mkMemory (S (next_block m)) (<[next_block m := 32 + s]> (blocks m)) (words m)) in *.
    assert (extends (Nodes a) m (Nodes a ++ [new]) m1) as Hext1.
    { destruct Hyes as [(Hne1&Hnd1&Hns1&Hfr1) Hin1 Hown1 Hw1]. split; [|..|done].
      - split_and!; [by destruct (Nodes a)| | |done].
        + rewrite fmap_app, NoDup_app. split_and!; [done| |apply NoDup_singleton].
          intros b (x&->&Hx)%list_elem_of_fmap Hb%list_elem_of_singleton. rewrite Forall_forall in Hfresh.
          by apply (Hfresh x Hx).
        + rewrite Forall_app, Forall_singleton. split; [done|]. unfold node_ok, za_INIT_SIZE. cbn.
          split_and!; try lia. exists (32 + s). rewrite lookup_insert_eq. split; [done|lia].
      - intros r (x&Hx&Hr). exists x. split; [|done]. apply elem_of_app. by left.
      - intros r Hr. destruct (Hown1 r Hr) as (Hown&Ho&Hb). split_and!; [|done..].
        rewrite Forall_app, Forall_singleton. split; [done|]. cbn. destruct Hr as (_&_&Hr). congruence. }
    destruct (carve_ok (set_nodes a (Nodes a ++ [new])) m1 size new) as (p&a'&Hc&Ha'&Hext&Hin&Hdisj);
      [apply Hext1|apply last_snoc|lia|cbn; lia|]. cbn [Nodes set_nodes] in *. rewrite Hc. cbn [obind].
    exists (Some p), a', m1. split_and!; [done|by rewrite Ha'| |done|].
    + destruct Hext1, Hext. split; [done|auto|auto|congruence].
    + intros r [Hr|Hr]; apply Hdisj; [left|right]; by apply Hext1.
  - destruct (carve_ok a m size node Hchain Hlast) as (p&a'&->&Ha'&Hext&Hin&Hdisj); [lia|lia|].
    cbn [obind]. exists (Some p), a', m. by split_and!.
Qed.
End carve.

(** ** Stores *)

Definition write (m : memory) (p : ptr) (v : Z) : memory :=
  mkMemory (next_block m) (blocks m) (<[p := v]> (words m)).

Lemma store_ok m p v : in_block m p 8 = true → store m p v = Done (write m p v).
Proof. unfold store. by intros ->. Qed.

Lemma load_ok m p v : in_block m p 8 = true → words m !! p = Some v → load m p = Done v.
Proof. unfold load. by intros -> ->. Qed.

Lemma live_ok_write ns m s v bs : Forall (live_ok ns m) bs → Forall (λ b, b.1 ≠ s) bs →
  Forall (live_ok ns (write m s v)) bs.
Proof.
  rewrite !Forall_forall. intros Hok Hne b Hb. destruct (Hok b Hb) as (Hs&Hw&Hr). split_and!; [lia..| |done].
  cbn. rewrite lookup_insert_ne; [done|]. intros ->. by apply (Hne b Hb).
Qed.

Lemma zero_write m s v ps : Forall (λ p, words m !! p = Some 0) ps → Forall (λ p, p ≠ s) ps →
  Forall (λ p, words (write m s v) !! p = Some 0) ps.
Proof.
  rewrite !Forall_forall. intros Hz Hne p Hp. cbn. rewrite lookup_insert_ne; [auto|].
  intros ->. by apply (Hne p Hp).
Qed.

Lemma chain_ok_write m s v ns : chain_ok m ns → chain_ok (write m s v) ns.
Proof. done. Qed.

Lemma live_ok_extends {HM : Malloc} ns m ns' m' b : extends ns m ns' m' → live_ok ns m b → live_ok ns' m' b.
Proof.
  intros Hext (Hs&Hw&Hr). split_and!; [lia..|by rewrite (ext_words _ _ _ _ Hext)|].
  case_match; [by apply (ext_in _ _ _ _ Hext)|by apply (ext_own _ _ _ _ Hext)].
Qed.

Lemma zero_extends {HM : Malloc} ns m ns' m' ps : extends ns m ns' m' →
  Forall (λ p, words m !! p = Some 0) ps → Forall (λ p, words m' !! p = Some 0) ps.
Proof. intros Hext. by rewrite (ext_words _ _ _ _ Hext). Qed.

(** The chunk is what a size asks for, at least. *)
Lemma chunk_of_ge size : 0 < size < 18446744073709551616 → size ≤ chunk_of size.
Proof.
  intros Hs. unfold chunk_of. destruct (find_level _ _ _ _) as [i|] eqn:E; [|lia].
  destruct (find_level_some _ _ Hs E) as (c&Hc&Hle). rewrite (nth_lookup_Some _ _ _ _ Hc). lia.
Qed.

Section facts.
Context (a : za_Allocator) (m : memory) (live : list (ptr * Z)).
Hypothesis Hinv : inv a m live.

Lemma bin_chunk_pos b : b ∈ Bins a → 0 < ChunkSize b.
Proof.
  intros Hb. destruct (inv_levels _ _ _ Hinv) as (_&_&Hchunks).
  assert (Forall (λ c, 0 < c) CHUNKS) as Hpos by (unfold CHUNKS; repeat constructor).
  rewrite <- Hchunks, Forall_fmap, Forall_forall in Hpos. by apply Hpos.
Qed.

Lemma regions_pos : Forall (λ r : region, 0 < r.2) (regions a live).
Proof.
  apply Forall_app. split.
  - apply Forall_fmap. eapply Forall_impl; [apply (inv_live _ _ _ Hinv)|]. intros b (Hs&_).
    pose proof (chunk_of_ge b.2 ltac:(lia)). cbn. unfold WORD. lia.
  - apply Forall_forall. intros r (b&Hr&Hb)%list_elem_of_bind. pose proof (bin_chunk_pos b Hb).
    unfold bin_regions in Hr. rewrite !elem_of_app, !list_elem_of_fmap in Hr.
    unfold BIN_NODE_SIZE, WORD in Hr. destruct Hr as [(?&->&_)|[(?&->&_)|(?&->&_)]]; cbn; lia.
Qed.

End facts.

(** A region apart from all others is not at their addresses. *)
Lemma apart bins live r : 0 < r.2 → Forall (λ r : region, 0 < r.2) ((region_of <$> live) ++ free_regions bins) →
  Forall (disj r) ((region_of <$> live) ++ free_regions bins) →
  Forall (λ b, b.1 ≠ r.1) live ∧ Forall (λ p, p ≠ r.1) (free_ptrs bins).
Proof.
  intros Hr Hpos Hd. rewrite Forall_forall in Hd, Hpos. split; apply Forall_forall.
  - intros b Hb.
    assert (region_of b ∈ (region_of <$> live) ++ free_regions bins) as Hin
      by (apply elem_of_app; left; apply list_elem_of_fmap; by exists b).
    apply (disj_ptr (region_of b)); [by apply disj_sym, Hd|by apply Hpos|done].
  - intros p (b&(n&->&Hn)%list_elem_of_fmap&Hb)%list_elem_of_bind.
    assert ((n.2, WORD + ChunkSize b) ∈ (region_of <$> live) ++ free_regions bins) as Hin.
    { apply elem_of_app. right. apply list_elem_of_bind. exists b. split; [|done].
      apply elem_of_app. left. apply list_elem_of_fmap. by exists n. }
    apply (disj_ptr (n.2, WORD + ChunkSize b)); [by apply disj_sym, Hd|by apply Hpos|done].
Qed.

(** ** Bins of the same chunk *)

Definition others (a : za_Allocator) (i : Z) : list region := delete (Z.to_nat i) (Bins a) ≫= bin_regions.

Lemma regions_bin a live i b : Bins a !! Z.to_nat i = Some b →
  regions a live ≡ₚ bin_regions b ++ (region_of <$> live) ++ others a i.
Proof. intros Hb. unfold regions, free_regions, others. rewrite (bind_bins _ _ _ _ Hb). solve_Permutation. Qed.

Lemma regions_set_bin a live i b b' : Bins a !! Z.to_nat i = Some b →
  regions (set_bin a i b') live ≡ₚ bin_regions b' ++ (region_of <$> live) ++ others a i.
Proof.
  intros Hb. unfold regions, free_regions, others. cbn. rewrite (bind_set_bin _ _ _ _ _ Hb). solve_Permutation.
Qed.

Lemma levels_set_bin a i b b' : Bins a !! Z.to_nat i = Some b → ChunkSize b' = ChunkSize b →
  LevelMins a = MINS ∧ LevelMaxs a = MAXS ∧ ChunkSize <$> Bins a = CHUNKS →
  LevelMins (set_bin a i b') = MINS ∧ LevelMaxs (set_bin a i b') = MAXS ∧ ChunkSize <$> Bins (set_bin a i b') = CHUNKS.
Proof.
  intros Hb Hc (?&?&Hch). split_and!; [done..|]. cbn. rewrite list_fmap_insert, list_insert_id; [done|].
  by rewrite list_lookup_fmap, Hb, Hc.
Qed.

(** ** Allocation *)

(** A block given out: its size is in front of it. *)
Definition header (b : ptr * Z) : ptr * Z := (shift b.1 (- WORD), b.2).

Lemma shift_shift p n k : shift (shift p n) k = shift p (n + k).
Proof. unfold shift. cbn. f_equal. lia. Qed.

Lemma shift_0 p : shift p 0 = p.
Proof. destruct p. unfold shift. cbn. f_equal. lia. Qed.

Lemma header_shift p n : header (shift p WORD, n) = (p, n).
Proof. unfold header. cbn. by rewrite shift_shift, Z.add_opp_diag_r, shift_0. Qed.

Section alloc.
Context {HM : Malloc}.

(** A new region, apart from all others, becomes a block in use. *)
Lemma inv_new a m live a' m' p size : inv a m live → a' = set_nodes a (Nodes a') →
  extends (Nodes a) m (Nodes a') m' → 0 < size < 9223372036854775808 →
  Forall (disj (region_of (p, size))) (regions a live) →
  (match find_level MINS MAXS 0 size with
   | Some _ => in_chain (Nodes a') (region_of (p, size))
   | None => own (Nodes a') m' (region_of (p, size))
   end) →
  store m' p size = Done (write m' p size) ∧ inv a' (write m' p size) ((p, size) :: live).
Proof.
  intros Hinv Ha' Hext Hsize Hd Hplace. pose proof (chunk_of_ge size ltac:(lia)) as Hge.
  assert (0 < (region_of (p, size)).2) as Hpos by (cbn; unfold WORD; lia).
  destruct (apart (Bins a) live _ Hpos (regions_pos _ _ _ Hinv) Hd) as [Hlive Hfree].
  split; [|split].
  - apply store_ok. destruct (find_level MINS MAXS 0 size).
    + apply (in_block_chain _ (Nodes a') (region_of (p, size))); [apply Hext|done|cbn; unfold WORD; lia].
    + apply (in_block_own _ (Nodes a') (region_of (p, size))); [done|cbn; unfold WORD; lia].
  - rewrite Ha'. apply Hinv.
  - apply (ext_chain _ _ _ _ Hext).
  - rewrite Ha'. split; [exact Hd|apply (inv_disj _ _ _ Hinv)].
  - constructor; [split_and!; [cbn; lia..|cbn; apply lookup_insert_eq|exact Hplace]|].
    apply live_ok_write; [|done]. eapply Forall_impl; [apply (inv_live _ _ _ Hinv)|].
    intros b. by apply live_ok_extends.
  - replace (Bins a') with (Bins a) by (by rewrite Ha').
    eapply Forall_impl; [apply (inv_free _ _ _ Hinv)|]. apply (ext_in _ _ _ _ Hext).
  - replace (Bins a') with (Bins a) by (by rewrite Ha'). apply zero_write; [|done].
    eapply zero_extends; [done|apply (inv_zero _ _ _ Hinv)].
Qed.

(** When no block comes of it. *)
Lemma inv_extends a m live a' m' : inv a m live → a' = set_nodes a (Nodes a') →
  extends (Nodes a) m (Nodes a') m' → inv a' m' live.
Proof.
  intros Hinv Ha' Hext.
  assert (Bins a' = Bins a) as Hbins by (by rewrite Ha').
  split.
  - rewrite Ha'. apply Hinv.
  - apply Hext.
  - unfold regions. rewrite Hbins. apply Hinv.
  - eapply Forall_impl; [apply (inv_live _ _ _ Hinv)|]. intros b. by apply live_ok_extends.
  - rewrite Hbins. eapply Forall_impl; [apply (inv_free _ _ _ Hinv)|]. apply (ext_in _ _ _ _ Hext).
  - rewrite Hbins. eapply zero_extends; [done|apply (inv_zero _ _ _ Hinv)].
Qed.

(** The first free block of a bin is given out. *)
Lemma inv_reuse a m live i b bn s rest size : inv a m live → 0 < size < 9223372036854775808 →
  Bins a !! Z.to_nat i = Some b → ChunkSize b = chunk_of size → is_Some (find_level MINS MAXS 0 size) →
  Head b = (bn, s) :: rest →
  store m s size = Done (write m s size)
  ∧ inv (set_bin a i (mkBin (ChunkSize b) rest (bn :: FreeHead b))) (write m s size) ((s, size) :: live).
Proof.
  intros Hinv Hsize Hb Hc [lv Hlv] Hhead. set (b' := mkBin _ _ _).
  assert (region_of (s, size) = (s, WORD + ChunkSize b)) as Hreg by (unfold region_of; cbn; by rewrite Hc).
  set (r := (s, WORD + ChunkSize b)) in *.
  assert (free_regions (Bins a) ≡ₚ r :: free_regions (<[Z.to_nat i := b']> (Bins a))) as Hfperm.
  { unfold free_regions. rewrite (bind_bins _ _ _ _ Hb), (bind_set_bin _ _ _ _ _ Hb).
    unfold bin_regions. rewrite Hhead. subst b' r. cbn. solve_Permutation. }
  assert (free_ptrs (Bins a) ≡ₚ s :: free_ptrs (<[Z.to_nat i := b']> (Bins a))) as Hzperm.
  { unfold free_ptrs. rewrite (bind_bins _ _ _ _ Hb), (bind_set_bin _ _ _ _ _ Hb). by rewrite Hhead. }
  assert (regions a live ≡ₚ r :: regions (set_bin a i b') live) as Hperm
    by (unfold regions; rewrite Hfperm; cbn; solve_Permutation).
  pose proof (pairwise_perm _ _ Hperm (inv_disj _ _ _ Hinv)) as [Hd Hpw].
  pose proof (inv_free _ _ _ Hinv) as Hf. rewrite Hfperm in Hf. apply Forall_cons in Hf as [Hr Hfr].
  pose proof (inv_zero _ _ _ Hinv) as Hf. rewrite Hzperm in Hf. apply Forall_cons in Hf as [Hz Hzs].
  assert (Forall (λ x, x.1 ≠ s) live ∧ Forall (λ p, p ≠ s) (free_ptrs (<[Z.to_nat i := b']> (Bins a)))) as [Hnl Hnf].
  { pose proof (regions_pos _ _ _ Hinv) as Hpos. rewrite Hperm, Forall_cons in Hpos. destruct Hpos as [Hpos Hposs].
    by destruct (apart _ _ r Hpos Hposs Hd). }
  split; [|split].
  - apply store_ok. apply (in_block_chain _ (Nodes a) r); [apply Hinv|done|].
    cbn. pose proof (chunk_of_ge size ltac:(lia)). unfold WORD. lia.
  - apply (levels_set_bin _ _ b); [done|done|apply Hinv].
  - apply (inv_chain _ _ _ Hinv).
  - split; [rewrite Hreg; exact Hd|exact Hpw].
  - constructor; [split_and!; [cbn; lia..|cbn; apply lookup_insert_eq|cbn [snd]; rewrite Hlv, Hreg; exact Hr]|].
    apply live_ok_write; [apply (inv_live _ _ _ Hinv)|done].
  - exact Hfr.
  - by apply zero_write.
Qed.

Lemma own_disj ns m r r' : own ns m r → in_chain ns r' ∨ own ns m r' → r.1 ≠ r'.1 → disj r r'.
Proof.
  intros (Hns&Ho&Hb) [(node&Hin&Hblk&_)|(_&Ho'&_)] Hne; left; intros E.
  - rewrite Forall_forall in Hns. apply (Hns node Hin). congruence.
  - apply Hne. destruct (r.1), (r'.1). cbn in *. congruence.
Qed.

(** What a call gives: a new block in use, or nothing. *)
Definition given (a : za_Allocator) (m : memory) (live : list (ptr * Z)) (size : Z) (p : option ptr) : Prop :=
  match p with
  | Some p => inv a m (header (p, size) :: live)
  | None => inv a m live
  end.

Lemma za_Alloc_ok a m live size : inv a m live → 0 ≤ size < 18446744073709551608 →
  ∃ p a' m', za_Alloc a m size = Done (p, a', m') ∧ given a' m' live size p.
Proof.
  intros Hinv Hsize. unfold za_Alloc. destruct (Z.eqb_spec size 0) as [->|H0]; [by eexists _, _, _|].
  assert (za_findBin a size = find_level MINS MAXS 0 size) as Hfind.
  { unfold za_findBin. by destruct (inv_levels _ _ _ Hinv) as (->&->&_). }
  destruct (za_findBin a size) as [i|] eqn:Hi.
  - destruct (inv_bin _ _ _ Hinv size i ltac:(lia) Hi) as (b&Hbin&Hb&Hc&Hle). rewrite Hbin. cbn [obind].
    destruct (Head b) as [|[bn s] rest] eqn:Hhead.
    + replace (to_size (WORD + ChunkSize b)) with (8 + ChunkSize b)
        by (unfold to_size, WORD; rewrite Z.mod_small; lia).
      destruct (za_alloc_ok a m (8 + ChunkSize b) (inv_chain _ _ _ Hinv) ltac:(lia)) as (r&a'&m'&Hr&Ha'&Hext&Hres).
      rewrite Hr. cbn [obind]. destruct r as [s|]; [|exists None, a', m'; split; [done|by eapply inv_extends]].
      destruct Hres as [Hin Hd].
      assert (region_of (s, size) = (s, 8 + ChunkSize b)) as Hreg by (unfold region_of, WORD; cbn; by rewrite Hc).
      destruct (inv_new a m live a' m' s size) as [Hst Hinv']; [done..|lia| | |].
      * rewrite Hreg. eapply Forall_impl; [apply (inv_placed _ _ _ Hinv)|]. intros r. apply Hd.
      * by rewrite <- Hfind, Hreg.
      * rewrite Hst. cbn [obind]. eexists (Some _), _, _. split; [done|]. cbn [given].
        by rewrite (header_shift s size).
    + destruct (inv_reuse a m live i b bn s rest size) as [Hst Hinv']; [done|lia|done..| |done|].
      { rewrite <- Hfind. done. }
      rewrite Hst. cbn [obind]. eexists (Some _), _, _. split; [done|]. cbn [given].
      by rewrite (header_shift s size).
  - pose proof (find_level_none size (eq_sym Hfind)) as Hbig.
    replace (to_size (WORD + size)) with (8 + size) by (unfold to_size, WORD; rewrite Z.mod_small; lia).
    unfold za_innerNew.
    destruct (extends_malloc (Nodes a) m (8 + size) (inv_chain _ _ _ Hinv)) as (Hno&Hyes&Hfresh&Hnone).
    destruct (malloc_ok (next_block m) (8 + size)) eqn:Hok.
    2: { exists None, a. eexists. split; [done|]. eapply inv_extends; [done|by destruct a|done]. }
    pose proof (malloc_max _ _ Hok) as Hmax.
    assert (region_of (mkPtr (next_block m) 0, size) = (mkPtr (next_block m) 0, 8 + size)) as Hreg
      by (unfold region_of, chunk_of; cbn [snd]; by rewrite <- Hfind).
    set (m1 := mkMemory _ (<[_ := _]> _) _) in *.
    assert (own (Nodes a) m1 (mkPtr (next_block m) 0, 8 + size)) as Hown.
    { split_and!; [done|done|]. cbn. apply lookup_insert_eq. }
    destruct (inv_new a m live a m1 (mkPtr (next_block m) 0) size) as [Hst Hinv']; [done|by destruct a|done|lia|..].
    + rewrite Hreg. apply Forall_forall. intros r Hr.
      pose proof (inv_placed _ _ _ Hinv) as Hplaced. rewrite Forall_forall in Hplaced. specialize (Hplaced r Hr).
      left. cbn. pose proof (placed_block m _ _ (inv_chain _ _ _ Hinv) Hplaced). lia.
    + by rewrite <- Hfind, Hreg.
    + rewrite Hst. cbn [obind]. eexists (Some _), _, _. split; [done|]. cbn [given].
      by rewrite (header_shift (mkPtr (next_block m) 0) size).
Qed.

(** ** Release *)

Lemma inv_perm a m live live' : live ≡ₚ live' → inv a m live → inv a m live'.
Proof.
  intros Hp [????? ?]. split; try done.
  - eapply pairwise_perm; [|done]. unfold regions. by rewrite Hp.
  - by rewrite <- Hp.
Qed.

(** A small block is no longer in use. *)
Lemma inv_drop a m live s size : inv a m ((s, size) :: live) →
  inv a (write m s 0) live ∧ Forall (disj (region_of (s, size))) (regions a live).
Proof.
  intros Hinv. pose proof (inv_disj _ _ _ Hinv) as [Hd Hpw]. pose proof (regions_pos _ _ _ Hinv) as Hpos.
  apply Forall_cons in Hpos as [Hpos Hposs]. destruct (apart (Bins a) live _ Hpos Hposs Hd) as [Hl Hf].
  pose proof (inv_live _ _ _ Hinv) as [_ Hlive]%Forall_cons.
  split; [|exact Hd]. split.
  - apply (inv_levels _ _ _ Hinv).
  - apply (inv_chain _ _ _ Hinv).
  - exact Hpw.
  - by apply live_ok_write.
  - apply (inv_free _ _ _ Hinv).
  - apply zero_write; [apply Hinv|done].
Qed.

(** A block and the nodes it needs are added to a bin. *)
Lemma inv_bin_add a m live i b b' new s : inv a m live → Bins a !! Z.to_nat i = Some b →
  ChunkSize b' = ChunkSize b → pairwise (new ++ regions a live) → Forall (in_chain (Nodes a)) new →
  bin_regions b' ≡ₚ new ++ bin_regions b → (Head b').*2 = s :: (Head b).*2 → words m !! s = Some 0 →
  inv (set_bin a i b') m live.
Proof.
  intros Hinv Hb Hc Hpw Hnew Hregs Hptrs Hs.
  assert (regions (set_bin a i b') live ≡ₚ new ++ regions a live) as Hperm.
  { rewrite (regions_bin _ _ _ _ Hb), (regions_set_bin _ _ _ _ _ Hb), Hregs. solve_Permutation. }
  split.
  - apply (levels_set_bin _ _ b); [done|done|apply Hinv].
  - apply (inv_chain _ _ _ Hinv).
  - eapply pairwise_perm; [symmetry; exact Hperm|done].
  - apply (inv_live _ _ _ Hinv).
  - cbn. unfold free_regions. rewrite (bind_set_bin _ _ _ _ _ Hb), Hregs, <- app_assoc.
    rewrite <- (bind_bins _ _ _ _ Hb). apply Forall_app. split; [done|apply (inv_free _ _ _ Hinv)].
  - cbn. unfold free_ptrs. rewrite (bind_set_bin _ _ _ _ _ Hb), Hptrs. cbn. constructor; [done|].
    pose proof (inv_zero _ _ _ Hinv) as Hz. unfold free_ptrs in Hz. by rewrite (bind_bins _ _ _ _ Hb) in Hz.
Qed.

(** A block of its own goes back to [malloc]. *)
Lemma inv_own_free a m live s size : inv a m ((s, size) :: live) → find_level MINS MAXS 0 size = None →
  za_innerFree m s = Done (mkMemory (next_block m) (delete (blk s) (blocks m)) (words m))
  ∧ inv a (mkMemory (next_block m) (delete (blk s) (blocks m)) (words m)) live.
Proof.
  intros Hinv Hnone. pose proof (inv_live _ _ _ Hinv) as [(Hs&Hw&Hown) Hlive]%Forall_cons.
  cbn [snd] in Hown. rewrite Hnone in Hown. pose proof Hown as (Hns&Ho&Hb). cbn in Hns, Ho, Hb.
  pose proof (inv_disj _ _ _ Hinv) as [Hd Hpw].
  assert (0 < size + WORD) as Hpos by (unfold WORD; cbn in Hs; lia).
  destruct (inv_chain _ _ _ Hinv) as (Hne&Hnd&Hnodes&Hfresh).
  split; [unfold za_innerFree; by rewrite Ho, Hb|].
  split; [apply (inv_levels _ _ _ Hinv)| |exact Hpw| |apply (inv_free _ _ _ Hinv)|apply (inv_zero _ _ _ Hinv)].
  - split_and!; [done..| |].
    + rewrite Forall_forall in Hns, Hnodes |- *. intros node Hin. pose proof (Hns node Hin).
      destruct (Hnodes node Hin) as (?&?&?&k&Hk&?). split_and!; try done; try lia. exists k. split; [|done].
      cbn. by rewrite lookup_delete_ne by done.
    + intros b k. cbn. intros [_ Hk]%lookup_delete_Some. eauto.
  - rewrite Forall_forall in Hlive, Hd |- *. intros b Hin. destruct (Hlive b Hin) as (Hs'&Hw'&Hr).
    split_and!; [lia..|done|]. destruct (find_level MINS MAXS 0 b.2) eqn:Hb2; [done|].
    destruct Hr as (Hns'&Ho'&Hb'). split_and!; [done..|]. cbn. rewrite lookup_delete_ne; [done|].
    intros E. specialize (Hd (region_of b)). unfold disj, region_of in Hd. cbn -[chunk_of find_level] in *.
    replace (chunk_of size) with size in Hd by (unfold chunk_of; by rewrite Hnone).
    replace (chunk_of b.2) with b.2 in Hd by (unfold chunk_of; by rewrite Hb2). unfold WORD in *.
    destruct Hd as [?|[?|?]]; [|done|lia|lia]. apply elem_of_app. left. apply list_elem_of_fmap. exists b.
    split; [|done]. unfold chunk_of. by rewrite Hb2.
Qed.

(** A block that was given out can be given back, once. *)
Lemma za_Free_ok a m live p size : inv a m (header (p, size) :: live) →
  ∃ a' m', za_Free a m p = Done (a', m') ∧ inv a' m' live.
Proof.
  unfold header. cbn [fst snd]. unfold za_Free. set (s := shift p (- WORD)). intros Hinv.
  pose proof (inv_live _ _ _ Hinv) as [(Hs&Hw&Hplace) _]%Forall_cons. cbn [fst snd] in *.
  pose proof (chunk_of_ge size ltac:(lia)) as Hge.
  assert (in_block m s 8 = true) as Hblock.
  { destruct (find_level MINS MAXS 0 size).
    - apply (in_block_chain _ _ _ (inv_chain _ _ _ Hinv) Hplace). cbn -[chunk_of]. unfold WORD. lia.
    - apply (in_block_own _ _ _ Hplace). cbn -[chunk_of]. unfold WORD. lia. }
  rewrite (load_ok _ _ _ Hblock Hw). cbn [obind]. replace (size =? 0) with false by lia.
  assert (za_findBin a size = find_level MINS MAXS 0 size) as Hfind.
  { unfold za_findBin. by destruct (inv_levels _ _ _ Hinv) as (->&->&_). }
  destruct (za_findBin a size) as [i|] eqn:Hi.
  2: { destruct (inv_own_free _ _ _ _ _ Hinv (eq_sym Hfind)) as [-> Hinv']. by eexists _, _. }
  destruct (inv_bin _ _ _ Hinv size i ltac:(lia) Hi) as (b&Hbin&Hb&Hc&Hle).
  rewrite (store_ok _ _ _ Hblock), Hbin. cbn [obind].
  destruct (inv_drop _ _ _ _ _ Hinv) as [Hdrop Hd]. rewrite <- Hfind in Hplace.
  assert (region_of (s, size) = (s, WORD + ChunkSize b)) as Hreg by (unfold region_of; cbn; by rewrite Hc).
  rewrite Hreg in Hd, Hplace.
  destruct (FreeHead b) as [|bn rest] eqn:Hfree.
  - destruct (za_alloc_ok a (write m s 0) BIN_NODE_SIZE (inv_chain _ _ _ Hdrop) ltac:(unfold BIN_NODE_SIZE; lia))
      as (r&a'&m'&->&Ha'&Hext&Hres). cbn [obind].
    pose proof (inv_extends _ _ _ _ _ Hdrop Ha' Hext) as Hinv'.
    destruct r as [bn|]; [|by eexists _, _]. destruct Hres as [Hin Hapart].
    eexists _, _. split; [done|].
    apply (inv_bin_add _ _ _ _ b _ [(s, WORD + ChunkSize b); (bn, BIN_NODE_SIZE)] s); [done|by rewrite Ha'|done|..].
    + unfold regions. replace (Bins a') with (Bins a) by (by rewrite Ha'). cbn. split_and!.
      * constructor; [|exact Hd]. apply disj_sym, Hapart. by left.
      * eapply Forall_impl; [apply (inv_placed _ _ _ Hdrop)|]. intros r. apply Hapart.
      * apply (inv_disj _ _ _ Hdrop).
    + repeat constructor; [|done]. by apply (ext_in _ _ _ _ Hext).
    + unfold bin_regions. cbn. rewrite Hfree. cbn. solve_Permutation.
    + done.
    + rewrite (ext_words _ _ _ _ Hext). cbn. apply lookup_insert_eq.
  - eexists _, _. split; [done|].
    apply (inv_bin_add _ _ _ _ b _ [(s, WORD + ChunkSize b)] s); [done..|split; [exact Hd|apply (inv_disj _ _ _ Hdrop)]| | | |].
    + by repeat constructor.
    + unfold bin_regions. cbn. rewrite Hfree. cbn. solve_Permutation.
    + done.
    + cbn. apply lookup_insert_eq.
Qed.

(** A new allocator has no block in use. *)
Lemma za_New_ok m a m' : (∀ b size, blocks m !! b = Some size → (b < next_block m)%nat) →
  za_New m = (Some a, m') → inv a m' [].
Proof.
  intros Hfresh. unfold za_New, za_innerNew.
  destruct (malloc_ok _ _); [|done]. intros [= <- <-]. split.
  - by split_and!.
  - split_and!; cbn; [done|apply NoDup_singleton| |].
    + apply Forall_singleton. unfold node_ok, za_INIT_SIZE, ALLOCATOR_SIZE, NODE_SIZE. cbn. split_and!; try lia.
      eexists. rewrite lookup_insert_eq. split; [done|lia].
    + intros b size Hb. destruct (decide (b = next_block m)) as [->|Hne]; [lia|].
      rewrite lookup_insert_ne in Hb by done. apply Hfresh in Hb. lia.
  - by vm_compute.
  - constructor.
  - constructor.
  - constructor.
Qed.
End alloc.
