(* ===== verification/SvelteAllocClaims.v ===== *)
(** * What the Svelte scanner's allocator promises

    The states that calls of [za_Alloc] and [za_Free] reach from [za_New]: the
    blocks in use are apart and lie in the memory of [malloc], every call has a
    defined result, and [za_Release] gives all of the chain back. *)

From stdpp Require Import gmap.
From S2P Require Import Prelude VcVector SvelteAlloc SvelteAllocProofs.

(** ** Reachable states *)

Section reachable.
Context {HM : Malloc}.

(** The blocks in use, with the sizes that were asked for. *)
Inductive reachable : za_Allocator → memory → list (ptr * Z) → Prop :=
| reach_New n a m : za_New (mkMemory n ∅ ∅) = (Some a, m) → reachable a m []
| reach_Alloc a m live size p a' m' : reachable a m live → 0 ≤ size < 18446744073709551608 →
    za_Alloc a m size = Done (p, a', m') →
    reachable a' m' (match p with Some p => (p, size) :: live | None => live end)
| reach_Free a m live p size live' a' m' : reachable a m live → live ≡ₚ (p, size) :: live' →
    za_Free a m p = Done (a', m') → reachable a' m' live'.

Lemma reachable_inv a m live : reachable a m live → inv a m (header <$> live).
Proof.
  induction 1 as [n a m Hnew|a m live size p a' m' _ IH Hsize Halloc|a m live p size live' a' m' _ IH Hp Hfree].
  - by apply (za_New_ok (mkMemory n ∅ ∅)).
  - destruct (za_Alloc_ok a m _ size IH Hsize) as (p'&a''&m''&E&Hg). rewrite E in Halloc. simplify_eq.
    by destruct p.
  - assert (inv a m (header (p, size) :: (header <$> live'))) as Hinv
      by (eapply inv_perm; [|exact IH]; by rewrite Hp).
    destruct (za_Free_ok a m _ p size Hinv) as (a''&m''&E&Hg). rewrite E in Hfree. by simplify_eq.
Qed.

(** ** The blocks of the chain *)

Definition chain_data (ps : list ptr) : Prop :=
  match ps with
  | [] => False
  | p :: ps => off p = ALLOCATOR_SIZE + NODE_SIZE ∧ Forall (λ p, off p = NODE_SIZE) ps
  end.

(** What [malloc] gave out is a node of the chain, or is [large] and in use. *)
Definition owned (a : za_Allocator) (large : list nat) (m : memory) : Prop :=
  ∀ b, is_Some (blocks m !! b) → b ∈ blk <$> (Data <$> Nodes a) ∨ b ∈ large.

Definition large_blocks (live : list (ptr * Z)) : list nat :=
  (λ b, blk b.1) <$> filter (λ b, 134217728 < b.2) live.

Lemma find_level_large size : 0 < size < 18446744073709551616 →
  find_level MINS MAXS 0 size = None ↔ 134217728 < size.
Proof.
  intros Hs. split; [apply find_level_none|]. intros Hbig.
  destruct (find_level MINS MAXS 0 size) as [i|] eqn:E; [|done]. apply find_level_some in E as (c&_&?); [lia|done].
Qed.

Lemma carve_data a size p a' : carve a size = Done (p, a') → Data <$> Nodes a' = Data <$> Nodes a.
Proof.
  unfold carve. destruct (rev (Nodes a)) as [|node before] eqn:E; [done|]. intros [= _ <-]. cbn.
  replace (Nodes a) with (rev before ++ [node]); [by rewrite !fmap_app|].
  rewrite <- (rev_involutive (Nodes a)), E. done.
Qed.

Lemma chain_data_snoc ps p : chain_data ps → off p = NODE_SIZE → chain_data (ps ++ [p]).
Proof.
  destruct ps as [|q ps]; [done|]. intros [Hq Hps] Hp. split; [done|].
  rewrite Forall_app, Forall_singleton. done.
Qed.

(** More of the chain, for the same other blocks. *)
Lemma za_alloc_owned a m size large r a' m' : chain_data (Data <$> Nodes a) → owned a large m →
  za_alloc a m size = Done (r, a', m') → chain_data (Data <$> Nodes a') ∧ owned a' large m'.
Proof.
  intros Hdata Hown. unfold za_alloc. destruct (last (Nodes a)) as [node|]; [|done].
  assert (∀ a0 m0 p a1, chain_data (Data <$> Nodes a0) → owned a0 large m0 → carve a0 size = Done (p, a1) →
    chain_data (Data <$> Nodes a1) ∧ owned a1 large m0) as Hcarve.
  { intros a0 m0 p a1 Hd Ho Hc%carve_data. unfold owned. by rewrite Hc. }
  destruct (_ <? _).
  - destruct (grow _ _ _) as [s| | |]; [|done..]. cbn [obind]. unfold za_appendChild, za_innerNew.
    destruct (malloc_ok _ _); cbn [obind].
    + destruct (carve _ _) as [[p a1]| | |] eqn:Hc; [|done..]. intros [= <- <- <-].
      eapply Hcarve in Hc; [exact Hc|..]; cbn.
      * rewrite fmap_app. by apply chain_data_snoc.
      * intros b [k Hk]. cbn in Hk |- *. rewrite !fmap_app, elem_of_app.
        destruct (decide (b = next_block m)) as [->|Hne]; [left; right; by left|].
        rewrite lookup_insert_ne in Hk by done. destruct (Hown b); [by eexists|by left; left|by right].
    + intros [= <- <- <-]. split; [done|]. intros b Hb. by apply Hown.
  - destruct (carve _ _) as [[p a1]| | |] eqn:Hc; [|done..]. intros [= <- <- <-]. by eapply Hcarve.
Qed.

Lemma owned_mono a large large' m : (∀ b, b ∈ large → b ∈ large') → owned a large m → owned a large' m.
Proof. intros Hl Ho b Hb. destruct (Ho b Hb); [by left|right; auto]. Qed.

Lemma owned_store a large m p v m' : store m p v = Done m' → owned a large m → owned a large m'.
Proof. unfold store. case_match; [|done]. by intros [= <-]. Qed.

Lemma large_cons b live x : x ∈ large_blocks live → x ∈ large_blocks (b :: live).
Proof. unfold large_blocks. rewrite filter_cons. case_decide; [by right|done]. Qed.

Lemma large_perm live live' : live ≡ₚ live' → large_blocks live ≡ₚ large_blocks live'.
Proof. unfold large_blocks. by intros ->. Qed.

(** What [malloc] gave out is known. *)
Definition accounted (a : za_Allocator) (m : memory) (live : list (ptr * Z)) : Prop :=
  chain_data (Data <$> Nodes a) ∧ owned a (large_blocks live) m.

Lemma za_Alloc_accounted a m live size p a' m' : inv a m (header <$> live) → 0 ≤ size < 18446744073709551608 →
  za_Alloc a m size = Done (p, a', m') → accounted a m live →
  accounted a' m' (match p with Some p => (p, size) :: live | None => live end).
Proof.
  intros Hinv Hsize Halloc [Hdata Hown]. unfold za_Alloc in Halloc.
  destruct (Z.eqb_spec size 0) as [->|H0]; [by simplify_eq|].
  assert (za_findBin a size = find_level MINS MAXS 0 size) as Hfind.
  { unfold za_findBin. by destruct (inv_levels _ _ _ Hinv) as (->&->&_). }
  destruct (za_findBin a size) as [i|] eqn:Hi.
  - destruct (bin_at a i) as [b| | |]; [|done..]. cbn [obind] in Halloc.
    destruct (Head b) as [|[bn s] rest].
    + destruct (za_alloc _ _ _) as [[[r a1] m1]| | |] eqn:E; [|done..]. cbn [obind] in Halloc.
      destruct (za_alloc_owned _ _ _ _ _ _ _ Hdata Hown E) as [Hdata' Hown'].
      destruct r as [s|]; [|by simplify_eq].
      destruct (store m1 s size) eqn:Hst; [|done..]. simplify_eq/=. split; [done|].
      eapply owned_mono; [intros x; apply large_cons|]. by eapply owned_store.
    + destruct (store m s size) eqn:Hst; [|done..]. simplify_eq/=. split; [done|].
      eapply owned_mono; [intros x; apply large_cons|]. eapply owned_store; [done|exact Hown].
  - unfold za_innerNew in Halloc. destruct (malloc_ok _ _).
    2: { simplify_eq. done. }
    destruct (store _ _ _) eqn:Hst; [|done..]. simplify_eq/=. split; [done|].
    eapply owned_store; [done|]. intros b [k Hk]. cbn in Hk.
    unfold large_blocks. rewrite filter_cons, decide_True by (symmetry in Hfind; by apply find_level_large in Hfind; [|lia]).
    destruct (decide (b = next_block m)) as [->|Hne]; [right; by left|].
    rewrite lookup_insert_ne in Hk by done. destruct (Hown b); [by eexists|by left|by right; right].
Qed.

Lemma za_Free_accounted a m live p size live' a' m' : inv a m (header <$> live) → live ≡ₚ (p, size) :: live' →
  za_Free a m p = Done (a', m') → accounted a m live → accounted a' m' live'.
Proof.
  intros Hinv Hp Hfree [Hdata Hown].
  assert (inv a m (header (p, size) :: (header <$> live'))) as Hinv' by (eapply inv_perm; [|exact Hinv]; by rewrite Hp).
  pose proof (inv_live _ _ _ Hinv') as [(Hs&Hw&_) _]%Forall_cons. cbn [fst snd header] in *.
  assert (za_findBin a size = find_level MINS MAXS 0 size) as Hfind.
  { unfold za_findBin. by destruct (inv_levels _ _ _ Hinv) as (->&->&_). }
  unfold za_Free, load in Hfree. destruct (in_block _ _ _); [|done]. rewrite Hw in Hfree. cbn [obind] in Hfree.
  replace (size =? 0) with false in Hfree by lia.
  assert (large_blocks live ≡ₚ (if decide (134217728 < size) then [blk p] else []) ++ large_blocks live') as Hl.
  { rewrite (large_perm _ _ Hp). unfold large_blocks. rewrite filter_cons. cbn [snd].
    by destruct (decide (134217728 < size)). }
  pose proof (find_level_large size ltac:(lia)) as Hlarge. rewrite <- Hfind in Hlarge.
  destruct (za_findBin a size) as [i|] eqn:Hi.
  - rewrite decide_False in Hl by (intros ?%Hlarge; done). cbn [app] in Hl.
    assert (owned a (large_blocks live') m) as Hown' by (intros b Hb; rewrite <- Hl; auto).
    destruct (store _ _ _) as [m1| | |] eqn:Hst; [|done..]. cbn [obind] in Hfree.
    pose proof (owned_store _ _ _ _ _ _ Hst Hown') as Hown1.
    destruct (bin_at a i) as [b| | |]; [|done..]. cbn [obind] in Hfree.
    destruct (FreeHead b); [|by simplify_eq].
    destruct (za_alloc _ _ _) as [[[r a1] m2]| | |] eqn:E; [|done..]. cbn [obind] in Hfree.
    destruct (za_alloc_owned _ _ _ _ _ _ _ Hdata Hown1 E) as [Hdata' Hown2]. destruct r; by simplify_eq.
  - rewrite decide_True in Hl by (by apply Hlarge). unfold za_innerFree in Hfree.
    destruct (_ && _); [|done]. simplify_eq/=. split; [done|].
    intros b [k Hk]. cbn in Hk. apply lookup_delete_Some in Hk as [Hne Hk].
    destruct (Hown b) as [?|Hb]; [by eexists|by left|]. rewrite Hl in Hb. apply elem_of_cons in Hb as [->|?]; [done|by right].
Qed.

Lemma reachable_accounted a m live : reachable a m live → accounted a m live.
Proof.
  induction 1 as [n a m Hnew|a m live size p a' m' Hr IH Hsize Halloc|a m live p size live' a' m' Hr IH Hp Hfree].
  - unfold za_New, za_innerNew in Hnew. destruct (malloc_ok _ _); [|done]. injection Hnew as <- <-. split; [by split|].
    intros b [k Hk]. cbn in Hk. destruct (decide (b = n)) as [->|Hne]; [left; by left|].
    by rewrite lookup_insert_ne in Hk.
  - by eapply za_Alloc_accounted; [apply reachable_inv|..].
  - by eapply za_Free_accounted; [apply reachable_inv|..].
Qed.

(** ** Release *)

Lemma release_nodes_ok m ns : NoDup (blk <$> (Data <$> ns)) →
  Forall (λ p, off p = NODE_SIZE) (Data <$> ns) → Forall (λ p, is_Some (blocks m !! blk p)) (Data <$> ns) →
  ∃ m', release_nodes m ns = Done m' ∧ ∀ b, blocks m' !! b = if decide (b ∈ blk <$> (Data <$> ns)) then None else blocks m !! b.
Proof.
  revert m. induction ns as [|node ns IH]; intros m Hnd Hoff Hin; [by exists m|].
  cbn in Hnd, Hoff, Hin. apply NoDup_cons in Hnd as [Hnode Hnd].
  apply Forall_cons in Hoff as [Ho Hoff]. apply Forall_cons in Hin as [Hi Hin].
  cbn [release_nodes]. unfold za_innerFree. cbn [off blk shift].
  replace (off (Data node) + - NODE_SIZE =? 0) with true by lia. rewrite bool_decide_true by done. cbn [andb obind].
  destruct (IH (mkMemory (next_block m) (delete (blk (Data node)) (blocks m)) (words m)) Hnd Hoff) as (m'&->&Hm').
  { rewrite Forall_forall in Hin |- *. intros p Hp. cbn. rewrite lookup_delete_ne; [auto|].
    intros E. apply Hnode. rewrite E. by apply list_elem_of_fmap_2. }
  exists m'. split; [done|]. intros b. rewrite Hm'. cbn [fmap list_fmap blocks].
  destruct (decide (b = blk (Data node))) as [->|Hne].
  - rewrite lookup_delete_eq. rewrite (decide_True (P := _ ∈ _ :: _)) by by left. by case_decide.
  - rewrite lookup_delete_ne by done.
    destruct (decide (b ∈ blk <$> (Data <$> ns))) as [Hb|Hb]; [by rewrite decide_True by by right|].
    rewrite decide_False; [done|]. by intros [?|?]%elem_of_cons.
Qed.

Lemma inv_nodes a m live : inv a m live → NoDup (blk <$> (Data <$> Nodes a))
  ∧ Forall (λ p, is_Some (blocks m !! blk p)) (Data <$> Nodes a).
Proof.
  intros Hinv. destruct (inv_chain _ _ _ Hinv) as (_&Hnd&Hns&_). split.
  - by rewrite <- list_fmap_compose.
  - apply Forall_fmap. eapply Forall_impl; [exact Hns|]. intros node (_&_&_&k&Hk&_). by exists k.
Qed.

(** ** Blocks in use *)

Lemma disj_live b1 b2 : 0 < b1.2 < 9223372036854775808 → 0 < b2.2 < 9223372036854775808 →
  disj (region_of (header b1)) (region_of (header b2)) → disj b1 b2.
Proof.
  intros H1 H2. pose proof (chunk_of_ge b1.2 ltac:(lia)). pose proof (chunk_of_ge b2.2 ltac:(lia)).
  unfold disj, region_of, header. cbn -[chunk_of]. unfold WORD. intros [?|[?|?]]; [by left|right; left; lia|right; right; lia].
Qed.

Lemma pairwise_live live rs : Forall (λ b : ptr * Z, 0 < b.2 < 9223372036854775808) live →
  pairwise ((region_of <$> (header <$> live)) ++ rs) → pairwise live.
Proof.
  induction 1 as [|b live Hb Hl IH]; [done|]. cbn [fmap list_fmap app pairwise]. intros [Hd Hpw].
  split; [|by apply IH]. apply Forall_app in Hd as [Hd _]. rewrite !Forall_fmap in Hd.
  rewrite Forall_forall in Hd, Hl |- *. intros b' Hb'. apply disj_live; [done|by apply Hl|by apply Hd].
Qed.

Lemma live_in_block ns m b : chain_ok m ns → live_ok ns m (header b) → in_block m b.1 b.2 = true.
Proof.
  intros (_&_&Hns&_) (Hs&_&Hr). cbn [header fst snd] in Hs. pose proof (chunk_of_ge b.2 ltac:(lia)) as Hge.
  unfold in_block. destruct (find_level MINS MAXS 0 (header b).2) as [i|] eqn:E.
  - destruct Hr as (node&Hin&Hblk&Hlo&Hhi). rewrite Forall_forall in Hns.
    destruct (Hns node Hin) as (Hpos&_&Hoff&k&Hk&Hle). cbn -[chunk_of] in Hblk, Hlo, Hhi. rewrite Hblk, Hk.
    unfold WORD in *. lia.
  - destruct Hr as (_&Ho&Hb). cbn -[chunk_of] in Ho, Hb. rewrite Hb. unfold WORD in *. lia.
Qed.

(** ** The promises *)

(** C6: whatever blocks were asked for and given back, those in use are apart
    and inside the memory that [malloc] gave out; and the next call, for any
    size or of any of these blocks, has a defined result. *)
Theorem za_blocks a m live : reachable a m live →
  pairwise live ∧ Forall (λ b, 0 < b.2 ∧ in_block m b.1 b.2 = true) live
  ∧ (∀ size, 0 ≤ size < 18446744073709551608 → ∃ r, za_Alloc a m size = Done r)
  ∧ Forall (λ b, ∃ r, za_Free a m b.1 = Done r) live.
Proof.
  intros Hr. pose proof (reachable_inv _ _ _ Hr) as Hinv. split_and!.
  - apply (pairwise_live live (free_regions (Bins a))); [|apply (inv_disj _ _ _ Hinv)].
    pose proof (inv_live _ _ _ Hinv) as Hl. rewrite Forall_fmap in Hl.
    eapply Forall_impl; [exact Hl|]. intros b (Hs&_). cbn in Hs. lia.
  - pose proof (inv_live _ _ _ Hinv) as Hl. rewrite Forall_fmap in Hl.
    eapply Forall_impl; [exact Hl|]. intros b Hb. split; [apply Hb|].
    by apply (live_in_block (Nodes a)); [apply (inv_chain _ _ _ Hinv)|].
  - intros size Hsize. destruct (za_Alloc_ok a m _ size Hinv Hsize) as (p&a'&m'&E&_). eauto.
  - apply Forall_forall. intros [p size] Hb. apply elem_of_Permutation in Hb as [live' Hp].
    destruct (za_Free_ok a m (header <$> live') p size) as (a'&m'&E&_); [|eauto].
    eapply inv_perm; [|exact Hinv]. by rewrite Hp.
Qed.

(** C24: when no large block is in use, [za_Release] gives back all that [malloc]
    gave out, whatever small blocks are in use. *)
Theorem za_release_all a m live : reachable a m live → Forall (λ b, b.2 ≤ 134217728) live →
  ∃ m', za_Release a m = Done m' ∧ blocks m' = ∅.
Proof.
  intros Hr Hsmall. pose proof (reachable_inv _ _ _ Hr) as Hinv.
  destruct (reachable_accounted _ _ _ Hr) as [Hdata Hown]. destruct (inv_nodes _ _ _ Hinv) as [Hnd Hin].
  assert (large_blocks live = []) as Hlarge.
  { unfold large_blocks. replace (filter _ live) with (@nil (ptr * Z)); [done|]. symmetry.
    clear -Hsmall. induction Hsmall as [|b live Hb _ IH]; [done|].
    rewrite filter_cons, decide_False by lia. exact IH. }
  unfold za_Release, owned in *. destruct (Nodes a) as [|head ns]; [done|]. cbn in Hdata, Hnd, Hin.
  destruct Hdata as [Hhead Hoff]. apply NoDup_cons in Hnd as [Hnode Hnd]. apply Forall_cons in Hin as [Hi Hin].
  destruct (release_nodes_ok m ns Hnd Hoff Hin) as (m'&->&Hm'). cbn [obind]. unfold za_innerFree.
  cbn [off blk shift]. replace (_ =? 0) with true by lia.
  assert (is_Some (blocks m' !! blk (Data head))) as Hi' by (rewrite Hm', decide_False by done; done).
  rewrite bool_decide_true by done. eexists. split; [done|]. cbn. apply map_eq. intros b. rewrite lookup_empty.
  destruct (decide (b = blk (Data head))) as [->|Hne]; [by rewrite lookup_delete_eq|].
  rewrite lookup_delete_ne, Hm' by done. case_decide as Hb; [done|].
  destruct (blocks m !! b) eqn:E; [|done]. destruct (Hown b) as [Hc|Hc]; [by eexists| |by rewrite Hlarge in Hc; inversion Hc].
  cbn in Hc. apply elem_of_cons in Hc as [?|?]; done.
Qed.
End reachable.

(** ** A run *)

#[local] Instance small_malloc : Malloc.
Proof.
  refine {| malloc_ok _ size := size <? 9223372036854775808 |}. intros _ size. lia.
Defined.

(** Two blocks, the first given back and its memory given out again. *)
Definition run : outcome (za_Allocator * memory * list (ptr * Z)) :=
  match za_New (mkMemory 0 ∅ ∅) with
  | (Some a, m) =>
      let? '(p, a, m) := za_Alloc a m 10 in
      let? '(q, a, m) := za_Alloc a m 200 in
      match p, q with
      | Some p, Some q =>
          let? '(a, m) := za_Free a m p in
          let? '(r, a, m) := za_Alloc a m 9 in
          Done (a, m, (match r with Some r => [(r, 9)] | None => [] end) ++ [(q, 200)])
      | _, _ => Undefined
      end
  | _ => Undefined
  end.

Lemma run_reachable : ∃ a m live, run = Done (a, m, live) ∧ reachable a m live
  ∧ live = [(mkPtr 0 2056, 9); (mkPtr 0 2080, 200)].
Proof.
  unfold run.
  destruct (za_New _) as [[a|] m] eqn:Ea; [|by vm_compute in Ea].
  pose proof (reach_New _ _ _ Ea) as H0. vm_compute in Ea. injection Ea as <- <-.
  destruct (za_Alloc _ _ 10) as [[[p1 a1] m1]| | |] eqn:E1; [|by vm_compute in E1..]. cbn [obind].
  pose proof (reach_Alloc _ _ _ 10 _ _ _ H0 ltac:(lia) E1) as H1. vm_compute in E1. injection E1 as <- <- <-.
  destruct (za_Alloc _ _ 200) as [[[p2 a2] m2]| | |] eqn:E2; [|by vm_compute in E2..]. cbn [obind].
  pose proof (reach_Alloc _ _ _ 200 _ _ _ H1 ltac:(lia) E2) as H2. vm_compute in E2. injection E2 as <- <- <-.
  destruct (za_Free _ _ _) as [[a3 m3]| | |] eqn:E3; [|by vm_compute in E3..]. cbn [obind].
  pose proof (reach_Free _ _ _ _ 10 [(mkPtr 0 2080, 200)] _ _ H2 ltac:(apply Permutation_swap) E3) as H3.
  vm_compute in E3. injection E3 as <- <-.
  destruct (za_Alloc _ _ 9) as [[[p4 a4] m4]| | |] eqn:E4; [|by vm_compute in E4..]. cbn [obind].
  pose proof (reach_Alloc _ _ _ 9 _ _ _ H3 ltac:(lia) E4) as H4. vm_compute in E4. injection E4 as <- <- <-.
  by eexists _, _, _.
Qed.

Lemma za_blocks_witness : ∃ a m, run = Done (a, m, [(mkPtr 0 2056, 9); (mkPtr 0 2080, 200)])
  ∧ pairwise [(mkPtr 0 2056, 9); (mkPtr 0 2080, 200)] ∧ ∃ r, za_Alloc a m 1000 = Done r.
Proof.
  destruct run_reachable as (a&m&live&Hrun&Hr&->). exists a, m.
  destruct (za_blocks a m _ Hr) as (Hpw&_&Halloc&_). split_and!; [done..|]. apply Halloc. lia.
Defined.

Lemma za_release_all_witness : ∃ a m m', run = Done (a, m, [(mkPtr 0 2056, 9); (mkPtr 0 2080, 200)])
  ∧ za_Release a m = Done m' ∧ blocks m' = ∅.
Proof.
  destruct run_reachable as (a&m&live&Hrun&Hr&->).
  destruct (za_release_all a m _ Hr) as (m'&?&?); [repeat constructor; cbn; lia|]. by exists a, m, m'.
Defined.

(** The size of a block wraps around for the largest sizes: 7 bytes are asked
    for, and the size is stored past their end. *)
Lemma za_Alloc_wraps `{Malloc} a m : LevelMins a = MINS → LevelMaxs a = MAXS →
  malloc_ok (next_block m) 7 = true → za_Alloc a m 18446744073709551615 = Undefined.
Proof.
  intros Hmins Hmaxs Hok. unfold za_Alloc, za_findBin. rewrite Hmins, Hmaxs. cbn [Z.eqb].
  change (find_level MINS MAXS 0 18446744073709551615) with (@None Z).
  unfold za_innerNew. change (to_size (WORD + 18446744073709551615)) with 7. rewrite Hok.
  unfold store, in_block. cbn. by rewrite lookup_insert_eq.
Qed.
