(* ===== verification/SvelteTag.v ===== *)
(** * Tags of the Svelte scanner

    [tag.h]: the type and the name of an element, and what an element may
    contain; [uthash.h]: the hash table from names to types, and [for_name].
    A [Tag] is 32 bytes: a little-endian [int], 4 bytes of padding, and 24 bytes
    of string. *)

From S2P Require Import Prelude CArray CString VcVector.

Module TagType.
Inductive t : Type :=
  | AREA | BASE | BASEFONT | BGSOUND | BR | COL | COMMAND | EMBED | FRAME | HR | IMAGE | IMG
  | INPUT | ISINDEX | KEYGEN | LINK | MENUITEM | META | NEXTID | PARAM | SOURCE | TRACK | WBR
  | END_OF_VOID_TAGS | A | ABBR | ADDRESS | ARTICLE | ASIDE | AUDIO | B | BDI | BDO | BLOCKQUOTE
  | BODY | BUTTON | CANVAS | CAPTION | CITE | CODE | COLGROUP | DATA | DATALIST | DD | DEL
  | DETAILS | DFN | DIALOG | DIV | DL | DT | EM | FIELDSET | FIGCAPTION | FIGURE | FOOTER | FORM
  | H1 | H2 | H3 | H4 | H5 | H6 | HEAD | HEADER | HGROUP | HTML | I | IFRAME | INS | KBD | LABEL
  | LEGEND | LI | MAIN | MAP | MARK | MATH | MENU | METER | NAV | NOSCRIPT | OBJECT | OL
  | OPTGROUP | OPTION | OUTPUT | P | PICTURE | PRE | PROGRESS | Q | RB | RP | RT | RTC | RUBY
  | S | SAMP | SCRIPT | SECTION | SELECT | SLOT | SMALL | SPAN | STRONG | STYLE | SUB | SUMMARY
  | SUP | SVG | TABLE | TBODY | TD | TEMPLATE | TEXTAREA | TFOOT | TH | THEAD | TIME | TITLE
  | TR | U | UL | VAR | VIDEO | CUSTOM.

Definition to_Z (x : t) : Z :=
  match x with
  | AREA => 1 | BASE => 2 | BASEFONT => 3 | BGSOUND => 4 | BR => 5 | COL => 6 | COMMAND => 7
  | EMBED => 8 | FRAME => 9 | HR => 10 | IMAGE => 11 | IMG => 12 | INPUT => 13 | ISINDEX => 14
  | KEYGEN => 15 | LINK => 16 | MENUITEM => 17 | META => 18 | NEXTID => 19 | PARAM => 20
  | SOURCE => 21 | TRACK => 22 | WBR => 23 | END_OF_VOID_TAGS => 24 | A => 25 | ABBR => 26
  | ADDRESS => 27 | ARTICLE => 28 | ASIDE => 29 | AUDIO => 30 | B => 31 | BDI => 32 | BDO => 33
  | BLOCKQUOTE => 34 | BODY => 35 | BUTTON => 36 | CANVAS => 37 | CAPTION => 38 | CITE => 39
  | CODE => 40 | COLGROUP => 41 | DATA => 42 | DATALIST => 43 | DD => 44 | DEL => 45
  | DETAILS => 46 | DFN => 47 | DIALOG => 48 | DIV => 49 | DL => 50 | DT => 51 | EM => 52
  | FIELDSET => 53 | FIGCAPTION => 54 | FIGURE => 55 | FOOTER => 56 | FORM => 57 | H1 => 58
  | H2 => 59 | H3 => 60 | H4 => 61 | H5 => 62 | H6 => 63 | HEAD => 64 | HEADER => 65
  | HGROUP => 66 | HTML => 67 | I => 68 | IFRAME => 69 | INS => 70 | KBD => 71 | LABEL => 72
  | LEGEND => 73 | LI => 74 | MAIN => 75 | MAP => 76 | MARK => 77 | MATH => 78 | MENU => 79
  | METER => 80 | NAV => 81 | NOSCRIPT => 82 | OBJECT => 83 | OL => 84 | OPTGROUP => 85
  | OPTION => 86 | OUTPUT => 87 | P => 88 | PICTURE => 89 | PRE => 90 | PROGRESS => 91 | Q => 92
  | RB => 93 | RP => 94 | RT => 95 | RTC => 96 | RUBY => 97 | S => 98 | SAMP => 99
  | SCRIPT => 100 | SECTION => 101 | SELECT => 102 | SLOT => 103 | SMALL => 104 | SPAN => 105
  | STRONG => 106 | STYLE => 107 | SUB => 108 | SUMMARY => 109 | SUP => 110 | SVG => 111
  | TABLE => 112 | TBODY => 113 | TD => 114 | TEMPLATE => 115 | TEXTAREA => 116 | TFOOT => 117
  | TH => 118 | THEAD => 119 | TIME => 120 | TITLE => 121 | TR => 122 | U => 123 | UL => 124
  | VAR => 125 | VIDEO => 126 | CUSTOM => 127
  end.

Definition TAG_TYPES_NOT_ALLOWED_IN_PARAGRAPHS : list t :=
  [ADDRESS; ARTICLE; ASIDE; BLOCKQUOTE; DETAILS; DIV; DL; FIELDSET; FIGCAPTION; FIGURE; FOOTER;
  FORM; H1; H2; H3; H4; H5; H6; HEADER; HR; MAIN; NAV; OL; P; PRE; SECTION].

(** The names that [get_tag_map] puts into the table, in its order. *)
Definition tag_names : list (t * String.string) := ([
  (AREA, "area"); (BASE, "base"); (BASEFONT, "basefont"); (BGSOUND, "bgsound"); (BR, "br");
  (COL, "col"); (COMMAND, "command"); (EMBED, "embed"); (FRAME, "frame"); (HR, "hr");
  (IMAGE, "image"); (IMG, "img"); (INPUT, "input"); (ISINDEX, "isindex"); (KEYGEN, "keygen");
  (LINK, "link"); (MENUITEM, "menuitem"); (META, "meta"); (NEXTID, "nextid"); (PARAM, "param");
  (SOURCE, "source"); (TRACK, "track"); (WBR, "wbr"); (A, "a"); (ABBR, "bbr");
  (ADDRESS, "address"); (ARTICLE, "article"); (ASIDE, "aside"); (AUDIO, "audio"); (B, "b");
  (BDI, "di"); (BDO, "bdo"); (BLOCKQUOTE, "blockquote"); (BODY, "body"); (BUTTON, "button");
  (CANVAS, "canvas"); (CAPTION, "caption"); (CITE, "cite"); (CODE, "code");
  (COLGROUP, "colgroup"); (DATA, "data"); (DATALIST, "datalist"); (DD, "dd"); (DEL, "del");
  (DETAILS, "details"); (DFN, "dfn"); (DIALOG, "dialog"); (DIV, "div"); (DL, "dl"); (DT, "dt");
  (EM, "em"); (FIELDSET, "fieldset"); (FIGCAPTION, "figcaption"); (FIGURE, "figure");
  (FOOTER, "footer"); (FORM, "form"); (H1, "h1"); (H2, "h2"); (H3, "h3"); (H4, "h4");
  (H5, "h5"); (H6, "h6"); (HEAD, "head"); (HEADER, "header"); (HGROUP, "hgroup");
  (HTML, "html"); (I, "i"); (IFRAME, "frame"); (INS, "ins"); (KBD, "kbd"); (LABEL, "label");
  (LEGEND, "legend"); (LI, "li"); (MAIN, "main"); (MAP, "map"); (MARK, "mark"); (MATH, "math");
  (MENU, "menu"); (METER, "meter"); (NAV, "nav"); (NOSCRIPT, "noscript"); (OBJECT, "object");
  (OL, "ol"); (OPTGROUP, "optgroup"); (OPTION, "option"); (OUTPUT, "output"); (P, "p");
  (PICTURE, "picture"); (PRE, "pre"); (PROGRESS, "progress"); (Q, "q"); (RB, "rb"); (RP, "RP");
  (RT, "rt"); (RTC, "rtc"); (RUBY, "ruby"); (S, "s"); (SAMP, "samp"); (SCRIPT, "script");
  (SECTION, "section"); (SELECT, "select"); (SLOT, "slot"); (SMALL, "small"); (SPAN, "span");
  (STRONG, "strong"); (STYLE, "style"); (SUB, "sub"); (SUMMARY, "summary"); (SUP, "sup");
  (SVG, "svg"); (TABLE, "table"); (TBODY, "tbody"); (TD, "td"); (TEMPLATE, "template");
  (TEXTAREA, "textarea"); (TFOOT, "tfoot"); (TH, "th"); (THEAD, "thead"); (TIME, "time");
  (TITLE, "title"); (TR, "tr"); (U, "u"); (UL, "ul"); (VAR, "var"); (VIDEO, "video")])%string.
End TagType.

Definition CUSTOM : Z := TagType.to_Z TagType.CUSTOM.
Definition END_OF_VOID_TAGS : Z := TagType.to_Z TagType.END_OF_VOID_TAGS.

Definition crc32_tab : list Z := [
  0x00000000; 0xf26b8303; 0xe13b70f7; 0x1350f3f4; 0xc79a971f; 0x35f1141c; 0x26a1e7e8;
  0xd4ca64eb; 0x8ad958cf; 0x78b2dbcc; 0x6be22838; 0x9989ab3b; 0x4d43cfd0; 0xbf284cd3;
  0xac78bf27; 0x5e133c24; 0x105ec76f; 0xe235446c; 0xf165b798; 0x030e349b; 0xd7c45070;
  0x25afd373; 0x36ff2087; 0xc494a384; 0x9a879fa0; 0x68ec1ca3; 0x7bbcef57; 0x89d76c54;
  0x5d1d08bf; 0xaf768bbc; 0xbc267848; 0x4e4dfb4b; 0x20bd8ede; 0xd2d60ddd; 0xc186fe29;
  0x33ed7d2a; 0xe72719c1; 0x154c9ac2; 0x061c6936; 0xf477ea35; 0xaa64d611; 0x580f5512;
  0x4b5fa6e6; 0xb93425e5; 0x6dfe410e; 0x9f95c20d; 0x8cc531f9; 0x7eaeb2fa; 0x30e349b1;
  0xc288cab2; 0xd1d83946; 0x23b3ba45; 0xf779deae; 0x05125dad; 0x1642ae59; 0xe4292d5a;
  0xba3a117e; 0x4851927d; 0x5b016189; 0xa96ae28a; 0x7da08661; 0x8fcb0562; 0x9c9bf696;
  0x6ef07595; 0x417b1dbc; 0xb3109ebf; 0xa0406d4b; 0x522bee48; 0x86e18aa3; 0x748a09a0;
  0x67dafa54; 0x95b17957; 0xcba24573; 0x39c9c670; 0x2a993584; 0xd8f2b687; 0x0c38d26c;
  0xfe53516f; 0xed03a29b; 0x1f682198; 0x5125dad3; 0xa34e59d0; 0xb01eaa24; 0x42752927;
  0x96bf4dcc; 0x64d4cecf; 0x77843d3b; 0x85efbe38; 0xdbfc821c; 0x2997011f; 0x3ac7f2eb;
  0xc8ac71e8; 0x1c661503; 0xee0d9600; 0xfd5d65f4; 0x0f36e6f7; 0x61c69362; 0x93ad1061;
  0x80fde395; 0x72966096; 0xa65c047d; 0x5437877e; 0x4767748a; 0xb50cf789; 0xeb1fcbad;
  0x197448ae; 0x0a24bb5a; 0xf84f3859; 0x2c855cb2; 0xdeeedfb1; 0xcdbe2c45; 0x3fd5af46;
  0x7198540d; 0x83f3d70e; 0x90a324fa; 0x62c8a7f9; 0xb602c312; 0x44694011; 0x5739b3e5;
  0xa55230e6; 0xfb410cc2; 0x092a8fc1; 0x1a7a7c35; 0xe811ff36; 0x3cdb9bdd; 0xceb018de;
  0xdde0eb2a; 0x2f8b6829; 0x82f63b78; 0x709db87b; 0x63cd4b8f; 0x91a6c88c; 0x456cac67;
  0xb7072f64; 0xa457dc90; 0x563c5f93; 0x082f63b7; 0xfa44e0b4; 0xe9141340; 0x1b7f9043;
  0xcfb5f4a8; 0x3dde77ab; 0x2e8e845f; 0xdce5075c; 0x92a8fc17; 0x60c37f14; 0x73938ce0;
  0x81f80fe3; 0x55326b08; 0xa759e80b; 0xb4091bff; 0x466298fc; 0x1871a4d8; 0xea1a27db;
  0xf94ad42f; 0x0b21572c; 0xdfeb33c7; 0x2d80b0c4; 0x3ed04330; 0xccbbc033; 0xa24bb5a6;
  0x502036a5; 0x4370c551; 0xb11b4652; 0x65d122b9; 0x97baa1ba; 0x84ea524e; 0x7681d14d;
  0x2892ed69; 0xdaf96e6a; 0xc9a99d9e; 0x3bc21e9d; 0xef087a76; 0x1d63f975; 0x0e330a81;
  0xfc588982; 0xb21572c9; 0x407ef1ca; 0x532e023e; 0xa145813d; 0x758fe5d6; 0x87e466d5;
  0x94b49521; 0x66df1622; 0x38cc2a06; 0xcaa7a905; 0xd9f75af1; 0x2b9cd9f2; 0xff56bd19;
  0x0d3d3e1a; 0x1e6dcdee; 0xec064eed; 0xc38d26c4; 0x31e6a5c7; 0x22b65633; 0xd0ddd530;
  0x0417b1db; 0xf67c32d8; 0xe52cc12c; 0x1747422f; 0x49547e0b; 0xbb3ffd08; 0xa86f0efc;
  0x5a048dff; 0x8ecee914; 0x7ca56a17; 0x6ff599e3; 0x9d9e1ae0; 0xd3d3e1ab; 0x21b862a8;
  0x32e8915c; 0xc083125f; 0x144976b4; 0xe622f5b7; 0xf5720643; 0x07198540; 0x590ab964;
  0xab613a67; 0xb831c993; 0x4a5a4a90; 0x9e902e7b; 0x6cfbad78; 0x7fab5e8c; 0x8dc0dd8f;
  0xe330a81a; 0x115b2b19; 0x020bd8ed; 0xf0605bee; 0x24aa3f05; 0xd6c1bc06; 0xc5914ff2;
  0x37faccf1; 0x69e9f0d5; 0x9b8273d6; 0x88d28022; 0x7ab90321; 0xae7367ca; 0x5c18e4c9;
  0x4f48173d; 0xbd23943e; 0xf36e6f75; 0x0105ec76; 0x12551f82; 0xe03e9c81; 0x34f4f86a;
  0xc69f7b69; 0xd5cf889d; 0x27a40b9e; 0x79b737ba; 0x8bdcb4b9; 0x988c474d; 0x6ae7c44e;
  0xbe2da0a5; 0x4c4623a6; 0x5f16d052; 0xad7d5351].

(** ** Tags in memory *)

Record Tag := mkTag { type : Z; custom_tag_name : ekstring }.

(** A byte of a tag: of its type, or the [k]-th of its string. *)
Inductive cell : Type :=
  | CByte (b : Z)
  | CName (s : ekstring) (k : nat).

#[export] Instance ekstring_eq_dec : EqDecision ekstring.
Proof. solve_decision. Defined.
#[export] Instance cell_eq_dec : EqDecision cell.
Proof. solve_decision. Defined.

Definition TAG_SIZE : Z := 32.
Definition NAME_OFFSET : Z := 8.

Definition type_cells (t : Z) : list (option cell) :=
  [Some (CByte (t mod 256)); Some (CByte (t / 256 mod 256));
   Some (CByte (t / 65536 mod 256)); Some (CByte (t / 16777216 mod 256))].

Definition name_cells (s : ekstring) : list (option cell) := (λ k, Some (CName s k)) <$> seq 0 24.

Definition tag_cells (t : Tag) : list (option cell) :=
  type_cells (type t) ++ replicate 4 None ++ name_cells (custom_tag_name t).

(** A pointer to a tag: a block and an offset. *)
Definition tag_ptr : Type := list (option cell) * Z.

(** [n] bytes at an offset, which may not have been written. *)
Definition load (p : tag_ptr) (offset : Z) (n : nat) : outcome (list (option cell)) :=
  let '(data, base) := p in
  if (0 <=? base + offset) && (base + offset + Z.of_nat n <=? Z.of_nat (length data))
  then Done (take n (drop (Z.to_nat (base + offset)) data)) else Undefined.

(** [tag->type] *)
Definition get_type (p : tag_ptr) : outcome Z :=
  let? c := load p 0 4 in
  match c with
  | [Some (CByte b0); Some (CByte b1); Some (CByte b2); Some (CByte b3)] =>
      Done (to_i32 (b0 + 256 * b1 + 65536 * b2 + 16777216 * b3))
  | _ => Undefined
  end.

(** [tag->custom_tag_name] *)
Definition get_name (p : tag_ptr) : outcome ekstring :=
  let? c := load p NAME_OFFSET 24 in
  match c with
  | Some (CName s _) :: _ => if bool_decide (c = name_cells s) then Done s else Undefined
  | _ => Undefined
  end.

(** The block after an assignment to a field. *)
Definition set_type (p : tag_ptr) (t : Z) : outcome (list (option cell)) :=
  memcpy (fst p) (snd p) (type_cells t).
Definition set_name (p : tag_ptr) (s : ekstring) : outcome (list (option cell)) :=
  memcpy (fst p) (snd p + NAME_OFFSET) (name_cells s).

(** ** [tag.h] *)

Definition initTag : Tag := mkTag END_OF_VOID_TAGS NaS.

Definition initTagArgs (t : Z) (name : ekstring) : outcome Tag :=
  let? s := init_string_string name in
  Done (mkTag t s).

Definition compareTags (a b : option tag_ptr) : outcome bool :=
  match a, b with
  | Some a, Some b =>
      let? ta := get_type a in
      let? tb := get_type b in
      if negb (ta =? tb) then Done false
      else if ta =? CUSTOM then
        let? na := get_name a in
        let? nb := get_name b in
        compare_string_string na nb
      else Done true
  | None, None => Done true
  | _, _ => Done false
  end.

Definition is_void (tag : tag_ptr) : outcome bool :=
  let? t := get_type tag in
  Done (t <? END_OF_VOID_TAGS).

Definition findTagType (tt : list Z) (toFind : Z) : bool := existsb (λ t, t =? toFind) tt.

(** Over the [n] elements from index [i]. *)
Fixpoint find_loop (n : nat) (v : vc_vector cell) (i : Z) (tag : tag_ptr) : outcome bool :=
  match n with
  | O => Done false
  | S n =>
      let? same := compareTags (Some (vdata v, vc_vector_at v i)) (Some tag) in
      if same : bool then Done true else find_loop n v (i + 1) tag
  end.

Definition findTag (v : vc_vector cell) (tag : tag_ptr) : outcome bool :=
  find_loop (Z.to_nat (count v)) v 0 tag.

(** The [switch] over the type of the parent. *)
Definition can_contain_type (parent child : Z) : bool :=
  let eqt t (x : TagType.t) := t =? TagType.to_Z x in
  if eqt parent TagType.LI then negb (eqt child TagType.LI)
  else if eqt parent TagType.DT || eqt parent TagType.DD
  then negb (eqt child TagType.DT) && negb (eqt child TagType.DD)
  else if eqt parent TagType.P
  then negb (findTagType (TagType.to_Z <$> TagType.TAG_TYPES_NOT_ALLOWED_IN_PARAGRAPHS) child)
  else if eqt parent TagType.COLGROUP then eqt child TagType.COL
  else if eqt parent TagType.RB || eqt parent TagType.RT || eqt parent TagType.RP
  then negb (eqt child TagType.RB) && negb (eqt child TagType.RT) && negb (eqt child TagType.RP)
  else if eqt parent TagType.OPTGROUP then negb (eqt child TagType.OPTGROUP)
  else if eqt parent TagType.TR then negb (eqt child TagType.TR)
  else if eqt parent TagType.TD || eqt parent TagType.TH
  then negb (eqt child TagType.TD) && negb (eqt child TagType.TH) && negb (eqt child TagType.TR)
  else true.

Definition can_contain (parent tag : tag_ptr) : outcome bool :=
  let? child := get_type tag in
  let? p := get_type parent in
  Done (can_contain_type p child).

(** ** The table of names *)

Record hashmap_element_s := mkElement {
  key : list (option Z);
  key_len : Z;
  in_use : bool;
  data : Z;
}.

Record hashmap_s := mkMap {
  table_size : Z;
  msize : Z;
  mdata : list hashmap_element_s;
}.

Definition HASHMAP_MAX_CHAIN_LENGTH : nat := 8.
Definition HASHMAP_NULL : Z := 0.

(** The zeroed table, when the size is a power of two. *)
Definition hashmap_create (initial_size : Z) : option hashmap_s :=
  if (initial_size =? 0) || negb (Z.land initial_size (initial_size - 1) =? 0) then None
  else Some (mkMap initial_size 0
    (replicate (Z.to_nat initial_size) (mkElement [] 0 false HASHMAP_NULL))).

Definition hashmap_crc32_helper (s : list (option Z)) (len : Z) : outcome Z :=
  let? chars := read_block s (Z.to_nat len) in
  Done (fold_left (λ crc32val c,
    Z.lxor (nth (Z.to_nat (Z.lxor (to_uchar crc32val) (to_uchar c))) crc32_tab 0)
           (Z.shiftr crc32val 8)) chars 0).

Definition hashmap_hash_helper_int_helper (m : hashmap_s) (keystring : list (option Z)) (len : Z)
  : outcome Z :=
  let? key := hashmap_crc32_helper keystring len in
  let key := to_u32 (key + Z.shiftl key 12) in
  let key := Z.lxor key (Z.shiftr key 22) in
  let key := to_u32 (key + Z.shiftl key 4) in
  let key := Z.lxor key (Z.shiftr key 9) in
  let key := to_u32 (key + Z.shiftl key 10) in
  let key := Z.lxor key (Z.shiftr key 2) in
  let key := to_u32 (key + Z.shiftl key 7) in
  let key := Z.lxor key (Z.shiftr key 12) in
  let key := to_u32 (Z.shiftr key 3 * 2654435761) in
  Done (key mod table_size m).

(** Whether the element has this key; the [memcmp] is over [len] bytes. *)
Definition hashmap_match_helper (element : hashmap_element_s) (k : list (option Z)) (len : Z)
  : outcome bool :=
  if key_len element =? len then
    let? a := read_block (key element) (Z.to_nat len) in
    let? b := read_block k (Z.to_nat len) in
    Done (bool_decide (a = b))
  else Done false.

Definition element_at (m : hashmap_s) (curr : Z) : outcome hashmap_element_s :=
  match mdata m !! Z.to_nat curr with
  | Some e => Done e
  | None => Undefined
  end.

(** The slot of the key among the [n] from [curr], and how many of them are in
    use up to there. *)
Fixpoint probe_match (n : nat) (m : hashmap_s) (k : list (option Z)) (len curr : Z) (used : nat)
  : outcome (option hashmap_element_s * Z * nat) :=
  match n with
  | O => Done (None, curr, used)
  | S n =>
      let? e := element_at m curr in
      let used := if in_use e then S used else used in
      let? same := if in_use e then hashmap_match_helper e k len else Done false in
      if same : bool then Done (Some e, curr, used)
      else probe_match n m k len ((curr + 1) mod table_size m) used
  end.

Fixpoint probe_free (n : nat) (m : hashmap_s) (curr : Z) : outcome (option Z) :=
  match n with
  | O => Done None
  | S n =>
      let? e := element_at m curr in
      if in_use e then probe_free n m ((curr + 1) mod table_size m) else Done (Some curr)
  end.

Definition hashmap_hash_helper (m : hashmap_s) (k : list (option Z)) (len : Z)
  : outcome (option Z) :=
  if table_size m <=? msize m then Done None
  else
    let? start := hashmap_hash_helper_int_helper m k len in
    let? '(found, curr, total_in_use) := probe_match HASHMAP_MAX_CHAIN_LENGTH m k len start 0 in
    match found with
    | Some _ => Done (Some curr)
    | None =>
        if (total_in_use <? HASHMAP_MAX_CHAIN_LENGTH)%nat
        then probe_free HASHMAP_MAX_CHAIN_LENGTH m start
        else Done None
    end.

(** A table without a slot for the key is rehashed, which releases memory of
    [calloc] with [za_Free] ([SvelteHash.hashmap_rehash_helper]). The result 1,
    for a table that cannot be doubled, needs 2^31 elements or a [calloc] that
    fails, and is left out: the result is the table behind a success. *)
Definition hashmap_put (m : hashmap_s) (k : list (option Z)) (len value : Z) : outcome hashmap_s :=
  let? index := hashmap_hash_helper m k len in
  match index with
  | None => Undefined
  | Some index =>
      let? e := element_at m index in
      Done (mkMap (table_size m) (if in_use e then msize m else to_u32 (msize m + 1))
        (<[Z.to_nat index := mkElement k len true value]> (mdata m)))
  end.

Definition hashmap_get (m : hashmap_s) (k : list (option Z)) (len : Z) : outcome Z :=
  let? curr := hashmap_hash_helper_int_helper m k len in
  let? '(found, _, _) := probe_match HASHMAP_MAX_CHAIN_LENGTH m k len curr 0 in
  match found with
  | Some e => Done (data e)
  | None => Done HASHMAP_NULL
  end.

(** The characters of a name, as the block of a string literal. *)
Definition literal (s : String.string) : list (option Z) := (Some <$> cstr s) ++ [Some NUL].

Definition get_tag_map : outcome hashmap_s :=
  match hashmap_create 1024 with
  | None => Undefined
  | Some m =>
      fold_left (λ m '(t, s),
        let? m := m in
        hashmap_put m (literal s) (Z.of_nat (String.length s)) (TagType.to_Z t))
      TagType.tag_names (Done m)
  end.

Definition for_name (m : hashmap_s) (name : ekstring) : outcome Tag :=
  match buf name with
  | None => Undefined
  | Some b =>
      let? t := hashmap_get m b (to_u32 (slength name)) in
      if negb (t =? 0) then Done (mkTag t NaS)
      else initTagArgs CUSTOM name
  end.
