(* ===== verification/SvelteTagProofs.v ===== *)
(** * Properties of the tags of the Svelte scanner

    [tag_rel e a]: the 32 bytes [e] hold the tag [a], a type and, for a custom
    type, a name. Comparing, searching and reading tags work on [a], and the
    hash table answers as the list of names it was built from. *)

From S2P Require Import Prelude CArray CArrayProofs CString VcVector VcVectorProofs SvelteTag.

(** ** Tags *)

(** A type and the characters of the name. *)
Definition atag : Type := Z * list Z.

Definition tag_rel (e : list (option cell)) (a : atag) : Prop :=
  length e = 32%nat ∧ get_type (e, 0) = Done (fst a) ∧ 0 ≤ fst a
  ∧ if fst a =? CUSTOM
    then ∃ s chars, get_name (e, 0) = Done s ∧ str_repr s chars ∧ norm chars = snd a
    else snd a = [].

(** The tags on the stack. *)
Definition tags_repr (v : vc_vector cell) (ts : list atag) : Prop :=
  ∃ els, vec_repr 32 v els ∧ Forall2 tag_rel els ts.

Lemma load_element v els i e off n : vec_repr 32 v els → els !! i = Some e →
  0 ≤ off → off + Z.of_nat n ≤ 32 →
  load (vdata v, vc_vector_at v (Z.of_nat i)) off n = load (e, 0) off n.
Proof.
  intros Hv Hi Ho Hn.
  destruct (vec_repr_element _ _ _ _ _ (Z.to_nat off) n Hv Hi ltac:(lia)) as [Ht Hl].
  pose proof Hv as (_&He&_&Hf&_).
  assert (length e = 32%nat) as Hle by (by eapply Forall_lookup_1 in Hf).
  unfold load, vc_vector_at. rewrite He.
  replace (Z.of_nat i * Z.of_nat 32 + off) with (Z.of_nat (i * 32 + Z.to_nat off)) by lia.
  replace (_ && _) with true by lia. rewrite Nat2Z.id, Ht, !Z.add_0_l.
  by replace (_ && _) with true by lia.
Qed.

Lemma get_type_element v els i e : vec_repr 32 v els → els !! i = Some e →
  get_type (vdata v, vc_vector_at v (Z.of_nat i)) = get_type (e, 0).
Proof. intros Hv Hi. unfold get_type. by rewrite (load_element v els i e 0 4). Qed.

Lemma get_name_element v els i e : vec_repr 32 v els → els !! i = Some e →
  get_name (vdata v, vc_vector_at v (Z.of_nat i)) = get_name (e, 0).
Proof.
  intros Hv Hi. unfold get_name, NAME_OFFSET.
  by rewrite (load_element v els i e 8 24).
Qed.

(** A pointer that reads as the element [e]. *)
Definition points (p : tag_ptr) (e : list (option cell)) : Prop :=
  get_type p = get_type (e, 0) ∧ get_name p = get_name (e, 0).

Lemma points_element v els i e : vec_repr 32 v els → els !! i = Some e →
  points (vdata v, vc_vector_at v (Z.of_nat i)) e.
Proof. split; [by eapply get_type_element|by eapply get_name_element]. Qed.

Lemma points_back v els e : vec_repr 32 v (els ++ [e]) →
  points (vdata v, vc_vector_back v) e.
Proof.
  intros Hv. pose proof Hv as (_&He&Hc&_). unfold vc_vector_back.
  replace (_ * _) with (vc_vector_at v (Z.of_nat (length els))).
  - apply (points_element v (els ++ [e])); [done|]. by apply list_lookup_middle.
  - unfold vc_vector_at. rewrite Hc, length_app. simpl. f_equal. lia.
Qed.

Lemma points_block e : points (e, 0) e.
Proof. done. Qed.

(** Type and name of a block of cells. *)
Lemma get_type_cells t rest : 0 ≤ t < 2147483648 → get_type (type_cells t ++ rest, 0) = Done t.
Proof.
  intros Ht. unfold get_type, load, type_cells. cbn [Z.add].
  replace (_ && _) with true by (simpl; lia). simpl. f_equal. rewrite to_i32_small; [|];
  pose proof (Z_div_mod_eq_full t 256); pose proof (Z_div_mod_eq_full (t / 256) 256);
  pose proof (Z_div_mod_eq_full (t / 65536) 256);
  pose proof (Z.mod_pos_bound t 256 ltac:(lia)); pose proof (Z.mod_pos_bound (t / 256) 256 ltac:(lia));
  pose proof (Z.mod_pos_bound (t / 65536) 256 ltac:(lia));
  assert (t / 65536 = t / 256 / 256) as E1 by (by rewrite Z.div_div by lia);
  assert (t / 16777216 = t / 65536 / 256) as E2 by (by rewrite Z.div_div by lia);
  assert (0 ≤ t / 16777216 < 256) by (split; [apply Z.div_pos|apply Z.div_lt_upper_bound]; lia);
  rewrite (Z.mod_small (t / 16777216)) by lia; lia.
Qed.

Lemma get_name_cells head s : length head = 8%nat → get_name (head ++ name_cells s, 0) = Done s.
Proof.
  intros Hh. unfold get_name, load, NAME_OFFSET. cbn [Z.add].
  assert (length (name_cells s) = 24%nat) as Hl by done.
  replace (_ && _) with true by (rewrite length_app; lia). cbn [obind].
  change (Z.to_nat 8) with 8%nat. rewrite drop_app_length' by lia. rewrite take_ge by lia.
  unfold name_cells at 1. cbn [fmap list_fmap seq]. by rewrite bool_decide_true.
Qed.

Lemma tag_rel_cells t a : type t = fst a → 0 ≤ fst a < 2147483648 →
  (if fst a =? CUSTOM then ∃ chars, str_repr (custom_tag_name t) chars ∧ norm chars = snd a
   else snd a = []) →
  tag_rel (tag_cells t) a.
Proof.
  intros Ht Ha Hn. split_and!; [done| |lia|].
  - unfold tag_cells. rewrite get_type_cells by lia. by rewrite Ht.
  - destruct (fst a =? CUSTOM); [|done]. destruct Hn as (chars&Hs&Hn).
    exists (custom_tag_name t), chars. split; [|done]. unfold tag_cells.
    rewrite app_assoc. by apply get_name_cells.
Qed.

(** ** Operations *)

Lemma compareTags_rel p q e f a b : points p e → points q f → tag_rel e a → tag_rel f b →
  compareTags (Some p) (Some q) = Done (bool_decide (a = b)).
Proof.
  intros [Tp Np] [Tq Nq] (_&Te&_&Ne) (_&Tf&_&Nf). destruct a as [ta na], b as [tb nb]; simpl in *.
  unfold compareTags. rewrite Tp, Tq, Te, Tf. cbn [obind].
  destruct (ta =? tb) eqn:E; cbn [negb].
  - assert (ta = tb) as <- by lia. destruct (ta =? CUSTOM) eqn:Ec.
    + destruct Ne as (s1&c1&G1&R1&<-), Nf as (s2&c2&G2&R2&<-). rewrite Np, Nq, G1, G2. cbn [obind].
      rewrite (compare_string_repr _ _ _ _ R1 R2). f_equal. apply bool_decide_ext.
      split; [by intros ->|by intros [= ?]].
    + subst. by rewrite bool_decide_true.
  - rewrite bool_decide_false; [done|]. intros [= ?]. lia.
Qed.

Lemma get_type_rel p e a : points p e → tag_rel e a → get_type p = Done (fst a).
Proof. by intros [-> _] (_&->&_). Qed.

Lemma findTag_rel v ts q f b : tags_repr v ts → points q f → tag_rel f b →
  findTag v q = Done (bool_decide (b ∈ ts)).
Proof.
  intros (els&Hv&Hts) Hq Hf. pose proof Hv as (_&_&Hc&_). unfold findTag. rewrite Hc, Nat2Z.id.
  assert (∀ k i, (k + i = length els)%nat →
    find_loop k v (Z.of_nat i) q = Done (bool_decide (b ∈ drop i ts))) as H.
  { induction k as [|k IH]; intros i Hi.
    - rewrite drop_ge by (rewrite <- (Forall2_length _ _ _ Hts); lia). done.
    - destruct (lookup_lt_is_Some_2 els i) as [e He]; [lia|].
      destruct (Forall2_lookup_l _ _ _ _ _ Hts He) as (a&Ha&Hea).
      cbn [find_loop]. rewrite (compareTags_rel _ _ e f a b); [|by eapply points_element|done..].
      rewrite (drop_S _ _ _ Ha). cbn [obind]. case_bool_decide as Hab.
      + subst. rewrite bool_decide_true; [done|]. by left.
      + replace (Z.of_nat i + 1) with (Z.of_nat (S i)) by lia. rewrite IH by lia.
        f_equal. apply bool_decide_ext. rewrite elem_of_cons.
        split; [by right|intros [->|?]; done]. }
  apply (H (length els) 0%nat). lia.
Qed.

Lemma can_contain_rel p q e f a b : points p e → points q f → tag_rel e a → tag_rel f b →
  can_contain p q = Done (can_contain_type (fst a) (fst b)).
Proof.
  intros Hp Hq He Hf. unfold can_contain.
  by rewrite (get_type_rel _ _ _ Hp He), (get_type_rel _ _ _ Hq Hf).
Qed.

Lemma is_void_rel p e a : points p e → tag_rel e a → is_void p = Done (fst a <? END_OF_VOID_TAGS).
Proof. intros Hp He. unfold is_void. by rewrite (get_type_rel _ _ _ Hp He). Qed.

(** ** The table of names *)

(** The type under which a name was put last, 0 if it never was. *)
Definition lookup_name (chars : list Z) : Z :=
  fold_left (λ r '(t, s), if bool_decide (cstr s = chars) then TagType.to_Z t else r)
    TagType.tag_names 0.

Definition element_ok (e : hashmap_element_s) : bool :=
  if in_use e then
    existsb (λ '(t, s),
      match read_block (key e) (Z.to_nat (key_len e)) with
      | Done l => bool_decide (l = cstr s)
      | _ => false
      end) TagType.tag_names
  else true.

(** A table of 1024 slots that holds the names, and answers as the list. *)
Definition table_ok (m : hashmap_s) : bool :=
  (table_size m =? 1024) && (length (mdata m) =? 1024)%nat
  && forallb element_ok (mdata m)
  && forallb (λ '(t, s),
       match hashmap_get m (literal s) (Z.of_nat (String.length s)) with
       | Done r => r =? lookup_name (cstr s)
       | _ => false
       end) TagType.tag_names.

Lemma get_tag_map_ok : ∃ m, get_tag_map = Done m ∧ table_ok m = true.
Proof.
  assert (match get_tag_map with Done m => table_ok m | _ => false end = true) as H by by vm_compute.
  destruct get_tag_map as [m| | |]; [by exists m|done..].
Qed.

Lemma length_cstr s : length (cstr s) = String.length s.
Proof. induction s; simpl; auto. Qed.

(** Only the characters that are compared matter. *)
Lemma match_helper_ext e k1 k2 len : read_block k1 (Z.to_nat len) = read_block k2 (Z.to_nat len) →
  hashmap_match_helper e k1 len = hashmap_match_helper e k2 len.
Proof. intros H. unfold hashmap_match_helper. by rewrite H. Qed.

Lemma probe_match_ext n m k1 k2 len curr used :
  read_block k1 (Z.to_nat len) = read_block k2 (Z.to_nat len) →
  probe_match n m k1 len curr used = probe_match n m k2 len curr used.
Proof.
  intros H. revert curr used. induction n as [|n IH]; intros curr used; simpl; [done|].
  destruct (element_at m curr) as [e| | |]; simpl; [|done..].
  rewrite (match_helper_ext e k1 k2) by done.
  destruct (if in_use e then _ else _) as [[]| | |]; simpl; [done|apply IH|done..].
Qed.

Lemma hash_ext m k1 k2 len : read_block k1 (Z.to_nat len) = read_block k2 (Z.to_nat len) →
  hashmap_hash_helper_int_helper m k1 len = hashmap_hash_helper_int_helper m k2 len.
Proof. intros H. unfold hashmap_hash_helper_int_helper, hashmap_crc32_helper. by rewrite H. Qed.

(** The hash is a slot of the table. *)
Lemma hash_range m k len chars : read_block k (Z.to_nat len) = Done chars → 0 < table_size m →
  ∃ h, hashmap_hash_helper_int_helper m k len = Done h ∧ 0 ≤ h < table_size m.
Proof.
  intros H Hm. unfold hashmap_hash_helper_int_helper, hashmap_crc32_helper. rewrite H. cbn [obind].
  eexists; split; [reflexivity|]. by apply Z.mod_pos_bound.
Qed.

Lemma hashmap_get_ext m k1 k2 len : read_block k1 (Z.to_nat len) = read_block k2 (Z.to_nat len) →
  hashmap_get m k1 len = hashmap_get m k2 len.
Proof.
  intros H. unfold hashmap_get. rewrite (hash_ext m k1 k2 len H).
  destruct (hashmap_hash_helper_int_helper m k2 len) as [h| | |]; cbn [obind]; [|done..].
  by rewrite (probe_match_ext _ m k1 k2 len h 0 H).
Qed.

Lemma match_helper_other e k len chars : element_ok e = true → in_use e = true →
  read_block k (Z.to_nat len) = Done chars →
  (∀ t s, In (t, s) TagType.tag_names → cstr s ≠ chars) →
  hashmap_match_helper e k len = Done false.
Proof.
  intros He Hu Hk Hne. unfold element_ok in He. rewrite Hu in He.
  apply existsb_exists in He as ([t s]&Hin&He). unfold hashmap_match_helper.
  destruct (key_len e =? len) eqn:E; [|done].
  replace (key_len e) with len in He by lia.
  destruct (read_block (key e) _) as [l| | |]; [|done..]. apply bool_decide_eq_true in He as ->.
  rewrite Hk. simpl. rewrite bool_decide_false; [done|by eapply Hne].
Qed.

Lemma probe_match_other n m k len chars curr used : table_ok m = true → 0 ≤ curr < 1024 →
  read_block k (Z.to_nat len) = Done chars →
  (∀ t s, In (t, s) TagType.tag_names → cstr s ≠ chars) →
  ∃ c u, probe_match n m k len curr used = Done (None, c, u).
Proof.
  intros Hm Hc Hk Hne. unfold table_ok in Hm. rewrite !andb_true_iff in Hm.
  destruct Hm as [[[Hs Hl] Ha] _]. rewrite forallb_forall in Ha.
  revert curr used Hc. induction n as [|n IH]; intros curr used Hc; simpl; [by eexists _, _|].
  unfold element_at. destruct (lookup_lt_is_Some_2 (mdata m) (Z.to_nat curr)) as [e He]; [lia|].
  rewrite He. simpl. assert (element_ok e = true) as Hok.
  { apply Ha. apply list_elem_of_In. by eapply list_elem_of_lookup_2. }
  assert (0 ≤ (curr + 1) mod table_size m < 1024).
  { replace (table_size m) with 1024 by lia. apply Z.mod_pos_bound. lia. }
  destruct (in_use e) eqn:Hu; [rewrite (match_helper_other e k len chars) by done|]; simpl; by apply IH.
Qed.

(** The table is the one that [get_tag_map] builds. *)
Inductive name_table (m : hashmap_s) : Prop :=
  | name_table_intro : get_tag_map = Done m → name_table m.

Lemma name_table_ok m : name_table m → table_ok m = true.
Proof.
  destruct 1 as [Hm]. destruct get_tag_map_ok as (m'&Hm'&Hok). rewrite Hm in Hm'.
  injection Hm' as <-. exact Hok.
Qed.

Lemma name_table_exists : ∃ m, name_table m.
Proof. destruct get_tag_map_ok as (m&Hm&_). exists m. exact (name_table_intro m Hm). Qed.

(** The table answers as the list of names. *)
Lemma hashmap_get_names m chars junk : name_table m →
  hashmap_get m ((Some <$> chars) ++ junk) (Z.of_nat (length chars)) = Done (lookup_name chars).
Proof.
  intros Hok%name_table_ok.
  assert (read_block ((Some <$> chars) ++ junk) (Z.to_nat (Z.of_nat (length chars))) = Done chars)
    as Hk by (rewrite Nat2Z.id; apply read_block_app).
  destruct (decide (Exists (λ '(t, s), cstr s = chars) TagType.tag_names)) as [He|Hne].
  - apply Exists_exists in He as ([t s]&Hin&<-). pose proof Hok as Hok'. unfold table_ok in Hok'.
    rewrite !andb_true_iff, !forallb_forall in Hok'. destruct Hok' as [_ Hget].
    apply list_elem_of_In in Hin. specialize (Hget _ Hin). simpl in Hget.
    rewrite (hashmap_get_ext m _ (literal s)), length_cstr.
    + destruct (hashmap_get m _ _) as [r| | |]; [|done..]. f_equal. lia.
    + rewrite Hk. unfold literal. by rewrite Nat2Z.id, read_block_app.
  - assert (∀ t s, In (t, s) TagType.tag_names → cstr s ≠ chars) as Hne'.
    { intros t s Hin Heq. apply Hne, Exists_exists. exists (t, s). split; [by apply list_elem_of_In|done]. }
    assert (∀ l r, (∀ t s, In (t, s) l → cstr s ≠ chars) →
      fold_left (λ r '(t, s), if bool_decide (cstr s = chars) then TagType.to_Z t else r) l r = r) as Hl.
    { induction l as [|[t s] l IH]; intros r Hl; simpl; [done|].
      rewrite bool_decide_false by (by eapply Hl; left). apply IH. intros t' s' ?. eapply Hl. by right. }
    unfold lookup_name. rewrite Hl by done.
    assert (table_size m = 1024) as Hts.
    { unfold table_ok in Hok. rewrite !andb_true_iff in Hok. lia. }
    destruct (hash_range m _ _ _ Hk) as (h&Hh&Hr); [lia|]. rewrite Hts in Hr.
    unfold hashmap_get. rewrite Hh. cbn [obind].
    by edestruct (probe_match_other HASHMAP_MAX_CHAIN_LENGTH m) as (c&u&->).
Qed.

Lemma CUSTOM_val : CUSTOM = 127.
Proof. reflexivity. Qed.

(** The tag of a name: custom names are kept as the string functions see them. *)
Definition tag_named (chars : list Z) : atag :=
  let t := lookup_name chars in
  if t =? 0 then (CUSTOM, norm chars) else (t, []).

Lemma lookup_name_range chars : 0 ≤ lookup_name chars < CUSTOM.
Proof.
  unfold lookup_name. assert (∀ l r, 0 ≤ r < CUSTOM →
    forallb (λ '(t, s), (0 <=? TagType.to_Z t) && (TagType.to_Z t <? CUSTOM)) l = true →
    0 ≤ fold_left (λ r '(t, s), if bool_decide (cstr s = chars) then TagType.to_Z t else r) l r < CUSTOM)
    as H.
  { induction l as [|[t s] l IH]; intros r Hr Hl; simpl in *; [done|].
    apply andb_true_iff in Hl as [Ht Hl]. apply IH; [case_bool_decide; lia|done]. }
  apply H; by vm_compute.
Qed.

Lemma for_name_rel m s chars : name_table m → str_repr s chars →
  Z.of_nat (length chars) < 4294967296 →
  ∃ t, for_name m s = Done t ∧ type t = fst (tag_named chars)
    ∧ tag_rel (tag_cells t) (tag_named chars).
Proof.
  intros Hm Hs Hl. pose proof (lookup_name_range chars) as Hr. pose proof Hs as [Hb Hn].
  unfold for_name, tag_named. rewrite Hb, Hn, to_u32_small, (hashmap_get_names m chars _ Hm) by lia.
  cbn [obind]. destruct (lookup_name chars =? 0) eqn:E; cbn [negb].
  - destruct (str_repr_init_string _ _ Hs) as (s'&Hi&Hs'). unfold initTagArgs. rewrite Hi. cbn [obind].
    eexists; split; [done|]. split; [done|]. apply tag_rel_cells; [reflexivity|cbn [fst]; rewrite CUSTOM_val; lia|].
    cbn [fst snd]. rewrite Z.eqb_refl. exists (norm chars). split; [done|]. apply norm_norm.
  - eexists; split; [done|]. split; [done|]. rewrite CUSTOM_val in Hr.
    apply tag_rel_cells; cbn [fst snd]; [reflexivity|lia|]. rewrite CUSTOM_val.
    by replace (_ =? _) with false by lia.
Qed.
