(* ===== verification/SvelteHash.v ===== *)
(** * The hash table of the Svelte scanner as a map

    The operations of [uthash.h] that the scanner's own code does not call, and
    the table of any size as a finite map from keys to data: every operation
    does to the table what it means for the map, also after removals, which
    leave holes in the chains. *)

From stdpp Require Import gmap.
From S2P Require Import Prelude CArray CArrayProofs CString VcVector SvelteTag SvelteTagProofs SvelteAlloc.

(** ** Operations *)

(** A zeroed element. *)
Definition blank : hashmap_element_s := mkElement [] 0 false HASHMAP_NULL.

Definition set_element (m : hashmap_s) (curr : Z) (e : hashmap_element_s) : list hashmap_element_s :=
  <[Z.to_nat curr := e]> (mdata m).

Definition hashmap_remove (m : hashmap_s) (k : list (option Z)) (len : Z) : outcome (hashmap_s * Z) :=
  let? curr := hashmap_hash_helper_int_helper m k len in
  let? '(found, curr, _) := probe_match HASHMAP_MAX_CHAIN_LENGTH m k len curr 0 in
  match found with
  | Some _ => Done (mkMap (table_size m) (to_u32 (msize m - 1)) (set_element m curr blank), 0)
  | None => Done (m, 1)
  end.

(** The length of the key stays behind in the element. *)
Definition hashmap_remove_and_return_key (m : hashmap_s) (k : list (option Z)) (len : Z)
  : outcome (hashmap_s * option (list (option Z))) :=
  let? curr := hashmap_hash_helper_int_helper m k len in
  let? '(found, curr, _) := probe_match HASHMAP_MAX_CHAIN_LENGTH m k len curr 0 in
  match found with
  | Some e =>
      Done (mkMap (table_size m) (to_u32 (msize m - 1))
        (set_element m curr (mkElement [] (key_len e) false HASHMAP_NULL)), Some (key e))
  | None => Done (m, None)
  end.

Definition hashmap_num_entries (m : hashmap_s) : Z := msize m.

Section iterate.
Context {C : Type}.

(** The [n] elements from [i]; [f] gives the context and whether to go on. *)
Fixpoint iterate_loop (n : nat) (m : hashmap_s) (f : C → Z → C * bool) (context : C) (i : Z) : outcome (C * Z) :=
  match n with
  | O => Done (context, 0)
  | S n =>
      let? e := element_at m i in
      if in_use e then
        let '(context, more) := f context (data e) in
        if more then iterate_loop n m f context (i + 1) else Done (context, 1)
      else iterate_loop n m f context (i + 1)
  end.

Definition hashmap_iterate (m : hashmap_s) (f : C → Z → C * bool) (context : C) : outcome (C * Z) :=
  iterate_loop (Z.to_nat (table_size m)) m f context 0.

(** The same, where [f] gives -1 to remove the element and 0 to go on. *)
Fixpoint pairs_loop (n : nat) (m : hashmap_s) (f : C → hashmap_element_s → outcome (C * Z)) (context : C) (i : Z)
  : outcome (C * hashmap_s * Z) :=
  match n with
  | O => Done (context, m, 0)
  | S n =>
      let? p := element_at m i in
      if in_use p then
        let? '(context, r) := f context p in
        if r =? -1 then
          pairs_loop n (mkMap (table_size m) (to_u32 (msize m - 1)) (set_element m i blank)) f context (i + 1)
        else if r =? 0 then pairs_loop n m f context (i + 1)
        else Done (context, m, 1)
      else pairs_loop n m f context (i + 1)
  end.

Definition hashmap_iterate_pairs (m : hashmap_s) (f : C → hashmap_element_s → outcome (C * Z)) (context : C)
  : outcome (C * hashmap_s * Z) :=
  pairs_loop (Z.to_nat (table_size m)) m f context 0.
End iterate.

Definition hashmap_rehash_iterator (new_hash : hashmap_s) (e : hashmap_element_s) : outcome (hashmap_s * Z) :=
  let? new_hash := hashmap_put new_hash (key e) (key_len e) (data e) in Done (new_hash, -1).

(** The elements of a table are at [data], which [calloc] gave out. *)
Definition hashmap_destroy `{Malloc} (A : za_Allocator) (mem : memory) (data : ptr) : outcome (za_Allocator * memory) :=
  za_Free A mem data.

(** A table of twice the size with the elements of [m], whose own are at [data]. *)
Definition hashmap_rehash_helper `{Malloc} (A : za_Allocator) (mem : memory) (data : ptr) (m : hashmap_s)
  : outcome (hashmap_s * Z) :=
  match hashmap_create (to_u32 (2 * table_size m)) with
  | None => Done (m, 1)
  | Some new_hash =>
      let? '(new_hash, m, flag) := hashmap_iterate_pairs m hashmap_rehash_iterator new_hash in
      if negb (flag =? 0) then Done (m, flag)
      else let? _ := hashmap_destroy A mem data in Done (new_hash, 0)
  end.

(** ** The table as a map *)

(** The characters of a key. *)
Definition reads (k : list (option Z)) (len : Z) (chars : list Z) : Prop :=
  0 ≤ len ∧ read_block k (Z.to_nat len) = Done chars.
Definition has_key (e : hashmap_element_s) (chars : list Z) : Prop := reads (key e) (key_len e) chars.

(** The [d]-th slot of the chain from [h]. *)
Definition slot (size h : Z) (d : nat) : Z := (h + Z.of_nat d) mod size.

Definition hash (size : Z) (chars : list Z) : Z :=
  match hashmap_hash_helper_int_helper (mkMap size 0 []) (Some <$> chars) (Z.of_nat (length chars)) with
  | Done h => h
  | _ => 0
  end.

(** The element at slot [i] is in use for this key. *)
Definition at_slot (m : hashmap_s) (i : nat) (chars : list Z) (e : hashmap_element_s) : Prop :=
  mdata m !! i = Some e ∧ in_use e = true ∧ has_key e chars.

(** Every element is in the chain of its key, and the elements are the map's. *)
Record represents (m : hashmap_s) (M : gmap (list Z) Z) : Prop := {
  rep_size : 0 < table_size m < 4294967296 ∧ length (mdata m) = Z.to_nat (table_size m);
  rep_count : msize m = Z.of_nat (base.size M) ∧ msize m ≤ table_size m;
  rep_used i e : mdata m !! i = Some e → in_use e = true → ∃ chars, has_key e chars;
  rep_chain i chars e : at_slot m i chars e → ∃ d, (d < HASHMAP_MAX_CHAIN_LENGTH)%nat
    ∧ Z.of_nat i = slot (table_size m) (hash (table_size m) chars) d;
  rep_unique i j chars e e' : at_slot m i chars e → at_slot m j chars e' → i = j;
  rep_lookup chars v : M !! chars = Some v ↔ ∃ i e, at_slot m i chars e ∧ data e = v;
}.

Lemma reads_fun k len c1 c2 : reads k len c1 → reads k len c2 → c1 = c2.
Proof. intros [_ H1] [_ H2]. congruence. Qed.

Lemma read_block_length {T} (c : list (option T)) n l : read_block c n = Done l → length l = n.
Proof.
  revert c l. induction n as [|n IH]; intros c l; [destruct c; cbn; by intros [= <-]|].
  destruct c as [|[x|] c]; cbn; [done| |done].
  destruct (read_block c n) as [xs| | |] eqn:E; cbn; [|done..]. intros [= <-]. cbn. f_equal. by eapply IH.
Qed.

Lemma reads_length k len chars : reads k len chars → len = Z.of_nat (length chars).
Proof. intros [Hl H%read_block_length]. lia. Qed.

(** Only the size of the table matters, and the characters of the key. *)
Lemma hash_size_ext m m' k len : table_size m = table_size m' →
  hashmap_hash_helper_int_helper m k len = hashmap_hash_helper_int_helper m' k len.
Proof. intros H. unfold hashmap_hash_helper_int_helper. by rewrite H. Qed.

Lemma hash_ok m k len chars : 0 < table_size m → reads k len chars →
  hashmap_hash_helper_int_helper m k len = Done (hash (table_size m) chars)
  ∧ 0 ≤ hash (table_size m) chars < table_size m.
Proof.
  intros Hm Hr. pose proof (reads_length _ _ _ Hr) as ->. destruct Hr as [_ Hr].
  pose proof (read_block_app chars []) as Hb. rewrite app_nil_r in Hb. rewrite Nat2Z.id in Hr.
  destruct (hash_range m k (Z.of_nat (length chars)) chars) as (h&Hh&Hlt); [by rewrite Nat2Z.id|done|].
  assert (hash (table_size m) chars = h) as ->; [|done]. unfold hash.
  rewrite (hash_size_ext _ m), (hash_ext m _ k), Hh; [done|by rewrite Nat2Z.id, Hb, Hr|done].
Qed.

Lemma match_ok e k len chars : reads k len chars → (∃ c, has_key e c) →
  ∃ b, hashmap_match_helper e k len = Done b ∧ (b = true ↔ has_key e chars).
Proof.
  intros Hk [c Hc]. unfold hashmap_match_helper.
  destruct (Z.eqb_spec (key_len e) len) as [E|Hne].
  - pose proof Hc as [_ Hc']. rewrite E in Hc'. pose proof Hk as [Hl Hk']. rewrite Hc', Hk'. cbn [obind].
    eexists. split; [done|]. rewrite bool_decide_eq_true. split; [by intros <-|]. intros Hc2. by eapply reads_fun.
  - exists false. split; [done|]. split; [done|]. intros Hc2. exfalso. apply Hne.
    by rewrite (reads_length _ _ _ Hk), (reads_length _ _ _ Hc2).
Qed.

(** ** Probing *)

Lemma slot_range size h d : 0 < size → 0 ≤ slot size h d < size.
Proof. apply Z.mod_pos_bound. Qed.

Lemma slot_next size h d : 0 < size → (slot size h d + 1) mod size = slot size h (S d).
Proof.
  intros Hs. unfold slot. rewrite Zplus_mod_idemp_l. f_equal. lia.
Qed.

Lemma slot_0 size h : 0 ≤ h < size → slot size h 0 = h.
Proof. intros Hh. unfold slot. rewrite Z.add_0_r. by apply Z.mod_small. Qed.

Section probe.
Context (m : hashmap_s).
Hypothesis Hsize : 0 < table_size m.
Hypothesis Hlen : length (mdata m) = Z.to_nat (table_size m).
Hypothesis Hused : ∀ i e, mdata m !! i = Some e → in_use e = true → ∃ chars, has_key e chars.

Definition free_slot (i : Z) : Prop := ∃ e, mdata m !! Z.to_nat i = Some e ∧ in_use e = false.

Lemma element_at_ok i : 0 ≤ i < table_size m → ∃ e, element_at m i = Done e ∧ mdata m !! Z.to_nat i = Some e.
Proof.
  intros Hi. unfold element_at. destruct (lookup_lt_is_Some_2 (mdata m) (Z.to_nat i)) as [e ->]; [lia|by exists e].
Qed.

(** The first slot of the chain with the key, or how many slots are in use. *)
Lemma probe_match_ok n k len chars h d used : reads k len chars →
  ∃ found curr used', probe_match n m k len (slot (table_size m) h d) used = Done (found, curr, used')
  ∧ match found with
    | Some e => 0 ≤ curr ∧ at_slot m (Z.to_nat curr) chars e
        ∧ ∃ d', (d ≤ d' < d + n)%nat ∧ curr = slot (table_size m) h d'
    | None => (∀ d' e, (d ≤ d' < d + n)%nat → ¬ at_slot m (Z.to_nat (slot (table_size m) h d')) chars e)
        ∧ (used' ≤ used + n)%nat
        ∧ ((used' < used + n)%nat ↔ ∃ d', (d ≤ d' < d + n)%nat ∧ free_slot (slot (table_size m) h d'))
    end.
Proof.
  intros Hk. revert d used. induction n as [|n IH]; intros d used; cbn [probe_match].
  { eexists None, _, _. split; [done|]. split_and!; [lia|lia|]. split; [lia|]. intros (?&?&_). lia. }
  pose proof (slot_range (table_size m) h d Hsize) as Hr.
  destruct (element_at_ok _ Hr) as (e&->&He). cbn [obind]. rewrite slot_next by done.
  destruct (in_use e) eqn:Hu.
  - destruct (match_ok e k len chars Hk (Hused _ _ He Hu)) as (b&->&Hb). cbn [obind]. destruct b.
    + eexists (Some e), _, _. split; [done|]. split_and!; [lia| |exists d; split; [lia|done]].
      split_and!; [done..|by apply Hb].
    + destruct (IH (S d) (S used)) as (found&curr&used'&E&Hres). rewrite E. exists found, curr, used'. split; [done|].
      destruct found as [e'|].
      * destruct Hres as (?&?&d'&?&?). split_and!; [done..|]. exists d'. split; [lia|done].
      * destruct Hres as (Hno&Hle&Hfree). split_and!; [|lia|].
        -- intros d' e' Hd'. destruct (decide (d' = d)) as [->|]; [|apply Hno; lia].
           intros (He'&_&Hkey). assert (e' = e) as -> by congruence. by apply Hb in Hkey.
        -- rewrite (Nat.add_succ_r used n). rewrite Nat.add_succ_l in Hfree. rewrite Hfree. split.
           ++ intros (d'&?&?). exists d'. split; [lia|done].
           ++ intros (d'&Hd'&Hf). exists d'. split; [|done]. destruct (decide (d' = d)) as [->|]; [|lia].
              destruct Hf as (e'&He'&Hf). congruence.
  - destruct (IH (S d) used) as (found&curr&used'&E&Hres). cbn [obind]. rewrite E. exists found, curr, used'.
    split; [done|]. destruct found as [e'|].
    + destruct Hres as (?&?&d'&?&?). split_and!; [done..|]. exists d'. split; [lia|done].
    + destruct Hres as (Hno&Hle&Hfree). split_and!; [|lia|].
      * intros d' e' Hd'. destruct (decide (d' = d)) as [->|]; [|apply Hno; lia].
        intros (He'&Hu'&_). congruence.
      * split; [|lia]. intros _. exists d. split; [lia|]. by exists e.
Qed.

Lemma probe_free_ok n h d : ∃ r, probe_free n m (slot (table_size m) h d) = Done r
  ∧ match r with
    | Some curr => free_slot curr ∧ ∃ d', (d ≤ d' < d + n)%nat ∧ curr = slot (table_size m) h d'
    | None => ∀ d', (d ≤ d' < d + n)%nat → ¬ free_slot (slot (table_size m) h d')
    end.
Proof.
  revert d. induction n as [|n IH]; intros d; cbn [probe_free]; [exists None; split; [done|lia]|].
  pose proof (slot_range (table_size m) h d Hsize) as Hr.
  destruct (element_at_ok _ Hr) as (e&->&He). cbn [obind]. rewrite slot_next by done.
  destruct (in_use e) eqn:Hu.
  - destruct (IH (S d)) as (r&->&Hres). exists r. split; [done|]. destruct r as [curr|].
    + destruct Hres as (?&d'&?&?). split; [done|]. exists d'. split; [lia|done].
    + intros d' Hd'. destruct (decide (d' = d)) as [->|]; [|apply Hres; lia].
      intros (e'&He'&Hf). congruence.
  - eexists (Some _). split; [done|]. split; [by exists e|]. exists d. split; [lia|done].
Qed.
End probe.

(** ** Refinement *)

Section refinement.
Context (m : hashmap_s) (M : gmap (list Z) Z).
Hypothesis Hrep : represents m M.

Lemma rep_pos : 0 < table_size m.
Proof. apply (rep_size _ _ Hrep). Qed.
Lemma rep_length : length (mdata m) = Z.to_nat (table_size m).
Proof. apply (rep_size _ _ Hrep). Qed.

(** The chain of a key holds its element, when the map has the key. *)
Lemma find_ok k len chars : reads k len chars →
  ∃ found curr used, (let? curr := hashmap_hash_helper_int_helper m k len in
      probe_match HASHMAP_MAX_CHAIN_LENGTH m k len curr 0) = Done (found, curr, used)
  ∧ match found with
    | Some e => 0 ≤ curr ∧ at_slot m (Z.to_nat curr) chars e ∧ M !! chars = Some (data e)
        ∧ ∃ d, (d < HASHMAP_MAX_CHAIN_LENGTH)%nat ∧ curr = slot (table_size m) (hash (table_size m) chars) d
    | None => M !! chars = None
        ∧ ((used < HASHMAP_MAX_CHAIN_LENGTH)%nat ↔ ∃ d, (d < HASHMAP_MAX_CHAIN_LENGTH)%nat
            ∧ free_slot m (slot (table_size m) (hash (table_size m) chars) d))
    end.
Proof.
  intros Hk. destruct (hash_ok m k len chars rep_pos Hk) as [-> Hh]. cbn [obind].
  destruct (probe_match_ok m rep_pos rep_length (rep_used _ _ Hrep) HASHMAP_MAX_CHAIN_LENGTH k len chars
    (hash (table_size m) chars) 0 0 Hk) as (found&curr&used&E&Hres).
  rewrite slot_0 in E by done. rewrite E.
  exists found, curr, used. split; [done|]. destruct found as [e|].
  - destruct Hres as (?&Hat&d&?&?). split_and!; [done|done| |exists d; split; [lia|done]].
    apply (rep_lookup _ _ Hrep). by eexists _, _.
  - destruct Hres as (Hno&Hle&Hfree). split.
    + destruct (M !! chars) as [v|] eqn:EM; [|done]. apply (rep_lookup _ _ Hrep) in EM as (i&e&Hat&_).
      destruct (rep_chain _ _ Hrep _ _ _ Hat) as (d&Hd&Hi). exfalso. apply (Hno d e); [lia|].
      by rewrite <- Hi, Nat2Z.id.
    + split; [intros Hu|intros (d&?&?)].
      * destruct Hfree as [[d [? ?]] _]; [lia|]. exists d. split; [lia|done].
      * apply Hfree. exists d. split; [lia|done].
Qed.

Lemma hashmap_get_ok k len chars : reads k len chars →
  hashmap_get m k len = Done (default HASHMAP_NULL (M !! chars)).
Proof.
  intros Hk. destruct (find_ok k len chars Hk) as (found&curr&used&E&Hres). unfold hashmap_get.
  destruct (hashmap_hash_helper_int_helper m k len) as [h| | |]; [|done..]. cbn [obind] in *. rewrite E. cbn [obind].
  destruct found; [by destruct Hres as (_&_&->&_)|by destruct Hres as [-> _]].
Qed.

Lemma at_slot_set size n i e' j chars e : (i < length (mdata m))%nat →
  at_slot (mkMap size n (<[i := e']> (mdata m))) j chars e
  ↔ (j = i ∧ e = e' ∧ in_use e' = true ∧ has_key e' chars) ∨ (j ≠ i ∧ at_slot m j chars e).
Proof.
  intros Hi. unfold at_slot. cbn. destruct (decide (j = i)) as [->|Hne].
  - rewrite list_lookup_insert_eq by done. split; [intros (?&?&?); left; by simplify_eq|].
    intros [(_&->&?&?)|[? _]]; done.
  - rewrite list_lookup_insert_ne by done. split; [intros ?; by right|by intros [[? _]|[_ ?]]].
Qed.

(** An element for [chars] at a slot of its chain that is free or has its key. *)
Lemma represents_put i chars e e' n : mdata m !! i = Some e →
  (in_use e = true → has_key e chars) → (in_use e = false → M !! chars = None) →
  in_use e' = true → has_key e' chars →
  (∃ d, (d < HASHMAP_MAX_CHAIN_LENGTH)%nat ∧ Z.of_nat i = slot (table_size m) (hash (table_size m) chars) d) →
  n = Z.of_nat (base.size (<[chars := data e']> M)) ∧ n ≤ table_size m →
  represents (mkMap (table_size m) n (<[i := e']> (mdata m))) (<[chars := data e']> M).
Proof.
  intros He Huse Hfree Hu' Hkey Hchain Hn. pose proof (lookup_lt_Some _ _ _ He) as Hi.
  pose proof (rep_size _ _ Hrep) as [Hs Hl].
  assert (∀ j c x, j ≠ i → at_slot m j c x → c ≠ chars) as Hother.
  { intros j c x Hne Hat ->. destruct (in_use e) eqn:Hu.
    - apply Hne. apply (rep_unique _ _ Hrep j i chars x e Hat). split_and!; auto.
    - specialize (Hfree eq_refl). assert (M !! chars = Some (data x)) as E; [|congruence].
      apply (rep_lookup _ _ Hrep). by eexists _, _. }
  split.
  - cbn. split; [done|]. by rewrite length_insert.
  - exact Hn.
  - intros j x Hx Hux. cbn in Hx. apply list_lookup_insert_Some in Hx as [(->&<-&_)|[_ Hx]]; [by exists chars|].
    by eapply (rep_used _ _ Hrep).
  - intros j c x. rewrite at_slot_set by done. cbn [table_size]. intros [(->&->&_&Hc)|[_ Hat]].
    + by rewrite (reads_fun _ _ _ _ Hc Hkey).
    + by eapply (rep_chain _ _ Hrep).
  - intros j1 j2 c x1 x2. rewrite !at_slot_set by done.
    intros [(->&->&_&H1)|[Hne1 H1]] [(->&->&_&H2)|[Hne2 H2]]; [done|..].
    + exfalso. apply (Hother _ _ _ Hne2 H2). by eapply reads_fun.
    + exfalso. apply (Hother _ _ _ Hne1 H1). by eapply reads_fun.
    + by eapply (rep_unique _ _ Hrep).
  - intros c v. split.
    + intros [[<- <-]|[Hne Hv]]%lookup_insert_Some.
      * exists i, e'. split; [|done]. apply at_slot_set; [done|]. by left.
      * apply (rep_lookup _ _ Hrep) in Hv as (j&x&Hat&<-). exists j, x. split; [|done].
        apply at_slot_set; [done|]. right. split; [|done]. intros ->. destruct Hat as (Hx&Hux&Hc).
        assert (x = e) as -> by congruence. apply Hne. symmetry. by eapply reads_fun; [|apply Huse].
    + intros (j&x&Hat&<-). apply at_slot_set in Hat as [(->&->&_&Hc)|[Hne Hat]]; [|..|done].
      * rewrite (reads_fun _ _ _ _ Hc Hkey). by rewrite lookup_insert_eq.
      * rewrite lookup_insert_ne by (intros <-; by eapply Hother). apply (rep_lookup _ _ Hrep). by eexists _, _.
Qed.

Lemma at_slot_blank size n i e' j chars e : (i < length (mdata m))%nat → in_use e' = false →
  at_slot (mkMap size n (<[i := e']> (mdata m))) j chars e ↔ j ≠ i ∧ at_slot m j chars e.
Proof.
  intros Hi Hu. rewrite at_slot_set by done. split; [intros [(_&_&?&_)|?]; [congruence|done]|by right].
Qed.

(** An element that is no longer in use. *)
Lemma represents_delete i chars e e' n : at_slot m i chars e → in_use e' = false →
  n = Z.of_nat (base.size (delete chars M)) ∧ n ≤ table_size m →
  represents (mkMap (table_size m) n (<[i := e']> (mdata m))) (delete chars M).
Proof.
  intros Hat Hu' Hn. pose proof Hat as (He&Hu&Hkey). pose proof (lookup_lt_Some _ _ _ He) as Hi.
  pose proof (rep_size _ _ Hrep) as [Hs Hl].
  assert (∀ j c x, at_slot (mkMap (table_size m) n (<[i := e']> (mdata m))) j c x ↔ j ≠ i ∧ at_slot m j c x) as Hset.
  { intros j c x. by apply at_slot_blank. }
  split.
  - cbn. split; [done|]. by rewrite length_insert.
  - exact Hn.
  - intros j x Hx Hux. cbn in Hx. apply list_lookup_insert_Some in Hx as [(->&<-&_)|[_ Hx]]; [congruence|].
    by eapply (rep_used _ _ Hrep).
  - intros j c x. rewrite Hset. intros [_ ?]. by eapply (rep_chain _ _ Hrep).
  - intros j1 j2 c x1 x2. rewrite !Hset. intros [_ ?] [_ ?]. by eapply (rep_unique _ _ Hrep).
  - intros c v. split.
    + intros [Hne (j&x&Hx&<-)%(rep_lookup _ _ Hrep)]%lookup_delete_Some. exists j, x. split; [|done].
      apply Hset. split; [|done]. intros ->. apply Hne. destruct Hx as (Hx&_&Hc).
      assert (x = e) as -> by congruence. by eapply reads_fun.
    + intros (j&x&[Hne Hx]%Hset&<-). apply lookup_delete_Some. split.
      * intros ->. apply Hne. by eapply (rep_unique _ _ Hrep).
      * apply (rep_lookup _ _ Hrep). by eexists _, _.
Qed.
End refinement.

Lemma hashmap_create_ok size m : 0 < size < 4294967296 → hashmap_create size = Some m → represents m ∅.
Proof.
  intros Hs. unfold hashmap_create. case_match; [done|]. intros [= <-].
  assert (∀ i e, replicate (Z.to_nat size) (mkElement [] 0 false HASHMAP_NULL) !! i = Some e → in_use e = false) as Hfree
    by (by intros i e [-> _]%lookup_replicate).
  assert (∀ i c e, ¬ at_slot (mkMap size 0 (replicate (Z.to_nat size) (mkElement [] 0 false HASHMAP_NULL))) i c e) as Hno.
  { intros i c e (He&Hu&_). apply Hfree in He. congruence. }
  split; [| |..].
  - cbn. by rewrite length_replicate.
  - cbn. split; [done|lia].
  - intros i e He Hu. apply Hfree in He. congruence.
  - intros i c e Hat. by apply Hno in Hat.
  - intros i j c e e' Hat. by apply Hno in Hat.
  - intros c v. split; [done|]. intros (i&e&Hat&_). by apply Hno in Hat.
Qed.

(** The table has a slot for a key: its own, or a free one of its chain. *)
Definition has_slot (m : hashmap_s) (M : gmap (list Z) Z) (chars : list Z) : Prop :=
  msize m < table_size m ∧ (is_Some (M !! chars) ∨ ∃ d, (d < HASHMAP_MAX_CHAIN_LENGTH)%nat
    ∧ free_slot m (slot (table_size m) (hash (table_size m) chars) d)).

Lemma hashmap_put_ok m M k len chars v : represents m M → reads k len chars → has_slot m M chars →
  ∃ m', hashmap_put m k len v = Done m' ∧ represents m' (<[chars := v]> M).
Proof.
  intros Hrep Hk [Hroom Hslot]. pose proof (rep_pos _ _ Hrep) as Hpos. pose proof (rep_length _ _ Hrep) as Hlen.
  unfold hashmap_put, hashmap_hash_helper. replace (_ <=? _) with false by lia.
  destruct (find_ok m M Hrep k len chars Hk) as (found&curr&used&E&Hres).
  destruct (hash_ok m k len chars Hpos Hk) as [Hh Hrange]. rewrite Hh in E |- *. cbn [obind] in E |- *.
  rewrite E. cbn [obind]. pose proof (rep_count _ _ Hrep) as [Hcount _]. destruct (rep_size _ _ Hrep) as [Hs _].
  destruct found as [e|].
  - destruct Hres as (Hcurr&(He&Hu&Hkey)&HM&d&Hd&->). cbn [obind]. unfold element_at. rewrite He. cbn [obind].
    rewrite Hu. eexists. split; [done|].
    apply (represents_put m M Hrep _ chars e (mkElement k len true v)); [done|done|by rewrite Hu|done|done|..].
    + exists d. split; [done|]. by rewrite Z2Nat.id.
    + cbn. rewrite map_size_insert_Some; [split; [done|lia]|by exists (data e)].
  - destruct Hres as [HM Hused].
    assert (∃ d, (d < HASHMAP_MAX_CHAIN_LENGTH)%nat ∧ free_slot m (slot (table_size m) (hash (table_size m) chars) d))
      as Hfree by (destruct Hslot as [[? ?]|?]; [congruence|done]).
    replace (used <? _)%nat with true by (symmetry; apply Nat.ltb_lt, Hused, Hfree).
    destruct (probe_free_ok m Hpos Hlen HASHMAP_MAX_CHAIN_LENGTH (hash (table_size m) chars) 0) as (r&Hr&Hres).
    rewrite slot_0 in Hr by done. rewrite Hr. cbn [obind]. destruct r as [curr'|].
    2: { destruct Hfree as (d&?&?). exfalso. apply (Hres d); [lia|done]. }
    destruct Hres as ((e&He&Hu)&d&Hd&->). cbn [obind]. unfold element_at. rewrite He. cbn [obind]. rewrite Hu.
    eexists. split; [done|]. apply (represents_put m M Hrep _ chars e (mkElement k len true v)); [done|by rewrite Hu|done|done|done|..].
    + exists d. split; [lia|]. pose proof (slot_range (table_size m) (hash (table_size m) chars) d Hpos).
      by rewrite Z2Nat.id by lia.
    + cbn. rewrite map_size_insert_None by done. rewrite Hcount. unfold to_u32. rewrite Z.mod_small; lia.
Qed.

Lemma size_delete_present m M chars v : represents m M → M !! chars = Some v →
  to_u32 (msize m - 1) = Z.of_nat (base.size (delete chars M)) ∧ to_u32 (msize m - 1) ≤ table_size m.
Proof.
  intros Hrep HM.
  assert (base.size (delete chars M) = pred (base.size M)) as Hd by (apply map_size_delete_Some; by exists v).
  assert (base.size M ≠ 0%nat) by (intros E%map_size_empty_iff; by rewrite E, lookup_empty in HM).
  destruct (rep_count _ _ Hrep) as [Hc Hle], (rep_size _ _ Hrep) as [Hs _].
  rewrite Hd. unfold to_u32. rewrite Z.mod_small; lia.
Qed.

Lemma hashmap_remove_ok m M k len chars : represents m M → reads k len chars →
  ∃ m', hashmap_remove m k len = Done (m', match M !! chars with Some _ => 0 | None => 1 end) ∧ represents m' (delete chars M).
Proof.
  intros Hrep Hk. unfold hashmap_remove. destruct (find_ok m M Hrep k len chars Hk) as (found&curr&used&E&Hres).
  destruct (hashmap_hash_helper_int_helper m k len) as [h| | |]; [|done..]. cbn [obind] in *. rewrite E. cbn [obind].
  destruct found as [e|].
  - destruct Hres as (Hcurr&Hat&HM&_). rewrite HM. eexists. split; [done|].
    apply (represents_delete m M Hrep _ _ e blank); [done|done|]. by eapply size_delete_present.
  - destruct Hres as [HM _]. rewrite HM. exists m. split; [done|]. by rewrite delete_id.
Qed.

(** The same, with the key that is stored as the result. *)
Lemma hashmap_remove_and_return_key_ok m M k len chars : represents m M → reads k len chars →
  ∃ m' r, hashmap_remove_and_return_key m k len = Done (m', r) ∧ represents m' (delete chars M)
  ∧ match r with Some k' => is_Some (M !! chars) ∧ reads k' len chars | None => M !! chars = None end.
Proof.
  intros Hrep Hk. unfold hashmap_remove_and_return_key.
  destruct (find_ok m M Hrep k len chars Hk) as (found&curr&used&E&Hres).
  destruct (hashmap_hash_helper_int_helper m k len) as [h| | |]; [|done..]. cbn [obind] in *. rewrite E. cbn [obind].
  destruct found as [e|].
  - destruct Hres as (Hcurr&Hat&HM&_). eexists _, (Some _). split; [done|]. split_and!.
    + apply (represents_delete m M Hrep _ _ e); [done|done|]. by eapply size_delete_present.
    + by exists (data e).
    + destruct Hat as (_&_&Hkey). unfold has_key in Hkey. pose proof (reads_length _ _ _ Hkey) as E1.
      by rewrite E1, <- (reads_length _ _ _ Hk) in Hkey.
  - destruct Hres as [HM _]. exists m, None. split; [done|]. by rewrite delete_id.
Qed.

(** ** Iteration *)

(** The key and the data of an element that is in use. *)
Definition entry (e : hashmap_element_s) : option (list Z * Z) :=
  if in_use e then
    match read_block (key e) (Z.to_nat (key_len e)) with Done chars => Some (chars, data e) | _ => None end
  else None.

(** What a callback does to the data in turn, until it says to stop. *)
Fixpoint visit {C} (f : C → Z → C * bool) (context : C) (vs : list Z) : C * Z :=
  match vs with
  | [] => (context, 0)
  | v :: vs => let '(context, more) := f context v in if more then visit f context vs else (context, 1)
  end.

Lemma entry_some e chars v : entry e = Some (chars, v) → 0 ≤ key_len e →
  in_use e = true ∧ has_key e chars ∧ data e = v.
Proof.
  unfold entry. destruct (in_use e); [|done]. destruct (read_block _ _) as [c| | |] eqn:E; [|done..].
  intros [= <- <-] Hl. by split_and!.
Qed.

Lemma iterate_loop_ok m M : represents m M → ∀ {C} (f : C → Z → C * bool) n i context,
  (n + i = length (mdata m))%nat →
  iterate_loop n m f context (Z.of_nat i) = Done (visit f context (omap entry (drop i (mdata m))).*2).
Proof.
  intros Hrep C f. induction n as [|n IH]; intros i context Hn; cbn [iterate_loop].
  { rewrite drop_ge by lia. done. }
  destruct (lookup_lt_is_Some_2 (mdata m) i) as [e He]; [lia|].
  unfold element_at. rewrite Nat2Z.id, He. cbn [obind]. rewrite (drop_S _ _ _ He). cbn [omap list_omap].
  replace (Z.of_nat i + 1) with (Z.of_nat (S i)) by lia. unfold entry at 1. destruct (in_use e) eqn:Hu.
  - destruct (rep_used _ _ Hrep _ _ He Hu) as [c [_ Hc]]. rewrite Hc. cbn.
    destruct (f context (data e)) as [context' []]; [|done]. apply IH. lia.
  - apply IH. lia.
Qed.

Lemma entries_NoDup es : (∀ i j e e' c v v', es !! i = Some e → es !! j = Some e' →
    entry e = Some (c, v) → entry e' = Some (c, v') → i = j) → NoDup (omap entry es).*1.
Proof.
  induction es as [|e es IH]; intros Hu; [constructor|].
  assert (NoDup (omap entry es).*1) as IH'.
  { apply IH. intros i j x y c v v' Hi Hj. intros. assert (S i = S j) by by eapply (Hu (S i) (S j)). lia. }
  cbn. destruct (entry e) as [[c v]|] eqn:E; [|done]. cbn. constructor; [|done].
  intros ([c' v']&Hc&(x&Hx&Ex)%list_elem_of_omap)%list_elem_of_fmap. cbn in Hc. subst c'.
  apply list_elem_of_lookup in Hx as [j Hj]. by specialize (Hu 0%nat (S j) e x c v v' eq_refl Hj E Ex).
Qed.

Lemma entries_ok m M : represents m M → omap entry (mdata m) ≡ₚ map_to_list M.
Proof.
  intros Hrep.
  assert (∀ i e c v, mdata m !! i = Some e → entry e = Some (c, v) → at_slot m i c e ∧ data e = v) as Hat.
  { intros i e c v He Hc. assert (in_use e = true) as Hu by (unfold entry in Hc; by destruct (in_use e)).
    destruct (rep_used _ _ Hrep _ _ He Hu) as [c' Hc']. destruct (entry_some _ _ _ Hc) as (_&?&?); [apply Hc'|done]. }
  assert (NoDup (omap entry (mdata m)).*1) as Hnd.
  { apply entries_NoDup. intros i j e e' c v v' Hi Hj He He'.
    destruct (Hat _ _ _ _ Hi He), (Hat _ _ _ _ Hj He'). by eapply (rep_unique _ _ Hrep). }
  rewrite <- (map_to_list_to_map (M := gmap (list Z)) (omap entry (mdata m))) by done.
  replace (list_to_map (omap entry (mdata m))) with M; [done|]. symmetry.
  apply map_eq_iff. intros c. apply option_eq. intros v. rewrite <- elem_of_list_to_map by done.
  rewrite (rep_lookup _ _ Hrep), list_elem_of_omap. split.
  - intros (e&[i Hi]%list_elem_of_lookup&He). exists i, e. by apply Hat.
  - intros (i&e&(He&Hu&[_ Hc])&<-). exists e. split; [by eapply list_elem_of_lookup_2|].
    unfold entry. by rewrite Hu, Hc.
Qed.


Definition ab : list (option Z) := [Some 97; Some 98; Some 0].


(** An element whose data stays does not matter for what the slots from [i] remove. *)
Lemma removed_skip (P : Z → Prop) m M i e c v : represents m M → mdata m !! i = Some e →
  (∀ c, at_slot m i c e → ¬ P (data e)) → M !! c = Some v →
  (P v ∧ ∃ j x, (S i ≤ j)%nat ∧ at_slot m j c x) ↔ (P v ∧ ∃ j x, (i ≤ j)%nat ∧ at_slot m j c x).
Proof.
  intros Hrep He Hno Hv. split; intros [HP (j&x&Hj&Hx)]; (split; [done|]); exists j, x; (split; [|done]); [lia|].
  destruct (decide (j = i)) as [->|]; [|lia]. assert (x = e) as -> by (destruct Hx as [Hx _]; congruence).
  apply (rep_lookup _ _ Hrep) in Hv as (i'&e'&Hx'&<-).
  assert (i' = i) as -> by by eapply (rep_unique _ _ Hrep). assert (e' = e) as -> by (destruct Hx' as [Hx' _]; congruence).
  by apply Hno in Hx.
Qed.

(** A callback that removes the data of [P]. *)
Lemma pairs_loop_filter {C} (P : Z → Prop) `{∀ v, Decision (P v)} (f : C → hashmap_element_s → outcome (C * Z)) context :
  (∀ e, f context e = Done (context, if decide (P (data e)) then -1 else 0)) →
  ∀ n m M i, represents m M → (n + i = length (mdata m))%nat →
  ∃ m' M', pairs_loop n m f context (Z.of_nat i) = Done (context, m', 0) ∧ represents m' M'
    ∧ ∀ c v, M' !! c = Some v ↔ M !! c = Some v ∧ ¬ (P v ∧ ∃ j e, (i ≤ j)%nat ∧ at_slot m j c e).
Proof.
  intros Hf n. induction n as [|n IH]; intros m M i Hrep Hn; cbn [pairs_loop].
  { exists m, M. split_and!; [done..|]. intros c v. split; [|by intros [? _]]. intros Hv. split; [done|].
    intros (_&j&e&Hj&He&_). apply lookup_lt_Some in He. lia. }
  destruct (lookup_lt_is_Some_2 (mdata m) i) as [e He]; [lia|].
  unfold element_at. rewrite Nat2Z.id, He. cbn [obind].
  replace (Z.of_nat i + 1) with (Z.of_nat (S i)) by lia.
  assert (∀ m1 M1, represents m1 M1 → length (mdata m1) = length (mdata m) →
    ∃ m' M', pairs_loop n m1 f context (Z.of_nat (S i)) = Done (context, m', 0) ∧ represents m' M'
    ∧ ∀ c v, M' !! c = Some v ↔ M1 !! c = Some v ∧ ¬ (P v ∧ ∃ j e, (S i ≤ j)%nat ∧ at_slot m1 j c e)) as IH'.
  { intros m1 M1 H1 Hl. apply IH; [done|]. rewrite Hl. lia. }
  assert ((∀ c, at_slot m i c e → ¬ P (data e)) → ∃ m' M', pairs_loop n m f context (Z.of_nat (S i)) = Done (context, m', 0)
    ∧ represents m' M' ∧ ∀ c v, M' !! c = Some v ↔ M !! c = Some v ∧ ¬ (P v ∧ ∃ j e, (i ≤ j)%nat ∧ at_slot m j c e)) as Hskip.
  { intros Hno. destruct (IH' m M Hrep eq_refl) as (m'&M'&->&?&Hm'). exists m', M'. split_and!; [done..|].
    intros c v. rewrite Hm'.
    split; (intros [Hv Hn']; split; [done|]); by rewrite (removed_skip P m M i e c v) in * by done. }
  destruct (in_use e) eqn:Hu; [|apply Hskip; intros c (_&?&_); congruence].
  rewrite Hf. cbn [obind]. destruct (decide (P (data e))) as [HP|HP]; cbn [Z.eqb].
  2: { by apply Hskip. }
  destruct (rep_used _ _ Hrep _ _ He Hu) as [c0 Hc0].
  assert (at_slot m i c0 e) as Hat by done.
  assert (M !! c0 = Some (data e)) as HM0 by (apply (rep_lookup _ _ Hrep); by eexists _, _).
  pose proof (size_delete_present m M c0 _ Hrep HM0) as Hcnt.
  unfold set_element. rewrite Nat2Z.id.
  pose proof (represents_delete m M Hrep i c0 e blank _ Hat eq_refl Hcnt) as Hrep1.
  destruct (IH' _ _ Hrep1 ltac:(cbn; by rewrite length_insert)) as (m'&M'&E&?&Hm').
  change (-1 =? -1) with true. cbn iota. rewrite E. exists m', M'. split_and!; [done..|].
  intros c v. rewrite Hm', lookup_delete_Some.
  assert (∀ j x, at_slot (mkMap (table_size m) (to_u32 (msize m - 1)) (<[i := blank]> (mdata m))) j c x ↔ j ≠ i ∧ at_slot m j c x) as Hset.
  { intros j x. apply at_slot_blank; [by apply lookup_lt_Some in He|done]. }
  setoid_rewrite Hset. split.
  - intros [[Hne Hv] Hn']. split; [done|]. intros [HPv (j&x&Hj&Hx)]. apply Hn'. split; [done|]. exists j, x.
    assert (j ≠ i); [|split; [lia|done]]. intros ->. apply Hne.
    assert (x = e) as -> by (destruct Hx as [Hx _]; congruence). eapply reads_fun; [apply Hc0|apply Hx].
  - intros [Hv Hn']. split; [split; [|done]|].
    + intros ->. apply Hn'. assert (v = data e) as -> by congruence. split; [done|]. by exists i, e.
    + intros [HPv (j&x&Hj&_&Hx)]. apply Hn'. split; [done|]. exists j, x. split; [lia|done].
Qed.

Lemma iterate_pairs_filter {C} (P : Z → Prop) `{∀ v, Decision (P v)} (f : C → hashmap_element_s → outcome (C * Z)) context m M :
  (∀ e, f context e = Done (context, if decide (P (data e)) then -1 else 0)) → represents m M →
  ∃ m', hashmap_iterate_pairs m f context = Done (context, m', 0)
    ∧ represents m' (filter (λ kv, ¬ P kv.2) M).
Proof.
  intros Hf Hrep. unfold hashmap_iterate_pairs.
  destruct (pairs_loop_filter P f context Hf (Z.to_nat (table_size m)) m M 0 Hrep) as (m'&M'&E&Hrep'&HM').
  { rewrite (rep_length _ _ Hrep). lia. }
  exists m'. split; [exact E|]. replace (filter _ M) with M'; [done|].
  apply map_eq_iff. intros c. apply option_eq. intros v. rewrite HM', map_lookup_filter_Some. cbn.
  split; intros [Hv Hn]; (split; [done|]).
  - intros HP. apply Hn. split; [done|]. apply (rep_lookup _ _ Hrep) in Hv as (i&e&Hat&_). exists i, e. split; [lia|done].
  - by intros [HP _].
Qed.

(** The elements come from [calloc]: there is no size in front of them. *)
Lemma hashmap_destroy_undefined `{Malloc} A mem b : hashmap_destroy A mem (mkPtr b 0) = Undefined.
Proof.
  unfold hashmap_destroy, za_Free, SvelteAlloc.load, in_block. cbn [shift blk off].
  by destruct (blocks mem !! b).
Qed.

(** So a table is never rehashed with a defined result. *)
Lemma hashmap_rehash_never `{Malloc} A mem b m m' : hashmap_rehash_helper A mem (mkPtr b 0) m ≠ Done (m', 0).
Proof.
  unfold hashmap_rehash_helper. destruct (hashmap_create _) as [new|]; [|done].
  destruct (hashmap_iterate_pairs _ _ _) as [[[new' m1] flag]| | |]; [|done..]. cbn [obind].
  destruct (Z.eqb_spec flag 0) as [->|Hne]; cbn [negb]; [by rewrite hashmap_destroy_undefined|congruence].
Qed.
