(* ===== verification/Svelte.v ===== *)
(** * The Svelte external scanner

    [crates/tree-sitter-svelte-sqry/grammar-src/scanner.c]: the stack of open
    elements, its serialization, and the tokens for tags, comments, raw text
    and the expressions of blocks. The allocator of the payload is not part of
    the state: blocks are released with it only. *)

From S2P Require Import Prelude CArray CString VcVector SvelteTag Scan Logic.

Inductive TokenType : Type :=
  | START_TAG_NAME
  | SCRIPT_START_TAG_NAME
  | STYLE_START_TAG_NAME
  | END_TAG_NAME
  | ERRONEOUS_END_TAG_NAME
  | SELF_CLOSING_TAG_DELIMITER
  | IMPLICIT_END_TAG
  | RAW_TEXT
  | RAW_TEXT_EXPR
  | RAW_TEXT_AWAIT
  | RAW_TEXT_EACH
  | COMMENT.

#[export] Instance svelte_TokenType_eq_dec : EqDecision TokenType.
Proof. solve_decision. Defined.

Definition TokenType_to_Z (t : TokenType) : Z :=
  match t with
  | START_TAG_NAME => 0 | SCRIPT_START_TAG_NAME => 1 | STYLE_START_TAG_NAME => 2
  | END_TAG_NAME => 3 | ERRONEOUS_END_TAG_NAME => 4 | SELF_CLOSING_TAG_DELIMITER => 5
  | IMPLICIT_END_TAG => 6 | RAW_TEXT => 7 | RAW_TEXT_EXPR => 8 | RAW_TEXT_AWAIT => 9
  | RAW_TEXT_EACH => 10 | COMMENT => 11
  end.

Record Scanner := mkScanner { tags : vc_vector cell; m : hashmap_s }.

Definition set_tags (s : Scanner) (v : vc_vector cell) : Scanner := mkScanner v (m s).

Definition UINT8_MAX : Z := 255.
Definition UINT16_MAX : Z := 65535.
Definition TREE_SITTER_SERIALIZATION_BUFFER_SIZE : Z := 1024.

(** ** Serialization *)

(** The two bytes of a [uint16_t]. *)
Definition u16_chars (x : Z) : list Z := [to_char (x mod 256); to_char (x / 256 mod 256)].

(** The entries of the [n] tags from index [j], behind the [i] bytes written so
    far: the bytes, and how many of the tags were written. *)
Fixpoint serialize_loop (n : nat) (v : vc_vector cell) (j i : Z) : outcome (list Z * Z) :=
  match n with
  | O => Done ([], j)
  | S n =>
      let tag := (vdata v, vc_vector_at v j) in
      let? t := get_type tag in
      if t =? CUSTOM then
        let? name := get_name tag in
        let name_length := if UINT8_MAX <? slength name then UINT8_MAX else slength name in
        if TREE_SITTER_SERIALIZATION_BUFFER_SIZE <=? i + 2 + name_length then Done ([], j)
        else
          let? chars := strncpy_ptr (buf name) name_length in
          let? '(bytes, k) := serialize_loop n v (j + 1) (i + 2 + name_length) in
          Done (to_char t :: to_char name_length :: chars ++ bytes, k)
      else
        if TREE_SITTER_SERIALIZATION_BUFFER_SIZE <=? i + 1 then Done ([], j)
        else
          let? '(bytes, k) := serialize_loop n v (j + 1) (i + 1) in
          Done (to_char t :: bytes, k)
  end.

Definition serialize (scanner : Scanner) : outcome (list Z) :=
  let c := count (tags scanner) in
  let tag_count := if UINT16_MAX <? c then UINT16_MAX else c in
  let? '(bytes, serialized_tag_count) :=
    serialize_loop (Z.to_nat tag_count) (tags scanner) 0 4 in
  Done (u16_chars serialized_tag_count ++ u16_chars tag_count ++ bytes).

Definition read_char (buffer : list Z) (i : Z) : outcome Z :=
  match buffer !! Z.to_nat i with
  | Some c => Done c
  | None => Undefined
  end.

Definition read_u16 (buffer : list Z) (i : Z) : outcome Z :=
  let? lo := read_char buffer i in
  let? hi := read_char buffer (i + 1) in
  Done (to_uchar lo + 256 * to_uchar hi).

(** The [n] tags from index [j], from the bytes at [i]. *)
Fixpoint deserialize_loop (n : nat) (v : vc_vector cell) (buffer : list Z) (j i : Z)
  : outcome (vc_vector cell) :=
  match n with
  | O => Done v
  | S n =>
      let with_data d := mkVector (count v) (element_size v) (reserved_size v) d in
      let offset := vc_vector_at v j in
      let? c := read_char buffer i in
      let t := Z.abs c in
      let? d := set_type (vdata v, offset) t in
      if t =? CUSTOM then
        let? c := read_char buffer (i + 1) in
        let name_length := to_uchar c in
        let? s := init_string_str (Some (Some <$> drop (Z.to_nat (i + 2)) buffer)) name_length in
        let? d := set_name (d, offset) s in
        deserialize_loop n (with_data d) buffer (j + 1) (i + 2 + name_length)
      else deserialize_loop n (with_data d) buffer (j + 1) (i + 1)
  end.

Definition deserialize (scanner : Scanner) (buffer : list Z) : outcome Scanner :=
  let v := vc_vector_clear (tags scanner) in
  if 0 <? Z.of_nat (length buffer) then
    let? serialized_tag_count := read_u16 buffer 0 in
    let? tag_count := read_u16 buffer 2 in
    let? v := vc_vector_resize v tag_count (tag_cells initTag) in
    let? v := deserialize_loop (Z.to_nat serialized_tag_count) v buffer 0 4 in
    Done (set_tags scanner v)
  else Done (set_tags scanner v).

(** ** Scanning *)

Section scanner.
Context {L : Type} {HL : TSLexer L} {HW : WCType}.
Local Abbreviation M := (M L Scanner).

Definition advance : M unit := advance_ false.
Definition set_result (t : TokenType) : M unit := set_symbol (TokenType_to_Z t).

Definition is_tag_name_char (c : Z) : bool :=
  iswalnum c || (c =? "-") || (c =? ":") || (c =? ".").

Definition scan_tag_name : M ekstring :=
  iter (λ tag_name,
    c <- lookahead;;
    if is_tag_name_char c then
      tag_name <- lift (concat_string_char tag_name (to_char c));;
      advance;;
      ret (inl tag_name)
    else ret (inr tag_name)) NaS.

Definition comment_body (dashes : Z) : M (Z + bool) :=
  c <- lookahead;;
  if c =? 0 then ret (inr false)
  else if (c =? ">") && (2 <=? dashes) then
    set_result COMMENT;; advance;; mark_end;; ret (inr true)
  else
    advance;;
    ret (inl (if c =? "-" then to_u32 (dashes + 1) else if c =? ">" then dashes else 0)).

Definition scan_comment : M bool :=
  c <- lookahead;;
  if negb (c =? "-") then ret false
  else
    advance;;
    c <- lookahead;;
    if negb (c =? "-") then ret false
    else advance;; iter comment_body 0.

Definition raw_text_body (end_delimiter : ekstring) (delimiter_index : Z) : M (Z + unit) :=
  c <- lookahead;;
  if c =? 0 then ret (inr tt)
  else
    d <- lift (read (default [] (buf end_delimiter)) delimiter_index);;
    if to_char c =? d then
      if delimiter_index + 1 =? slength end_delimiter then ret (inr tt)
      else advance;; ret (inl (delimiter_index + 1))
    else advance;; mark_end;; ret (inl 0).

Definition scan_raw_text : M bool :=
  scanner <- get_payload;;
  let v := tags scanner in
  if count v =? 0 then ret false
  else
    mark_end;;
    t <- lift (get_type (vdata v, vc_vector_back v));;
    end_delimiter <- lift (
      if t =? TagType.to_Z TagType.SCRIPT
      then init_string_str (Some (literal "</script")) 8
      else init_string_str (Some (literal "</style")) 7);;
    iter (raw_text_body end_delimiter) 0;;
    set_result RAW_TEXT;;
    ret true.

(** [vc_vector_pop_back], and the symbol of the result. *)
Definition pop_tag (t : TokenType) : M bool :=
  scanner <- get_payload;;
  set_payload (set_tags scanner (vc_vector_pop_back (tags scanner)));;
  set_result t;;
  ret true.

(** The part behind the first branch, for the tag that was scanned. *)
Definition implicit_end_tag_of (is_closing_tag : bool) (next_tag : tag_ptr) : M bool :=
  scanner <- get_payload;;
  let v := tags scanner in
  let parent := (vdata v, vc_vector_back v) in
  if is_closing_tag then
    same <- (if count v =? 0 then ret false
             else lift (compareTags (Some parent) (Some next_tag)));;
    if same : bool then ret false
    else
      found <- lift (findTag v next_tag);;
      if found : bool then pop_tag IMPLICIT_END_TAG else ret false
  else
    closes <- (if count v =? 0 then ret false
               else b <- lift (can_contain parent next_tag);; ret (negb b));;
    if closes : bool then pop_tag IMPLICIT_END_TAG else ret false.

(** Behind the slash, when there is one. *)
Definition implicit_end_tag_name (is_closing_tag : bool) : M bool :=
  tag_name <- scan_tag_name;;
  if slength tag_name =? 0 then ret false
  else
    scanner <- get_payload;;
    next_tag <- lift (for_name (m scanner) tag_name);;
    implicit_end_tag_of is_closing_tag (tag_cells next_tag, 0).

Definition scan_implicit_end_tag : M bool :=
  scanner <- get_payload;;
  let v := tags scanner in
  c <- lookahead;;
  if c =? "/" then advance;; implicit_end_tag_name true
  else
    void <- (if count v =? 0 then ret false
             else lift (is_void (vdata v, vc_vector_back v)));;
    if void : bool then pop_tag IMPLICIT_END_TAG else implicit_end_tag_name false.

Definition scan_start_tag_name : M bool :=
  tag_name <- scan_tag_name;;
  if slength tag_name =? 0 then ret false
  else
    scanner <- get_payload;;
    tag <- lift (for_name (m scanner) tag_name);;
    v <- lift (vc_vector_push_back (tags scanner) (tag_cells tag));;
    set_payload (set_tags scanner v);;
    set_result (if type tag =? TagType.to_Z TagType.SCRIPT then SCRIPT_START_TAG_NAME
                else if type tag =? TagType.to_Z TagType.STYLE then STYLE_START_TAG_NAME
                else START_TAG_NAME);;
    ret true.

Definition scan_end_tag_name : M bool :=
  tag_name <- scan_tag_name;;
  if slength tag_name =? 0 then ret false
  else
    scanner <- get_payload;;
    tag <- lift (for_name (m scanner) tag_name);;
    let v := tags scanner in
    same <- (if 0 <? count v
             then lift (compareTags (Some (vdata v, vc_vector_back v)) (Some (tag_cells tag, 0)))
             else ret false);;
    if same : bool then pop_tag END_TAG_NAME
    else set_result ERRONEOUS_END_TAG_NAME;; ret true.

Definition scan_self_closing_tag_delimiter : M bool :=
  advance;;
  c <- lookahead;;
  if c =? ">" then
    advance;;
    scanner <- get_payload;;
    if negb (count (tags scanner) =? 0) then pop_tag SELF_CLOSING_TAG_DELIMITER
    else ret true
  else ret false.

(** A pointer that is compared up to a mismatch, which may be behind the end. *)
Definition scan_word (word : ekstring) : M bool :=
  iter (λ i,
    c <- lookahead;;
    d <- lift (read (default [] (buf word)) i);;
    if to_char c =? d then advance;; ret (inl (i + 1)) else ret (inr tt)) 0;;
  c <- lookahead;;
  ret ((to_char c =? "{") || iswspace (to_u32 (to_char c)) || (to_char c =? "}")).

Definition scan_for_balanced_character (open closed : Z) : M bool :=
  iter (λ stack,
    l <- lookahead;;
    let c := to_char l in
    if c =? 0 then ret (inr false)
    else if c =? open then
      stack <- lift (i32_incr stack);; advance;; ret (inl stack)
    else if c =? closed then
      stack <- lift (i32_decr stack);;
      if stack =? 0 then ret (inr true) else advance;; ret (inl stack)
    else advance;; ret (inl stack)) 0.

(** The characters of a string, up to its closing quote. *)
Definition skip_quoted (quote : Z) : M unit :=
  iter (λ _ : unit,
    l <- lookahead;;
    let c := to_char l in
    if c =? 0 then ret (inr tt)
    else
      when (c =? BACKSLASH) advance;;
      if c =? quote then ret (inr tt)
      else advance;; ret (inl tt)) tt.

(** A space: [Some true] when the extra token ends here, [Some false] when it is
    ruled out. *)
Definition space_before_word (extraToken : TokenType) : M (option bool) :=
  mark_end;;
  advance;;
  l <- lookahead;;
  let c := to_char l in
  if bool_decide (extraToken = RAW_TEXT_AWAIT) && (c =? "t") then
    thenWord <- lift (init_string_str (Some (literal "then")) 4);;
    b <- scan_word thenWord;;
    ret (Some b)
  else if bool_decide (extraToken = RAW_TEXT_EACH) && (c =? "a") then
    asWord <- lift (init_string_str (Some (literal "as")) 2);;
    b <- scan_word asWord;;
    ret (Some b)
  else ret None.

(** A round of the loop of [scan_raw_text_expr], over [extraTokenPossible]. *)
Definition raw_text_expr_body (extraToken : TokenType) (extraTokenPossible : bool)
  : M (bool + bool) :=
  l <- lookahead;;
  let c := to_char l in
  if c =? 0 then ret (inr false)
  else if c =? "{" then
    scan_for_balanced_character "{" "}";; advance;; ret (inl false)
  else if c =? "}" then
    mark_end;; set_result RAW_TEXT_EXPR;; ret (inr true)
  else if c =? "[" then
    scan_for_balanced_character "[" "]";; advance;;
    ret (inl (bool_decide (extraToken = RAW_TEXT_EACH)))
  else if (c =? LF) || (c =? TAB) || (c =? " ") then
    if extraTokenPossible && (bool_decide (extraToken = RAW_TEXT_AWAIT)
                              || bool_decide (extraToken = RAW_TEXT_EACH)) then
      r <- space_before_word extraToken;;
      match r with
      | Some true => set_result extraToken;; ret (inr true)
      | Some false => advance;; ret (inl false)
      | None => advance;; ret (inl extraTokenPossible)
      end
    else advance;; ret (inl extraTokenPossible)
  else if (c =? DQUOTE) || (c =? "'") || (c =? "`") then
    advance;; skip_quoted c;; advance;; ret (inl extraTokenPossible)
  else advance;; ret (inl extraTokenPossible).

Definition scan_raw_text_expr (extraToken : TokenType) : M bool :=
  iter (raw_text_expr_body extraToken) true.

(** Behind the white space. *)
Definition scan_token (valid_symbols : TokenType → bool) : M bool :=
  if valid_symbols RAW_TEXT_EXPR && valid_symbols RAW_TEXT_AWAIT
  then scan_raw_text_expr RAW_TEXT_AWAIT
  else if valid_symbols RAW_TEXT_EXPR && valid_symbols RAW_TEXT_EACH
  then scan_raw_text_expr RAW_TEXT_EACH
  else if valid_symbols RAW_TEXT_EXPR then
    l <- lookahead;;
    let c := to_char l in
    if (c =? "@") || (c =? "#") || (c =? ":") || (c =? "/") then ret false
    else scan_raw_text_expr RAW_TEXT_EXPR
  else if valid_symbols RAW_TEXT && negb (valid_symbols START_TAG_NAME)
          && negb (valid_symbols END_TAG_NAME)
  then scan_raw_text
  else
    c <- lookahead;;
    if c =? "<" then
      mark_end;;
      advance;;
      c <- lookahead;;
      if c =? "!" then advance;; scan_comment
      else if valid_symbols IMPLICIT_END_TAG then scan_implicit_end_tag
      else ret false
    else if c =? NUL then
      if valid_symbols IMPLICIT_END_TAG then scan_implicit_end_tag else ret false
    else if c =? "/" then
      if valid_symbols SELF_CLOSING_TAG_DELIMITER then scan_self_closing_tag_delimiter
      else ret false
    else if (valid_symbols START_TAG_NAME || valid_symbols END_TAG_NAME)
            && negb (valid_symbols RAW_TEXT)
    then if valid_symbols START_TAG_NAME then scan_start_tag_name else scan_end_tag_name
    else ret false.

Definition scan (valid_symbols : TokenType → bool) : M bool :=
  while_look iswspace true;;
  scan_token valid_symbols.

Definition tree_sitter_svelte_external_scanner_scan (valid_symbols : TokenType → bool) : M bool :=
  scan valid_symbols.
End scanner.

Definition tree_sitter_svelte_external_scanner_create : outcome Scanner :=
  let? m := get_tag_map in
  Done (mkScanner (vc_vector_create 2 TAG_SIZE) m).

Definition tree_sitter_svelte_external_scanner_serialize (payload : Scanner) : outcome (list Z) :=
  serialize payload.

Definition tree_sitter_svelte_external_scanner_deserialize (payload : Scanner) (buffer : list Z)
  : outcome Scanner := deserialize payload buffer.
