(* ===== verification/SvelteSerial.v ===== *)
(** * Serialization of the Svelte scanner

    The bytes that [serialize] writes, as a function of the tags on the stack,
    and what [deserialize] makes of them. *)

From S2P Require Import Prelude CArray CArrayProofs CString Codec.
From S2P Require Import VcVector VcVectorProofs SvelteTag SvelteTagProofs Svelte.

(** ** The format *)

(** The entry of a tag; at most 255 characters of a name are written. *)
Definition encode_tag (a : atag) : list Z :=
  if fst a =? CUSTOM
  then to_char CUSTOM :: to_char (Z.of_nat (length (take 255 (snd a)))) :: take 255 (snd a)
  else [to_char (fst a)].

(** How many of the tags fit behind [i] bytes. *)
Fixpoint fitting (i : Z) (ts : list atag) : nat :=
  match ts with
  | [] => 0
  | a :: ts =>
      let j := i + Z.of_nat (length (encode_tag a)) in
      if 1024 <=? j then 0%nat else S (fitting j ts)
  end.

Definition header (written total : nat) : list Z :=
  u16_chars (Z.of_nat written) ++ u16_chars (Z.of_nat total).

Definition encode_tags (ts : list atag) : list Z :=
  let k := fitting 4 ts in
  header k (length ts) ++ concat (encode_tag <$> take k ts).

(** ** Writing *)

Lemma length_encode_custom t name : (t =? CUSTOM) = true →
  Z.of_nat (length (encode_tag (t, name))) = 2 + Z.of_nat (Nat.min 255 (length name)).
Proof. intros H. unfold encode_tag. cbn [fst]. rewrite H. cbn [length snd]. rewrite length_take. lia. Qed.

Lemma serialize_loop_rel v els ts j i : vec_repr 32 v els → Forall2 tag_rel (drop j els) ts →
  (j + length ts = length els)%nat →
  serialize_loop (length ts) v (Z.of_nat j) i
    = Done (concat (encode_tag <$> take (fitting i ts) ts), Z.of_nat (j + fitting i ts)).
Proof.
  intros Hv. revert j i. induction ts as [|[t name] ts IH]; intros j i Hf Hl.
  { simpl. by rewrite Nat.add_0_r. }
  simpl in Hl. destruct (lookup_lt_is_Some_2 els j) as [e He]; [lia|].
  rewrite (drop_S _ _ _ He) in Hf. apply Forall2_cons in Hf as [(Hle&Ht&Hpos&Hn) Hf].
  cbn [length serialize_loop fitting].
  rewrite (get_type_element _ _ _ _ Hv He), Ht. cbn [obind fst snd].
  replace (Z.of_nat j + 1) with (Z.of_nat (S j)) by lia.
  unfold TREE_SITTER_SERIALIZATION_BUFFER_SIZE.
  destruct (t =? CUSTOM) eqn:E.
  - rewrite (length_encode_custom t name E).
    cbn [fst] in Hn. rewrite E in Hn. destruct Hn as (s&chars&Hg&Hs&Hnorm). cbn [snd] in Hnorm.
    rewrite (get_name_element _ _ _ _ Hv He), Hg. cbn [obind].
    pose proof Hs as [_ Hsl]. pose proof (length_norm chars) as Hnl. rewrite Hnorm in Hnl.
    set (k := if UINT8_MAX <? slength s then UINT8_MAX else slength s).
    assert (k = Z.of_nat (length (take 255 name))) as Hk.
    { unfold k, UINT8_MAX. rewrite length_take. case_match; lia. }
    assert (k = Z.of_nat (255 `min` length name)) as Hk' by (by rewrite Hk, length_take).
    replace (i + (2 + _)) with (i + 2 + k) by lia. case_match; [simpl; by rewrite Nat.add_0_r|].
    rewrite (strncpy_ptr_prefix s chars k Hs) by (unfold k, UINT8_MAX; case_match; lia).
    rewrite Hnorm. cbn [obind]. rewrite (IH (S j)) by (done || lia). cbn [obind].
    cbn [take fmap list_fmap concat]. unfold encode_tag at 2. cbn [fst snd]. rewrite E.
    assert (t = CUSTOM) as -> by lia. rewrite <- Hk.
    replace (take (Z.to_nat k) name) with (take 255 name).
    + do 3 f_equal. lia.
    + rewrite Hk', Nat2Z.id. destruct (decide (255 ≤ length name)%nat).
      * by rewrite Nat.min_l by lia.
      * rewrite Nat.min_r by lia. by rewrite !take_ge by lia.
  - assert (encode_tag (t, name) = [to_char t]) as Henc by (unfold encode_tag; cbn [fst]; by rewrite E).
    rewrite Henc. change (Z.of_nat (length [to_char t])) with 1.
    destruct (1024 <=? i + 1); [simpl; by rewrite Nat.add_0_r|]. rewrite (IH (S j)) by (done || lia). cbn [obind].
    cbn [take fmap list_fmap concat]. rewrite Henc. simpl. do 3 f_equal. lia.
Qed.

Lemma serialize_rel s ts : tags_repr (tags s) ts → Z.of_nat (length ts) ≤ 65535 →
  serialize s = Done (encode_tags ts).
Proof.
  intros (els&Hv&Hts) Hl. pose proof Hv as (_&_&Hc&_). pose proof (Forall2_length _ _ _ Hts) as Hlen.
  unfold serialize. rewrite Hc. unfold UINT16_MAX. replace (_ <? _) with false by lia.
  rewrite Nat2Z.id, Hlen.
  pose proof (serialize_loop_rel _ els ts 0 4 Hv Hts ltac:(lia)) as Hloop.
  change (Z.of_nat 0) with 0 in Hloop. rewrite Hloop. cbn [obind].
  unfold encode_tags, header. by rewrite <- app_assoc.
Qed.

(** ** Reading *)

(** A tag that survives: a type of the enumeration, and a canonical name of at
    most 255 characters. *)
Definition tag_ok (a : atag) : Prop :=
  0 ≤ fst a ≤ CUSTOM
  ∧ if fst a =? CUSTOM then norm (snd a) = snd a ∧ (length (snd a) ≤ 255)%nat else snd a = [].

Lemma read_char_at b1 c b2 : read_char (b1 ++ c :: b2) (Z.of_nat (length b1)) = Done c.
Proof. unfold read_char. by rewrite Nat2Z.id, list_lookup_middle. Qed.

Lemma read_u16_chars b1 x b2 : 0 ≤ x < 65536 →
  read_u16 (b1 ++ u16_chars x ++ b2) (Z.of_nat (length b1)) = Done x.
Proof.
  intros Hx. unfold read_u16, u16_chars. cbn [app]. rewrite read_char_at. cbn [obind].
  replace (Z.of_nat (length b1) + 1) with (Z.of_nat (length (b1 ++ [to_char (x mod 256)])))
    by (rewrite length_app; simpl; lia).
  replace (b1 ++ to_char (x mod 256) :: to_char (x / 256 mod 256) :: b2)
    with ((b1 ++ [to_char (x mod 256)]) ++ to_char (x / 256 mod 256) :: b2) by (by rewrite <- app_assoc).
  rewrite read_char_at. cbn [obind]. rewrite !to_uchar_of_char.
  pose proof (Z_div_mod_eq_full x 256). pose proof (Z.mod_pos_bound x 256 ltac:(lia)).
  assert (0 ≤ x / 256 < 256) by (split; [apply Z.div_pos|apply Z.div_lt_upper_bound]; lia).
  rewrite (Z.mod_small (x / 256)), !to_uchar_small by lia. f_equal. lia.
Qed.

(** Setting the type of an element, and then its name. *)
Lemma set_type_rel v els j e t : vec_repr 32 v els → els !! j = Some e → 0 ≤ t < 2147483648 →
  ∃ d e', set_type (vdata v, vc_vector_at v (Z.of_nat j)) t = Done d
    ∧ vec_repr 32 (with_data v d) (<[j := e']> els) ∧ length e' = 32%nat
    ∧ e' = type_cells t ++ drop 4 e.
Proof.
  intros Hv Hj Ht. pose proof Hv as (_&He&_).
  destruct (vec_repr_write 32 v els j e 0 (type_cells t) Hv Hj) as (d&e'&Hd&He'&Hl&Hv'); [simpl; lia|].
  exists d, e'. unfold set_type, vc_vector_at. cbn [fst snd]. rewrite He.
  replace (Z.of_nat j * Z.of_nat 32) with (Z.of_nat (j * 32 + 0)) by lia.
  split_and!; [done..|].
  unfold memcpy in He'. case_match; [|done]. apply (inj Done) in He' as <-. done.
Qed.

Lemma set_name_rel v els j e s t : vec_repr 32 v els → els !! j = Some (type_cells t ++ e) →
  length e = 28%nat →
  ∃ d e', set_name (vdata v, vc_vector_at v (Z.of_nat j)) s = Done d
    ∧ vec_repr 32 (with_data v d) (<[j := e']> els) ∧ length e' = 32%nat
    ∧ e' = (type_cells t ++ take 4 e) ++ name_cells s.
Proof.
  intros Hv Hj Hle. pose proof Hv as (_&He&_).
  destruct (vec_repr_write 32 v els j _ 8 (name_cells s) Hv Hj) as (d&e'&Hd&He'&Hl&Hv'); [simpl; lia|].
  exists d, e'. unfold set_name, vc_vector_at. cbn [fst snd]. rewrite He. unfold NAME_OFFSET.
  replace (Z.of_nat j * Z.of_nat 32 + 8) with (Z.of_nat (j * 32 + 8)) by lia.
  split_and!; [done..|].
  unfold memcpy in He'. case_match; [|done]. apply (inj Done) in He' as <-.
  change (Z.to_nat (Z.of_nat 8)) with 8%nat. rewrite take_app_ge by (simpl; lia).
  rewrite (drop_ge (type_cells t ++ e)) by (rewrite length_app; simpl; lia).
  by rewrite app_nil_r.
Qed.

Lemma with_data_twice {B} (v : vc_vector B) d d' : with_data (with_data v d) d' = with_data v d'.
Proof. done. Qed.

(** One entry: the element behind it holds the tag. *)
Lemma deserialize_entry n v els j e a buffer b1 b2 : vec_repr 32 v els → els !! j = Some e →
  tag_ok a → buffer = b1 ++ encode_tag a ++ b2 →
  ∃ d e', vec_repr 32 (with_data v d) (<[j := e']> els) ∧ tag_rel e' a
    ∧ deserialize_loop (S n) v buffer (Z.of_nat j) (Z.of_nat (length b1))
      = deserialize_loop n (with_data v d) buffer (Z.of_nat (S j))
          (Z.of_nat (length (b1 ++ encode_tag a))).
Proof.
  intros Hv Hj [Hr Hn] Hb. destruct a as [t name]; cbn [fst snd] in *. rewrite CUSTOM_val in Hr.
  cbn [deserialize_loop]. replace (Z.of_nat j + 1) with (Z.of_nat (S j)) by lia.
  destruct (set_type_rel v els j e t Hv Hj ltac:(lia)) as (d&e1&Hd&Hv1&Hl1&He1).
  assert (length e = 32%nat) as Hle.
  { destruct Hv as (_&_&_&Hf&_). by eapply Forall_lookup_1 in Hf. }
  destruct (t =? CUSTOM) eqn:E.
  - destruct Hn as [Hnorm Hlen]. assert (t = 127) as -> by (rewrite CUSTOM_val in E; lia).
    assert (encode_tag (127, name) = 127 :: to_char (Z.of_nat (length name)) :: name) as Henc.
    { unfold encode_tag. cbn [fst snd]. rewrite E. by rewrite take_ge by lia. }
    rewrite Henc in *.
    assert (read_char buffer (Z.of_nat (length b1)) = Done 127) as -> by (rewrite Hb; apply read_char_at).
    cbn [obind]. change (Z.abs 127) with 127. rewrite Hd. cbn [obind]. rewrite E.
    assert (read_char buffer (Z.of_nat (length b1) + 1) = Done (to_char (Z.of_nat (length name)))) as ->.
    { replace (Z.of_nat (length b1) + 1) with (Z.of_nat (length (b1 ++ [127])))
        by (rewrite length_app; simpl; lia).
      replace buffer with ((b1 ++ [127]) ++ to_char (Z.of_nat (length name)) :: name ++ b2)
        by (by rewrite Hb, <- app_assoc). apply read_char_at. }
    cbn [obind]. rewrite to_uchar_of_char, to_uchar_small by lia.
    replace (drop _ buffer) with (name ++ b2).
    2: { rewrite Hb. replace (Z.to_nat _) with (length (b1 ++ [127; to_char (Z.of_nat (length name))]))
           by (rewrite length_app; simpl; lia).
         replace (b1 ++ _ ++ b2) with ((b1 ++ [127; to_char (Z.of_nat (length name))]) ++ name ++ b2)
           by (by rewrite <- app_assoc). by rewrite drop_app_length. }
    rewrite fmap_app. destruct (str_repr_init_str name (Some <$> b2)) as (s&Hs&Hsr).
    rewrite Hs. cbn [obind]. rewrite Hnorm in Hsr.
    destruct (set_name_rel (with_data v d) (<[j := e1]> els) j (drop 4 e) s 127 Hv1)
      as (d2&e2&Hd2&Hv2&Hl2&He2).
    { rewrite He1. apply list_lookup_insert_eq. by eapply lookup_lt_Some. }
    { rewrite length_drop. lia. }
    change (vc_vector_at (with_data v d)) with (vc_vector_at v) in Hd2.
    change (vdata (with_data v d)) with d in Hd2. rewrite Hd2. cbn [obind]. exists d2, e2. rewrite with_data_twice, list_insert_insert_eq in Hv2.
    split_and!; [done| |].
    + split_and!; [done| |simpl; lia|].
      * rewrite He2, <- app_assoc. apply get_type_cells. simpl. lia.
      * cbn [fst]. rewrite E. exists s, name. split; [|done]. rewrite He2. apply get_name_cells.
        rewrite length_app, length_take, length_drop. by rewrite Hle.
    + unfold with_data. do 2 f_equal. rewrite !length_app. simpl. lia.
  - assert (encode_tag (t, name) = [t]) as Henc.
    { unfold encode_tag. cbn [fst]. rewrite E. rewrite CUSTOM_val in E. by rewrite to_char_small by lia. }
    rewrite Henc in *.
    assert (read_char buffer (Z.of_nat (length b1)) = Done t) as -> by (rewrite Hb; apply read_char_at).
    cbn [obind]. rewrite Z.abs_eq by lia. rewrite Hd. cbn [obind]. rewrite E. exists d, e1. split_and!; [done| |].
    + split_and!; [done| |simpl; lia|].
      * rewrite He1. apply get_type_cells. simpl. lia.
      * cbn [fst]. by rewrite E.
    + unfold with_data. do 2 f_equal. rewrite !length_app. simpl. lia.
Qed.

Lemma deserialize_loop_rel buffer ts : Forall tag_ok ts →
  ∀ v els j b1 b2, vec_repr 32 v els → (j + length ts ≤ length els)%nat →
  buffer = b1 ++ concat (encode_tag <$> ts) ++ b2 →
  ∃ d els', deserialize_loop (length ts) v buffer (Z.of_nat j) (Z.of_nat (length b1))
      = Done (with_data v d)
    ∧ vec_repr 32 (with_data v d) els' ∧ length els' = length els
    ∧ take j els' = take j els ∧ Forall2 tag_rel (take (length ts) (drop j els')) ts.
Proof.
  induction 1 as [|a ts Ha _ IH]; intros v els j b1 b2 Hv Hl Hb.
  { exists (vdata v), els. split_and!; [by destruct v|by destruct v|done..|by rewrite take_0]. }
  simpl in Hl. destruct (lookup_lt_is_Some_2 els j) as [e He]; [lia|].
  rewrite fmap_cons in Hb. cbn [concat] in Hb. rewrite <- app_assoc in Hb.
  destruct (deserialize_entry (length ts) v els j e a buffer b1 _ Hv He Ha Hb) as (d&e'&Hv'&He'&Hrun).
  cbn [length]. rewrite Hrun.
  destruct (IH (with_data v d) (<[j := e']> els) (S j) (b1 ++ encode_tag a) b2 Hv')
    as (d2&els'&Hrun2&Hv2&Hl2&Ht2&Hf2); [rewrite length_insert; lia|by rewrite <- app_assoc|].
  rewrite length_insert in Hl2. exists d2, els'. rewrite with_data_twice in *.
  assert (els' !! j = Some e') as Hj.
  { rewrite <- (lookup_take_lt _ (S j)), Ht2, lookup_take_lt by lia.
    apply list_lookup_insert_eq. lia. }
  split_and!; [done|done|done| |].
  - apply (f_equal (take j)) in Ht2. rewrite !take_take, Nat.min_l in Ht2 by lia.
    rewrite Ht2. by apply take_insert_ge.
  - rewrite (drop_S _ _ _ Hj). cbn [take]. by constructor.
Qed.

(** ** Bounds *)

Lemma fitting_le i ts : (fitting i ts ≤ length ts)%nat.
Proof. revert i; induction ts as [|a ts IH]; intros i; simpl; [lia|]. case_match; [lia|]. by apply le_n_S. Qed.

Lemma length_encode_tag a : (0 < length (encode_tag a))%nat.
Proof. unfold encode_tag. case_match; simpl; lia. Qed.

Lemma fitting_bytes i ts : i < 1024 →
  i + Z.of_nat (length (concat (encode_tag <$> take (fitting i ts) ts))) < 1024.
Proof.
  revert i. induction ts as [|a ts IH]; intros i Hi; cbn [fitting]; [simpl; lia|].
  case_match eqn:E; [simpl; lia|]. cbn [take]. rewrite fmap_cons. cbn [concat]. rewrite length_app.
  specialize (IH (i + Z.of_nat (length (encode_tag a))) ltac:(lia)). lia.
Qed.

Lemma length_encode_tags ts : (length (encode_tags ts) ≤ 1023)%nat.
Proof.
  unfold encode_tags. pose proof (fitting_bytes 4 ts ltac:(lia)). rewrite length_app. simpl. lia.
Qed.

(** The tags all fit only if there are few. *)
Lemma fitting_few ts : fitting 4 ts = length ts → Z.of_nat (length ts) ≤ 65535.
Proof.
  intros H. pose proof (fitting_bytes 4 ts ltac:(lia)) as Hb. rewrite H, take_ge in Hb by lia.
  enough (length ts ≤ length (concat (encode_tag <$> ts)))%nat by lia. clear.
  induction ts as [|a ts IH]; [simpl; lia|]. rewrite fmap_cons. cbn [concat length].
  rewrite length_app. pose proof (length_encode_tag a). lia.
Qed.

(** Restoring the bytes of tags that all fitted. *)
Lemma deserialize_rel s ts ts0 : tags_repr (tags s) ts0 → Forall tag_ok ts →
  fitting 4 ts = length ts → resize_fits 32 (tags s) (length ts) →
  ∃ s', deserialize s (encode_tags ts) = Done s' ∧ tags_repr (tags s') ts ∧ m s' = m s.
Proof.
  intros (els0&Hv0&_) Hok Hfit Hroom. pose proof (fitting_few _ Hfit) as Hfew.
  unfold deserialize, encode_tags. rewrite Hfit, take_ge by lia.
  set (n := length ts) in *. unfold header. rewrite <- app_assoc.
  replace (0 <? _) with true by (rewrite !length_app; simpl; lia).
  pose proof (read_u16_chars [] (Z.of_nat n) (u16_chars (Z.of_nat n) ++ concat (encode_tag <$> ts))
    ltac:(lia)) as H1.
  pose proof (read_u16_chars (u16_chars (Z.of_nat n)) (Z.of_nat n) (concat (encode_tag <$> ts))
    ltac:(lia)) as H2.
  change (Z.of_nat (length [])) with 0 in H1. cbn [app] in H1.
  change (Z.of_nat (length (u16_chars (Z.of_nat n)))) with 2 in H2.
  cbv zeta. rewrite H1. cbn [obind]. rewrite H2. cbn [obind].
  destruct (vec_repr_resize 32 (vc_vector_clear (tags s)) n (tag_cells initTag))
    as (v&els&Hres&Hv&Hl); [by eapply vec_repr_clear|done|exact Hroom|].
  rewrite Hres. cbn [obind]. rewrite Nat2Z.id.
  destruct (deserialize_loop_rel (header n n ++ concat (encode_tag <$> ts)) ts Hok v els 0
    (header n n) []) as (d&els'&Hrun&Hv'&Hl'&_&Hf'); [done|lia|by rewrite app_nil_r|].
  unfold header in Hrun. rewrite <- app_assoc in Hrun.
  change (Z.of_nat (length _)) with 4 in Hrun. change (Z.of_nat 0) with 0 in Hrun.
  fold n in Hrun, Hf'. rewrite Hrun. cbn [obind]. eexists; split; [done|]. split; [|done].
  exists els'. split; [exact Hv'|]. rewrite drop_0, take_ge in Hf' by lia. done.
Qed.

(** ** Too little room *)

Lemma memcpy_outcome {B} (d : list (option B)) i src :
  memcpy d i src = Undefined ∨ ∃ d', memcpy d i src = Done d' ∧ length d' = length d.
Proof.
  unfold memcpy. case_match eqn:E; [right|by left]. eexists; split; [done|].
  rewrite !length_app, length_take, length_drop. lia.
Qed.

Lemma resize_loop_outcome {B} n (d : list (option B)) i src :
  resize_loop n d i src = Undefined
  ∨ ∃ d', resize_loop n d i src = Done d' ∧ length d' = length d.
Proof.
  revert d i. induction n as [|n IH]; intros d i; [right; by exists d|]. cbn [resize_loop].
  destruct (memcpy_outcome d i src) as [->|(d1&->&H1)]; [by left|]. cbn [obind].
  destruct (IH d1 (i + 1)) as [->|(d2&->&H2)]; [by left|]. right. exists d2. split; [done|lia].
Qed.

(** The number of elements plays no part while the tags are read. *)
Definition with_count {B} (v : vc_vector B) (c : Z) : vc_vector B :=
  mkVector c (element_size v) (reserved_size v) (vdata v).

Lemma deserialize_loop_count n v buffer j i c :
  deserialize_loop n (with_count v c) buffer j i =
    let? v' := deserialize_loop n v buffer j i in Done (with_count v' c).
Proof.
  revert v j i. induction n as [|n IH]; intros v j i; [done|]. cbn [deserialize_loop].
  unfold vc_vector_at. cbn [with_count element_size vdata reserved_size count].
  destruct (read_char buffer i) as [t| | |]; cbn [obind]; [|done..].
  destruct (set_type _ _) as [d| | |]; cbn [obind]; [|done..]. case_match; [|apply (IH (with_data v d))].
  destruct (read_char buffer (i + 1)) as [l| | |]; cbn [obind]; [|done..].
  destruct (init_string_str _ _) as [x| | |]; cbn [obind]; [|done..].
  destruct (set_name _ _) as [d2| | |]; cbn [obind]; [|done..]. apply (IH (with_data v d2)).
Qed.

(** The entry behind the last element is written behind the block. *)
Lemma deserialize_loop_overflow buffer ts : Forall tag_ok ts →
  ∀ v els j b1 b2, vec_repr 32 v els → length (vdata v) = (length els * 32)%nat →
  (j ≤ length els)%nat → (length els < j + length ts)%nat →
  buffer = b1 ++ concat (encode_tag <$> ts) ++ b2 →
  deserialize_loop (length ts) v buffer (Z.of_nat j) (Z.of_nat (length b1)) = Undefined.
Proof.
  induction 1 as [|a ts Ha _ IH]; intros v els j b1 b2 Hv Hroom Hj Hl Hb; simpl in Hl; [lia|].
  rewrite fmap_cons in Hb. cbn [concat] in Hb. rewrite <- app_assoc in Hb.
  destruct (decide (j < length els)%nat) as [Hlt|Hge].
  - destruct (lookup_lt_is_Some_2 els j Hlt) as [e He].
    destruct (deserialize_entry (length ts) v els j e a buffer b1 _ Hv He Ha Hb) as (d&e'&Hv'&_&Hrun).
    cbn [length]. rewrite Hrun. apply (IH _ (<[j := e']> els) _ _ b2); [done|..].
    + destruct Hv as (_&_&_&_&_&k&_&_&Hk&Hr), Hv' as (_&_&_&_&_&k'&_&_&Hk'&Hr').
      cbn [with_data reserved_size] in Hr'. rewrite Hk', length_insert. lia.
    + rewrite length_insert. lia.
    + rewrite length_insert. lia.
    + by rewrite <- app_assoc.
  - assert (∃ c l, encode_tag a = c :: l) as (c&l&Hc).
    { pose proof (length_encode_tag a). destruct (encode_tag a); [simpl in *; lia|by eexists _, _]. }
    cbn [length deserialize_loop]. rewrite Hc in Hb.
    assert (read_char buffer (Z.of_nat (length b1)) = Done c) as -> by (rewrite Hb; apply read_char_at).
    cbn [obind]. pose proof Hv as (_&He&_). unfold set_type, memcpy, vc_vector_at. cbn [fst snd].
    rewrite He, Hroom. simpl length. by replace (_ && _) with false by lia.
Qed.

Lemma deserialize_overflow s ts ts0 : tags_repr (tags s) ts0 → Forall tag_ok ts →
  fitting 4 ts = length ts → ¬ resize_fits 32 (tags s) (length ts) →
  deserialize s (encode_tags ts) = Undefined.
Proof.
  intros (els0&Hv0&_) Hok Hfit Hroom. pose proof (fitting_few _ Hfit) as Hfew.
  destruct Hv0 as (_&He&_&_&junk&k&_&Hk&Hlk&Hr). unfold resize_fits in Hroom.
  unfold deserialize, encode_tags. rewrite Hfit, take_ge by lia.
  set (n := length ts) in *. unfold header. rewrite <- app_assoc.
  replace (0 <? _) with true by (rewrite !length_app; simpl; lia).
  pose proof (read_u16_chars [] (Z.of_nat n) (u16_chars (Z.of_nat n) ++ concat (encode_tag <$> ts))
    ltac:(lia)) as H1.
  pose proof (read_u16_chars (u16_chars (Z.of_nat n)) (Z.of_nat n) (concat (encode_tag <$> ts))
    ltac:(lia)) as H2.
  change (Z.of_nat (length [])) with 0 in H1. cbn [app] in H1.
  change (Z.of_nat (length (u16_chars (Z.of_nat n)))) with 2 in H2.
  cbv zeta. rewrite H1. cbn [obind]. rewrite H2. cbn [obind].
  unfold vc_vector_resize, vc_vector_clear. cbn [count reserved_size element_size vdata].
  replace (Z.of_nat n =? 0) with false by lia. replace (Z.of_nat n <? 0) with false by lia.
  replace (reserved_size (tags s) <? Z.of_nat n) with false by lia.
  rewrite Z.sub_0_r, Nat2Z.id. cbv zeta. cbn [vdata element_size reserved_size].
  destruct (resize_loop_outcome n (vdata (tags s)) 0 (tag_cells initTag)) as [->|(d&->&Hd)]; [done|].
  cbn [obind]. destruct (split_elements 32 k d) as (els&junk1&Hdd&Hf&Hle); [lia|].
  change (mkVector (Z.of_nat n) ?es ?r d) with (with_count (mkVector (Z.of_nat k) es r d) (Z.of_nat n)).
  rewrite deserialize_loop_count.
  pose proof (deserialize_loop_overflow (header n n ++ concat (encode_tag <$> ts)) ts Hok
    (mkVector (Z.of_nat k) (element_size (tags s)) (reserved_size (tags s)) d) els 0 (header n n) [])
    as Hrun.
  unfold header in Hrun. rewrite <- app_assoc in Hrun.
  change (Z.of_nat (length (u16_chars _ ++ _))) with 4 in Hrun. change (Z.of_nat 0) with 0 in Hrun.
  fold n in Hrun. rewrite Hrun; [done| |cbn [vdata]; lia|lia|lia|by rewrite app_nil_r].
  split_and!; [lia|done|by rewrite <- Hle|done|]. exists junk1, k. cbn [vdata reserved_size].
  split_and!; [done|done|lia|done].
Qed.

(** ** Properties *)

(** [serialize] writes a header with the number of tags written and the
    number of tags on the stack, and the entries of the tags from the bottom
    of the stack as long as they fit, in at most 1023 bytes. *)
Theorem svelte_serialize_bytes s ts :
  tags_repr (tags s) ts → Z.of_nat (length ts) ≤ 65535 →
  tree_sitter_svelte_external_scanner_serialize s
    = Done (header (fitting 4 ts) (length ts) ++ concat (encode_tag <$> take (fitting 4 ts) ts))
  ∧ (length (encode_tags ts) ≤ 1023)%nat.
Proof. intros Hs Hl. split; [by apply serialize_rel|apply length_encode_tags]. Qed.

(** C15: when all tags fit, with names of at most 255 characters, saving the
    stack and restoring the bytes gives back the same stack, if the vector that
    is restored holds that many elements already, or fewer bytes than that. *)
Theorem svelte_serialize_roundtrip s ts s0 ts0 :
  tags_repr (tags s) ts → Forall tag_ok ts → fitting 4 ts = length ts →
  tags_repr (tags s0) ts0 → resize_fits 32 (tags s0) (length ts) →
  ∃ buffer s', tree_sitter_svelte_external_scanner_serialize s = Done buffer
    ∧ (length buffer ≤ SERIALIZATION_BUFFER_SIZE)%nat
    ∧ tree_sitter_svelte_external_scanner_deserialize s0 buffer = Done s'
    ∧ tags_repr (tags s') ts ∧ m s' = m s0.
Proof.
  intros Hs Hok Hfit H0 Hroom. pose proof (fitting_few _ Hfit) as Hfew.
  destruct (deserialize_rel s0 ts ts0 H0 Hok Hfit Hroom) as (s'&Hd&Hr&Hm).
  exists (encode_tags ts), s'. split_and!; [by apply serialize_rel| |done..].
  pose proof (length_encode_tags ts). unfold SERIALIZATION_BUFFER_SIZE. lia.
Qed.

(** A vector with room for fewer elements than there are tags, but for more
    bytes, is not enlarged: the tags are written behind its block. *)
Theorem svelte_restore_overflow s ts s0 ts0 :
  tags_repr (tags s) ts → Forall tag_ok ts → fitting 4 ts = length ts →
  tags_repr (tags s0) ts0 → ¬ resize_fits 32 (tags s0) (length ts) →
  ∃ buffer, tree_sitter_svelte_external_scanner_serialize s = Done buffer
    ∧ tree_sitter_svelte_external_scanner_deserialize s0 buffer = Undefined.
Proof.
  intros Hs Hok Hfit H0 Hroom. exists (encode_tags ts). split.
  - apply serialize_rel; [done|by apply fitting_few].
  - by eapply deserialize_overflow.
Qed.

(** ** Examples *)

(** Two tags, [div] and [foo], and three. *)
Definition example_foo : Tag := mkTag CUSTOM (mkString (Some (Some <$> cstr "foo" ++ [0])) 3).
Definition example_div : Tag := mkTag (TagType.to_Z TagType.DIV) NaS.
Definition example_tags : list atag :=
  [(TagType.to_Z TagType.DIV, []); (CUSTOM, cstr "foo")].
Definition svelte_example : Scanner :=
  mkScanner (mkVector 2 32 64 (tag_cells example_div ++ tag_cells example_foo)) (mkMap 0 0 []).
Definition example_deep : Scanner :=
  mkScanner (mkVector 3 32 96 (concat (replicate 3 (tag_cells example_div)))) (mkMap 0 0 []).
Definition example_fresh : Scanner := mkScanner (vc_vector_create 2 TAG_SIZE) (mkMap 0 0 []).

Lemma example_div_rel : tag_rel (tag_cells example_div) (TagType.to_Z TagType.DIV, []).
Proof. apply tag_rel_cells; [done|by vm_compute|done]. Qed.

Lemma example_foo_rel : tag_rel (tag_cells example_foo) (CUSTOM, cstr "foo").
Proof. apply tag_rel_cells; [done|by vm_compute|]. simpl. by exists (cstr "foo"). Qed.

Lemma svelte_example_repr : tags_repr (tags svelte_example) example_tags.
Proof.
  exists [tag_cells example_div; tag_cells example_foo]. split.
  - split_and!; [lia|done|done|by repeat constructor|]. exists [], 2%nat. split_and!; [done|lia|done|done].
  - constructor; [apply example_div_rel|]. constructor; [apply example_foo_rel|constructor].
Qed.

Lemma example_deep_repr :
  tags_repr (tags example_deep) (replicate 3 (TagType.to_Z TagType.DIV, [])).
Proof.
  exists (replicate 3 (tag_cells example_div)). split.
  - split_and!; [lia|done|done|by repeat constructor|]. exists [], 3%nat. split_and!; [done|lia|done|done].
  - do 3 (constructor; [apply example_div_rel|]). constructor.
Qed.

Lemma example_fresh_repr : tags_repr (tags example_fresh) [].
Proof. exists []. split; [apply (vec_repr_create 32 2); lia|constructor]. Qed.

Lemma example_tags_ok : Forall tag_ok example_tags.
Proof.
  constructor; [split; [by vm_compute|done]|].
  constructor; [split; [by vm_compute|split; [done|simpl; lia]]|constructor].
Qed.

Lemma svelte_serialize_bytes_witness :
  tree_sitter_svelte_external_scanner_serialize svelte_example
    = Done ([2; 0; 2; 0] ++ [49; 127; 3] ++ cstr "foo")
  ∧ (length (encode_tags example_tags) ≤ 1023)%nat.
Proof.
  refine (svelte_serialize_bytes svelte_example example_tags svelte_example_repr _). simpl. lia.
Defined.

Lemma svelte_serialize_roundtrip_witness :
  ∃ buffer s', tree_sitter_svelte_external_scanner_serialize svelte_example = Done buffer
    ∧ (length buffer ≤ SERIALIZATION_BUFFER_SIZE)%nat
    ∧ tree_sitter_svelte_external_scanner_deserialize example_fresh buffer = Done s'
    ∧ tags_repr (tags s') example_tags ∧ m s' = m example_fresh.
Proof.
  refine (svelte_serialize_roundtrip svelte_example example_tags example_fresh []
    svelte_example_repr example_tags_ok _ example_fresh_repr _); [by vm_compute|].
  left. by vm_compute.
Defined.

Lemma svelte_restore_overflow_witness :
  ∃ buffer, tree_sitter_svelte_external_scanner_serialize example_deep = Done buffer
    ∧ tree_sitter_svelte_external_scanner_deserialize example_fresh buffer = Undefined.
Proof.
  refine (svelte_restore_overflow example_deep (replicate 3 (TagType.to_Z TagType.DIV, []))
    example_fresh [] example_deep_repr _ _ example_fresh_repr _);
    [do 3 (constructor; [split; [by vm_compute|done]|]); constructor|by vm_compute|].
  unfold resize_fits. change (reserved_size (tags example_fresh)) with 64. simpl length. lia.
Defined.
