(* ===== verification/SvelteProofs.v ===== *)
(** * Properties of the Svelte external scanner

    Every call ends, moves forward and changes the stack of tags by at most one
    tag; the tag names, the end tags that are implied, comments and raw text. *)

From S2P Require Import Prelude CArray CArrayProofs CString Scan Logic.
From S2P Require Import VcVector VcVectorProofs SvelteTag SvelteTagProofs Svelte SvelteSerial.

Ltac wp_hook ::= first [ progress unfold advance | progress unfold set_result ].

(** ** Functions that leave the payload alone *)

Section reads.
Context {L : Type} {HL : TSLexer L} {HW : WCType} {HS : TSLexerSpec L}.
Context (I : Scanner → Prop).

#[export] Instance reads_svelte_advance : Reads I advance.
Proof. apply _. Qed.
#[export] Instance reads_svelte_set_result t : Reads I (set_result t).
Proof. apply _. Qed.
#[export] Instance reads_skip_quoted q : Reads I (skip_quoted q).
Proof. unfold skip_quoted. reads_loop. Qed.
#[export] Instance reads_svelte_comment : Reads I scan_comment.
Proof.
  unfold scan_comment.
  assert (∀ b, Reads I (iter comment_body b)) by (intros; unfold comment_body; reads_loop).
  apply _.
Qed.
End reads.

(** ** Words *)

(** The word at the head of the input, and behind it a character that is
    stored as 0, or the end of the input. *)
Definition word_nul (w l : list Z) : Prop :=
  take (length w) (to_char <$> l) = w ∧ to_char (hd 0 (drop (length w) l)) = 0.

#[export] Instance word_nul_dec w l : Decision (word_nul w l).
Proof. unfold word_nul. apply _. Defined.

(** No [then] or [as] is followed by that. *)
Definition no_overrun (l : list Z) : Prop :=
  Forall (λ k, ¬ word_nul (cstr "then") (drop k l) ∧ ¬ word_nul (cstr "as") (drop k l))
    (seq 0 (length l)).

Lemma no_overrun_drop l k : no_overrun l →
  ¬ word_nul (cstr "then") (drop k l) ∧ ¬ word_nul (cstr "as") (drop k l).
Proof.
  intros H. destruct (decide (k < length l)%nat) as [Hk|Hk].
  - unfold no_overrun in H. rewrite Forall_forall in H. apply H, elem_of_seq. lia.
  - rewrite drop_ge by lia. by split; intros [? _].
Qed.

Lemma advanced_rest v v' : advanced v v' → ∃ k, v_rest v' = drop k (v_rest v).
Proof.
  intros (Ht&Hp&_). exists (v_pos v' - v_pos v)%nat.
  assert (∀ u, v_rest u = drop (v_pos u) (text u)) as H.
  { intros u. unfold text, v_pos. rewrite <- (length_rev (v_past u)). by rewrite drop_app_length. }
  rewrite (H v'), (H v), Ht, drop_drop. f_equal. lia.
Qed.

Lemma str_repr_read s chars i : str_repr s chars → (i ≤ length chars)%nat →
  read (default [] (buf s)) (Z.of_nat i) = Done (nth i chars 0).
Proof.
  intros [-> _] Hi. unfold read. replace (0 <=? _) with true by lia. rewrite Nat2Z.id. cbn [default id].
  destruct (decide (i = length chars)) as [->|Hne].
  - replace (length chars) with (length (Some <$> chars)) at 1 by apply length_fmap.
    rewrite list_lookup_middle by done. by rewrite nth_overflow by lia.
  - destruct (lookup_lt_is_Some_2 chars i) as [c Hc]; [lia|].
    rewrite lookup_app_l, list_lookup_fmap, Hc by (rewrite length_fmap; lia). simpl.
    by rewrite (nth_lookup_Some _ _ 0 c Hc).
Qed.

Section words.
Context {L : Type} {HL : TSLexer L} {HW : WCType} {HS : TSLexerSpec L}.

Lemma wp_scan_word word w n v y s (Q : post (S := Scanner) bool) :
  (rem v < n)%nat → str_repr word w → no_nul w → ¬ word_nul w (v_rest v) →
  (∀ r v', advanced v v' → Q r v' y s) → wp (scan_word word) n v y s Q.
Proof.
  intros Hn Hw Hnn Hno HQ. unfold scan_word. wp_step.
  apply (wp_iter (λ i v' y' s', y' = y ∧ s' = s ∧ ∃ k, i = Z.of_nat k ∧ v' = adv_n false k v
           ∧ (k ≤ length w)%nat ∧ take k (to_char <$> v_rest v) = take k w)
         (λ _ v', rem v')); [| |done].
  2: { split_and!; [done..|]. exists 0%nat. split_and!; [done..|lia|done]. }
  intros i v' y' s' (->&->&k&->&->&Hk&Hpre). do 3 wp_step.
  eapply wp_lift; [by apply (str_repr_read _ w)|].
  assert (look (adv_n false k v) = nth k (v_rest v) 0) as Hlook by apply look_adv_n.
  wps; [|apply HQ; auto with scan].
  destruct (decide (k = length w)) as [->|Hne].
  { exfalso. apply Hno. split.
    - rewrite Hpre. by apply take_ge.
    - rewrite nth_overflow in E by lia. unfold look in E. rewrite rest_adv_n in E. lia. }
  assert (nth k w 0 ≠ 0) as Hnz.
  { destruct (lookup_lt_is_Some_2 w k) as [c Hc]; [lia|]. rewrite (nth_lookup_Some _ _ 0 c Hc).
    by apply (Forall_lookup_1 _ _ _ _ Hnn Hc). }
  assert (0 < rem (adv_n false k v))%nat as Hr.
  { apply (look_char_eqb_pos _ (nth k w 0)); [done|lia]. }
  split; [|rewrite rem_adv; lia]. split_and!; [done..|]. exists (S k).
  split_and!; [lia|done|lia|].
  assert (k < length (v_rest v))%nat as Hlt.
  { unfold rem in Hr. rewrite rest_adv_n, length_drop in Hr. lia. }
  rewrite !take_snoc by (rewrite ?length_fmap; lia). rewrite Hpre. do 2 f_equal.
  rewrite !hd_drop_nth. rewrite Hlook in E.
  destruct (lookup_lt_is_Some_2 (v_rest v) k Hlt) as [c Hc].
  rewrite (nth_lookup_Some _ _ 0 c Hc) in E.
  erewrite (nth_lookup_Some (to_char <$> v_rest v) k 0 (to_char c)) by (by rewrite list_lookup_fmap, Hc).
  lia.
Qed.
End words.

(** ** Tag names *)

(** The string that the scanner makes of the characters of a name. *)
Definition name_chars (l : list Z) : list Z := fold_left (λ s c, norm s ++ [to_char c]) l [].

Lemma length_name_chars l : length (name_chars l) = length l.
Proof.
  unfold name_chars. assert (∀ s, length (fold_left (λ s c, norm s ++ [to_char c]) l s)
    = (length s + length l)%nat) as H; [|by rewrite H].
  induction l as [|c l IH]; intros s; simpl; [lia|]. rewrite IH, length_app, length_norm. simpl. lia.
Qed.

Lemma name_chars_snoc l c : name_chars (l ++ [c]) = norm (name_chars l) ++ [to_char c].
Proof. unfold name_chars. by rewrite fold_left_app. Qed.

Lemma name_chars_no_nul l : no_nul (to_char <$> l) → name_chars l = to_char <$> l.
Proof.
  induction l as [|c l IH] using rev_ind; [done|]. rewrite fmap_app. intros [H1 H2]%Forall_app.
  by rewrite name_chars_snoc, IH, norm_no_nul.
Qed.

(** The null string, or a copy of the characters. *)
Definition name_repr (s : ekstring) (chars : list Z) : Prop :=
  if decide (chars = []) then s = NaS else str_repr s chars.

Lemma name_repr_concat s chars c : name_repr s chars →
  ∃ s', concat_string_char s c = Done s' ∧ name_repr s' (norm chars ++ [c]).
Proof.
  unfold name_repr. destruct (decide (chars = [])) as [->|Hne]; intros Hs.
  - subst s. destruct (str_repr_concat_nas c) as (s'&?&?). by exists s'.
  - destruct (str_repr_concat s chars c Hs) as (s'&?&?). exists s'. split; [done|].
    rewrite decide_False; [done|]. by destruct (norm chars).
Qed.

Lemma name_repr_length s chars : name_repr s chars → slength s = Z.of_nat (length chars).
Proof. unfold name_repr. case_decide; [intros ->; by subst|by intros [_ ?]]. Qed.

#[export] Instance stops_tag_name `{!WCType} : StopsAtEof is_tag_name_char.
Proof. unfold StopsAtEof, is_tag_name_char. by rewrite iswalnum_nul. Qed.

(** The characters of the name at the head of the input. *)
Definition name_at `{!WCType} (rest : list Z) : list Z :=
  name_chars (take (span is_tag_name_char rest) rest).

Section names.
Context {L : Type} {HL : TSLexer L} {HW : WCType} {HS : TSLexerSpec L}.

Lemma wp_scan_tag_name n v y s (Q : post (S := Scanner) ekstring) :
  (rem v < n)%nat →
  (∀ name, name_repr name (name_at (v_rest v)) →
     Q name (adv_span is_tag_name_char false v) y s) →
  wp scan_tag_name n v y s Q.
Proof.
  intros Hn HQ. unfold scan_tag_name. set (rest := v_rest v) in *.
  apply (wp_iter (λ name v' y' s', y' = y ∧ s' = s ∧ ∃ k, v' = adv_n false k v
           ∧ (k ≤ span is_tag_name_char rest)%nat ∧ name_repr name (name_chars (take k rest)))
         (λ _ v', rem v')); [| |done].
  2: { split_and!; [done..|]. exists 0%nat. split_and!; [done|lia|done]. }
  intros name v' y' s' (->&->&k&->&Hk&Hname). do 2 wp_step. wp_step.
  - assert (k < length rest)%nat as Hlt.
    { look_facts. unfold rem in *. rewrite rest_adv_n, length_drop in *. fold rest in H. lia. }
    destruct (name_repr_concat _ _ (to_char (look (adv_n false k v))) Hname) as (name'&Hrun&Hname').
    wp_step. eapply wp_lift; [exact Hrun|]. wps. rewrite rem_adv. split; [|look_facts; lia].
    split_and!; [done..|]. exists (S k). split_and!; [done| |].
    + pose proof (span_S is_tag_name_char rest k Hk Hlt) as Hsp.
      unfold look in E. rewrite rest_adv_n in E. fold rest in E. by rewrite E in Hsp.
    + rewrite take_snoc, name_chars_snoc by done. unfold look in Hname'.
      by rewrite rest_adv_n in Hname'.
  - wps. assert (span is_tag_name_char rest = k) as Hspan.
    { destruct (decide (k < length rest)%nat) as [Hlt|Hge].
      - pose proof (span_S is_tag_name_char rest k Hk Hlt) as Hsp.
        unfold look in E. rewrite rest_adv_n in E. fold rest in E. by rewrite E in Hsp.
      - pose proof (span_length is_tag_name_char rest). lia. }
    unfold adv_span, name_at in HQ. fold rest in HQ. rewrite Hspan in HQ. by apply HQ.
Qed.
End names.

(** ** The stack of tags *)

(** The vector holds the tags, and the table is the one of the names. *)
Definition scanner_repr (s : Scanner) (ts : list atag) : Prop :=
  tags_repr (tags s) ts ∧ name_table (m s).

Lemma tags_repr_count v ts : tags_repr v ts → count v = Z.of_nat (length ts).
Proof. intros (els&(_&_&->&_)&Hf). by rewrite (Forall2_length _ _ _ Hf). Qed.

Lemma tags_repr_push v ts e a : tags_repr v ts → tag_rel e a →
  ∃ v', vc_vector_push_back v e = Done v' ∧ tags_repr v' (ts ++ [a]).
Proof.
  intros (els&Hv&Hf) He. destruct (vec_repr_push 32 v els e Hv) as (v'&?&?); [by apply He|].
  exists v'. split; [done|]. exists (els ++ [e]). split; [done|]. apply Forall2_app; [done|by constructor].
Qed.

Lemma tags_repr_back v ts a : tags_repr v (ts ++ [a]) →
  ∃ e, points (vdata v, vc_vector_back v) e ∧ tag_rel e a.
Proof.
  intros (els&Hv&Hf). apply Forall2_app_inv_r in Hf as (els1&els2&Hf1&Hf2&->).
  apply Forall2_cons_inv_r in Hf2 as (e&l&He&Hn&->). apply Forall2_nil_inv_r in Hn as ->.
  exists e. split; [by apply (points_back v els1)|done].
Qed.

Lemma scanner_repr_pop s ts a : scanner_repr s (ts ++ [a]) →
  Z.of_nat (length ts) < 18446744073709551615 →
  scanner_repr (set_tags s (vc_vector_pop_back (tags s))) ts.
Proof.
  intros ((els&Hv&Hf)&Hm) Hl.
  apply Forall2_app_inv_r in Hf as (els1&els2&Hf1&Hf2&->).
  apply Forall2_cons_inv_r in Hf2 as (e&l&He&Hn&->). apply Forall2_nil_inv_r in Hn as ->.
  split; [|done]. exists els1. split; [|done].
  apply (vec_repr_pop 32 _ els1 e Hv). rewrite (Forall2_length _ _ _ Hf1). lia.
Qed.

(** ** Implied end tags *)

(** The tag whose name is at the head of the input, if a name is. *)
Definition tag_at `{!WCType} (rest : list Z) : option atag :=
  if decide (name_at rest = []) then None else Some (tag_named (name_at rest)).

(** Whether a tag that comes next closes the last open one: an end tag when it
    is that of an outer element, a start tag when the last element cannot
    contain it. *)
Definition implied_end (ts : list atag) (is_closing_tag : bool) (next : atag) : bool :=
  match last ts with
  | None => false
  | Some parent =>
      if is_closing_tag then negb (bool_decide (parent = next)) && bool_decide (next ∈ ts)
      else negb (can_contain_type (fst parent) (fst next))
  end.

Definition implied_at `{!WCType} (ts : list atag) (is_closing_tag : bool) (rest : list Z) : bool :=
  match tag_at rest with
  | Some next => implied_end ts is_closing_tag next
  | None => false
  end.

(** The last open element has no contents. *)
Definition void_open (ts : list atag) : bool :=
  match last ts with
  | Some parent => fst parent <? END_OF_VOID_TAGS
  | None => false
  end.

Definition implicit_end `{!WCType} (ts : list atag) (rest : list Z) : bool :=
  if hd 0 rest =? "/" then implied_at ts true (tail rest)
  else void_open ts || implied_at ts false rest.

Section tags.
Context {L : Type} {HL : TSLexer L} {HW : WCType} {HS : TSLexerSpec L}.
Context (ts : list atag) (Hfew : Z.of_nat (length ts) < 18446744073709551615).

Lemma wp_pop_tag t n v y s (Q : post (S := Scanner) bool) :
  scanner_repr s ts → ts ≠ [] →
  (∀ s', scanner_repr s' (removelast ts) → Q true v (TokenType_to_Z t) s') →
  wp (pop_tag t) n v y s Q.
Proof.
  intros Hs Hne HQ. unfold pop_tag. wps. apply HQ.
  destruct (exists_last Hne) as (l&a&Hts). rewrite Hts, removelast_last. rewrite Hts in Hs.
  apply (scanner_repr_pop s l a Hs). rewrite Hts, length_app in Hfew. simpl in Hfew. lia.
Qed.

Lemma scanner_repr_count s : scanner_repr s ts → (count (tags s) =? 0) = bool_decide (ts = []).
Proof.
  intros [Ht _]. rewrite (tags_repr_count _ _ Ht). destruct ts; [done|].
  rewrite bool_decide_false by done. simpl. lia.
Qed.

Lemma last_back s parent : scanner_repr s ts → last ts = Some parent →
  ∃ e, points (vdata (tags s), vc_vector_back (tags s)) e ∧ tag_rel e parent.
Proof.
  intros [Ht _] Hl. apply last_Some in Hl as (l&Hts). rewrite Hts in Ht. by apply (tags_repr_back _ l).
Qed.

Lemma wp_implicit_end_tag_of closing next f b n v y s (Q : post (S := Scanner) bool) :
  scanner_repr s ts → points next f → tag_rel f b →
  (∀ s', let r := implied_end ts closing b in
     scanner_repr s' (if r then removelast ts else ts) →
     Q r v (if r then TokenType_to_Z IMPLICIT_END_TAG else y) s') →
  wp (implicit_end_tag_of closing next) n v y s Q.
Proof.
  intros Hs Hp Hf HQ. unfold implicit_end_tag_of. do 2 wp_step. cbv zeta.
  rewrite (scanner_repr_count s Hs). unfold implied_end in HQ.
  destruct (last ts) as [parent|] eqn:Hlast.
  - assert (ts ≠ []) as Hne by (intros ->; done).
    rewrite bool_decide_false by done.
    destruct (last_back s parent Hs Hlast) as (e&He&Hrel). destruct closing.
    + wp_step. eapply wp_lift; [by eapply compareTags_rel|]. case_bool_decide; cbn [negb andb] in HQ.
      * wps. by apply HQ.
      * wp_step. eapply wp_lift; [by eapply findTag_rel; [apply Hs|..]|].
        case_bool_decide; [apply wp_pop_tag; [done..|exact HQ]|wps; by apply HQ].
    + do 2 wp_step. eapply wp_lift; [by eapply can_contain_rel|].
      destruct (can_contain_type _ _); cbn [negb] in *; wps.
      * by apply HQ.
      * by apply wp_pop_tag.
  - assert (ts = []) as -> by (destruct (last_None ts) as [H _]; by apply H).
    rewrite bool_decide_true by done. destruct closing; wps.
    + eapply wp_lift; [by eapply findTag_rel; [apply Hs|..]|].
      rewrite bool_decide_false by apply not_elem_of_nil. wps. by apply HQ.
    + by apply HQ.
Qed.

Lemma wp_for_name table name chars n v y s (Q : post (S := Scanner) Tag) :
  name_table table → str_repr name chars → Z.of_nat (length chars) < 4294967296 →
  (∀ t, type t = fst (tag_named chars) → tag_rel (tag_cells t) (tag_named chars) → Q t v y s) →
  wp (lift (for_name table name)) n v y s Q.
Proof.
  intros Hm Hn Hl HQ. destruct (for_name_rel table name chars Hm Hn Hl) as (t&Hrun&Ht&Hrel).
  eapply wp_lift; [exact Hrun|]. by apply HQ.
Qed.

(** A name, and what is done with the tag it stands for. *)
Lemma wp_named {A} (none : A) (some : Scanner → Tag → M L Scanner A) n v y s (Q : post A) :
  (rem v < n)%nat → Z.of_nat (rem v) < 4294967296 → name_table (m s) →
  match tag_at (v_rest v) with
  | None => Q none (adv_span is_tag_name_char false v) y s
  | Some a => ∀ t, type t = fst a → tag_rel (tag_cells t) a →
      wp (some s t) n (adv_span is_tag_name_char false v) y s Q
  end →
  wp (tag_name <- scan_tag_name;;
      if slength tag_name =? 0 then ret none
      else scanner <- get_payload;; tag <- lift (for_name (m scanner) tag_name);; some scanner tag) n v y s Q.
Proof.
  intros Hn Hr Hm HQ. wp_step. apply wp_scan_tag_name; [done|]. intros name Hname.
  rewrite (name_repr_length _ _ Hname). unfold tag_at in HQ.
  assert (length (name_at (v_rest v)) ≤ rem v)%nat as Hl.
  { unfold name_at. rewrite length_name_chars, length_take. unfold rem. lia. }
  unfold name_repr in Hname. destruct (decide (name_at (v_rest v) = [])) as [->|Hne].
  - simpl. wps. done.
  - replace (_ =? 0) with false by (destruct (name_at (v_rest v)); [done|simpl; lia]).
    wps. eapply wp_for_name; [done..|lia|]. done.
Qed.

Lemma wp_implicit_end_tag_name closing n v y s (Q : post (S := Scanner) bool) :
  (rem v < n)%nat → Z.of_nat (rem v) < 4294967296 → scanner_repr s ts →
  (∀ k s', let r := implied_at ts closing (v_rest v) in let v' := adv_n false k v in
     scanner_repr s' (if r then removelast ts else ts) →
     Q r v' (if r then TokenType_to_Z IMPLICIT_END_TAG else y) s') →
  wp (implicit_end_tag_name closing) n v y s Q.
Proof.
  intros Hn Hr Hs HQ. unfold implicit_end_tag_name.
  apply (wp_named false (λ _ t, implicit_end_tag_of closing (tag_cells t, 0))); [done|done|apply Hs|].
  unfold implied_at in HQ. destruct (tag_at (v_rest v)) as [a|]; [|by apply HQ].
  intros t _ Ht. eapply wp_implicit_end_tag_of; [done|apply points_block|done|].
  intros s' r Hs'. by apply HQ.
Qed.

Lemma wp_scan_implicit_end_tag n v y s (Q : post (S := Scanner) bool) :
  (rem v < n)%nat → Z.of_nat (rem v) < 4294967296 → scanner_repr s ts →
  (∀ k s', let r := implicit_end ts (v_rest v) in let v' := adv_n false k v in
     scanner_repr s' (if r then removelast ts else ts) →
     Q r v' (if r then TokenType_to_Z IMPLICIT_END_TAG else y) s') →
  wp scan_implicit_end_tag n v y s Q.
Proof.
  intros Hn Hr Hs HQ. unfold scan_implicit_end_tag. unfold implicit_end in HQ.
  do 2 wp_step. wp_step. wp_step. fold (look v) in HQ.
  destruct (look v =? "/") eqn:E.
  - wps. pose proof (rem_adv_le false v).
    apply wp_implicit_end_tag_name; [lia|lia|done|]. rewrite rest_adv.
    intros k s' r v' Hs'. specialize (HQ (S k) s'). cbv zeta in HQ. rewrite adv_n_S in HQ. by apply HQ.
  - wp_step. rewrite (scanner_repr_count s Hs). unfold void_open in HQ.
    destruct (last ts) as [parent|] eqn:Hlast.
    + assert (ts ≠ []) as Hne by (intros ->; done). rewrite bool_decide_false by done.
      destruct (last_back s parent Hs Hlast) as (e&He&Hrel).
      eapply wp_lift; [by eapply is_void_rel|]. destruct (fst parent <? END_OF_VOID_TAGS).
      * apply wp_pop_tag; [done..|]. intros s' Hs'. by apply (HQ 0%nat).
      * by apply wp_implicit_end_tag_name.
    + assert (ts = []) as Hts by (destruct (last_None ts) as [H _]; by apply H).
      rewrite bool_decide_true by done. wp_step. by apply wp_implicit_end_tag_name.
Qed.

(** ** Start tags, end tags *)

Definition start_symbol (a : atag) : TokenType :=
  if fst a =? TagType.to_Z TagType.SCRIPT then SCRIPT_START_TAG_NAME
  else if fst a =? TagType.to_Z TagType.STYLE then STYLE_START_TAG_NAME
  else START_TAG_NAME.

Lemma wp_scan_start_tag_name n v y s (Q : post (S := Scanner) bool) :
  (rem v < n)%nat → Z.of_nat (rem v) < 4294967296 → scanner_repr s ts →
  let v' := adv_span is_tag_name_char false v in
  match tag_at (v_rest v) with
  | None => Q false v' y s
  | Some a => ∀ s', scanner_repr s' (ts ++ [a]) → Q true v' (TokenType_to_Z (start_symbol a)) s'
  end →
  wp scan_start_tag_name n v y s Q.
Proof.
  intros Hn Hr Hs v' HQ. unfold scan_start_tag_name.
  apply (wp_named false (λ scanner tag,
    v <- lift (vc_vector_push_back (tags scanner) (tag_cells tag));;
    set_payload (set_tags scanner v);;
    set_result (if type tag =? TagType.to_Z TagType.SCRIPT then SCRIPT_START_TAG_NAME
                else if type tag =? TagType.to_Z TagType.STYLE then STYLE_START_TAG_NAME
                else START_TAG_NAME);;
    ret true)); [done|done|apply Hs|].
  destruct (tag_at (v_rest v)) as [a|]; [|done]. intros t Ht Hrel.
  destruct Hs as [Htags Hm]. destruct (tags_repr_push _ _ _ _ Htags Hrel) as (vec&Hrun&Hvec).
  wp_step. eapply wp_lift; [exact Hrun|]. do 2 wp_step. rewrite Ht. fold (start_symbol a).
  wps. apply HQ. done.
Qed.

Lemma wp_scan_end_tag_name n v y s (Q : post (S := Scanner) bool) :
  (rem v < n)%nat → Z.of_nat (rem v) < 4294967296 → scanner_repr s ts →
  let v' := adv_span is_tag_name_char false v in
  match tag_at (v_rest v) with
  | None => Q false v' y s
  | Some a => ∀ s', let closes := bool_decide (last ts = Some a) in
      scanner_repr s' (if closes then removelast ts else ts) →
      Q true v' (TokenType_to_Z (if closes then END_TAG_NAME else ERRONEOUS_END_TAG_NAME)) s'
  end →
  wp scan_end_tag_name n v y s Q.
Proof.
  intros Hn Hr Hs v' HQ. unfold scan_end_tag_name.
  apply (wp_named false (λ scanner tag,
    let v := tags scanner in
    same <- (if 0 <? count v
             then lift (compareTags (Some (vdata v, vc_vector_back v)) (Some (tag_cells tag, 0)))
             else ret false);;
    if same : bool then pop_tag END_TAG_NAME
    else set_result ERRONEOUS_END_TAG_NAME;; ret true)); [done|done|apply Hs|].
  destruct (tag_at (v_rest v)) as [a|]; [|done]. intros t _ Hrel. cbv zeta. wp_step.
  rewrite (tags_repr_count _ _ (proj1 Hs)). destruct (last ts) as [parent|] eqn:Hlast.
  - assert (ts ≠ []) as Hne by (intros ->; done).
    replace (0 <? _) with true by (destruct ts; [done|simpl; lia]).
    destruct (last_back s parent Hs Hlast) as (e&He&Hpr).
    eapply wp_lift; [eapply compareTags_rel; [exact He|apply points_block|done|done]|].
    rewrite (bool_decide_ext _ (Some parent = Some a)) by (split; congruence).
    case_bool_decide.
    + by apply wp_pop_tag.
    + wps. by apply HQ.
  - assert (ts = []) as -> by (destruct (last_None ts) as [H _]; by apply H).
    change (0 <? Z.of_nat (length [])) with false. cbv iota. wps. by apply HQ.
Qed.
End tags.
