(* ===== verification/SvelteText.v ===== *)
(** * Comments, raw text and expressions of the Svelte scanner *)

From S2P Require Import Prelude CArray CArrayProofs CString Scan Logic.
From S2P Require Import VcVector VcVectorProofs SvelteTag SvelteTagProofs Svelte SvelteSerial SvelteProofs.

Ltac wp_hook ::= first [ progress unfold advance | progress unfold set_result ].

(** ** Comments *)

Definition is_dash_gt (c : Z) : bool := (c =? "-") || (c =? ">").

(** The dashes in the run of dashes and [>] that ends a text, latest first. *)
Definition trailing_dashes (past : list Z) : nat :=
  length (filter (λ c, c = ("-" : Z)) (take (span is_dash_gt past) past)).

(** A comment ends behind a [>] with two dashes in such a run before it. *)
Definition closes_comment (body : list Z) : bool := (2 <=? trailing_dashes (rev body))%nat.

Lemma trailing_dashes_cons c past :
  trailing_dashes (c :: past) =
    if c =? "-" then S (trailing_dashes past)
    else if c =? ">" then trailing_dashes past else 0%nat.
Proof.
  unfold trailing_dashes. cbn [span]. unfold is_dash_gt at 1. destruct (c =? "-") eqn:E1; cbn [orb].
  - cbn [take]. assert (c = ("-" : Z)) as -> by lia. by rewrite filter_cons_True.
  - destruct (c =? ">") eqn:E2; [|done]. cbn [take]. rewrite filter_cons_False; [done|].
    apply Z.eqb_neq. done.
Qed.

Lemma trailing_dashes_le past : (trailing_dashes past ≤ length past)%nat.
Proof.
  unfold trailing_dashes. etrans; [apply length_filter|]. rewrite length_take. lia.
Qed.

Section text.
Context {L : Type} {HL : TSLexer L} {HW : WCType} {HS : TSLexerSpec L}.

(** The number of characters to the end of the comment, behind [past]. *)
Fixpoint comment_end (past rest : list Z) : option nat :=
  match rest with
  | [] => None
  | c :: rest =>
      if c =? 0 then None
      else if (c =? ">") && (2 <=? trailing_dashes past)%nat then Some 1%nat
      else S <$> comment_end (c :: past) rest
  end.

Lemma wp_comment_loop n v y s (Q : post (S := Scanner) bool) :
  (rem v < n)%nat → Z.of_nat (rem v) < 4294967296 →
  match comment_end [] (v_rest v) with
  | Some k => Q true (mark (adv_n false k v)) (TokenType_to_Z COMMENT) s
  | None => ∀ v', advanced v v' → Q false v' y s
  end →
  wp (iter comment_body 0) n v y s Q.
Proof.
  intros Hn Hbig HQ.
  apply (wp_iter (λ d v' y' s', y' = y ∧ s' = s ∧ ∃ k, v' = adv_n false k v ∧ (k ≤ rem v)%nat
      ∧ d = Z.of_nat (trailing_dashes (rev (take k (v_rest v))))
      ∧ comment_end [] (v_rest v)
        = Nat.add k <$> comment_end (rev (take k (v_rest v))) (drop k (v_rest v)))
    (λ _ v', rem v')); [| |done].
  2: { split_and!; [done..|]. exists 0%nat. split_and!; [done|lia|done|].
       rewrite take_0, drop_0. cbn [rev]. by destruct (comment_end [] _). }
  intros d v' y' s' (->&->&k&->&Hk&->&Heq). unfold comment_body. do 2 wp_step.
  set (past := rev (take k (v_rest v))) in *.
  assert (length past = k) as Hpl by (unfold past; rewrite length_rev, length_take; unfold rem in *; lia).
  assert (look (adv_n false k v) = hd 0 (drop k (v_rest v))) as Hlook by (unfold look; by rewrite rest_adv_n).
  destruct (drop k (v_rest v)) as [|c r] eqn:Hd.
  { simpl in Hlook. rewrite Hlook. rewrite Z.eqb_refl. cbv iota. wps. cbn [comment_end] in Heq. simpl in Heq. rewrite Heq in HQ.
    apply HQ. auto with scan. }
  simpl in Hlook. rewrite Hlook. cbn [comment_end] in Heq.
  assert (k < length (v_rest v))%nat as Hlt.
  { apply (f_equal length) in Hd. rewrite length_drop in Hd. simpl in Hd. lia. }
  replace (2 <=? Z.of_nat (trailing_dashes past)) with (2 <=? trailing_dashes past)%nat by lia.
  destruct (c =? 0) eqn:E0; [wps; rewrite Heq in HQ; apply HQ; auto with scan|].
  destruct ((c =? ">") && _) eqn:Ec.
  - wps. simpl in Heq. rewrite Nat.add_comm in Heq. simpl in Heq. by rewrite Heq in HQ.
  - wps. rewrite rem_adv. assert (0 < rem (adv_n false k v))%nat.
    { unfold rem. rewrite rest_adv_n, Hd. simpl. lia. }
    split; [|lia]. split_and!; [done..|]. exists (S k).
    assert (rev (take (S k) (v_rest v)) = c :: past) as Hpast.
    { rewrite take_snoc, Hd, rev_app_distr by done. done. }
    rewrite Hpast. split_and!; [done|unfold rem; lia| |].
    + rewrite trailing_dashes_cons. pose proof (trailing_dashes_le past).
      destruct (c =? "-") eqn:E1; [|by destruct (c =? ">")].
      rewrite to_u32_small by (unfold rem in *; lia). lia.
    + assert (drop (S k) (v_rest v) = r) as -> by (by rewrite <- Nat.add_1_r, <- drop_drop, Hd).
      rewrite Heq. by destruct (comment_end _ r); simpl; [apply (f_equal Some); lia|].
Qed.

(** Behind [<!--]: the first place where the comment is closed. *)
Lemma comment_end_spec past rest k : comment_end past rest = Some k →
  ∃ body more, rest = body ++ (">" : Z) :: more ∧ k = S (length body) ∧ Forall (λ c, c ≠ 0) body
    ∧ (2 ≤ trailing_dashes (rev body ++ past))%nat
    ∧ ∀ b m, body = b ++ (">" : Z) :: m → (trailing_dashes (rev b ++ past) < 2)%nat.
Proof.
  revert past k. induction rest as [|c rest IH]; intros past k; cbn [comment_end]; [done|].
  destruct (c =? 0) eqn:E0; [done|]. destruct ((c =? ">") && _) eqn:Ec.
  - intros [= <-]. apply andb_true_iff in Ec as [Ec Hd]. exists [], rest.
    split_and!; [simpl; f_equal; lia|done|constructor|simpl; lia|]. by intros [|] m.
  - intros (j&Hj&->)%fmap_Some. destruct (IH _ _ Hj) as (body&more&->&->&Hnz&Hd&Hfirst).
    exists (c :: body), more. split_and!; [done|done|constructor; [lia|done]| |].
    + cbn [rev]. by rewrite <- app_assoc.
    + intros [|b0 b] m [= -> Hb].
      * cbn [rev app]. apply andb_false_iff in Ec as [Ec|Ec]; [done|lia].
      * cbn [rev]. rewrite <- app_assoc. by apply (Hfirst b m).
Qed.

Lemma comment_end_complete past body more : Forall (λ c, c ≠ 0) body →
  (2 ≤ trailing_dashes (rev body ++ past))%nat →
  (∀ b m, body = b ++ (">" : Z) :: m → (trailing_dashes (rev b ++ past) < 2)%nat) →
  comment_end past (body ++ (">" : Z) :: more) = Some (S (length body)).
Proof.
  intros Hnz. revert past. induction Hnz as [|c body Hc Hnz IH]; intros past Hd Hfirst.
  - cbn [app comment_end rev]. cbn [rev app] in Hd. by replace (_ && _) with true by (symmetry; apply andb_true_iff; split; [done|lia]).
  - cbn [app comment_end]. replace (c =? 0) with false by lia.
    assert (((c =? ">") && (2 <=? trailing_dashes past)%nat) = false) as ->.
    { destruct (c =? ">") eqn:E; [|done]. assert (c = (">" : Z)) as -> by lia.
      specialize (Hfirst [] body eq_refl). simpl in Hfirst. lia. }
    rewrite IH; [done|..].
    + cbn [rev] in Hd. by rewrite <- app_assoc in Hd.
    + intros b m ->. specialize (Hfirst (c :: b) m eq_refl). cbn [rev] in Hfirst.
      by rewrite <- app_assoc in Hfirst.
Qed.

(** The text of a comment behind [<!--], without its last character. *)
Definition comment_body_text (body : list Z) : Prop :=
  Forall (λ c, c ≠ 0) body ∧ closes_comment body = true
  ∧ ∀ b m, body = b ++ (">" : Z) :: m → closes_comment b = false.

Lemma comment_end_iff rest k :
  comment_end [] rest = Some k ↔
  ∃ body more, rest = body ++ (">" : Z) :: more ∧ k = S (length body) ∧ comment_body_text body.
Proof.
  unfold comment_body_text, closes_comment. split.
  - intros (body&more&->&->&Hnz&Hd&Hf)%comment_end_spec. rewrite app_nil_r in Hd.
    exists body, more. split_and!; [done..|lia|]. intros b m Hb. specialize (Hf b m Hb).
    rewrite app_nil_r in Hf. lia.
  - intros (body&more&->&->&Hnz&Hd&Hf). apply comment_end_complete; [done|rewrite app_nil_r; lia|].
    intros b m Hb. specialize (Hf b m Hb). rewrite app_nil_r. lia.
Qed.
End text.

(** ** Raw text *)

(** The end of the element that is open. *)
Definition end_delimiter_of (t : Z) : list Z :=
  if t =? TagType.to_Z TagType.SCRIPT then cstr "</script" else cstr "</style".

(** The [i] characters at the head of the text are stored as the first of the
    delimiter. *)
Definition matches (d l : list Z) (i : nat) : Prop := take i (to_char <$> l) = take i d.

(** Where raw text may end: in front of the delimiter, or of a part of it
    that the end of the input, or a NUL, cuts off. *)
Definition raw_text_end (d rest : list Z) (k : nat) : Prop :=
  ∃ i, (i ≤ length d)%nat ∧ matches d (drop k rest) i
    ∧ (i = length d ∨ hd 0 (drop (k + i) rest) = 0).

(** A text without [<] and NUL in front of the delimiter. *)
Definition clean_until (d rest : list Z) (b : nat) : Prop :=
  Forall (λ c, to_char c ≠ "<" ∧ c ≠ 0) (take b rest)
  ∧ matches d (drop b rest) (length d) ∧ (b + length d ≤ length rest)%nat.

Lemma tail_drop {A} n (l : list A) : tail (drop n l) = drop (S n) l.
Proof. revert l. induction n as [|n IH]; intros [|x l]; try done. apply IH. Qed.

Section raw_text.
Context {L : Type} {HL : TSLexer L} {HW : WCType} {HS : TSLexerSpec L}.

Lemma matches_S d l i : (i < length l)%nat → (i < length d)%nat →
  matches d l i → to_char (nth i l 0) = nth i d 0 → matches d l (S i).
Proof.
  unfold matches. intros Hl Hd Hm Hc. rewrite !take_snoc, Hm, !hd_drop_nth by (rewrite ?length_fmap; done).
  do 2 f_equal. destruct (lookup_lt_is_Some_2 l i Hl) as [c Hi].
  rewrite (nth_lookup_Some _ _ 0 c Hi) in Hc. rewrite <- Hc. apply nth_lookup_Some.
  by rewrite list_lookup_fmap, Hi.
Qed.

Lemma matches_nth d l i n : matches d l n → (i < n)%nat → (i < length l)%nat →
  to_char (nth i l 0) = nth i d 0.
Proof.
  unfold matches. intros Hm Hi Hl. destruct (lookup_lt_is_Some_2 l i Hl) as [c Hc].
  rewrite (nth_lookup_Some _ _ 0 c Hc). symmetry. apply nth_lookup_Some.
  rewrite <- (lookup_take_lt _ n), <- Hm, lookup_take_lt, list_lookup_fmap, Hc by done. done.
Qed.

Context (d : list Z) (Hd0 : nth 0 d 0 = "<") (Hdl : (0 < length d)%nat).

Lemma clean_matches_first rest b k i : clean_until d rest b → (k < b)%nat →
  matches d (drop k rest) i → i = 0%nat.
Proof.
  intros (Hf&_&Hl) Hk Hm. destruct i as [|i]; [done|]. exfalso.
  pose proof (matches_nth d (drop k rest) 0 (S i) Hm ltac:(lia)) as Hc.
  rewrite length_drop, nth_skipn, Nat.add_0_r, Hd0 in Hc. specialize (Hc ltac:(lia)).
  destruct (lookup_lt_is_Some_2 rest k) as [c Hrk]; [lia|].
  rewrite (nth_lookup_Some _ _ 0 c Hrk) in Hc.
  apply (Forall_lookup_1 _ _ k c) in Hf as [? _]; [done|]. by rewrite lookup_take_lt.
Qed.

(** A clean text is raw text as far as it goes. *)
Lemma raw_text_end_clean rest b k : clean_until d rest b → (k ≤ b)%nat →
  raw_text_end d rest k → k = b.
Proof.
  intros Hb Hk (i&Hi&Hm&Hend). destruct (decide (k = b)) as [|Hne]; [done|]. exfalso.
  assert (i = 0%nat) as -> by (eapply clean_matches_first; [done| |done]; lia).
  destruct Hend as [?|Hend]; [lia|]. destruct Hb as (Hf&_&Hl). rewrite Nat.add_0_r, hd_drop_nth in Hend.
  destruct (lookup_lt_is_Some_2 rest k) as [c Hc]; [lia|]. rewrite (nth_lookup_Some _ _ 0 c Hc) in Hend.
  apply (Forall_lookup_1 _ _ k c) in Hf as [_ ?]; [done|]. rewrite lookup_take_lt; [done|lia].
Qed.

(** Reading that leaves the start of the token as it is. *)
Definition steady (v v' : view) : Prop := advanced v v' ∧ v_start v' = v_start v.

Lemma steady_refl v : steady v v.
Proof. done. Qed.
Lemma steady_adv v v' : steady v v' → steady v (adv false v').
Proof. intros [? Hs]. split; [by apply adv_r|]. rewrite <- Hs. by destruct v' as [p [|c r] b e]. Qed.
Lemma steady_mark v v' : steady v v' → steady v (mark v').
Proof. intros [? Hs]. split; [by apply mark_r|done]. Qed.

(** The state of the loop: [k] characters of text, and [i] of the delimiter. *)
Definition raw_inv (v v' : view) (k i : nat) : Prop :=
  v_rest v' = drop (k + i) (v_rest v) ∧ v_pos v' = (v_pos v + k + i)%nat
  ∧ v_end v' = Some (v_pos v + k)%nat ∧ steady v v' ∧ (i < length d)%nat
  ∧ matches d (drop k (v_rest v)) i
  ∧ ∀ b, clean_until d (v_rest v) b → (k ≤ b)%nat.

Lemma raw_inv_look v v' k i : raw_inv v v' k i → look v' = nth i (drop k (v_rest v)) 0.
Proof. intros (Hr&_). unfold look. by rewrite Hr, hd_drop_nth, nth_skipn. Qed.

Lemma raw_inv_hit v v' k i : raw_inv v v' k i → (0 < rem v')%nat →
  to_char (look v') = nth i d 0 → matches d (drop k (v_rest v)) (S i).
Proof.
  intros Hinv Hrem Hc. rewrite (raw_inv_look _ _ _ _ Hinv) in Hc.
  destruct Hinv as (Hr&_&_&_&Hi&Hm&_). apply matches_S; [|done..].
  unfold rem in Hrem. rewrite Hr, length_drop in Hrem. rewrite length_drop. lia.
Qed.

Lemma raw_inv_miss v v' k i : raw_inv v v' k i → (0 < rem v')%nat →
  to_char (look v') ≠ nth i d 0 → raw_inv v (mark (adv false v')) (k + i + 1) 0.
Proof.
  intros Hinv Hrem Hc. rewrite (raw_inv_look _ _ _ _ Hinv) in Hc.
  destruct Hinv as (Hr&Hp&He&Ha&Hi&Hm&Hb). split_and!.
  - rewrite rest_mark, rest_adv, Hr, tail_drop. f_equal. lia.
  - change (v_pos (mark ?u)) with (v_pos u). rewrite v_pos_adv by done. lia.
  - rewrite v_end_mark, v_pos_adv by done. f_equal. lia.
  - apply steady_mark, steady_adv, Ha.
  - done.
  - done.
  - intros b Hclean. specialize (Hb b Hclean). destruct (decide (k = b)) as [->|Hne].
    + exfalso. apply Hc. destruct Hclean as (_&Hm'&Hl). eapply matches_nth; [done|done|].
      rewrite length_drop. lia.
    + destruct (decide (i = 0%nat)) as [->|Hi0]; [lia|]. exfalso. apply Hi0.
      eapply clean_matches_first; [done| |done]. lia.
Qed.

Lemma raw_inv_next v v' k i : raw_inv v v' k i → (0 < rem v')%nat →
  to_char (look v') = nth i d 0 → (S i < length d)%nat → raw_inv v (adv false v') k (S i).
Proof.
  intros Hinv Hrem Hc Hl. pose proof (raw_inv_hit _ _ _ _ Hinv Hrem Hc) as Hm.
  destruct Hinv as (Hr&Hp&He&Ha&Hi&_&Hb). split_and!; [| | |apply steady_adv, Ha|done|done|done].
  - rewrite rest_adv, Hr, tail_drop. f_equal. lia.
  - rewrite v_pos_adv by done. lia.
  - by rewrite v_end_adv.
Qed.

Lemma wp_raw_text_loop delim n v v' k i y s (Q : post (S := Scanner) unit) :
  str_repr delim d → raw_inv v v' k i → (rem v' < n)%nat →
  (∀ v' k, steady v v' → v_end v' = Some (v_pos v + k)%nat → raw_text_end d (v_rest v) k →
     (∀ b, clean_until d (v_rest v) b → k = b) → Q tt v' y s) →
  wp (iter (raw_text_body delim) (Z.of_nat i)) n v' y s Q.
Proof.
  intros Hdel Hinv Hn HQ.
  apply (wp_iter (λ j w y' s', y' = y ∧ s' = s ∧ ∃ k i, j = Z.of_nat i ∧ raw_inv v w k i)
    (λ _ w, rem w)); [|split_and!; [done..|by exists k, i]|done].
  clear dependent v' k i. intros j w y' s' (->&->&k&i&->&Hinv). unfold raw_text_body.
  assert (∀ w' i', steady v w' → v_end w' = Some (v_pos v + k)%nat → (i' ≤ length d)%nat →
    matches d (drop k (v_rest v)) i' → (i' = length d ∨ hd 0 (drop (k + i') (v_rest v)) = 0) →
    Q tt w' y s) as Hend.
  { intros w' i' Ha He Hi Hm Hor. assert (raw_text_end d (v_rest v) k) as Hr by (by exists i').
    apply (HQ w' k Ha He Hr). intros b Hb. eapply raw_text_end_clean; [done| |done]. by apply Hinv. }
  pose proof Hinv as (Hr&_&He&Ha&Hi&Hm&_). do 2 wp_step. wp_step.
  { wps. apply (Hend w i); [done|done|lia|done|]. right. unfold look in E. rewrite Hr in E. lia. }
  look_facts. do 1 wp_step. eapply wp_lift; [apply (str_repr_read _ d); [done|lia]|]. wps.
  - apply (Hend w (S i)); [done|done|lia|apply (raw_inv_hit v w k i); [done|done|lia]|left].
    destruct Hdel as [_ Hsl]. lia.
  - rewrite rem_adv. split; [|lia]. split_and!; [done..|]. exists k, (S i). split; [lia|].
    apply raw_inv_next; [done|done|lia|]. destruct Hdel as [_ Hsl]. lia.
  - rewrite rem_mark, rem_adv. split; [|lia]. split_and!; [done..|]. exists (k + i + 1)%nat, 0%nat.
    split; [done|]. apply raw_inv_miss; [done|done|lia].
Qed.
End raw_text.

(** ** Expressions *)

(** Text in which the brackets [o] and [c] are balanced. *)
Inductive nested (o c : Z) : list Z → Prop :=
  | nested_nil : nested o c []
  | nested_char x l : to_char x ≠ 0 → to_char x ≠ o → to_char x ≠ c → nested o c l → nested o c (x :: l)
  | nested_group x l1 y l2 : to_char x = o → nested o c l1 → to_char y = c → nested o c l2 →
      nested o c ((x :: l1 ++ [y]) ++ l2).

(** Text without the quote [q], unless behind a backslash. *)
Inductive quoted (q : Z) : list Z → Prop :=
  | quoted_nil : quoted q []
  | quoted_char x l : to_char x ≠ 0 → to_char x ≠ q → to_char x ≠ BACKSLASH → quoted q l → quoted q (x :: l)
  | quoted_escape x y l : to_char x = BACKSLASH → quoted q l → quoted q ([x; y] ++ l).

Definition is_quote (c : Z) : bool := (c =? DQUOTE) || (c =? "'") || (c =? "`").

(** The text of an expression, up to the brace that ends its block. *)
Inductive expression : list Z → Prop :=
  | expression_nil : expression []
  | expression_char x l : to_char x ≠ 0 → to_char x ≠ "{" → to_char x ≠ "}" → to_char x ≠ "[" →
      is_quote (to_char x) = false → expression l → expression (x :: l)
  | expression_braces x l1 y l2 : to_char x = "{" → nested "{" "}" l1 → to_char y = "}" →
      expression l2 → expression ((x :: l1 ++ [y]) ++ l2)
  | expression_brackets x l1 y l2 : to_char x = "[" → nested "[" "]" l1 → to_char y = "]" →
      expression l2 → expression ((x :: l1 ++ [y]) ++ l2)
  | expression_string x l1 y l2 : is_quote (to_char x) = true → quoted (to_char x) l1 →
      to_char y = to_char x → expression l2 → expression ((x :: l1 ++ [y]) ++ l2).

Section expressions.
Context {L : Type} {HL : TSLexer L} {HW : WCType} {HS : TSLexerSpec L}.

Definition balanced_body (open closed stack : Z) : M L Scanner (Z + bool) :=
  l <- lookahead;;
  let c := to_char l in
  if c =? 0 then ret (inr false)
  else if c =? open then stack <- lift (i32_incr stack);; advance;; ret (inl stack)
  else if c =? closed then
    stack <- lift (i32_decr stack);;
    if stack =? 0 then ret (inr true) else advance;; ret (inl stack)
  else advance;; ret (inl stack).

Definition quoted_body (quote : Z) (_ : unit) : M L Scanner (unit + unit) :=
  l <- lookahead;;
  let c := to_char l in
  if c =? 0 then ret (inr tt)
  else
    when (c =? BACKSLASH) advance;;
    if c =? quote then ret (inr tt)
    else advance;; ret (inl tt).

Lemma wp_iter_unfold {A B} (body : B → M L Scanner (B + A)) b n v y s (Q : post A) :
  wp (iter_fuel n body b) n v y s Q → wp (iter body b) n v y s Q.
Proof. done. Qed.

Lemma adv_n_1 v : adv false v = adv_n false 1 v.
Proof. done. Qed.

Lemma look_cons v x l : v_rest v = x :: l → look v = x.
Proof. unfold look. by intros ->. Qed.

Lemma rest_adv_cons v x l : v_rest v = x :: l → v_rest (adv false v) = l.
Proof. rewrite rest_adv. by intros ->. Qed.

Lemma rem_adv_cons v x l k : v_rest v = x :: l → (rem v < S k)%nat → (rem (adv false v) < k)%nat.
Proof. rewrite rem_adv. unfold rem. intros ->. simpl. lia. Qed.

Lemma rest_adv_n_app v l more : v_rest v = l ++ more → v_rest (adv_n false (length l) v) = more.
Proof. intros Hr. by rewrite rest_adv_n, Hr, drop_app_length. Qed.

Lemma rem_pos v x l : v_rest v = x :: l → (0 < rem v)%nat.
Proof. unfold rem. intros ->. simpl. lia. Qed.

(** Balanced text leaves the counter as it is. *)
Lemma wp_nested o c l : nested o c l → o ≠ c → o ≠ 0 → c ≠ 0 →
  ∀ k stack n v y s more (Q : post (S := Scanner) bool),
  0 < stack → stack + Z.of_nat (rem v) < 2147483648 → v_rest v = l ++ more → (rem v < k)%nat →
  (∀ k', (rem (adv_n false (length l) v) < k')%nat →
     wp (iter_fuel k' (balanced_body o c) stack) n (adv_n false (length l) v) y s Q) →
  wp (iter_fuel k (balanced_body o c) stack) n v y s Q.
Proof.
  intros Hl Hoc Ho0 Hc0. induction Hl as [|x l H0 Ho Hc _ IH|x l1 z l2 Hx _ IH1 Hz _ IH2];
    intros k stack n v y s more Q Hst Hbig Hr Hk HQ; [by apply HQ|..];
    (destruct k as [|k]; [lia|]); cbn [iter_fuel]; wp_step; unfold balanced_body at 1; do 2 wp_step.
  - rewrite (look_cons _ _ _ Hr).
    replace (to_char x =? 0) with false by lia. replace (to_char x =? o) with false by lia.
    replace (to_char x =? c) with false by lia. cbv iota. wps.
    apply (IH k stack n _ y s more); [done|rewrite rem_adv; lia|by eapply rest_adv_cons|by eapply rem_adv_cons|].
    intros k' Hk'. rewrite <- adv_n_S in *. by apply HQ.
  - rewrite <- app_assoc in Hr. cbn [app] in Hr. rewrite <- app_assoc in Hr. cbn [app] in Hr.
    rewrite (look_cons _ _ _ Hr), Hx.
    replace (o =? 0) with false by lia. rewrite Z.eqb_refl. cbv iota. wps.
    pose proof (rem_pos _ _ _ Hr) as Hpos. eapply wp_lift; [apply i32_incr_small; lia|]. wps.
    apply (IH1 k (stack + 1) n _ y s (z :: l2 ++ more)); [lia|rewrite rem_adv; lia|by eapply rest_adv_cons|by eapply rem_adv_cons|].
    intros k1 Hk1. set (v1 := adv_n false (length l1) (adv false v)) in *.
    assert (v_rest v1 = z :: l2 ++ more) as Hr1 by (apply rest_adv_n_app; by eapply rest_adv_cons).
    destruct k1 as [|k1]; [lia|]. cbn [iter_fuel]. wp_step. unfold balanced_body at 1. do 2 wp_step.
    rewrite (look_cons _ _ _ Hr1), Hz. replace (c =? 0) with false by lia.
    replace (c =? o) with false by lia. rewrite Z.eqb_refl.
    assert (rem v1 ≤ rem v)%nat as Hr1v by (apply advanced_rem; etrans; [apply advanced_adv|apply advanced_adv_n]).
    pose proof (rem_pos _ _ _ Hr1).
    cbv iota. wp_step. eapply wp_lift; [apply i32_decr_small; lia|]. rewrite Z.add_simpl_r.
    replace (stack =? 0) with false by lia. wps.
    apply (IH2 k1 stack n _ y s more); [done|rewrite rem_adv; lia|by eapply rest_adv_cons|by eapply rem_adv_cons|].
    intros k2 Hk2. replace (adv_n false (length l2) (adv false v1))
      with (adv_n false (length ((x :: l1 ++ [z]) ++ l2)) v) in *; [by apply HQ|].
    unfold v1. rewrite !adv_n_1, !adv_n_add. f_equal. rewrite !length_app. simpl.
    rewrite !length_app. simpl. lia.
Qed.

Lemma wp_balanced_total o c n v y s (Q : post (S := Scanner) bool) :
  (rem v < n)%nat → Z.of_nat (rem v) < 2147483648 → (∀ r v', advanced v v' → Q r v' y s) →
  wp (scan_for_balanced_character o c) n v y s Q.
Proof.
  intros Hn Hbig HQ. unfold scan_for_balanced_character.
  apply (wp_iter (λ stack v' y' s', y' = y ∧ s' = s ∧ advanced v v'
      ∧ Z.abs stack + Z.of_nat (rem v') < 2147483648) (λ _ v', rem v')); [|done|done].
  intros stack v' y' s' (->&->&Ha&Hst). do 2 wp_step. wp_step; [wps; by apply HQ|]. look_facts.
  assert (∀ stack', Z.abs stack' ≤ Z.abs stack + 1 →
    (y = y ∧ s = s ∧ advanced v (adv false v') ∧ Z.abs stack' + Z.of_nat (rem (adv false v')) < 2147483648)
    ∧ (rem (adv false v') < rem v')%nat) as Hnext.
  { intros stack' ?. rewrite rem_adv. split_and!; auto with scan; lia. }
  wp_step; [|wp_step].
  - wp_step. eapply wp_lift; [apply i32_incr_small; lia|]. wps. apply Hnext. lia.
  - wp_step. eapply wp_lift; [apply i32_decr_small; lia|]. wps; [by apply HQ|]. apply Hnext. lia.
  - wps. apply Hnext. lia.
Qed.

(** From the opening bracket to the closing one. *)
Lemma wp_balanced o c x l z more n v y s (Q : post (S := Scanner) bool) :
  nested o c l → o ≠ c → o ≠ 0 → c ≠ 0 → to_char x = o → to_char z = c →
  v_rest v = x :: l ++ z :: more → Z.of_nat (rem v) < 2147483648 → (rem v < n)%nat →
  Q true (adv_n false (S (length l)) v) y s →
  wp (scan_for_balanced_character o c) n v y s Q.
Proof.
  intros Hl Hoc Ho0 Hc0 Hx Hz Hr Hbig Hn HQ.
  change (scan_for_balanced_character o c) with (iter (L := L) (balanced_body o c) 0).
  apply wp_iter_unfold.
  assert (∀ k, (rem v < k)%nat → wp (iter_fuel k (balanced_body o c) 0) n v y s Q) as H; [|by apply H].
  clear Hn. intros n' Hn. destruct n' as [|k]; [lia|].
  cbn [iter_fuel]. wp_step. unfold balanced_body at 1. do 2 wp_step.
  rewrite (look_cons _ _ _ Hr), Hx. replace (o =? 0) with false by lia. rewrite Z.eqb_refl. cbv iota. wps.
  pose proof (rem_pos _ _ _ Hr). eapply wp_lift; [by apply i32_incr_small|]. wps.
  apply (wp_nested o c l Hl Hoc Ho0 Hc0 k 1 _ _ y s (z :: more));
    [lia|rewrite rem_adv; lia|by eapply rest_adv_cons|by eapply rem_adv_cons|].
  intros k1 Hk1. destruct k1 as [|k1]; [lia|]. cbn [iter_fuel]. wp_step.
  unfold balanced_body at 1. do 2 wp_step.
  rewrite (look_cons _ z more) by (apply rest_adv_n_app; by eapply rest_adv_cons).
  rewrite Hz. replace (c =? 0) with false by lia. replace (c =? o) with false by lia.
  rewrite Z.eqb_refl. cbv iota. wp_step. eapply wp_lift; [by apply i32_decr_small|].
  change (1 - 1 =? 0) with true. cbv iota. wps. by rewrite <- adv_n_S.
Qed.

(** A string, from behind its opening quote to its closing one. *)
Lemma wp_quoted q l z more : quoted q l → q ≠ 0 → q ≠ BACKSLASH → to_char z = q →
  ∀ n v y s (Q : post (S := Scanner) unit),
  v_rest v = l ++ z :: more → (rem v < n)%nat →
  Q tt (adv_n false (length l) v) y s → wp (skip_quoted q) n v y s Q.
Proof.
  intros Hl Hq Hqb Hz n v y s Q Hr Hn HQ.
  change (skip_quoted q) with (iter (L := L) (quoted_body q) tt). apply wp_iter_unfold.
  assert (∀ k, (rem v < k)%nat → wp (iter_fuel k (quoted_body q) tt) n v y s Q) as H; [|by apply H].
  clear Hn. revert v Hr HQ. induction Hl as [|x l H0 Hxq Hb _ IH|x x2 l Hb _ IH]; intros v Hr HQ k Hk;
    (destruct k as [|k]; [lia|]); cbn [iter_fuel]; wp_step; unfold quoted_body at 1; do 2 wp_step;
    cbn [app] in Hr; rewrite (look_cons _ _ _ Hr).
  - rewrite Hz, Z.eqb_refl. replace (q =? 0) with false by lia. replace (q =? BACKSLASH) with false by lia.
    unfold when. cbv iota. wps. done.
  - replace (to_char x =? 0) with false by lia. replace (to_char x =? BACKSLASH) with false by lia.
    replace (to_char x =? q) with false by lia. unfold when. cbv iota. wps.
    apply IH; [by eapply rest_adv_cons|by rewrite <- adv_n_S|by eapply rem_adv_cons].
  - rewrite Hb. change (BACKSLASH =? 0) with false. rewrite Z.eqb_refl.
    replace (BACKSLASH =? q) with false by lia. unfold when. cbv iota. wps.
    pose proof (rest_adv_cons _ _ _ Hr) as Hr1.
    apply IH; [by eapply rest_adv_cons|by rewrite <- !adv_n_S|].
    pose proof (rem_adv_cons _ _ _ _ Hr Hk). rewrite rem_adv. lia.
Qed.

Definition expr_body := raw_text_expr_body (L := L) RAW_TEXT_EXPR.

Lemma wp_expr_end v z more k n y s (Q : post (S := Scanner) bool) : (0 < k)%nat →
  v_rest v = z :: more → to_char z = "}" → Q true (mark v) (TokenType_to_Z RAW_TEXT_EXPR) s →
  ∀ b, wp (iter_fuel k (expr_body) b) n v y s Q.
Proof.
  intros Hk Hr Hz HQ b. destruct k as [|k]; [lia|]. cbn [iter_fuel]. wp_step.
  unfold expr_body, raw_text_expr_body. do 2 wp_step. rewrite (look_cons _ _ _ Hr), Hz.
  cbn [Z.eqb Pos.eqb]. wps. done.
Qed.

Lemma group_app x l1 x2 l2 (more rest : list Z) : rest = ((x :: l1 ++ [x2]) ++ l2) ++ more →
  rest = x :: l1 ++ x2 :: l2 ++ more.
Proof. intros ->. rewrite <- app_assoc. cbn [app]. by rewrite <- app_assoc. Qed.

(** Behind a group in brackets or quotes. *)
Lemma group_next x l1 x2 l2 more v n k y s (Q : post (S := Scanner) bool) b :
  v_rest v = x :: l1 ++ x2 :: l2 ++ more → (rem v < S k)%nat → (rem v < n)%nat →
  Z.of_nat (rem v) < 2147483648 →
  Q true (mark (adv_n false (length ((x :: l1 ++ [x2]) ++ l2)) v)) (TokenType_to_Z RAW_TEXT_EXPR) s →
  (∀ v', v_rest v' = l2 ++ more → (rem v' < k)%nat → (rem v' < n)%nat → Z.of_nat (rem v') < 2147483648 →
     Q true (mark (adv_n false (length l2) v')) (TokenType_to_Z RAW_TEXT_EXPR) s →
     wp (iter_fuel k expr_body b) n v' y s Q) →
  wp (iter_fuel k expr_body b) n (adv_n false (1 + S (length l1)) v) y s Q.
Proof.
  intros Hr Hk Hn Hbig HQ Hnext.
  assert (rem (adv_n false (1 + S (length l1)) v) < rem v)%nat as Hlt.
  { pose proof (rem_pos _ _ _ Hr). unfold rem in *. rewrite rest_adv_n, length_drop. lia. }
  apply Hnext; [|lia|lia|lia|].
  - rewrite rest_adv_n, Hr. cbn [drop Nat.add]. rewrite drop_app_ge by lia.
    by replace (_ - _)%nat with 1%nat by lia.
  - rewrite adv_n_add. replace (length l2 + (1 + S (length l1)))%nat
      with (length ((x :: l1 ++ [x2]) ++ l2)); [done|].
    rewrite length_app. cbn [length]. rewrite length_app. cbn [length]. lia.
Qed.

(** The loop reaches the brace behind an expression. *)
Lemma wp_expression l z more n y s (Q : post (S := Scanner) bool) : expression l → to_char z = "}" →
  ∀ k b v, v_rest v = l ++ z :: more → (rem v < k)%nat → (rem v < n)%nat → Z.of_nat (rem v) < 2147483648 →
  Q true (mark (adv_n false (length l) v)) (TokenType_to_Z RAW_TEXT_EXPR) s →
  wp (iter_fuel k expr_body b) n v y s Q.
Proof.
  intros Hl Hz. induction Hl as [|x l H0 Ho Hc Hb Hq _ IH|x l1 x2 l2 Hx Hn Hx2 _ IH
      |x l1 x2 l2 Hx Hn Hx2 _ IH|x l1 x2 l2 Hx Hn Hx2 _ IH]; intros k b v Hr Hk Hkn Hbig HQ.
  { eapply wp_expr_end; [lia|done..]. }
  all: destruct k as [|k]; [lia|]; cbn [iter_fuel]; wp_step; unfold expr_body at 1, raw_text_expr_body;
    do 2 wp_step.
  - cbn [app] in Hr. rewrite (look_cons _ _ _ Hr). unfold is_quote in Hq. rewrite Hq.
    replace (to_char x =? 0) with false by lia. replace (to_char x =? "{") with false by lia.
    replace (to_char x =? "}") with false by lia. replace (to_char x =? "[") with false by lia.
    change (bool_decide (RAW_TEXT_EXPR = RAW_TEXT_AWAIT)) with false.
    change (bool_decide (RAW_TEXT_EXPR = RAW_TEXT_EACH)) with false.
    rewrite orb_false_r, andb_false_r. cbv iota.
    assert (∀ b', wp (iter_fuel k expr_body b') n (adv false v) y s Q) as Hnext.
    { intros b'. apply IH; [by eapply rest_adv_cons|by eapply rem_adv_cons|rewrite rem_adv; lia|rewrite rem_adv; lia|].
      by rewrite <- adv_n_S. }
    destruct (_ || _); wps; apply Hnext.
  - apply group_app in Hr. rewrite (look_cons _ _ _ Hr), Hx. cbn [Z.eqb Pos.eqb]. wp_step.
    eapply (wp_balanced "{" "}" x l1 x2); [done..|exact Hr|done|done|]. wps.
    rewrite adv_n_1, adv_n_add. apply (group_next x l1 x2 l2 (z :: more) v n k y s); [done..|].
    intros. by apply IH.
  - apply group_app in Hr. rewrite (look_cons _ _ _ Hr), Hx. cbn [Z.eqb Pos.eqb]. wp_step.
    eapply (wp_balanced "[" "]" x l1 x2); [done..|exact Hr|done|done|]. wps.
    rewrite adv_n_1, adv_n_add. apply (group_next x l1 x2 l2 (z :: more) v n k y s); [done..|].
    intros. by apply IH.
  - apply group_app in Hr. rewrite (look_cons _ _ _ Hr). pose proof Hx as Hx'.
    assert (to_char x ≠ 0 ∧ to_char x ≠ BACKSLASH ∧ to_char x ≠ "{" ∧ to_char x ≠ "}" ∧ to_char x ≠ "["
      ∧ to_char x ≠ LF ∧ to_char x ≠ TAB ∧ to_char x ≠ " ") as (?&?&?&?&?&?&?&?)
      by (unfold is_quote in Hx; lia).
    replace (to_char x =? 0) with false by lia. replace (to_char x =? "{") with false by lia.
    replace (to_char x =? "}") with false by lia. replace (to_char x =? "[") with false by lia.
    replace (_ || _ || (to_char x =? " ")) with false by lia. unfold is_quote in Hx'. rewrite Hx'.
    cbv iota. wp_step. wps. pose proof (rest_adv_cons _ _ _ Hr) as Hr1.
    eapply (wp_quoted (to_char x) l1 x2); [done..|exact Hr1|rewrite rem_adv; lia|]. wps.
    rewrite !adv_n_1, !adv_n_add.
    replace (1 + length l1 + 1)%nat with (1 + S (length l1))%nat by lia.
    apply (group_next x l1 x2 l2 (z :: more) v n k y s); [done..|].
    intros. by apply IH.
Qed.
End expressions.
