(* ===== verification/SvelteScan.v ===== *)
(** * Properties of a call of the Svelte scanner *)

From S2P Require Import Prelude CArray CArrayProofs CString Scan Logic.
From S2P Require Import VcVector VcVectorProofs SvelteTag SvelteTagProofs.
From S2P Require Import Svelte SvelteSerial SvelteProofs SvelteText.

Ltac wp_hook ::= first [ progress unfold advance | progress unfold set_result ].

Section scanner.
Context {L : Type} {HL : TSLexer L} {HW : WCType} {HS : TSLexerSpec L}.

Lemma init_literal (str : String.string) : no_nul (cstr str) →
  ∃ s, init_string_str (Some (literal str)) (Z.of_nat (length (cstr str))) = Done s
    ∧ str_repr s (cstr str).
Proof.
  intros Hn. unfold literal. destruct (str_repr_init_str (cstr str) [Some 0]) as (s&?&Hs).
  rewrite norm_no_nul in Hs by done. by exists s.
Qed.

Lemma no_nul_by_eval l : forallb (λ c, negb (c =? 0)) l = true → no_nul l.
Proof. intros H. apply Forall_forall. intros c Hc. rewrite forallb_forall in H.
  apply list_elem_of_In in Hc. specialize (H c Hc). lia. Qed.

(** ** Expressions *)

Lemma wp_space_before_word extra n v y s (Q : post (S := Scanner) (option bool)) :
  (rem v < n)%nat → no_overrun (v_rest (adv false v)) →
  (∀ r v', advanced (adv false (mark v)) v' → Q r v' y s) →
  wp (space_before_word extra) n v y s Q.
Proof.
  intros Hn Hno HQ. pose proof (no_overrun_drop _ 0 Hno) as [H1 H2].
  rewrite drop_0, <- v_rest_adv_mark in H1, H2.
  destruct (init_literal "then") as (w1&Hw1&Hr1); [by apply no_nul_by_eval|].
  destruct (init_literal "as") as (w2&Hw2&Hr2); [by apply no_nul_by_eval|].
  change (Z.of_nat (length (cstr "then"))) with 4 in Hw1.
  change (Z.of_nat (length (cstr "as"))) with 2 in Hw2.
  assert (∀ w str, str_repr w str → no_nul str → ¬ word_nul str (v_rest (adv false (mark v))) →
    wp (b <- scan_word w;; ret (Some b)) n (adv false (mark v)) y s Q) as Hword.
  { intros w str ???. wp_step. apply (wp_scan_word w str); [rewrite rem_adv, rem_mark; lia|done..|].
    intros r v' Ha. wps. by apply HQ. }
  unfold space_before_word. wps.
  - eapply wp_lift; [exact Hw1|]. eapply Hword; [exact Hr1|by apply no_nul_by_eval|exact H1].
  - eapply wp_lift; [exact Hw2|]. eapply Hword; [exact Hr2|by apply no_nul_by_eval|exact H2].
  - by apply HQ.
Qed.

Lemma no_overrun_suffix l k : no_overrun l → no_overrun (drop k l).
Proof.
  intros H. apply Forall_forall. intros j _. rewrite drop_drop. by apply no_overrun_drop.
Qed.

Lemma wp_scan_raw_text_expr extra n v y s (Q : post (S := Scanner) bool) :
  (rem v < n)%nat → Z.of_nat (rem v) < 2147483648 →
  (extra = RAW_TEXT_EXPR ∨ no_overrun (v_rest v)) →
  (∀ r v' y', advanced v v' → Q r v' y' s) → wp (scan_raw_text_expr extra) n v y s Q.
Proof.
  intros Hn Hbig Hno HQ. unfold scan_raw_text_expr.
  apply (wp_iter (λ _ v' y' s', advanced v v' ∧ s' = s) (λ _ v', rem v')); [|done|done].
  intros b v1 y1 s1 [Ha ->]. pose proof (advanced_rem _ _ Ha). unfold raw_text_expr_body.
  do 2 wp_step. wp_step; [wps; by apply HQ|]. look_facts.
  assert (∀ v' y' b', advanced v1 v' →
    wp (advance;; ret (inl b')) n v' y' s (λ (r : bool + bool) v' y' s',
      match r with
      | inl _ => (advanced v v' ∧ s' = s) ∧ (rem v' < rem v1)%nat
      | inr a => Q a v' y' s'
      end)) as Hnext.
  { intros v' y' b' Ha'. wps. pose proof (advanced_rem _ _ Ha'). rewrite rem_adv.
    split; [|lia]. split; [|done]. apply adv_r. by etrans. }
  wp_step; [wp_step; apply wp_balanced_total; [lia..|]; intros r v' ?; by apply Hnext|].
  wp_step; [wps; apply HQ; auto with scan|].
  wp_step; [wp_step; apply wp_balanced_total; [lia..|]; intros r v' ?; by apply Hnext|].
  wp_step.
  - wp_step; [|by apply Hnext]. wp_step. apply wp_space_before_word; [lia| |].
    + destruct Hno as [->|Hno]; [by rewrite andb_false_r in *|].
      destruct (advanced_rest v (adv false v1)) as [k ->]; [auto with scan|].
      by apply no_overrun_suffix.
    + intros r v' Ha'. assert (advanced v1 v') by (etrans; [|exact Ha']; auto with scan).
      destruct r as [[|]|]; [|by apply Hnext..]. wps. apply HQ. by etrans.
  - wp_step; [|by apply Hnext]. do 4 wp_step. keep. apply Hnext.
    etrans; [|done]. auto with scan.
Qed.

(** ** Raw text, self-closing tags *)

(** The number of open elements is below 2^64 - 1. *)
Definition few (ts : list atag) : Prop := Z.of_nat (length ts) < 18446744073709551615.

Lemma wp_scan_raw_text ts n v y s (Q : post (S := Scanner) bool) :
  (rem v < n)%nat → few ts → scanner_repr s ts →
  match last ts with
  | None => Q false v y s
  | Some a => ∀ v' k, steady v v' → v_end v' = Some (v_pos v + k)%nat →
      raw_text_end (end_delimiter_of (fst a)) (v_rest v) k →
      (∀ b, clean_until (end_delimiter_of (fst a)) (v_rest v) b → k = b) →
      Q true v' (TokenType_to_Z RAW_TEXT) s
  end →
  wp scan_raw_text n v y s Q.
Proof.
  intros Hn Hfew Hs HQ. unfold scan_raw_text. do 2 wp_step. cbv zeta.
  rewrite (scanner_repr_count ts Hfew s Hs). destruct (last ts) as [a|] eqn:Hlast.
  2: { assert (ts = []) as -> by (destruct (last_None ts) as [H _]; by apply H).
       rewrite bool_decide_true by done. by wps. }
  rewrite bool_decide_false by (intros ->; done).
  destruct (last_back ts s a Hs Hlast) as (e&He&Hrel). do 3 wp_step.
  eapply wp_lift; [by eapply get_type_rel|].
  destruct (init_literal "</script") as (d1&Hd1&Hr1); [by apply no_nul_by_eval|].
  destruct (init_literal "</style") as (d2&Hd2&Hr2); [by apply no_nul_by_eval|].
  change (Z.of_nat (length (cstr "</script"))) with 8 in Hd1.
  change (Z.of_nat (length (cstr "</style"))) with 7 in Hd2.
  assert (∀ delim, str_repr delim (end_delimiter_of (fst a)) →
    wp (iter (raw_text_body delim) 0;; set_result RAW_TEXT;; ret true) n (mark v) y s Q) as Hloop.
  { intros delim Hdel. wp_step. change 0 with (Z.of_nat 0) at 1.
    apply (wp_raw_text_loop (end_delimiter_of (fst a))
      ltac:(unfold end_delimiter_of; by case_match)
      ltac:(unfold end_delimiter_of; case_match; simpl; lia) delim n v (mark v) 0 0); [done| |done|].
    - split_and!; [done| |by rewrite v_end_mark; f_equal; lia|apply steady_mark, steady_refl| |done|lia].
      + change (v_pos (mark v)) with (v_pos v). lia.
      + unfold end_delimiter_of; case_match; simpl; lia.
    - intros v' k Ha He' Hend Hclean. wps. by apply (HQ v' k). }
  wp_step. unfold end_delimiter_of in Hloop. destruct (fst a =? TagType.to_Z TagType.SCRIPT).
  - eapply wp_lift; [exact Hd1|]. by apply Hloop.
  - eapply wp_lift; [exact Hd2|]. by apply Hloop.
Qed.

Lemma wp_scan_self_closing ts n v y s (Q : post (S := Scanner) bool) :
  few ts → scanner_repr s ts →
  let v1 := adv false v in
  (if look v1 =? ">" then
     ∀ y' s', (y' = if bool_decide (ts = []) then y else TokenType_to_Z SELF_CLOSING_TAG_DELIMITER) →
       scanner_repr s' (removelast ts) → Q true (adv false v1) y' s'
   else Q false v1 y s) →
  wp scan_self_closing_tag_delimiter n v y s Q.
Proof.
  intros Hfew Hs v1 HQ. unfold scan_self_closing_tag_delimiter. do 5 wp_step. fold v1.
  destruct (look v1 =? ">"); [|by wps]. do 4 wp_step. rewrite (scanner_repr_count ts Hfew s Hs).
  case_bool_decide as Hts; cbn [negb].
  - wps. apply HQ; [done|]. by rewrite Hts in *.
  - apply (wp_pop_tag ts); [done..|]. intros s' Hs'. by apply HQ.
Qed.

(** ** A call of the scanner *)

(** What a call may do to the open elements, with its result and symbol. *)
Inductive tag_step (ts : list atag) : bool → Z → list atag → Prop :=
  | step_same r y : tag_step ts r y ts
  | step_open a : tag_step ts true (TokenType_to_Z (start_symbol a)) (ts ++ [a])
  | step_close t : ts ≠ [] → t ∈ [END_TAG_NAME; IMPLICIT_END_TAG; SELF_CLOSING_TAG_DELIMITER] →
      tag_step ts true (TokenType_to_Z t) (removelast ts).

(** Neither [then] nor [as] is searched where a NUL follows it. *)
Definition words_safe (valid_symbols : TokenType → bool) (rest : list Z) : Prop :=
  valid_symbols RAW_TEXT_EXPR = true →
  valid_symbols RAW_TEXT_AWAIT = true ∨ valid_symbols RAW_TEXT_EACH = true → no_overrun rest.

Lemma advanced_few v v' (k : Z) : advanced v v' → Z.of_nat (rem v) < k → Z.of_nat (rem v') < k.
Proof. intros ?%advanced_rem ?. lia. Qed.

Lemma wp_svelte_scan valid_symbols ts n v y s :
  (rem v < n)%nat → Z.of_nat (rem v) < 2147483648 → few ts → scanner_repr s ts →
  words_safe valid_symbols (v_rest v) →
  wp (tree_sitter_svelte_external_scanner_scan valid_symbols) n v y s (λ r v' y' s',
    advanced v v' ∧ ∃ ts', scanner_repr s' ts' ∧ tag_step ts r y' ts').
Proof.
  intros Hn H32 Hfew Hs Hno. unfold tree_sitter_svelte_external_scanner_scan, scan.
  set (Q := λ (r : bool) v' y' s', advanced v v' ∧ ∃ ts', scanner_repr s' ts' ∧ tag_step ts r y' ts').
  assert (∀ r v' y', advanced v v' → Q r v' y' s) as Hsame.
  { intros r v' y' ?. split; [done|]. exists ts. split; [done|constructor]. }
  assert (∀ t v' s', advanced v v' → scanner_repr s' (removelast ts) → ts ≠ [] →
    t ∈ [END_TAG_NAME; IMPLICIT_END_TAG; SELF_CLOSING_TAG_DELIMITER] →
    Q true v' (TokenType_to_Z t) s') as Hclose.
  { intros t v' s' ????. split; [done|]. exists (removelast ts). split; [done|by constructor]. }
  wp_step. apply wp_while_look; [apply iswspace_nul|done|]. unfold scan_token.
  set (w := adv_span iswspace true v). assert (advanced v w) as Hw by (apply advanced_adv_span).
  pose proof (advanced_rem _ _ Hw) as Hwr.
  assert (∀ w', advanced w w' → (rem w' < n)%nat ∧ Z.of_nat (rem w') < 4294967296) as Hrem.
  { intros w' ?%advanced_rem. lia. }
  assert (∀ extra, extra = RAW_TEXT_EXPR ∨ no_overrun (v_rest v) →
    wp (scan_raw_text_expr extra) n w y s Q) as Hexpr.
  { intros extra He. apply wp_scan_raw_text_expr; [lia|lia| |].
    - destruct He as [|He]; [by left|right]. destruct (advanced_rest _ _ Hw) as [k ->].
      by apply no_overrun_suffix.
    - intros r v' y' ?. apply Hsame. by etrans. }
  assert (∀ w', advanced w w' → wp scan_implicit_end_tag n w' y s Q) as Himplicit.
  { intros w' Hw'. destruct (Hrem w' Hw'). apply (wp_scan_implicit_end_tag ts); [done..|].
    intros k s' r v' Hs'. assert (advanced v v') by (etrans; [exact Hw|etrans; [exact Hw'|apply advanced_adv_n]]).
    destruct r eqn:Hr; [|split; [done|]; exists ts; split; [done|constructor]].
    apply Hclose; [done..| |repeat constructor]. intros ->. unfold r, implicit_end, implied_at, void_open in Hr.
    cbn in Hr. by repeat case_match. }
  wp_step. { apply andb_true_iff in E as [??]. apply Hexpr. right. by apply Hno; [|left]. }
  wp_step. { apply andb_true_iff in E0 as [??]. apply Hexpr. right. by apply Hno; [|right]. }
  wp_step.
  { wps; [by apply Hsame|apply Hexpr; by left]. }
  wp_step.
  { apply (wp_scan_raw_text ts); [lia|done..|]. destruct (last ts); [|by apply Hsame].
    intros v' k [Ha _] _ _ _. apply Hsame. by etrans. }
  do 2 wp_step. wp_step.
  { do 7 wp_step. wp_step.
    - wps. keep. apply Hsame. etrans; [exact Hw|]. etrans; [|done]. auto with scan.
    - wp_step; [|wps; apply Hsame; auto with scan]. apply Himplicit. auto with scan. }
  wp_step. { wp_step; [by apply Himplicit|wps; by apply Hsame]. }
  wp_step.
  { wp_step; [|wps; by apply Hsame]. apply (wp_scan_self_closing ts); [done..|].
    case_match; [|apply Hsame; auto with scan]. intros y' s' -> Hs'. case_bool_decide.
    - subst ts. split; [auto with scan|]. exists []. split; [done|constructor].
    - apply Hclose; auto with scan. repeat constructor. }
  wp_step; [|wps; by apply Hsame]. wp_step.
  - apply (wp_scan_start_tag_name ts); [lia|lia|done|].
    destruct (tag_at (v_rest w)); [|apply Hsame; auto with scan].
    intros s' Hs'. split; [auto with scan|]. exists (ts ++ [a]). split; [done|constructor].
  - apply (wp_scan_end_tag_name ts); [done|lia|lia|done|].
    destruct (tag_at (v_rest w)); [|apply Hsame; auto with scan].
    intros s' closes Hs'. destruct closes eqn:Hc.
    + apply Hclose; [auto with scan|done| |repeat constructor]. intros ->. by unfold closes in Hc.
    + split; [auto with scan|]. exists ts. split; [done|constructor].
Qed.

(** Behind the white space, where no text of an expression can come. *)
Lemma wp_svelte_markup valid_symbols n v y s (Q : post (S := Scanner) bool) :
  (rem v < n)%nat → at_start v → valid_symbols RAW_TEXT_EXPR = false →
  (∀ w, advanced v w → at_start w → v_rest w = after_space (v_rest v) →
     wp (scan_token valid_symbols) n w y s Q) →
  wp (tree_sitter_svelte_external_scanner_scan valid_symbols) n v y s Q.
Proof.
  intros Hn Hst Hv HQ. unfold tree_sitter_svelte_external_scanner_scan, scan. wp_step.
  apply wp_while_look; [apply iswspace_nul|done|]. apply HQ; [auto with scan|by apply at_start_skip|].
  apply rest_adv_span.
Qed.

(** The symbols that are valid where markup comes. *)
Definition markup_symbols (valid_symbols : TokenType → bool) : Prop :=
  valid_symbols RAW_TEXT_EXPR = false ∧ valid_symbols RAW_TEXT = false.

Lemma scan_token_markup valid_symbols n v y s (Q : post (S := Scanner) bool) :
  markup_symbols valid_symbols →
  (if look v =? "<" then
     wp (mark_end;; advance;; c <- lookahead;;
         if c =? "!" then advance;; scan_comment
         else if valid_symbols IMPLICIT_END_TAG then scan_implicit_end_tag
         else ret false) n v y s Q
   else if look v =? NUL then
     wp (if valid_symbols IMPLICIT_END_TAG then scan_implicit_end_tag else ret false) n v y s Q
   else if look v =? "/" then
     wp (if valid_symbols SELF_CLOSING_TAG_DELIMITER then scan_self_closing_tag_delimiter
         else ret false) n v y s Q
   else if valid_symbols START_TAG_NAME then wp scan_start_tag_name n v y s Q
   else if valid_symbols END_TAG_NAME then wp scan_end_tag_name n v y s Q
   else Q false v y s) →
  wp (scan_token valid_symbols) n v y s Q.
Proof.
  intros [He Hr] HQ. unfold scan_token. rewrite He, Hr. cbn [andb negb]. do 2 wp_step.
  destruct (look v =? "<"); [done|]. destruct (look v =? NUL); [done|].
  destruct (look v =? "/"); [done|]. rewrite andb_true_r.
  destruct (valid_symbols START_TAG_NAME), (valid_symbols END_TAG_NAME); cbn [orb]; [exact HQ|exact HQ|exact HQ|by wp_step].
Qed.
End scanner.
