(* ===== verification/SvelteClaims.v ===== *)
(** * What the Svelte external scanner does

    The theorems on a whole call: that every call ends, what it does to the
    stack of open elements, and the text of the tokens. *)

From stdpp Require Import relations.
From S2P Require Import Prelude CArray CArrayProofs CString Scan Logic.
From S2P Require Import VcVector VcVectorProofs SvelteTag SvelteTagProofs.
From S2P Require Import Svelte SvelteSerial SvelteProofs SvelteText SvelteScan.

Ltac wp_hook ::= first [ progress unfold advance | progress unfold set_result ].

(** ** Names *)

(** A name at the head of a text, without characters that are stored as 0. *)
Definition name_text `{!WCType} (name more : list Z) : Prop :=
  Forall (λ c, is_tag_name_char c = true) name ∧ is_tag_name_char (hd 0 more) = false
  ∧ no_nul (to_char <$> name).

Definition tag_of_name (name : list Z) : atag := tag_named (to_char <$> name).

Lemma span_name `{!WCType} name more : name_text name more →
  span is_tag_name_char (name ++ more) = length name.
Proof.
  intros (Hf&Hm&_). rewrite span_app by done. replace (span _ more) with 0%nat; [lia|].
  destruct more as [|c more]; simpl in *; [done|]. by rewrite Hm.
Qed.

Lemma tag_at_name `{!WCType} name more : name_text name more → name ≠ [] →
  tag_at (name ++ more) = Some (tag_of_name name).
Proof.
  intros Hn Hne. unfold tag_at, name_at. rewrite (span_name _ _ Hn), take_app_length.
  rewrite name_chars_no_nul by apply Hn. rewrite decide_False; [done|]. by destruct name.
Qed.

Lemma name_head `{!WCType} name more : name_text name more → name ≠ [] →
  ∃ c l, name = c :: l ∧ c ≠ "<" ∧ c ≠ "!" ∧ c ≠ "/" ∧ c ≠ 0.
Proof.
  intros (Hf&_) Hne. destruct Hf as [|c l Hc _]; [done|]. exists c, l. split; [done|].
  unfold is_tag_name_char, iswalnum in Hc.
  split_and!; intros ->; rewrite iswalpha_ascii, iswdigit_ascii in Hc by done; done.
Qed.

(** ** One call *)

Section claims.
Context {L : Type} {HL : TSLexer L} {HW : WCType} {HS : TSLexerSpec L}.

(** The symbol of a tag name, and the open elements behind it. *)
Definition tag_name_effect (valid_symbols : TokenType → bool) (ts : list atag) (a : atag)
  : TokenType * list atag :=
  if valid_symbols START_TAG_NAME then (start_symbol a, ts ++ [a])
  else if bool_decide (last ts = Some a) then (END_TAG_NAME, removelast ts)
  else (ERRONEOUS_END_TAG_NAME, ts).

Lemma wp_tag_name valid_symbols ts name more n v y s (Q : post (S := Scanner) bool) :
  (rem v < n)%nat → Z.of_nat (rem v) < 4294967296 → few ts → scanner_repr s ts →
  at_start v → markup_symbols valid_symbols →
  valid_symbols START_TAG_NAME = true ∨ valid_symbols END_TAG_NAME = true →
  after_space (v_rest v) = name ++ more → name_text name more → name ≠ [] →
  (∀ v' s', let '(sym, ts') := tag_name_effect valid_symbols ts (tag_of_name name) in
     token_text v' = name → scanner_repr s' ts' → Q true v' (TokenType_to_Z sym) s') →
  wp (tree_sitter_svelte_external_scanner_scan valid_symbols) n v y s Q.
Proof.
  intros Hn H32 Hfew Hs Hst Hm Hv Hrest Hname Hne HQ.
  apply wp_svelte_markup; [done..|apply Hm|]. intros w Hw [Hws Hwe] Hwr. rewrite Hrest in Hwr.
  pose proof (advanced_rem _ _ Hw). destruct (name_head _ _ Hname Hne) as (c&r&Hc&?&?&?&?).
  assert (look w = c) as Hl by (apply (look_cons _ _ (r ++ more)); by rewrite Hwr, Hc).
  apply scan_token_markup; [done|]. rewrite Hl. replace (c =? "<") with false by lia.
  replace (c =? NUL) with false by lia. replace (c =? "/") with false by lia.
  assert (token_text (adv_span is_tag_name_char false w) = name) as Htext.
  { unfold adv_span. rewrite Hwr, (span_name _ _ Hname), token_text_no_mark, Hwr, take_app_length; [done..|].
    unfold rem. rewrite Hwr, length_app. lia. }
  unfold tag_name_effect in HQ. destruct (valid_symbols START_TAG_NAME) eqn:Hstart.
  - apply (wp_scan_start_tag_name ts); [lia..|done|]. rewrite Hwr, tag_at_name by done.
    intros s' Hs'. by apply HQ.
  - destruct Hv as [|Hv]; [done|]. rewrite Hv.
    apply (wp_scan_end_tag_name ts); [done|lia..|done|]. rewrite Hwr, tag_at_name by done.
    intros s' closes Hs'. unfold closes in *. case_bool_decide; by apply HQ.
Qed.

Lemma wp_implicit valid_symbols ts more n v y s (Q : post (S := Scanner) bool) :
  (rem v < n)%nat → Z.of_nat (rem v) < 4294967296 → few ts → scanner_repr s ts →
  at_start v → markup_symbols valid_symbols → valid_symbols IMPLICIT_END_TAG = true →
  after_space (v_rest v) = ("<" : Z) :: more → hd 0 more ≠ "!" →
  (∀ v' s', let r := implicit_end ts more in
     (token_text v' = []) → scanner_repr s' (if r then removelast ts else ts) →
     Q r v' (if r then TokenType_to_Z IMPLICIT_END_TAG else y) s') →
  wp (tree_sitter_svelte_external_scanner_scan valid_symbols) n v y s Q.
Proof.
  intros Hn H32 Hfew Hs Hst Hm Hv Hrest Hmore HQ.
  apply wp_svelte_markup; [done..|apply Hm|]. intros w Hw [Hws Hwe] Hwr. rewrite Hrest in Hwr.
  pose proof (advanced_rem _ _ Hw).
  apply scan_token_markup; [done|]. rewrite (look_cons _ _ _ Hwr). cbn [Z.eqb Pos.eqb].
  do 7 wp_step. rewrite look_adv_mark.
  assert (v_rest (adv false (mark w)) = more) as Hr.
  { rewrite v_rest_adv_mark. by eapply rest_adv_cons. }
  assert (look (adv false w) = hd 0 more) as -> by (unfold look; by rewrite <- v_rest_adv_mark, Hr).
  replace (hd 0 more =? "!") with false by lia. rewrite Hv. cbv iota.
  apply (wp_scan_implicit_end_tag ts); [done|rewrite rem_adv, rem_mark; lia..|done|].
  rewrite Hr. intros k s' r v' Hs'. apply HQ; [|done].
  rewrite (token_text_split w v' 0); [done|..].
  - unfold v'. rewrite v_start_adv_n. by destruct w as [p [|c q] b e].
  - unfold token_end, v'. rewrite v_end_adv_n, v_end_adv, v_end_mark. simpl. lia.
  - unfold v'. transitivity (text (adv false (mark w))); [apply advanced_adv_n|].
    transitivity (text (mark w)); [apply advanced_adv|done].
Qed.

(** ** Implied end tags, one after the other *)

Lemma implicit_end_slash ts name more a : tag_at (name ++ more) = Some a →
  implicit_end ts (("/" : Z) :: name ++ more) = implied_end ts true a.
Proof. intros Ha. unfold implicit_end, implied_at. simpl. by rewrite Ha. Qed.

(** A call in front of [rest] that ends the last open element. *)
Definition implicit_close (valid_symbols : TokenType → bool) (n : nat) (l : L) (s s' : Scanner) : Prop :=
  ∃ l', tree_sitter_svelte_external_scanner_scan valid_symbols n (mkst l 0 s)
      = Done (true, mkst l' (TokenType_to_Z IMPLICIT_END_TAG) s')
    ∧ token_text (view_of l') = [].

Lemma implied_end_outer (ts1 ts2 : list atag) (a : atag) : a ∉ ts2 →
  implied_end (ts1 ++ a :: ts2) true a = negb (bool_decide (ts2 = [])).
Proof.
  intros Ha. unfold implied_end. destruct ts2 as [|b ts2] using rev_ind.
  - rewrite last_snoc. by rewrite bool_decide_true.
  - clear IHts2. rewrite app_comm_cons, app_assoc, last_snoc.
    rewrite bool_decide_false by (intros ->; apply Ha, elem_of_app; right; by apply list_elem_of_singleton).
    rewrite bool_decide_true by (rewrite !elem_of_app, elem_of_cons; tauto).
    rewrite bool_decide_false; [done|]. by destruct ts2.
Qed.

Lemma implicit_close_run valid_symbols n l s name more ts1 ts2 :
  (rem (view_of l) < n)%nat → Z.of_nat (rem (view_of l)) < 4294967296 →
  at_start (view_of l) → markup_symbols valid_symbols → valid_symbols IMPLICIT_END_TAG = true →
  after_space (v_rest (view_of l)) = ("<" : Z) :: ("/" : Z) :: name ++ more →
  name_text name more → name ≠ [] → tag_of_name name ∉ ts2 →
  few (ts1 ++ tag_of_name name :: ts2) → scanner_repr s (ts1 ++ tag_of_name name :: ts2) →
  ∃ s', nsteps (implicit_close valid_symbols n l) (length ts2) s s'
    ∧ scanner_repr s' (ts1 ++ [tag_of_name name]).
Proof.
  intros Hn H32 Hst Hm Hv Hrest Hname Hne Ha Hfew Hs. revert s Ha Hfew Hs.
  induction ts2 as [|b ts2 IH] using rev_ind; intros s Ha Hfew Hs.
  { exists s. split; [constructor|done]. }
  set (a := tag_of_name name) in *.
  assert (removelast (ts1 ++ a :: ts2 ++ [b]) = ts1 ++ a :: ts2) as Hrm.
  { rewrite app_comm_cons, app_assoc. apply removelast_last. }
  assert (a ∉ ts2) as Ha2 by (intros ?; apply Ha, elem_of_app; by left).
  destruct (wp_run (tree_sitter_svelte_external_scanner_scan valid_symbols) n l 0 s
    (λ r v' y' s', r = true ∧ y' = TokenType_to_Z IMPLICIT_END_TAG ∧ token_text v' = []
       ∧ scanner_repr s' (ts1 ++ a :: ts2))) as (r&l'&y'&s'&Hrun&->&->&Ht&Hs').
  { eapply (wp_implicit _ (ts1 ++ a :: ts2 ++ [b])); [done..|].
    intros v' s' r Ht. unfold r. rewrite (implicit_end_slash _ _ _ a) by (by apply tag_at_name).
    rewrite implied_end_outer by done. rewrite bool_decide_false by (by destruct ts2). cbn [negb].
    rewrite Hrm. done. }
  destruct (IH s') as (s2&Hsteps&Hs2); [done| |done|].
  { unfold few in *. rewrite !length_app in *. cbn [length] in *. rewrite !length_app in *. simpl in *. lia. }
  exists s2. split; [|done]. rewrite length_app, Nat.add_comm. econstructor; [|done]. by exists l'.
Qed.

(** ** Comments *)

Definition comment_at (rest : list Z) (k : nat) : Prop :=
  ∃ body more, rest = cstr "<!--" ++ body ++ (">" : Z) :: more ∧ comment_body_text body
    ∧ k = (5 + length body)%nat.

(** The length of the rest of a comment, behind [<!]. *)
Definition comment_rest (more : list Z) : option nat :=
  if decide (take 2 more = cstr "--") then Nat.add 2 <$> comment_end [] (drop 2 more) else None.

Lemma comment_rest_iff more k :
  comment_rest more = Some k ↔ comment_at (("<" : Z) :: ("!" : Z) :: more) (2 + k).
Proof.
  unfold comment_rest, comment_at. split.
  - case_decide as Hd; [|done]. intros (j&Hj&->)%fmap_Some.
    apply comment_end_iff in Hj as (body&m&Hm&->&Hb). exists body, m. split_and!; [|done|lia].
    rewrite <- (take_drop 2 more), Hd, Hm. done.
  - intros (body&m&Hm&Hb&Hk). injection Hm as ->. rewrite decide_True by done. cbn [skipn cstr app]. rewrite drop_0.
    rewrite (proj2 (comment_end_iff (body ++ (">" : Z) :: m) (S (length body)))) by (by exists body, m).
    simpl. f_equal. lia.
Qed.

Lemma comment_rest_le more k : comment_rest more = Some k → (k ≤ length more)%nat.
Proof.
  intros (body&m&Hm&Hb&Hk)%comment_rest_iff. injection Hm as ->.
  simpl. rewrite length_app. simpl. lia.
Qed.

Lemma wp_scan_comment n v y s (Q : post (S := Scanner) bool) :
  (rem v < n)%nat → Z.of_nat (rem v) < 4294967296 →
  match comment_rest (v_rest v) with
  | Some k => Q true (mark (adv_n false k v)) (TokenType_to_Z COMMENT) s
  | None => ∀ v', Q false v' y s
  end →
  wp scan_comment n v y s Q.
Proof.
  intros Hn Hbig HQ. unfold scan_comment. do 2 wp_step. unfold comment_rest in HQ.
  destruct (decide (look v = "-")) as [Hd|Hd].
  2: { replace (look v =? "-") with false by lia. cbn [negb]. wps. rewrite decide_False in HQ; [done|].
       intros Heq. unfold look in Hd. by destruct (v_rest v) as [|c1 [|c2 l]]; simplify_eq/=. }
  rewrite Hd. cbn [Z.eqb Pos.eqb negb]. cbv iota. do 5 wp_step. rewrite look_adv.
  assert (0 < rem v)%nat as Hp by (apply look_pos; lia).
  pose proof (rest_cons v Hp) as Hc. rewrite Hd in Hc.
  destruct (decide (hd 0 (tail (v_rest v)) = "-")) as [Hd2|Hd2].
  2: { replace (_ =? "-") with false by lia. cbn [negb]. wps. rewrite decide_False in HQ; [done|].
       intros Heq. by destruct (v_rest v) as [|c1 [|c2 l]]; simplify_eq/=. }
  rewrite Hd2. cbn [Z.eqb Pos.eqb negb]. cbv iota. do 2 wp_step.
  rewrite decide_True in HQ by (by destruct (v_rest v) as [|c1 [|c2 l]]; simplify_eq/=).
  apply wp_comment_loop; [rewrite !rem_adv; lia..|]. rewrite !rest_adv.
  replace (tail (tail (v_rest v))) with (drop 2 (v_rest v)) by (by destruct (v_rest v) as [|c1 [|c2 l]]).
  destruct (comment_end [] (drop 2 (v_rest v))) as [k|]; [|intros v' _; apply HQ].
  change (Nat.add 2 <$> Some k) with (Some (S (S k))) in HQ. by rewrite <- !adv_n_S.
Qed.

Lemma wp_comment valid_symbols more n v y s (Q : post (S := Scanner) bool) :
  (rem v < n)%nat → Z.of_nat (rem v) < 4294967296 → at_start v → markup_symbols valid_symbols →
  after_space (v_rest v) = ("<" : Z) :: ("!" : Z) :: more →
  (match comment_rest more with
   | Some k => ∀ v', token_text v' = take (2 + k) (("<" : Z) :: ("!" : Z) :: more) →
       Q true v' (TokenType_to_Z COMMENT) s
   | None => ∀ v', Q false v' y s
   end) →
  wp (tree_sitter_svelte_external_scanner_scan valid_symbols) n v y s Q.
Proof.
  intros Hn H32 Hst Hm Hrest HQ.
  apply wp_svelte_markup; [done..|apply Hm|]. intros w Hw [Hws Hwe] Hwr. rewrite Hrest in Hwr.
  pose proof (advanced_rem _ _ Hw).
  apply scan_token_markup; [done|]. rewrite (look_cons _ _ _ Hwr). cbn [Z.eqb Pos.eqb].
  do 7 wp_step. rewrite look_adv_mark. pose proof (rest_adv_cons _ _ _ Hwr) as Hr1.
  rewrite (look_cons _ _ _ Hr1). cbn [Z.eqb Pos.eqb]. cbv iota. do 2 wp_step.
  assert (v_rest (adv false (adv false (mark w))) = more) as Hr2 by (by rewrite rest_adv, v_rest_adv_mark, Hr1).
  apply wp_scan_comment; [rewrite !rem_adv, rem_mark; lia..|]. rewrite Hr2.
  destruct (comment_rest more) as [k|] eqn:Hk; [|done]. apply HQ. rewrite <- !adv_n_S, <- Hwr.
  apply comment_rest_le in Hk. apply token_text_split.
  - cbn [mark v_start]. by rewrite v_start_adv_n.
  - unfold token_end. rewrite v_end_mark. cbn [default].
    rewrite v_pos_adv_n; [done|]. unfold rem. rewrite rest_mark, Hwr. simpl. lia.
  - transitivity (text (adv_n false (S (S k)) (mark w))); [done|].
    transitivity (text (mark w)); [apply advanced_adv_n|done].
Qed.

(** ** Theorems *)

(** C3: on every input shorter than 2 GB, in which no [then] or [as] is
    followed by a NUL or the end of the input where these words are searched, a
    call of the scanner ends without an access outside of a block, moves forward
    only, and opens or closes at most one element: one is opened by the symbols
    of start tags, one is closed by those of end tags, and only when the call
    succeeds. *)
Theorem svelte_scan_total (valid_symbols : TokenType → bool) n l y s ts :
  (rem (view_of l) < n)%nat → Z.of_nat (rem (view_of l)) < 2147483648 → few ts →
  scanner_repr s ts → words_safe valid_symbols (v_rest (view_of l)) →
  ∃ r l' y' s' ts',
    tree_sitter_svelte_external_scanner_scan valid_symbols n (mkst l y s) = Done (r, mkst l' y' s')
    ∧ advanced (view_of l) (view_of l') ∧ scanner_repr s' ts' ∧ tag_step ts r y' ts'.
Proof.
  intros Hn H31 Hfew Hs Hw.
  destruct (wp_run _ n l y s _ (wp_svelte_scan valid_symbols ts n _ y s Hn H31 Hfew Hs Hw))
    as (r&l'&y'&s'&Hrun&Ha&ts'&Hs'&Hstep). by exists r, l', y', s', ts'.
Qed.

(** C35: where a tag name may come, behind white space, the token is the longest
    name there; a start tag opens the element of that name, an end tag closes
    the last open element when it has that name and is erroneous otherwise. *)
Theorem svelte_tag_name (valid_symbols : TokenType → bool) n l y s ts name more :
  (rem (view_of l) < n)%nat → Z.of_nat (rem (view_of l)) < 4294967296 → few ts →
  scanner_repr s ts → at_start (view_of l) → markup_symbols valid_symbols →
  valid_symbols START_TAG_NAME = true ∨ valid_symbols END_TAG_NAME = true →
  after_space (v_rest (view_of l)) = name ++ more → name_text name more → name ≠ [] →
  let '(sym, ts') := tag_name_effect valid_symbols ts (tag_of_name name) in
  ∃ l' s', tree_sitter_svelte_external_scanner_scan valid_symbols n (mkst l y s)
      = Done (true, mkst l' (TokenType_to_Z sym) s')
    ∧ token_text (view_of l') = name ∧ scanner_repr s' ts'.
Proof.
  intros. destruct (tag_name_effect valid_symbols ts (tag_of_name name)) as [symb ts'] eqn:He.
  destruct (wp_run (tree_sitter_svelte_external_scanner_scan valid_symbols) n l y s
    (λ r v' y' s', r = true ∧ y' = TokenType_to_Z symb ∧ token_text v' = name ∧ scanner_repr s' ts'))
    as (r&l'&y'&s'&Hrun&->&->&Ht&Hs').
  - eapply (wp_tag_name _ ts name more); [done..|]. rewrite He. done.
  - by exists l', s'.
Qed.

(** C30: in front of a [<] that does not begin a comment, the scanner reports an
    implied end tag, with an empty text, exactly when the last open element has
    no contents, cannot contain the element that starts there, or is not the
    one that ends there while an outer one is; then it closes the last one, and
    otherwise leaves the open elements as they are. *)
Theorem svelte_implicit_end_tag (valid_symbols : TokenType → bool) n l y s ts more :
  (rem (view_of l) < n)%nat → Z.of_nat (rem (view_of l)) < 4294967296 → few ts →
  scanner_repr s ts → at_start (view_of l) → markup_symbols valid_symbols →
  valid_symbols IMPLICIT_END_TAG = true →
  after_space (v_rest (view_of l)) = ("<" : Z) :: more → hd 0 more ≠ "!" →
  let r := implicit_end ts more in
  ∃ l' s', tree_sitter_svelte_external_scanner_scan valid_symbols n (mkst l y s)
      = Done (r, mkst l' (if r then TokenType_to_Z IMPLICIT_END_TAG else y) s')
    ∧ token_text (view_of l') = [] ∧ scanner_repr s' (if r then removelast ts else ts).
Proof.
  intros Hn H32 Hfew Hs Hst Hm Hv Hrest Hmore r.
  destruct (wp_run (tree_sitter_svelte_external_scanner_scan valid_symbols) n l y s
    (λ r' v' y' s', r' = r ∧ y' = (if r then TokenType_to_Z IMPLICIT_END_TAG else y)
       ∧ token_text v' = [] ∧ scanner_repr s' (if r then removelast ts else ts)))
    as (r'&l'&y'&s'&Hrun&->&->&Ht&Hs').
  - by eapply (wp_implicit _ ts more).
  - by exists l', s'.
Qed.

(** C14: in front of the end tag of an open element, calls from the same place
    report implied end tags, one for every element that was opened behind the
    last one of that name; then no more end tags are implied, and the end tag
    closes the element. *)
Theorem svelte_outer_end_tag (valid_symbols valid_symbols' : TokenType → bool) n l l2 s name more ts1 ts2 :
  (rem (view_of l) < n)%nat → Z.of_nat (rem (view_of l)) < 4294967296 →
  at_start (view_of l) → markup_symbols valid_symbols → valid_symbols IMPLICIT_END_TAG = true →
  after_space (v_rest (view_of l)) = ("<" : Z) :: ("/" : Z) :: name ++ more →
  name_text name more → name ≠ [] → tag_of_name name ∉ ts2 →
  few (ts1 ++ tag_of_name name :: ts2) → scanner_repr s (ts1 ++ tag_of_name name :: ts2) →
  (rem (view_of l2) ≤ rem (view_of l))%nat → at_start (view_of l2) →
  after_space (v_rest (view_of l2)) = name ++ more → markup_symbols valid_symbols' →
  valid_symbols' START_TAG_NAME = false → valid_symbols' END_TAG_NAME = true →
  ∃ s', nsteps (implicit_close valid_symbols n l) (length ts2) s s'
    ∧ scanner_repr s' (ts1 ++ [tag_of_name name])
    ∧ (∃ l' s'', tree_sitter_svelte_external_scanner_scan valid_symbols n (mkst l 0 s')
         = Done (false, mkst l' 0 s''))
    ∧ ∃ l' s'', tree_sitter_svelte_external_scanner_scan valid_symbols' n (mkst l2 0 s')
         = Done (true, mkst l' (TokenType_to_Z END_TAG_NAME) s'') ∧ scanner_repr s'' ts1.
Proof.
  intros Hn H32 Hst Hm Hv Hrest Hname Hne Ha Hfew Hs Hlt Hst2 Hrest2 Hm2 Hv2 Hv3.
  destruct (implicit_close_run valid_symbols n l s name more ts1 ts2) as (s'&Hsteps&Hs'); [done..|].
  assert (few (ts1 ++ [tag_of_name name])) as Hfew'.
  { unfold few in *. rewrite !length_app in *. simpl in *. lia. }
  exists s'. split_and!; [done|done| |].
  - destruct (wp_run (tree_sitter_svelte_external_scanner_scan valid_symbols) n l 0 s'
      (λ r v' y' s'', r = false ∧ y' = 0)) as (r'&l'&y'&s''&Hrun&->&->); [|by exists l', s''].
    eapply (wp_implicit _ (ts1 ++ [tag_of_name name])); [done..|].
    intros v' s'' r _. unfold r. rewrite (implicit_end_slash _ _ _ (tag_of_name name)) by (by apply tag_at_name).
    rewrite implied_end_outer by apply not_elem_of_nil. done.
  - destruct (wp_run (tree_sitter_svelte_external_scanner_scan valid_symbols') n l2 0 s'
      (λ r v' y' s'', r = true ∧ y' = TokenType_to_Z END_TAG_NAME ∧ scanner_repr s'' ts1))
      as (r'&l'&y'&s''&Hrun&->&->&Hs''); [|by exists l', s''].
    eapply (wp_tag_name _ (ts1 ++ [tag_of_name name]) name more); [lia|lia|try done..|]; [by right|].
    unfold tag_name_effect. rewrite Hv2, last_snoc, bool_decide_true, removelast_last by done. done.
Qed.

(** C36: behind [<!], the scanner reports a comment exactly when the text from
    there on is one of the grammar: two dashes, and the shortest text without
    NUL behind whose last dashes comes a [>]; the token is that text. *)
Theorem svelte_comment (valid_symbols : TokenType → bool) n l y s more :
  (rem (view_of l) < n)%nat → Z.of_nat (rem (view_of l)) < 4294967296 →
  at_start (view_of l) → markup_symbols valid_symbols →
  after_space (v_rest (view_of l)) = ("<" : Z) :: ("!" : Z) :: more →
  ∃ r l' y', tree_sitter_svelte_external_scanner_scan valid_symbols n (mkst l y s)
      = Done (r, mkst l' y' s)
    ∧ (r = true ↔ ∃ k, comment_at (("<" : Z) :: ("!" : Z) :: more) k)
    ∧ (r = true → y' = TokenType_to_Z COMMENT
        ∧ comment_at (("<" : Z) :: ("!" : Z) :: more) (length (token_text (view_of l')))
        ∧ ∃ rest, ("<" : Z) :: ("!" : Z) :: more = token_text (view_of l') ++ rest).
Proof.
  intros Hn H32 Hst Hm Hrest. set (rest := ("<" : Z) :: ("!" : Z) :: more) in *.
  destruct (wp_run (tree_sitter_svelte_external_scanner_scan valid_symbols) n l y s
    (λ r v' y' s', s' = s ∧ (r = true ↔ ∃ k, comment_at rest k)
      ∧ (r = true → y' = TokenType_to_Z COMMENT ∧ comment_at rest (length (token_text v'))
        ∧ ∃ rest', rest = token_text v' ++ rest'))) as (r&l'&y'&s'&Hrun&->&Hr&Ht); [|by exists r, l', y'].
  apply (wp_comment _ more); [done..|]. destruct (comment_rest more) as [k|] eqn:Hk.
  - intros v' Htext. pose proof (comment_rest_le _ _ Hk).
    assert (length (token_text v') = (2 + k)%nat) as Hlen.
    { rewrite Htext, length_take. simpl. lia. }
    pose proof Hk as Hc%comment_rest_iff. split_and!; [done|split; [by eauto|done]|].
    intros _. rewrite Hlen. split_and!; [done|done|]. exists (drop (2 + k) rest).
    by rewrite Htext, take_drop.
  - intros v'. split_and!; [done| |done]. split; [done|]. intros [k Hc]. exfalso.
    assert (k = 2 + (k - 2))%nat as Hk2 by (destruct Hc as (?&?&_&_&->); lia).
    rewrite Hk2 in Hc. apply comment_rest_iff in Hc. congruence.
Qed.

(** In a [script] or another raw element, the token is the text in front of
    its end delimiter when that text has neither [<] nor NUL; in any case it
    ends in front of the delimiter, or of the part of it that the end of the
    input cuts off. The open elements stay as they are. *)
Theorem svelte_raw_text (valid_symbols : TokenType → bool) n l y s ts a :
  (rem (view_of l) < n)%nat → few ts → scanner_repr s ts → last ts = Some a →
  at_start (view_of l) → valid_symbols RAW_TEXT_EXPR = false → valid_symbols RAW_TEXT = true →
  valid_symbols START_TAG_NAME = false → valid_symbols END_TAG_NAME = false →
  let rest := after_space (v_rest (view_of l)) in
  let delimiter := end_delimiter_of (fst a) in
  ∃ l' k, tree_sitter_svelte_external_scanner_scan valid_symbols n (mkst l y s)
      = Done (true, mkst l' (TokenType_to_Z RAW_TEXT) s)
    ∧ token_text (view_of l') = take k rest ∧ raw_text_end delimiter rest k
    ∧ ∀ b, clean_until delimiter rest b → k = b.
Proof.
  intros Hn Hfew Hs Hlast Hst He Hr Hv1 Hv2 rest delimiter.
  destruct (wp_run (tree_sitter_svelte_external_scanner_scan valid_symbols) n l y s
    (λ r v' y' s', r = true ∧ y' = TokenType_to_Z RAW_TEXT ∧ s' = s ∧ ∃ k, token_text v' = take k rest
      ∧ raw_text_end delimiter rest k ∧ ∀ b, clean_until delimiter rest b → k = b))
    as (r&l'&y'&s'&Hrun&->&->&->&k&Hk); [|by exists l', k].
  apply wp_svelte_markup; [done..|]. intros w Hw [Hws Hwe] Hwr. pose proof (advanced_rem _ _ Hw).
  unfold scan_token. rewrite He, Hr, Hv1, Hv2. cbn [andb negb].
  apply (wp_scan_raw_text ts); [lia|done..|]. rewrite Hlast, Hwr. fold rest delimiter.
  intros v' k [Ha Hvs] Hend Hre Hcl. split_and!; [done..|]. exists k. split_and!; [|done|done].
  unfold rest. rewrite <- Hwr. apply token_text_split; [congruence| |apply Ha].
  unfold token_end. by rewrite Hend.
Qed.

End claims.

Lemma create_table : ∃ s, tree_sitter_svelte_external_scanner_create = Done s ∧ scanner_repr s [].
Proof.
  destruct name_table_exists as [table Ht]. pose proof Ht as [Hm].
  unfold tree_sitter_svelte_external_scanner_create. rewrite Hm.
  exists (mkScanner (vc_vector_create 2 TAG_SIZE) table). split; [done|].
  split; [apply example_fresh_repr|done].
Qed.

(** A scanner is made with an empty stack of elements and with a table that
    finds every name, of any length and at the head of any block: it gives the
    type that was entered last for the name, or 0 when none was. *)
Theorem svelte_name_table :
  ∃ s, tree_sitter_svelte_external_scanner_create = Done s ∧ scanner_repr s []
    ∧ ∀ chars junk, hashmap_get (m s) ((Some <$> chars) ++ junk) (Z.of_nat (length chars))
        = Done (lookup_name chars).
Proof.
  destruct create_table as (s&Hs&Hr). exists s. split_and!; [done|done|].
  intros chars junk. apply hashmap_get_names, Hr.
Qed.

(** Where the word [then] may come, an expression that ends the input with
    this word makes the scanner read behind the block of the word. *)
Theorem svelte_word_overrun (valid_symbols : TokenType → bool) (s : Scanner) :
  valid_symbols RAW_TEXT_EXPR = true → valid_symbols RAW_TEXT_AWAIT = true →
  tree_sitter_svelte_external_scanner_scan valid_symbols 20%nat
    (mkst (input (cstr "p then")) 0 s) = Undefined.
Proof.
  intros H1 H2. unfold tree_sitter_svelte_external_scanner_scan, scan, scan_token.
  rewrite H1, H2. by vm_compute.
Qed.

Lemma svelte_word_overrun_witness :
  tree_sitter_svelte_external_scanner_scan (λ _, true) 20%nat
    (mkst (input (cstr "p then")) 0 example_fresh) = Undefined.
Proof. by apply svelte_word_overrun. Defined.

(** ** Examples *)

(** Two open elements, [div] and in it [foo], with the table of names. *)
Definition example_open (table : hashmap_s) : Scanner := mkScanner (tags svelte_example) table.

Lemma example_open_repr table : name_table table → scanner_repr (example_open table) example_tags.
Proof. intros Ht. split; [apply svelte_example_repr|done]. Qed.

Definition only (ts : list TokenType) (t : TokenType) : bool := bool_decide (t ∈ ts).

Lemma example_name str more : forallb is_tag_name_char (cstr str) = true →
  is_tag_name_char (hd 0 more) = false → forallb (λ c, negb (to_char c =? 0)) (cstr str) = true →
  name_text (cstr str) more.
Proof.
  intros H1 H2 H3. split_and!; [|done|].
  - apply Forall_forall. intros c Hc%list_elem_of_In. rewrite forallb_forall in H1. by apply H1.
  - apply Forall_fmap, Forall_forall. intros c Hc%list_elem_of_In. rewrite forallb_forall in H3.
    specialize (H3 c Hc). simpl. lia.
Qed.

Lemma svelte_scan_total_witness :
  ∃ s, tree_sitter_svelte_external_scanner_create = Done s ∧
  ∃ r l' y' s' ts',
    tree_sitter_svelte_external_scanner_scan (only [START_TAG_NAME]) 20%nat
        (mkst (input (cstr " div>")) 0 s) = Done (r, mkst l' y' s')
    ∧ advanced (input (cstr " div>")) l' ∧ scanner_repr s' ts' ∧ tag_step [] r y' ts'.
Proof.
  destruct create_table as (s&Hs&Hr). exists s. split; [done|].
  refine (svelte_scan_total (only [START_TAG_NAME]) 20%nat (input (cstr " div>")) 0 s [] _ _ _ Hr _);
    [by vm_compute; lia|by vm_compute|by vm_compute|done].
Defined.

Lemma svelte_tag_name_witness :
  ∃ table, name_table table ∧
  ∃ l' s', tree_sitter_svelte_external_scanner_scan (only [START_TAG_NAME]) 20%nat
      (mkst (input (cstr " p>")) 0 (example_open table))
      = Done (true, mkst l' (TokenType_to_Z START_TAG_NAME) s')
    ∧ token_text l' = cstr "p" ∧ scanner_repr s' (example_tags ++ [(88, [])]).
Proof.
  destruct name_table_exists as (table&Ht). exists table. split; [done|].
  refine (svelte_tag_name (only [START_TAG_NAME]) 20%nat (input (cstr " p>")) 0
    (example_open table) example_tags (cstr "p") (cstr ">") _ _ _ (example_open_repr table Ht) _ _ _ _ _ _);
    [by vm_compute; lia|by vm_compute|by vm_compute|done|done|by left|done|by apply example_name|done].
Defined.

Lemma svelte_implicit_end_tag_witness :
  ∃ table, name_table table ∧
  ∃ l' s', tree_sitter_svelte_external_scanner_scan (only [IMPLICIT_END_TAG]) 20%nat
      (mkst (input (cstr "</div>")) 0 (example_open table))
      = Done (true, mkst l' (TokenType_to_Z IMPLICIT_END_TAG) s')
    ∧ token_text l' = [] ∧ scanner_repr s' [(49, [])].
Proof.
  destruct name_table_exists as (table&Ht). exists table. split; [done|].
  refine (svelte_implicit_end_tag (only [IMPLICIT_END_TAG]) 20%nat (input (cstr "</div>")) 0
    (example_open table) example_tags (cstr "/div>") _ _ _ (example_open_repr table Ht) _ _ _ _ _);
    [by vm_compute; lia|by vm_compute|by vm_compute|done..].
Defined.

Lemma svelte_outer_end_tag_witness :
  ∃ table, name_table table ∧
  ∃ s', nsteps (implicit_close (only [IMPLICIT_END_TAG]) 20%nat (input (cstr "</div>"))) 1
      (example_open table) s'
    ∧ scanner_repr s' [(49, [])]
    ∧ (∃ l' s'', tree_sitter_svelte_external_scanner_scan (only [IMPLICIT_END_TAG]) 20%nat
         (mkst (input (cstr "</div>")) 0 s') = Done (false, mkst l' 0 s''))
    ∧ ∃ l' s'', tree_sitter_svelte_external_scanner_scan (only [END_TAG_NAME]) 20%nat
         (mkst (input (cstr "div>")) 0 s')
         = Done (true, mkst l' (TokenType_to_Z END_TAG_NAME) s'') ∧ scanner_repr s'' [].
Proof.
  destruct name_table_exists as (table&Ht). exists table. split; [done|].
  refine (svelte_outer_end_tag (only [IMPLICIT_END_TAG]) (only [END_TAG_NAME]) 20%nat
    (input (cstr "</div>")) (input (cstr "div>")) (example_open table) (cstr "div") (cstr ">")
    [] [(CUSTOM, cstr "foo")] _ _ _ _ _ _ _ _ _ _ (example_open_repr table Ht) _ _ _ _ _ _);
    [by vm_compute; lia|by vm_compute|done|done|done|done|by apply example_name|done| |by vm_compute
    |by vm_compute; lia|done|done|done|done|done].
  apply not_elem_of_cons. split; [by vm_compute|apply not_elem_of_nil].
Defined.

Lemma svelte_comment_witness :
  ∃ r l' y', tree_sitter_svelte_external_scanner_scan (only [COMMENT]) 20%nat
      (mkst (input (cstr "<!--a-->b")) 0 example_fresh) = Done (r, mkst l' y' example_fresh)
    ∧ (r = true ↔ ∃ k, comment_at (cstr "<!--a-->b") k)
    ∧ (r = true → y' = TokenType_to_Z COMMENT
        ∧ comment_at (cstr "<!--a-->b") (length (token_text l'))
        ∧ ∃ rest, cstr "<!--a-->b" = token_text l' ++ rest).
Proof.
  refine (svelte_comment (only [COMMENT]) 20%nat (input (cstr "<!--a-->b")) 0 example_fresh
    (cstr "--a-->b") _ _ _ _ _); [by vm_compute; lia|by vm_compute|done|done|done].
Defined.

Lemma svelte_raw_text_witness :
  ∃ table, name_table table ∧
  ∃ l' k, tree_sitter_svelte_external_scanner_scan (only [RAW_TEXT]) 20%nat
      (mkst (input (cstr "a{}</style>")) 0 (example_open table))
      = Done (true, mkst l' (TokenType_to_Z RAW_TEXT) (example_open table))
    ∧ token_text l' = take k (cstr "a{}</style>") ∧ raw_text_end (cstr "</style") (cstr "a{}</style>") k
    ∧ ∀ b, clean_until (cstr "</style") (cstr "a{}</style>") b → k = b.
Proof.
  destruct name_table_exists as (table&Ht). exists table. split; [done|].
  refine (svelte_raw_text (only [RAW_TEXT]) 20%nat (input (cstr "a{}</style>")) 0
    (example_open table) example_tags (CUSTOM, cstr "foo") _ _ (example_open_repr table Ht) _ _ _ _ _ _);
    [by vm_compute; lia|by vm_compute|done..].
Defined.

Lemma example_expression : expression (cstr "f({a})").
Proof.
  apply (expression_char 102); try done. apply (expression_char 40); try done.
  apply (expression_braces 123 [97] 125 [41]); try done.
  - by apply nested_char; try done; constructor.
  - apply (expression_char 41); try done. constructor.
Qed.

