(* ===== verification/SvelteReplay.v ===== *)
(** * Replay of the Svelte scanner

    The scan sees the open elements, and not how the vector that holds them and
    their names came about. *)

From S2P Require Import Prelude CArray CString VcVector VcVectorProofs Scan Logic Replay SvelteTag SvelteTagProofs Svelte SvelteSerial SvelteProofs SvelteScan SvelteClaims.

(** Two scanners with the same open elements; fewer than 2^64 - 1 before the scan. *)
Definition same_tags (s1 s2 : Scanner) : Prop := ∃ ts, scanner_repr s1 ts ∧ scanner_repr s2 ts.
Definition same_few (s1 s2 : Scanner) : Prop := ∃ ts, few ts ∧ scanner_repr s1 ts ∧ scanner_repr s2 ts.

Lemma same_few_tags s1 s2 : same_few s1 s2 → same_tags s1 s2.
Proof. intros (ts&_&?). by exists ts. Qed.

Lemma same_table s1 s2 ts : scanner_repr s1 ts → scanner_repr s2 ts → m s1 = m s2.
Proof. intros (_&[H1]) (_&[H2]). congruence. Qed.

(** The tag of any name is a tag. *)
Lemma for_name_is_tag m s chars t : name_table m → str_repr s chars → for_name m s = Done t →
  ∃ a, tag_rel (tag_cells t) a.
Proof.
  intros Hm Hs. pose proof Hs as [Hb Hn]. unfold for_name. rewrite Hb, Hn.
  set (k := Z.to_nat (to_u32 (Z.of_nat (length chars)))).
  assert (0 ≤ to_u32 (Z.of_nat (length chars)) ≤ Z.of_nat (length chars)) as Hk
    by (unfold to_u32; pose proof (Z.mod_pos_bound (Z.of_nat (length chars)) 4294967296); pose proof (Z.mod_le (Z.of_nat (length chars)) 4294967296); lia).
  assert (length (take k chars) = k) as Hl by (rewrite length_take; lia).
  pose proof (hashmap_get_names m (take k chars) ((Some <$> drop k chars) ++ [Some 0]) Hm) as E.
  rewrite Hl, app_assoc, <- fmap_app, take_drop in E. replace (Z.of_nat k) with (to_u32 (Z.of_nat (length chars))) in E by lia.
  rewrite E. cbn [obind]. pose proof (lookup_name_range (take k chars)) as Hr. rewrite CUSTOM_val in Hr.
  destruct (_ =? 0); cbn [negb].
  - destruct (str_repr_init_string _ _ Hs) as (s'&Hi&Hs'). unfold initTagArgs. rewrite Hi. intros [= <-].
    exists (CUSTOM, norm chars). apply tag_rel_cells; [done|cbn [fst]; rewrite CUSTOM_val; lia|].
    cbn [fst snd]. rewrite Z.eqb_refl. exists (norm chars). split; [done|]. apply norm_norm.
  - intros [= <-]. exists (lookup_name (take k chars), []). apply tag_rel_cells; cbn [fst snd type]; [done|lia|].
    rewrite CUSTOM_val. by replace (_ =? _) with false by lia.
Qed.

(** The string of a name while it is read. *)
Definition named (s : ekstring) : Prop := s = NaS ∨ ∃ chars, str_repr s chars.

Lemma named_concat s c s' : named s → concat_string_char s c = Done s' → named s'.
Proof.
  intros [->|[chars Hs]] E.
  - destruct (str_repr_concat_nas c) as (s1&E1&H1). rewrite E in E1. injection E1 as <-. right. by exists [c].
  - destruct (str_repr_concat s chars c Hs) as (s1&E1&H1). rewrite E in E1. injection E1 as <-. right. by eexists.
Qed.

Lemma named_repr s : named s → (slength s =? 0) = false → ∃ chars, str_repr s chars.
Proof. by intros [->|?]. Qed.

Section replay.
Context {L : Type} {HL : TSLexer L} {HW : WCType}.

(** ** What leaves the payload alone *)

Lemma sim_scan_tag_name (P : Scanner → Scanner → Prop) :
  sim (L := L) P (λ a b, a = b ∧ named a) scan_tag_name scan_tag_name.
Proof.
  apply (sim_iter _ (λ a b, a = b ∧ named a)); [by split; [|left]|]. intros a ? [<- Ha].
  apply sim_bind_eq; [sim_tac|intros c]. destruct (is_tag_name_char c); [|by apply sim_ret].
  apply (sim_lift_bind _ (λ b b', b = b' ∧ named b)).
  - destruct (concat_string_char a (to_char c)) as [s| | |] eqn:E; try done. split; [done|by eapply named_concat].
  - intros b ? [<- Hb]. apply sim_bind_eq; [sim_tac|intros _]. by apply sim_ret.
Qed.

Lemma sim_scan_comment (P : Scanner → Scanner → Prop) : sim (L := L) P eq scan_comment scan_comment.
Proof. sim_tac. Qed.
Lemma sim_scan_raw_text_expr (P : Scanner → Scanner → Prop) t :
  sim (L := L) P eq (scan_raw_text_expr t) (scan_raw_text_expr t).
Proof. sim_tac. Qed.

(** ** The parts that see the open elements *)

Local Abbreviation sim_to P m1 m2 := (sim_to (L := L) P same_tags eq m1 m2).

Lemma at_same s1 s2 ts : scanner_repr s1 ts → scanner_repr s2 ts →
  ∀ t1 t2, at_state s1 s2 t1 t2 → same_tags t1 t2.
Proof. intros H1 H2 t1 t2 [-> ->]. by exists ts. Qed.

Lemma sim_pop_tag s1 s2 ts a t : few (ts ++ [a]) → scanner_repr s1 (ts ++ [a]) → scanner_repr s2 (ts ++ [a]) →
  sim_to (at_state s1 s2) (pop_tag t) (pop_tag t).
Proof.
  intros Hf H1 H2. apply sim_to_get. intros t1 t2 [-> ->].
  assert (Z.of_nat (length ts) < 18446744073709551615) as Hl by (unfold few in Hf; rewrite length_app in Hf; cbn in Hf; lia).
  eapply sim_to_bind; [apply (sim_to_set _ same_tags)|].
  - exists ts. by split; eapply scanner_repr_pop.
  - intros _ _ _. apply sim_to_intro; [sim_tac|done].
Qed.

(** The number of open elements; the last one. *)
Lemma same_count s1 s2 ts : scanner_repr s1 ts → scanner_repr s2 ts → count (tags s1) = count (tags s2).
Proof. intros [H1 _] [H2 _]. by rewrite (tags_repr_count _ _ H1), (tags_repr_count _ _ H2). Qed.

Lemma count_snoc s ts : scanner_repr s ts → (count (tags s) =? 0) = false → ∃ ts' a, ts = ts' ++ [a].
Proof.
  intros [H _]. rewrite (tags_repr_count _ _ H). destruct ts as [|x ts _] using rev_ind; [done|]. intros _. by exists ts, x.
Qed.

Lemma sim_scan_raw_text : sim_to same_few scan_raw_text scan_raw_text.
Proof.
  apply sim_to_get. intros s1 s2 (ts&_&H1&H2). cbv zeta. rewrite (same_count s1 s2 ts H1 H2).
  destruct (count (tags s2) =? 0) eqn:E; [apply sim_to_ret; [done|by eapply at_same]|].
  destruct (count_snoc s2 ts H2 E) as (ts'&a&->). apply sim_to_bind_eq; [sim_tac|intros _].
  destruct H1 as [T1 M1], H2 as [T2 M2].
  destruct (tags_repr_back _ _ _ T1) as (e1&P1&E1), (tags_repr_back _ _ _ T2) as (e2&P2&E2).
  rewrite (get_type_rel _ _ _ P1 E1), (get_type_rel _ _ _ P2 E2).
  apply sim_to_intro; [sim_tac|by apply (at_same s1 s2 (ts' ++ [a]))].
Qed.

Lemma sim_implicit_end_tag_of s1 s2 ts b next a : few ts → scanner_repr s1 ts → scanner_repr s2 ts → tag_rel next a →
  sim_to (at_state s1 s2) (implicit_end_tag_of b (next, 0)) (implicit_end_tag_of b (next, 0)).
Proof.
  intros Hf H1 H2 Ha. apply sim_to_get. intros t1 t2 [-> ->]. cbv zeta. rewrite (same_count s1 s2 ts H1 H2).
  destruct (count (tags s2) =? 0) eqn:E.
  - assert (ts = []) as -> by (destruct H2 as [H2 _]; rewrite (tags_repr_count _ _ H2) in E; destruct ts; [done|cbn in E; lia]).
    destruct b; [|apply sim_to_intro; [|by eapply at_same]; apply (sim_bind _ (λ x y, x = false ∧ y = false)); [by apply sim_ret|];
      intros ? ? [-> ->]; by apply sim_ret].
    rewrite (findTag_rel _ [] _ next a), (findTag_rel _ [] _ next a) by (apply H1 || apply H2 || done).
    rewrite bool_decide_false by apply not_elem_of_nil. apply sim_to_intro; [|by eapply at_same].
    apply (sim_bind _ (λ x y, x = false ∧ y = false)); [by apply sim_ret|]. intros ? ? [-> ->]. apply (sim_lift_bind _ (λ x y, x = false ∧ y = false)); [done|].
    intros ? ? [-> ->]. by apply sim_ret.
  - destruct (count_snoc s2 ts H2 E) as (ts'&x&->). pose proof H1 as [T1 _]. pose proof H2 as [T2 _].
    destruct (tags_repr_back _ _ _ T1) as (e1&P1&E1), (tags_repr_back _ _ _ T2) as (e2&P2&E2).
    destruct b.
    + eapply sim_to_lift; [by eapply compareTags_rel; [exact P1|apply points_block|..]|by eapply compareTags_rel; [exact P2|apply points_block|..]|].
      case_bool_decide; [apply sim_to_ret; [done|by eapply at_same]|].
      eapply sim_to_lift; [by eapply findTag_rel; [|apply points_block|]|by eapply findTag_rel; [|apply points_block|]|].
      case_bool_decide; [by eapply sim_pop_tag|apply sim_to_ret; [done|by eapply at_same]].
    + apply (sim_to_bind_sim _ _ eq); [|intros c ? <-; destruct c; [by eapply sim_pop_tag|apply sim_to_ret; [done|by eapply at_same]]].
      apply (sim_lift_bind _ eq); [|by intros z ? <-; apply sim_ret].
      unfold same_outcome. erewrite can_contain_rel; [|exact P1|apply points_block|exact E1|exact Ha].
      by erewrite can_contain_rel; [|exact P2|apply points_block|exact E2|exact Ha].
Qed.

(** The tag of the name that was read. *)
Lemma sim_to_for_name s1 s2 ts tag_name (k1 k2 : Tag → M L Scanner bool) chars : scanner_repr s1 ts → scanner_repr s2 ts →
  str_repr tag_name chars →
  (∀ t a, tag_rel (tag_cells t) a → sim_to (at_state s1 s2) (k1 t) (k2 t)) →
  sim_to (at_state s1 s2) (bind (lift (for_name (m s1) tag_name)) k1) (bind (lift (for_name (m s2) tag_name)) k2).
Proof.
  intros H1 H2 Hs Hk. rewrite (same_table s1 s2 ts) by done.
  destruct (for_name (m s2) tag_name) as [t| | |] eqn:E; [|by intros ?????..].
  destruct (for_name_is_tag _ _ _ _ (proj2 H2) Hs E) as [a Ha]. eapply sim_to_lift; [done|done|]. by eapply Hk.
Qed.

Lemma sim_implicit_end_tag_name b : sim_to same_few (implicit_end_tag_name b) (implicit_end_tag_name b).
Proof.
  eapply sim_to_bind_sim; [apply sim_scan_tag_name|]. intros tag_name ? [<- Hn].
  destruct (slength tag_name =? 0) eqn:E; [apply sim_to_ret; [done|apply same_few_tags]|].
  destruct (named_repr _ Hn E) as [chars Hc]. apply sim_to_get. intros s1 s2 (ts&Hf&H1&H2).
  eapply sim_to_for_name; [done..|]. intros t a Ha. by eapply sim_implicit_end_tag_of.
Qed.

Lemma sim_scan_implicit_end_tag : sim_to same_few scan_implicit_end_tag scan_implicit_end_tag.
Proof.
  apply sim_to_get. intros s1 s2 (ts&Hf&H1&H2). cbv zeta.
  assert (∀ b, sim_to (at_state s1 s2) (implicit_end_tag_name b) (implicit_end_tag_name b)) as Hname.
  { intros b. eapply sim_to_weaken; [|apply sim_implicit_end_tag_name]. intros t1 t2 [-> ->]. by exists ts. }
  apply sim_to_bind_eq; [sim_tac|intros c]. destruct (c =? _).
  - apply sim_to_bind_eq; [sim_tac|intros _]. apply Hname.
  - rewrite (same_count s1 s2 ts H1 H2). destruct (count (tags s2) =? 0) eqn:E.
    + apply (sim_to_bind_sim _ _ (λ x y, x = false ∧ y = false)); [by apply sim_ret|]. intros ? ? [-> ->]. apply Hname.
    + destruct (count_snoc s2 ts H2 E) as (ts'&x&->).
      destruct (tags_repr_back _ _ _ (proj1 H1)) as (e1&P1&E1), (tags_repr_back _ _ _ (proj1 H2)) as (e2&P2&E2).
      eapply sim_to_lift; [by eapply is_void_rel|by eapply is_void_rel|].
      destruct (_ <? _); [by eapply sim_pop_tag|apply Hname].
Qed.

Lemma sim_scan_start_tag_name : sim_to same_few scan_start_tag_name scan_start_tag_name.
Proof.
  eapply sim_to_bind_sim; [apply sim_scan_tag_name|]. intros tag_name ? [<- Hn].
  destruct (slength tag_name =? 0) eqn:E; [apply sim_to_ret; [done|apply same_few_tags]|].
  destruct (named_repr _ Hn E) as [chars Hc]. apply sim_to_get. intros s1 s2 (ts&Hf&H1&H2).
  eapply sim_to_for_name; [done..|]. intros t a Ha. destruct H1 as [T1 N1], H2 as [T2 N2].
  destruct (tags_repr_push _ _ _ _ T1 Ha) as (v1&E1&V1), (tags_repr_push _ _ _ _ T2 Ha) as (v2&E2&V2).
  rewrite E1, E2. apply (sim_to_bind_sim _ _ (λ x y, x = v1 ∧ y = v2)); [by apply sim_lift|]. intros ? ? [-> ->].
  eapply sim_to_bind; [apply (sim_to_set _ same_tags)|].
  - exists (ts ++ [a]). split; by split.
  - intros _ _ _. apply sim_to_intro; [sim_tac|done].
Qed.

Lemma sim_scan_end_tag_name : sim_to same_few scan_end_tag_name scan_end_tag_name.
Proof.
  eapply sim_to_bind_sim; [apply sim_scan_tag_name|]. intros tag_name ? [<- Hn].
  destruct (slength tag_name =? 0) eqn:E; [apply sim_to_ret; [done|apply same_few_tags]|].
  destruct (named_repr _ Hn E) as [chars Hc]. apply sim_to_get. intros s1 s2 (ts&Hf&H1&H2).
  eapply sim_to_for_name; [done..|]. intros t a Ha. cbv zeta. rewrite (same_count s1 s2 ts H1 H2).
  pose proof (tags_repr_count _ _ (proj1 H2)) as Hcount.
  assert (sim_to (at_state s1 s2) (set_result ERRONEOUS_END_TAG_NAME;; ret true)
    (set_result ERRONEOUS_END_TAG_NAME;; ret true)) as Hbad.
  { apply sim_to_intro; [sim_tac|by eapply at_same]. }
  destruct (0 <? count (tags s2)) eqn:E0.
  - destruct (count_snoc s2 ts H2) as (ts'&x&->); [lia|].
    destruct (tags_repr_back _ _ _ (proj1 H1)) as (e1&P1&E1), (tags_repr_back _ _ _ (proj1 H2)) as (e2&P2&E2).
    eapply sim_to_lift; [by eapply compareTags_rel; [exact P1|apply points_block|..]|by eapply compareTags_rel; [exact P2|apply points_block|..]|].
    case_bool_decide; [by eapply sim_pop_tag|exact Hbad].
  - apply (sim_to_bind_sim _ _ (λ x y, x = false ∧ y = false)); [by apply sim_ret|]. intros ? ? [-> ->]. exact Hbad.
Qed.

Lemma sim_scan_self_closing : sim_to same_few scan_self_closing_tag_delimiter scan_self_closing_tag_delimiter.
Proof.
  do 2 (apply sim_to_bind_eq; [sim_tac|intros ?]). destruct (_ =? _); [|apply sim_to_ret; [done|apply same_few_tags]].
  apply sim_to_bind_eq; [sim_tac|intros _]. apply sim_to_get. intros s1 s2 (ts&Hf&H1&H2).
  rewrite (same_count s1 s2 ts H1 H2). destruct (count (tags s2) =? 0) eqn:E; cbn [negb].
  - apply sim_to_ret; [done|by eapply at_same].
  - destruct (count_snoc s2 ts H2 E) as (ts'&x&->). by eapply sim_pop_tag.
Qed.

(** ** The scan *)

Lemma sim_to_plain {A} (m1 : M L Scanner A) : sim (L := L) same_few eq m1 m1 → sim_to same_few m1 m1.
Proof. intros H. apply sim_to_intro; [done|apply same_few_tags]. Qed.

Lemma sim_svelte_scan vs : sim_to same_few (tree_sitter_svelte_external_scanner_scan vs) (tree_sitter_svelte_external_scanner_scan vs).
Proof.
  apply sim_to_bind_eq; [sim_tac|intros _]. unfold scan_token.
  do 2 (destruct (_ && _); [apply sim_to_plain, sim_scan_raw_text_expr|]).
  destruct (vs RAW_TEXT_EXPR); [apply sim_to_plain; sim_tac|].
  destruct (_ && _); [apply sim_scan_raw_text|]. apply sim_to_bind_eq; [sim_tac|intros c].
  destruct (c =? _).
  { do 3 (apply sim_to_bind_eq; [sim_tac|intros ?]). destruct (_ =? _).
    - apply sim_to_plain. apply sim_bind_eq; [sim_tac|intros _]. apply sim_scan_comment.
    - destruct (vs IMPLICIT_END_TAG); [apply sim_scan_implicit_end_tag|apply sim_to_plain; sim_tac]. }
  destruct (c =? _); [destruct (vs IMPLICIT_END_TAG); [apply sim_scan_implicit_end_tag|apply sim_to_plain; sim_tac]|].
  destruct (c =? _); [destruct (vs SELF_CLOSING_TAG_DELIMITER); [apply sim_scan_self_closing|apply sim_to_plain; sim_tac]|].
  destruct (_ && _); [|apply sim_to_plain; sim_tac].
  destruct (vs START_TAG_NAME); [apply sim_scan_start_tag_name|apply sim_scan_end_tag_name].
Qed.
End replay.

(** C19: restoring what was saved is as good as going on: when all open elements fit
    and the restored vector has room, the scan from the restored scanner gives the
    token of the scan from the saved one, leaves the lexer at the same place, and
    the same elements open. *)
Theorem svelte_replay {L} {HL : TSLexer L} {HW : WCType} {HS : TSLexerSpec L}
    (valid_symbols : TokenType → bool) n l y s ts s0 ts0 :
  (rem (view_of l) < n)%nat → Z.of_nat (rem (view_of l)) < 2147483648 →
  words_safe valid_symbols (v_rest (view_of l)) →
  scanner_repr s ts → Forall tag_ok ts → fitting 4 ts = length ts →
  scanner_repr s0 ts0 → resize_fits 32 (tags s0) (length ts) →
  ∃ buffer s' r l' y' s1 s2 ts',
    tree_sitter_svelte_external_scanner_serialize s = Done buffer
    ∧ tree_sitter_svelte_external_scanner_deserialize s0 buffer = Done s'
    ∧ tree_sitter_svelte_external_scanner_scan valid_symbols n (mkst l y s) = Done (r, mkst l' y' s1)
    ∧ tree_sitter_svelte_external_scanner_scan valid_symbols n (mkst l y s') = Done (r, mkst l' y' s2)
    ∧ scanner_repr s1 ts' ∧ scanner_repr s2 ts'.
Proof.
  intros Hn H31 Hw Hs Hok Hfit H0 Hroom. pose proof (fitting_few _ Hfit) as Hfew.
  destruct (deserialize_rel s0 ts ts0 (proj1 H0) Hok Hfit Hroom) as (s'&Hd&Hr&Hm).
  assert (scanner_repr s' ts) as Hs' by (split; [done|rewrite Hm; apply H0]).
  assert (few ts) as Hf by (unfold few; lia).
  destruct (wp_run _ n l y s _ (wp_svelte_scan valid_symbols ts n _ y s Hn H31 Hf Hs Hw)) as (r&l1&y1&s1&E1&_).
  destruct (wp_run _ n l y s' _ (wp_svelte_scan valid_symbols ts n _ y s' Hn H31 Hf Hs' Hw)) as (r2&l2&y2&s2&E2&_).
  pose proof (sim_svelte_scan valid_symbols n l y s s' ltac:(by exists ts)) as Hsim. rewrite E1, E2 in Hsim.
  destruct Hsim as (<-&Hl&Hy&ts'&R1&R2). cbn in Hl, Hy, R1, R2. subst l2 y2.
  exists (encode_tags ts), s', r, l1, y1, s1, s2, ts'. split_and!; try done.
  by apply serialize_rel; [apply Hs|].
Qed.

(** With a [div] and a [foo] open, in front of the end tag of [div]. *)
Lemma svelte_replay_witness :
  ∃ table, name_table table ∧
  ∃ buffer s' r l' y' s1 s2 ts',
    tree_sitter_svelte_external_scanner_serialize (example_open table) = Done buffer
    ∧ tree_sitter_svelte_external_scanner_deserialize (mkScanner (vc_vector_create 2 TAG_SIZE) table) buffer = Done s'
    ∧ tree_sitter_svelte_external_scanner_scan (only [IMPLICIT_END_TAG]) 20%nat (mkst (input (cstr "</div>")) 0 (example_open table))
      = Done (r, mkst l' y' s1)
    ∧ tree_sitter_svelte_external_scanner_scan (only [IMPLICIT_END_TAG]) 20%nat (mkst (input (cstr "</div>")) 0 s')
      = Done (r, mkst l' y' s2)
    ∧ scanner_repr s1 ts' ∧ scanner_repr s2 ts'.
Proof.
  destruct name_table_exists as (table&Ht). exists table. split; [done|].
  refine (svelte_replay (only [IMPLICIT_END_TAG]) 20%nat (input (cstr "</div>")) 0 (example_open table) example_tags
    (mkScanner (vc_vector_create 2 TAG_SIZE) table) [] _ _ _ (example_open_repr table Ht) example_tags_ok _ _ _).
  - vm_compute; lia.
  - by vm_compute.
  - by intros ?.
  - by vm_compute.
  - split; [apply example_fresh_repr|done].
  - left. by vm_compute.
Defined.
