(* ===== verification/SvelteLex.v ===== *)
(** * The lexer of the Svelte parser

    [ts_lex] of [grammar-src/parser.c], which lexes what the external scanner does
    not: its switch, translated case by case, and the tokens of [grammar.json],
    whose longest match it gives. *)

From S2P Require Import Prelude Scan Logic Regex Lexer.

(** Symbols of the tokens ([enum ts_symbol_identifiers]). *)
Definition ts_builtin_sym_end : Z := 0.
Definition anon_sym_LT : Z := 1.
Definition anon_sym_GT : Z := 2.
Definition anon_sym_SLASH_GT : Z := 3.
Definition anon_sym_LT_SLASH : Z := 4.
Definition anon_sym_EQ : Z := 5.
Definition aux_sym_attribute_name_token1 : Z := 6.
Definition anon_sym_SQUOTE : Z := 7.
Definition aux_sym_quoted_attribute_value_token1 : Z := 8.
Definition anon_sym_DQUOTE : Z := 9.
Definition aux_sym_quoted_attribute_value_token2 : Z := 10.
Definition aux_sym__text_token1 : Z := 11.
Definition anon_sym_LBRACE_RBRACE : Z := 12.
Definition anon_sym_LBRACE : Z := 13.
Definition anon_sym_RBRACE : Z := 14.
Definition anon_sym_AT : Z := 15.
Definition anon_sym_html : Z := 16.
Definition anon_sym_const : Z := 17.
Definition anon_sym_render : Z := 18.
Definition aux_sym_render_expr_token1 : Z := 19.
Definition anon_sym_LPAREN : Z := 20.
Definition aux_sym_render_expr_token2 : Z := 21.
Definition anon_sym_RPAREN : Z := 22.
Definition anon_sym_debug : Z := 23.
Definition anon_sym_POUND : Z := 24.
Definition anon_sym_if : Z := 25.
Definition anon_sym_COLON : Z := 26.
Definition anon_sym_else : Z := 27.
Definition anon_sym_SLASH : Z := 28.
Definition anon_sym_each : Z := 29.
Definition anon_sym_as : Z := 30.
Definition anon_sym_await : Z := 31.
Definition anon_sym_then : Z := 32.
Definition anon_sym_catch : Z := 33.
Definition anon_sym_snippet : Z := 34.
Definition anon_sym_key : Z := 35.

Definition aux_sym_attribute_name_token1_character_set_1 : list TSCharacterRange :=
  [mkRange 0 8; mkRange 14 31; mkRange 33 33; mkRange 35 38; mkRange 40 46; mkRange 48 59; mkRange 63 122;
   mkRange 124 124; mkRange 126 1114111].

(** The switch of [ts_lex]. *)
Definition ts_lex_switch (state : Z) : option lex_case :=
  match state with
  | 0 => Some (mkcase None (λ eof lookahead,
      if eof then Done (ADVANCE 49) else
      ADVANCE_MAP [(34, 59); (35, 77); (39, 56); (40, 72); (41, 75); (47, 82); (58, 79); (60, 50); (61, 54); (62, 51); (64, 67); (97, 37); (99, 8); (100, 14); (101, 7); (104, 40); (105, 21); (107, 15); (114, 18); (115, 30); (116, 25); (123, 65); (125, 66)] lookahead
      (if ((9 <=? lookahead) && (lookahead <=? 13)) || (lookahead =? 32) then Done (SKIP 0) else
      Done END_STATE)))
  | 1 => Some (mkcase None (λ _ lookahead,
      if (lookahead =? 34) then Done (ADVANCE 59) else
      if (lookahead =? 39) then Done (ADVANCE 56) else
      if (lookahead =? 47) then Done (ADVANCE 6) else
      if (lookahead =? 61) then Done (ADVANCE 54) else
      if (lookahead =? 62) then Done (ADVANCE 51) else
      if (lookahead =? 123) then Done (ADVANCE 64) else
      if ((9 <=? lookahead) && (lookahead <=? 13)) || (lookahead =? 32) then Done (SKIP 1) else
      if negb (lookahead =? 0) && ((lookahead <? 60) || (62 <? lookahead)) && negb (lookahead =? 125) then Done (ADVANCE 55) else
      Done END_STATE))
  | 2 => Some (mkcase None (λ _ lookahead,
      if (lookahead =? 34) then Done (ADVANCE 59) else
      if ((9 <=? lookahead) && (lookahead <=? 13)) || (lookahead =? 32) then Done (ADVANCE 60) else
      if negb (lookahead =? 0) then Done (ADVANCE 61) else
      Done END_STATE))
  | 3 => Some (mkcase None (λ _ lookahead,
      if (lookahead =? 35) then Done (ADVANCE 77) else
      if (lookahead =? 47) then Done (ADVANCE 81) else
      if (lookahead =? 58) then Done (ADVANCE 79) else
      if (lookahead =? 64) then Done (ADVANCE 67) else
      if ((9 <=? lookahead) && (lookahead <=? 13)) || (lookahead =? 32) then Done (SKIP 3) else
      if (lookahead =? 36) || ((65 <=? lookahead) && (lookahead <=? 90)) || (lookahead =? 95) || ((97 <=? lookahead) && (lookahead <=? 122)) then Done (ADVANCE 71) else
      Done END_STATE))
  | 4 => Some (mkcase None (λ _ lookahead,
      if (lookahead =? 39) then Done (ADVANCE 56) else
      if ((9 <=? lookahead) && (lookahead <=? 13)) || (lookahead =? 32) then Done (ADVANCE 57) else
      if negb (lookahead =? 0) then Done (ADVANCE 58) else
      Done END_STATE))
  | 5 => Some (mkcase None (λ _ lookahead,
      if (lookahead =? 41) then Done (ADVANCE 75) else
      if ((9 <=? lookahead) && (lookahead <=? 13)) || (lookahead =? 32) then Done (ADVANCE 73) else
      if negb (lookahead =? 0) then Done (ADVANCE 74) else
      Done END_STATE))
  | 6 => Some (mkcase None (λ _ lookahead,
      if (lookahead =? 62) then Done (ADVANCE 52) else
      Done END_STATE))
  | 7 => Some (mkcase None (λ _ lookahead,
      if (lookahead =? 97) then Done (ADVANCE 11) else
      if (lookahead =? 108) then Done (ADVANCE 38) else
      Done END_STATE))
  | 8 => Some (mkcase None (λ _ lookahead,
      if (lookahead =? 97) then Done (ADVANCE 44) else
      if (lookahead =? 111) then Done (ADVANCE 33) else
      Done END_STATE))
  | 9 => Some (mkcase None (λ _ lookahead,
      if (lookahead =? 97) then Done (ADVANCE 27) else
      Done END_STATE))
  | 10 => Some (mkcase None (λ _ lookahead,
      if (lookahead =? 98) then Done (ADVANCE 45) else
      Done END_STATE))
  | 11 => Some (mkcase None (λ _ lookahead,
      if (lookahead =? 99) then Done (ADVANCE 23) else
      Done END_STATE))
  | 12 => Some (mkcase None (λ _ lookahead,
      if (lookahead =? 99) then Done (ADVANCE 24) else
      Done END_STATE))
  | 13 => Some (mkcase None (λ _ lookahead,
      if (lookahead =? 100) then Done (ADVANCE 17) else
      Done END_STATE))
  | 14 => Some (mkcase None (λ _ lookahead,
      if (lookahead =? 101) then Done (ADVANCE 10) else
      Done END_STATE))
  | 15 => Some (mkcase None (λ _ lookahead,
      if (lookahead =? 101) then Done (ADVANCE 46) else
      Done END_STATE))
  | 16 => Some (mkcase None (λ _ lookahead,
      if (lookahead =? 101) then Done (ADVANCE 80) else
      Done END_STATE))
  | 17 => Some (mkcase None (λ _ lookahead,
      if (lookahead =? 101) then Done (ADVANCE 36) else
      Done END_STATE))
  | 18 => Some (mkcase None (λ _ lookahead,
      if (lookahead =? 101) then Done (ADVANCE 31) else
      Done END_STATE))
  | 19 => Some (mkcase None (λ _ lookahead,
      if (lookahead =? 101) then Done (ADVANCE 32) else
      Done END_STATE))
  | 20 => Some (mkcase None (λ _ lookahead,
      if (lookahead =? 101) then Done (ADVANCE 43) else
      Done END_STATE))
  | 21 => Some (mkcase None (λ _ lookahead,
      if (lookahead =? 102) then Done (ADVANCE 78) else
      Done END_STATE))
  | 22 => Some (mkcase None (λ _ lookahead,
      if (lookahead =? 103) then Done (ADVANCE 76) else
      Done END_STATE))
  | 23 => Some (mkcase None (λ _ lookahead,
      if (lookahead =? 104) then Done (ADVANCE 83) else
      Done END_STATE))
  | 24 => Some (mkcase None (λ _ lookahead,
      if (lookahead =? 104) then Done (ADVANCE 87) else
      Done END_STATE))
  | 25 => Some (mkcase None (λ _ lookahead,
      if (lookahead =? 104) then Done (ADVANCE 19) else
      Done END_STATE))
  | 26 => Some (mkcase None (λ _ lookahead,
      if (lookahead =? 105) then Done (ADVANCE 34) else
      Done END_STATE))
  | 27 => Some (mkcase None (λ _ lookahead,
      if (lookahead =? 105) then Done (ADVANCE 41) else
      Done END_STATE))
  | 28 => Some (mkcase None (λ _ lookahead,
      if (lookahead =? 108) then Done (ADVANCE 68) else
      Done END_STATE))
  | 29 => Some (mkcase None (λ _ lookahead,
      if (lookahead =? 109) then Done (ADVANCE 28) else
      Done END_STATE))
  | 30 => Some (mkcase None (λ _ lookahead,
      if (lookahead =? 110) then Done (ADVANCE 26) else
      Done END_STATE))
  | 31 => Some (mkcase None (λ _ lookahead,
      if (lookahead =? 110) then Done (ADVANCE 13) else
      Done END_STATE))
  | 32 => Some (mkcase None (λ _ lookahead,
      if (lookahead =? 110) then Done (ADVANCE 86) else
      Done END_STATE))
  | 33 => Some (mkcase None (λ _ lookahead,
      if (lookahead =? 110) then Done (ADVANCE 39) else
      Done END_STATE))
  | 34 => Some (mkcase None (λ _ lookahead,
      if (lookahead =? 112) then Done (ADVANCE 35) else
      Done END_STATE))
  | 35 => Some (mkcase None (λ _ lookahead,
      if (lookahead =? 112) then Done (ADVANCE 20) else
      Done END_STATE))
  | 36 => Some (mkcase None (λ _ lookahead,
      if (lookahead =? 114) then Done (ADVANCE 70) else
      Done END_STATE))
  | 37 => Some (mkcase None (λ _ lookahead,
      if (lookahead =? 115) then Done (ADVANCE 84) else
      if (lookahead =? 119) then Done (ADVANCE 9) else
      Done END_STATE))
  | 38 => Some (mkcase None (λ _ lookahead,
      if (lookahead =? 115) then Done (ADVANCE 16) else
      Done END_STATE))
  | 39 => Some (mkcase None (λ _ lookahead,
      if (lookahead =? 115) then Done (ADVANCE 42) else
      Done END_STATE))
  | 40 => Some (mkcase None (λ _ lookahead,
      if (lookahead =? 116) then Done (ADVANCE 29) else
      Done END_STATE))
  | 41 => Some (mkcase None (λ _ lookahead,
      if (lookahead =? 116) then Done (ADVANCE 85) else
      Done END_STATE))
  | 42 => Some (mkcase None (λ _ lookahead,
      if (lookahead =? 116) then Done (ADVANCE 69) else
      Done END_STATE))
  | 43 => Some (mkcase None (λ _ lookahead,
      if (lookahead =? 116) then Done (ADVANCE 88) else
      Done END_STATE))
  | 44 => Some (mkcase None (λ _ lookahead,
      if (lookahead =? 116) then Done (ADVANCE 12) else
      Done END_STATE))
  | 45 => Some (mkcase None (λ _ lookahead,
      if (lookahead =? 117) then Done (ADVANCE 22) else
      Done END_STATE))
  | 46 => Some (mkcase None (λ _ lookahead,
      if (lookahead =? 121) then Done (ADVANCE 89) else
      Done END_STATE))
  | 47 => Some (mkcase None (λ _ lookahead,
      if ((9 <=? lookahead) && (lookahead <=? 13)) || (lookahead =? 32) then Done (ADVANCE 47) else
      if negb (lookahead =? 0) && negb (lookahead =? 60) && negb (lookahead =? 62) && negb (lookahead =? 123) && negb (lookahead =? 125) then Done (ADVANCE 62) else
      Done END_STATE))
  | 48 => Some (mkcase None (λ eof lookahead,
      if eof then Done (ADVANCE 49) else
      if (lookahead =? 60) then Done (ADVANCE 50) else
      if (lookahead =? 123) then Done (ADVANCE 65) else
      if ((9 <=? lookahead) && (lookahead <=? 13)) || (lookahead =? 32) then Done (SKIP 48) else
      if negb (lookahead =? 0) && negb (lookahead =? 62) && negb (lookahead =? 125) then Done (ADVANCE 62) else
      Done END_STATE))
  | 49 => Some (mkcase (Some ts_builtin_sym_end) (λ _ _,
      Done END_STATE))
  | 50 => Some (mkcase (Some anon_sym_LT) (λ _ lookahead,
      if (lookahead =? 47) then Done (ADVANCE 53) else
      Done END_STATE))
  | 51 => Some (mkcase (Some anon_sym_GT) (λ _ _,
      Done END_STATE))
  | 52 => Some (mkcase (Some anon_sym_SLASH_GT) (λ _ _,
      Done END_STATE))
  | 53 => Some (mkcase (Some anon_sym_LT_SLASH) (λ _ _,
      Done END_STATE))
  | 54 => Some (mkcase (Some anon_sym_EQ) (λ _ _,
      Done END_STATE))
  | 55 => Some (mkcase (Some aux_sym_attribute_name_token1) (λ eof lookahead,
      let? b := if negb eof then set_contains aux_sym_attribute_name_token1_character_set_1 9 lookahead else Done false in
      if b then Done (ADVANCE 55) else Done END_STATE))
  | 56 => Some (mkcase (Some anon_sym_SQUOTE) (λ _ _,
      Done END_STATE))
  | 57 => Some (mkcase (Some aux_sym_quoted_attribute_value_token1) (λ _ lookahead,
      if ((9 <=? lookahead) && (lookahead <=? 13)) || (lookahead =? 32) then Done (ADVANCE 57) else
      if negb (lookahead =? 0) && negb (lookahead =? 39) then Done (ADVANCE 58) else
      Done END_STATE))
  | 58 => Some (mkcase (Some aux_sym_quoted_attribute_value_token1) (λ _ lookahead,
      if negb (lookahead =? 0) && negb (lookahead =? 39) then Done (ADVANCE 58) else
      Done END_STATE))
  | 59 => Some (mkcase (Some anon_sym_DQUOTE) (λ _ _,
      Done END_STATE))
  | 60 => Some (mkcase (Some aux_sym_quoted_attribute_value_token2) (λ _ lookahead,
      if ((9 <=? lookahead) && (lookahead <=? 13)) || (lookahead =? 32) then Done (ADVANCE 60) else
      if negb (lookahead =? 0) && negb (lookahead =? 34) then Done (ADVANCE 61) else
      Done END_STATE))
  | 61 => Some (mkcase (Some aux_sym_quoted_attribute_value_token2) (λ _ lookahead,
      if negb (lookahead =? 0) && negb (lookahead =? 34) then Done (ADVANCE 61) else
      Done END_STATE))
  | 62 => Some (mkcase (Some aux_sym__text_token1) (λ _ lookahead,
      if ((9 <=? lookahead) && (lookahead <=? 13)) || (lookahead =? 32) then Done (ADVANCE 47) else
      if negb (lookahead =? 0) && negb (lookahead =? 60) && negb (lookahead =? 62) && negb (lookahead =? 123) && negb (lookahead =? 125) then Done (ADVANCE 62) else
      Done END_STATE))
  | 63 => Some (mkcase (Some anon_sym_LBRACE_RBRACE) (λ _ _,
      Done END_STATE))
  | 64 => Some (mkcase (Some anon_sym_LBRACE) (λ _ _,
      Done END_STATE))
  | 65 => Some (mkcase (Some anon_sym_LBRACE) (λ _ lookahead,
      if (lookahead =? 125) then Done (ADVANCE 63) else
      Done END_STATE))
  | 66 => Some (mkcase (Some anon_sym_RBRACE) (λ _ _,
      Done END_STATE))
  | 67 => Some (mkcase (Some anon_sym_AT) (λ _ _,
      Done END_STATE))
  | 68 => Some (mkcase (Some anon_sym_html) (λ _ _,
      Done END_STATE))
  | 69 => Some (mkcase (Some anon_sym_const) (λ _ _,
      Done END_STATE))
  | 70 => Some (mkcase (Some anon_sym_render) (λ _ _,
      Done END_STATE))
  | 71 => Some (mkcase (Some aux_sym_render_expr_token1) (λ _ lookahead,
      if ((48 <=? lookahead) && (lookahead <=? 57)) || ((65 <=? lookahead) && (lookahead <=? 90)) || (lookahead =? 95) || ((97 <=? lookahead) && (lookahead <=? 122)) then Done (ADVANCE 71) else
      Done END_STATE))
  | 72 => Some (mkcase (Some anon_sym_LPAREN) (λ _ _,
      Done END_STATE))
  | 73 => Some (mkcase (Some aux_sym_render_expr_token2) (λ _ lookahead,
      if ((9 <=? lookahead) && (lookahead <=? 13)) || (lookahead =? 32) then Done (ADVANCE 73) else
      if negb (lookahead =? 0) && negb (lookahead =? 41) then Done (ADVANCE 74) else
      Done END_STATE))
  | 74 => Some (mkcase (Some aux_sym_render_expr_token2) (λ _ lookahead,
      if negb (lookahead =? 0) && negb (lookahead =? 41) then Done (ADVANCE 74) else
      Done END_STATE))
  | 75 => Some (mkcase (Some anon_sym_RPAREN) (λ _ _,
      Done END_STATE))
  | 76 => Some (mkcase (Some anon_sym_debug) (λ _ _,
      Done END_STATE))
  | 77 => Some (mkcase (Some anon_sym_POUND) (λ _ _,
      Done END_STATE))
  | 78 => Some (mkcase (Some anon_sym_if) (λ _ _,
      Done END_STATE))
  | 79 => Some (mkcase (Some anon_sym_COLON) (λ _ _,
      Done END_STATE))
  | 80 => Some (mkcase (Some anon_sym_else) (λ _ _,
      Done END_STATE))
  | 81 => Some (mkcase (Some anon_sym_SLASH) (λ _ _,
      Done END_STATE))
  | 82 => Some (mkcase (Some anon_sym_SLASH) (λ _ lookahead,
      if (lookahead =? 62) then Done (ADVANCE 52) else
      Done END_STATE))
  | 83 => Some (mkcase (Some anon_sym_each) (λ _ _,
      Done END_STATE))
  | 84 => Some (mkcase (Some anon_sym_as) (λ _ _,
      Done END_STATE))
  | 85 => Some (mkcase (Some anon_sym_await) (λ _ _,
      Done END_STATE))
  | 86 => Some (mkcase (Some anon_sym_then) (λ _ _,
      Done END_STATE))
  | 87 => Some (mkcase (Some anon_sym_catch) (λ _ _,
      Done END_STATE))
  | 88 => Some (mkcase (Some anon_sym_snippet) (λ _ _,
      Done END_STATE))
  | 89 => Some (mkcase (Some anon_sym_key) (λ _ _,
      Done END_STATE))
  | _ => None
  end.

Definition ts_lex {L S : Type} `{!TSLexer L} (state : Z) : M L S bool := lex_loop ts_lex_switch state.

(** ** The tokens of the grammar

    The strings and patterns of [grammar.json]; [\s] is the white space that
    [ts_lex] skips. *)

Definition blank : list (Z * Z) := [(9, 13); (32, 32)].

(** The symbols of the strings. *)
Definition strings : list (Z * String.string) := [
  (anon_sym_LT, "<"); (anon_sym_GT, ">"); (anon_sym_SLASH_GT, "/>"); (anon_sym_LT_SLASH, "</"); (anon_sym_EQ, "=");
  (anon_sym_SQUOTE, "'"); (anon_sym_LBRACE_RBRACE, "{}"); (anon_sym_LBRACE, "{"); (anon_sym_RBRACE, "}");
  (anon_sym_AT, "@"); (anon_sym_html, "html"); (anon_sym_const, "const"); (anon_sym_render, "render");
  (anon_sym_LPAREN, "("); (anon_sym_RPAREN, ")"); (anon_sym_debug, "debug"); (anon_sym_POUND, "#"); (anon_sym_if, "if");
  (anon_sym_COLON, ":"); (anon_sym_else, "else"); (anon_sym_SLASH, "/"); (anon_sym_each, "each"); (anon_sym_as, "as");
  (anon_sym_await, "await"); (anon_sym_then, "then"); (anon_sym_catch, "catch"); (anon_sym_snippet, "snippet");
  (anon_sym_key, "key")]%string.

(** The patterns, in the order of the symbols: names of attributes (no blank and
    none of [<>{}/=] and the quotes), values in single and in double quotes, text
    (no [<>{}], and no blank at its ends), names, and what is inside parentheses. *)
Definition patterns : tokens :=
  let c x : Z * Z := (x, x) in
  let text := [c 60; c 62; c 123; c 125] in
  let letters := [(97, 122); (65, 90)] in
  [(aux_sym_attribute_name_token1, some_ (Chars true (text ++ [c 34; c 39; c 47; c 61] ++ blank)));
   (aux_sym_quoted_attribute_value_token1, some_ (Chars true [c 39]));
   (aux_sym_quoted_attribute_value_token2, some_ (Chars true [c 34]));
   (aux_sym__text_token1, Conc (Chars true (text ++ blank))
      (opt_ (Conc (Star (Chars true text)) (Chars true (text ++ blank)))));
   (aux_sym_render_expr_token1, Conc (Chars false (letters ++ [c 36; c 95])) (Star (Chars false (letters ++ [(48, 57); c 95]))));
   (aux_sym_render_expr_token2, some_ (Chars true [c 41]))].

(** All but the double quote, whose string needs an escape. *)
Definition grammar_tokens : tokens :=
  (anon_sym_DQUOTE, char_ 34) :: (prod_map id (λ s, word_ (cstr s)) <$> strings) ++ patterns.

(** The tokens with the symbols of a list, in the order of the grammar. *)
Definition with_symbols (ys : list Z) : tokens := filter (λ t, t.1 ∈ ys) grammar_tokens.

(** The states in which [ts_lex] is started ([ts_lex_modes]), and the tokens that
    each looks for; 0 is the state of error recovery. *)
Definition lex_modes : list Z := [0; 1; 2; 3; 4; 5; 48].

Definition mode_tokens (mode : Z) : tokens :=
  if mode =? 0 then (anon_sym_DQUOTE, char_ 34) :: (prod_map id (λ s, word_ (cstr s)) <$> strings)
  else if mode =? 1 then with_symbols [anon_sym_DQUOTE; anon_sym_SQUOTE; anon_sym_SLASH_GT; anon_sym_EQ; anon_sym_GT; anon_sym_LBRACE;
    aux_sym_attribute_name_token1]
  else if mode =? 2 then with_symbols [anon_sym_DQUOTE; aux_sym_quoted_attribute_value_token2]
  else if mode =? 3 then with_symbols [anon_sym_POUND; anon_sym_SLASH; anon_sym_COLON; anon_sym_AT; aux_sym_render_expr_token1]
  else if mode =? 4 then with_symbols [anon_sym_SQUOTE; aux_sym_quoted_attribute_value_token1]
  else if mode =? 5 then with_symbols [anon_sym_RPAREN; aux_sym_render_expr_token2]
  else with_symbols [anon_sym_LT; anon_sym_LT_SLASH; anon_sym_LBRACE; anon_sym_LBRACE_RBRACE; aux_sym__text_token1].

(** White space is skipped where no token starts with it; the end of the input is
    a token of the text and of error recovery. *)
Definition mode_skips (mode : Z) : bool := bool_decide (mode ∈ [0; 1; 3; 48]).
Definition mode_ends (mode : Z) : bool := bool_decide (mode ∈ [0; 48]).

(** ** The switch implements the tokens

    Every other state is reached from a mode by some characters; what may still
    come there are the derivatives by those characters. *)

Definition lex_paths : list (Z * (Z * list Z)) := [
  (6, (1, [47])); (7, (0, [101])); (8, (0, [99])); (9, (0, [97; 119])); (10, (0, [100; 101])); (11, (0, [101; 97]));
  (12, (0, [99; 97; 116])); (13, (0, [114; 101; 110])); (14, (0, [100])); (15, (0, [107]));
  (16, (0, [101; 108; 115])); (17, (0, [114; 101; 110; 100])); (18, (0, [114])); (19, (0, [116; 104]));
  (20, (0, [115; 110; 105; 112; 112])); (21, (0, [105])); (22, (0, [100; 101; 98; 117])); (23, (0, [101; 97; 99]));
  (24, (0, [99; 97; 116; 99])); (25, (0, [116])); (26, (0, [115; 110])); (27, (0, [97; 119; 97]));
  (28, (0, [104; 116; 109])); (29, (0, [104; 116])); (30, (0, [115])); (31, (0, [114; 101]));
  (32, (0, [116; 104; 101])); (33, (0, [99; 111])); (34, (0, [115; 110; 105])); (35, (0, [115; 110; 105; 112]));
  (36, (0, [114; 101; 110; 100; 101])); (37, (0, [97])); (38, (0, [101; 108])); (39, (0, [99; 111; 110]));
  (40, (0, [104])); (41, (0, [97; 119; 97; 105])); (42, (0, [99; 111; 110; 115]));
  (43, (0, [115; 110; 105; 112; 112; 101])); (44, (0, [99; 97])); (45, (0, [100; 101; 98])); (46, (0, [107; 101]));
  (47, (48, [97; 32])); (50, (0, [60])); (51, (0, [62])); (52, (0, [47; 62])); (53, (0, [60; 47])); (54, (0, [61]));
  (55, (1, [97])); (56, (0, [39])); (57, (4, [32])); (58, (4, [97])); (59, (0, [34])); (60, (2, [32]));
  (61, (2, [97])); (62, (48, [97])); (63, (0, [123; 125])); (64, (1, [123])); (65, (0, [123])); (66, (0, [125]));
  (67, (0, [64])); (68, (0, [104; 116; 109; 108])); (69, (0, [99; 111; 110; 115; 116]));
  (70, (0, [114; 101; 110; 100; 101; 114])); (71, (3, [97])); (72, (0, [40])); (73, (5, [32])); (74, (5, [97]));
  (75, (0, [41])); (76, (0, [100; 101; 98; 117; 103])); (77, (0, [35])); (78, (0, [105; 102])); (79, (0, [58]));
  (80, (0, [101; 108; 115; 101])); (81, (3, [47])); (82, (0, [47])); (83, (0, [101; 97; 99; 104]));
  (84, (0, [97; 115])); (85, (0, [97; 119; 97; 105; 116])); (86, (0, [116; 104; 101; 110]));
  (87, (0, [99; 97; 116; 99; 104])); (88, (0, [115; 110; 105; 112; 112; 101; 116])); (89, (0, [107; 101; 121]))].

Definition lex_states : list Z := lex_modes ++ (fst <$> lex_paths).

Definition state_tokens (state : Z) : tokens :=
  match List.find (λ p, p.1 =? state) lex_paths with
  | Some (_, (mode, path)) => foldl (λ T c, derive c T) (mode_tokens mode) path
  | None => mode_tokens state
  end.

Definition svelte_lex_spec : lex_spec := mkspec state_tokens mode_skips mode_ends.

Lemma set_contains_high c : 128 ≤ c ≤ 1114111 →
  set_contains aux_sym_attribute_name_token1_character_set_1 9 c = Done true.
Proof.
  intros Hc. unfold set_contains.
  assert (ranges_sorted aux_sym_attribute_name_token1_character_set_1) by (repeat split; repeat constructor; cbn; lia).
  rewrite set_contains_window; try done.
  - f_equal. cbn. unfold in_range. cbn. lia.
  - vm_compute. lia.
  - intros i r Hi _. apply lookup_lt_Some in Hi. change (to_u32 (9 - 0)) with 9. cbn in Hi. lia.
Qed.

(** A test of a character above the tests of the switch is that of 128. *)
Ltac same_test c := repeat match goal with
  | |- context [c =? ?k] => replace (c =? k) with (128 =? k) by lia
  | |- context [?k =? c] => replace (k =? c) with (k =? 128) by lia
  | |- context [c <=? ?k] => replace (c <=? k) with (128 <=? k) by lia
  | |- context [?k <=? c] => replace (k <=? c) with (k <=? 128) by lia
  | |- context [c <? ?k] => replace (c <? k) with (128 <? k) by lia
  | |- context [?k <? c] => replace (k <? c) with (k <? 128) by lia
  end.

Lemma ts_lex_high s k c : ts_lex_switch s = Some k → 128 ≤ c ≤ 1114111 → next k false c = next k false 128.
Proof.
  intros Hk Hc. unfold ts_lex_switch in Hk. repeat case_match; simplify_eq; cbn [next]; try reflexivity;
    solve [cbn [negb]; by rewrite !set_contains_high by lia|cbn [ADVANCE_MAP]; same_test c; reflexivity].
Qed.

Lemma svelte_switch_checked : forallb (state_ok ts_lex_switch svelte_lex_spec lex_states) lex_states = true.
Proof. vm_compute. reflexivity. Qed.

Lemma svelte_tokens_low : forallb (λ s, forallb (λ t, low t.2) (state_tokens s)) lex_states = true.
Proof. vm_compute. reflexivity. Qed.

Lemma svelte_switch_implements : implements ts_lex_switch svelte_lex_spec lex_states.
Proof. apply implements_check; [apply svelte_switch_checked|apply svelte_tokens_low|apply ts_lex_high]. Qed.

Lemma mode_states mode : mode ∈ lex_modes → mode ∈ lex_states ∧ state_tokens mode = mode_tokens mode.
Proof.
  intros Hm. split; [apply elem_of_app; by left|]. unfold lex_modes in Hm.
  repeat (apply elem_of_cons in Hm as [->|Hm]; [reflexivity|]). by apply elem_of_nil in Hm.
Qed.

(** C10: in every mode, and on every text of code points other than NUL, [ts_lex]
    returns; behind the white space that the mode skips, it finds the longest text
    that is a token of the grammar in that mode, reports the symbol of that token, of
    which there is only one, or the end of the input where that is a token; and it
    returns [false] exactly when there is neither. *)
Theorem svelte_lex_tokens {L S : Type} `{HS : TSLexerSpec L} mode n l y (p : S) :
  mode ∈ lex_modes → Forall (λ c, is_char c = true) (v_rest (view_of l)) →
  (rem (view_of l) + 1 < n)%nat → at_start (view_of l) →
  let rest := if mode_skips mode then drop (span ascii_space (v_rest (view_of l))) (v_rest (view_of l))
              else v_rest (view_of l) in
  ∃ r l' y', ts_lex mode n (mkst l y p) = Done (r, mkst l' y' p)
    ∧ if r then lexed (mode_tokens mode) (mode_ends mode) rest y' (token_text (view_of l'))
      else not_lexed (mode_tokens mode) (mode_ends mode) rest.
Proof.
  intros Hm Hc Hn Hst. destruct (mode_states mode Hm) as [Hs <-].
  by apply (lex_loop_lexed ts_lex_switch svelte_lex_spec lex_states mode n l y p svelte_switch_implements).
Qed.

(** The text [{:else if x}] behind the brace, in the mode of error recovery. *)
Lemma svelte_lex_tokens_witness :
  let v := input (cstr "  else if") in
  ∃ r l' y', ts_lex 0 20%nat (mkst v 99 tt) = Done (r, mkst l' y' tt)
    ∧ if r then lexed (mode_tokens 0) true (cstr "else if") y' (token_text l')
      else not_lexed (mode_tokens 0) true (cstr "else if").
Proof.
  apply (svelte_lex_tokens (HS := list_lexer_spec) 0 20%nat (input (cstr "  else if")) 99 tt).
  - vm_compute. by left.
  - repeat constructor.
  - vm_compute. lia.
  - by split.
Defined.

(** What it computes there, and two more inputs: text loses the blanks at its
    end; the end of a value in quotes is not part of it. *)
Definition lexed_token (mode : Z) (s : String.string) : outcome (bool * Z * list Z) :=
  match ts_lex mode (length (cstr s) + 2)%nat (mkst (input (cstr s)) 99 tt) with
  | Done (r, s) => Done (r, sym s, token_text (lex s))
  | OutOfFuel => OutOfFuel
  | Aborted => Aborted
  | Undefined => Undefined
  end.

Example lex_else : lexed_token 0 "  else if" = Done (true, anon_sym_else, cstr "else").
Proof. reflexivity. Qed.
Example lex_text : lexed_token 48 " a  b  <" = Done (true, aux_sym__text_token1, cstr "a  b").
Proof. reflexivity. Qed.
Example lex_value : lexed_token 4 "x y'>" = Done (true, aux_sym_quoted_attribute_value_token1, cstr "x y").
Proof. reflexivity. Qed.

(** The patterns of the grammar allow NUL, and [ts_lex] ends most of their tokens
    in front of one; but it keeps NUL in the name of an attribute. *)
Example lex_nul :
  match ts_lex 4 9%nat (mkst (input [97; 0; 98; 39]) 99 tt), ts_lex 1 9%nat (mkst (input [97; 0; 98; 61]) 99 tt) with
  | Done (true, s1), Done (true, s2) =>
      token_text (lex s1) = [97] ∧ matches (some_ (Chars true [(39, 39)])) [97; 0; 98] ∧ token_text (lex s2) = [97; 0; 98]
  | _, _ => False
  end.
Proof.
  vm_compute. split_and!; [done| |done]. apply (matches_conc _ _ [97]); [by constructor|].
  apply (matches_star_app _ [0]); [by constructor|]. apply (matches_star_app _ [98]); [by constructor|constructor].
Qed.
