(* ===== verification/PerlKeywords.v ===== *)
(** * Keywords of the Perl scanner

    [tsp_intuit_keywords.h]: the decision tree over the characters of a word. *)

From S2P Require Import Prelude.

(** [s[i]] *)
Definition char_at (s : list Z) (i : nat) : outcome Z :=
  match s !! i with Some c => Done c | None => Undefined end.

(** [s[i] == w[0] && s[i + 1] == w[1] && ...] *)
Fixpoint all_at (s : list Z) (i : nat) (w : list Z) : outcome bool :=
  match w with
  | [] => Done true
  | c :: w => let? x := char_at s i in if x =? c then all_at s (S i) w else Done false
  end.

Fixpoint select (x : Z) (cases : list (Z * outcome bool)) : outcome bool :=
  match cases with
  | [] => Done false
  | (c, o) :: cases => if x =? c then o else select x cases
  end.

(** [switch (s[i])] with a [return] in every case, and [return false] behind it. *)
Definition switch (s : list Z) (i : nat) (cases : list (Z * outcome bool)) : outcome bool :=
  let? x := char_at s i in select x cases.

Definition keyword_1 (s : list Z) : outcome bool :=
  switch s 0 [
    ("m", Done true);
    ("q", Done true);
    ("s", Done true);
    ("x", Done true);
    ("y", Done true)].

Definition keyword_2 (s : list Z) : outcome bool :=
  switch s 0 [
    ("d", all_at s 1 (cstr "o"));
    ("e", all_at s 1 (cstr "q"));
    ("f", all_at s 1 (cstr "c"));
    ("g", switch s 1 [
      ("e", Done true);
      ("t", Done true)]);
    ("i", all_at s 1 (cstr "f"));
    ("l", switch s 1 [
      ("c", Done true);
      ("e", Done true);
      ("t", Done true)]);
    ("m", all_at s 1 (cstr "y"));
    ("n", switch s 1 [
      ("e", Done true);
      ("o", Done true)]);
    ("o", all_at s 1 (cstr "r"));
    ("q", switch s 1 [
      ("q", Done true);
      ("r", Done true);
      ("w", Done true);
      ("x", Done true)]);
    ("t", all_at s 1 (cstr "r"));
    ("u", all_at s 1 (cstr "c"))].

Definition keyword_3 (s : list Z) : outcome bool :=
  switch s 0 [
    ("E", all_at s 1 (cstr "ND"));
    ("a", switch s 1 [
      ("b", all_at s 2 (cstr "s"));
      ("n", all_at s 2 (cstr "d"))]);
    ("c", switch s 1 [
      ("h", all_at s 2 (cstr "r"));
      ("m", all_at s 2 (cstr "p"));
      ("o", all_at s 2 (cstr "s"))]);
    ("d", all_at s 1 (cstr "ie"));
    ("e", switch s 1 [
      ("o", all_at s 2 (cstr "f"));
      ("x", all_at s 2 (cstr "p"))]);
    ("f", all_at s 1 (cstr "or"));
    ("h", all_at s 1 (cstr "ex"));
    ("i", switch s 1 [
      ("n", all_at s 2 (cstr "t"));
      ("s", all_at s 2 (cstr "a"))]);
    ("l", all_at s 1 (cstr "og"));
    ("m", all_at s 1 (cstr "ap"));
    ("n", all_at s 1 (cstr "ot"));
    ("o", switch s 1 [
      ("c", all_at s 2 (cstr "t"));
      ("r", all_at s 2 (cstr "d"));
      ("u", all_at s 2 (cstr "r"))]);
    ("p", switch s 1 [
      ("o", switch s 2 [
        ("p", Done true);
        ("s", Done true)])]);
    ("r", all_at s 1 (cstr "ef"));
    ("s", switch s 1 [
      ("a", all_at s 2 (cstr "y"));
      ("i", all_at s 2 (cstr "n"));
      ("u", all_at s 2 (cstr "b"))]);
    ("t", switch s 1 [
      ("i", all_at s 2 (cstr "e"));
      ("r", all_at s 2 (cstr "y"))]);
    ("u", all_at s 1 (cstr "se"));
    ("v", all_at s 1 (cstr "ec"));
    ("x", all_at s 1 (cstr "or"))].

Definition keyword_4 (s : list Z) : outcome bool :=
  switch s 0 [
    ("I", all_at s 1 (cstr "NIT"));
    ("b", all_at s 1 (cstr "ind"));
    ("c", all_at s 1 (cstr "hop"));
    ("d", all_at s 1 (cstr "ump"));
    ("e", switch s 1 [
      ("a", all_at s 2 (cstr "ch"));
      ("l", all_at s 2 (cstr "se"));
      ("v", all_at s 2 (cstr "al"));
      ("x", switch s 2 [
        ("e", all_at s 3 (cstr "c"));
        ("i", all_at s 3 (cstr "t"))])]);
    ("f", all_at s 1 (cstr "ork"));
    ("g", switch s 1 [
      ("e", all_at s 2 (cstr "tc"));
      ("l", all_at s 2 (cstr "ob"));
      ("o", all_at s 2 (cstr "to"));
      ("r", all_at s 2 (cstr "ep"))]);
    ("j", all_at s 1 (cstr "oin"));
    ("k", switch s 1 [
      ("e", all_at s 2 (cstr "ys"));
      ("i", all_at s 2 (cstr "ll"))]);
    ("l", switch s 1 [
      ("a", all_at s 2 (cstr "st"));
      ("i", all_at s 2 (cstr "nk"));
      ("o", all_at s 2 (cstr "ck"))]);
    ("n", all_at s 1 (cstr "ext"));
    ("o", all_at s 1 (cstr "pen"));
    ("p", switch s 1 [
      ("a", all_at s 2 (cstr "ck"));
      ("i", all_at s 2 (cstr "pe"));
      ("u", all_at s 2 (cstr "sh"))]);
    ("r", switch s 1 [
      ("a", all_at s 2 (cstr "nd"));
      ("e", switch s 2 [
        ("a", all_at s 3 (cstr "d"));
        ("c", all_at s 3 (cstr "v"));
        ("d", all_at s 3 (cstr "o"))])]);
    ("s", switch s 1 [
      ("e", switch s 2 [
        ("e", all_at s 3 (cstr "k"));
        ("n", all_at s 3 (cstr "d"))]);
      ("o", all_at s 2 (cstr "rt"));
      ("q", all_at s 2 (cstr "rt"));
      ("t", all_at s 2 (cstr "at"))]);
    ("t", switch s 1 [
      ("e", all_at s 2 (cstr "ll"));
      ("i", switch s 2 [
        ("e", all_at s 3 (cstr "d"));
        ("m", all_at s 3 (cstr "e"))])]);
    ("w", switch s 1 [
      ("a", switch s 2 [
        ("i", all_at s 3 (cstr "t"));
        ("r", all_at s 3 (cstr "n"))])])].

Definition keyword_5 (s : list Z) : outcome bool :=
  switch s 0 [
    ("B", all_at s 1 (cstr "EGIN"));
    ("C", all_at s 1 (cstr "HECK"));
    ("a", switch s 1 [
      ("l", all_at s 2 (cstr "arm"));
      ("t", all_at s 2 (cstr "an2"))]);
    ("b", all_at s 1 (cstr "less"));
    ("c", switch s 1 [
      ("a", all_at s 2 (cstr "tch"));
      ("h", switch s 2 [
        ("d", all_at s 3 (cstr "ir"));
        ("m", all_at s 3 (cstr "od"));
        ("o", switch s 3 [
          ("m", all_at s 4 (cstr "p"));
          ("w", all_at s 4 (cstr "n"))])]);
      ("l", switch s 2 [
        ("a", all_at s 3 (cstr "ss"));
        ("o", all_at s 3 (cstr "se"))]);
      ("r", all_at s 2 (cstr "ypt"))]);
    ("d", all_at s 1 (cstr "efer"));
    ("e", all_at s 1 (cstr "lsif"));
    ("f", switch s 1 [
      ("c", all_at s 2 (cstr "ntl"));
      ("i", all_at s 2 (cstr "eld"));
      ("l", all_at s 2 (cstr "ock"))]);
    ("i", switch s 1 [
      ("n", all_at s 2 (cstr "dex"));
      ("o", all_at s 2 (cstr "ctl"))]);
    ("l", switch s 1 [
      ("o", all_at s 2 (cstr "cal"));
      ("s", all_at s 2 (cstr "tat"))]);
    ("m", all_at s 1 (cstr "kdir"));
    ("p", all_at s 1 (cstr "rint"));
    ("r", switch s 1 [
      ("e", all_at s 2 (cstr "set"));
      ("m", all_at s 2 (cstr "dir"))]);
    ("s", switch s 1 [
      ("e", all_at s 2 (cstr "mop"));
      ("h", all_at s 2 (cstr "ift"));
      ("l", all_at s 2 (cstr "eep"));
      ("p", all_at s 2 (cstr "lit"));
      ("r", all_at s 2 (cstr "and"));
      ("t", switch s 2 [
        ("a", all_at s 3 (cstr "te"));
        ("u", all_at s 3 (cstr "dy"))])]);
    ("t", all_at s 1 (cstr "imes"));
    ("u", switch s 1 [
      ("m", all_at s 2 (cstr "ask"));
      ("n", switch s 2 [
        ("d", all_at s 3 (cstr "ef"));
        ("t", switch s 3 [
          ("i", switch s 4 [
            ("e", Done true);
            ("l", Done true)])])]);
      ("t", all_at s 2 (cstr "ime"))]);
    ("w", switch s 1 [
      ("h", all_at s 2 (cstr "ile"));
      ("r", all_at s 2 (cstr "ite"))])].

Definition keyword_6 (s : list Z) : outcome bool :=
  switch s 0 [
    ("A", all_at s 1 (cstr "DJUST"));
    ("a", all_at s 1 (cstr "ccept"));
    ("c", switch s 1 [
      ("a", all_at s 2 (cstr "ller"));
      ("h", all_at s 2 (cstr "root"))]);
    ("d", all_at s 1 (cstr "elete"));
    ("e", all_at s 1 (cstr "xists"));
    ("f", switch s 1 [
      ("i", all_at s 2 (cstr "leno"));
      ("o", all_at s 2 (cstr "rmat"))]);
    ("g", all_at s 1 (cstr "mtime"));
    ("l", switch s 1 [
      ("e", all_at s 2 (cstr "ngth"));
      ("i", all_at s 2 (cstr "sten"))]);
    ("m", switch s 1 [
      ("e", all_at s 2 (cstr "thod"));
      ("s", switch s 2 [
        ("g", switch s 3 [
          ("c", all_at s 4 (cstr "tl"));
          ("g", all_at s 4 (cstr "et"));
          ("r", all_at s 4 (cstr "cv"));
          ("s", all_at s 4 (cstr "nd"))])])]);
    ("p", all_at s 1 (cstr "rintf"));
    ("r", switch s 1 [
      ("e", switch s 2 [
        ("n", all_at s 3 (cstr "ame"));
        ("t", all_at s 3 (cstr "urn"))]);
      ("i", all_at s 2 (cstr "ndex"))]);
    ("s", switch s 1 [
      ("c", all_at s 2 (cstr "alar"));
      ("e", switch s 2 [
        ("l", all_at s 3 (cstr "ect"));
        ("m", switch s 3 [
          ("c", all_at s 4 (cstr "tl"));
          ("g", all_at s 4 (cstr "et"))])]);
      ("h", switch s 2 [
        ("m", switch s 3 [
          ("c", all_at s 4 (cstr "tl"));
          ("g", all_at s 4 (cstr "et"))])]);
      ("o", all_at s 2 (cstr "cket"));
      ("p", all_at s 2 (cstr "lice"));
      ("u", all_at s 2 (cstr "bstr"));
      ("y", all_at s 2 (cstr "stem"))]);
    ("u", switch s 1 [
      ("n", switch s 2 [
        ("l", switch s 3 [
          ("e", all_at s 4 (cstr "ss"));
          ("i", all_at s 4 (cstr "nk"))]);
        ("p", all_at s 3 (cstr "ack"))])]);
    ("v", all_at s 1 (cstr "alues"))].

Definition keyword_7 (s : list Z) : outcome bool :=
  switch s 0 [
    ("D", all_at s 1 (cstr "ESTROY"));
    ("_", switch s 1 [
      ("_", switch s 2 [
        ("E", all_at s 3 (cstr "ND__"));
        ("S", all_at s 3 (cstr "UB__"))])]);
    ("b", all_at s 1 (cstr "inmode"));
    ("c", all_at s 1 (cstr "onnect"));
    ("d", switch s 1 [
      ("b", all_at s 2 (cstr "mopen"));
      ("e", all_at s 2 (cstr "fined"))]);
    ("f", switch s 1 [
      ("i", all_at s 2 (cstr "nally"));
      ("o", all_at s 2 (cstr "reach"))]);
    ("g", switch s 1 [
      ("e", switch s 2 [
        ("t", switch s 3 [
          ("p", switch s 4 [
            ("g", all_at s 5 (cstr "rp"));
            ("p", all_at s 5 (cstr "id"))])])])]);
    ("l", all_at s 1 (cstr "cfirst"));
    ("o", all_at s 1 (cstr "pendir"));
    ("p", all_at s 1 (cstr "ackage"));
    ("r", switch s 1 [
      ("e", switch s 2 [
        ("a", all_at s 3 (cstr "ddir"));
        ("q", all_at s 3 (cstr "uire"));
        ("v", all_at s 3 (cstr "erse"))])]);
    ("s", switch s 1 [
      ("e", switch s 2 [
        ("e", all_at s 3 (cstr "kdir"));
        ("t", all_at s 3 (cstr "pgrp"))]);
      ("h", all_at s 2 (cstr "mread"));
      ("p", all_at s 2 (cstr "rintf"));
      ("y", switch s 2 [
        ("m", all_at s 3 (cstr "link"));
        ("s", switch s 3 [
          ("c", all_at s 4 (cstr "all"));
          ("o", all_at s 4 (cstr "pen"));
          ("r", all_at s 4 (cstr "ead"));
          ("s", all_at s 4 (cstr "eek"))])])]);
    ("t", all_at s 1 (cstr "elldir"));
    ("u", switch s 1 [
      ("c", all_at s 2 (cstr "first"));
      ("n", all_at s 2 (cstr "shift"))]);
    ("w", all_at s 1 (cstr "aitpid"))].

Definition keyword_8 (s : list Z) : outcome bool :=
  switch s 0 [
    ("A", all_at s 1 (cstr "UTOLOAD"));
    ("_", switch s 1 [
      ("_", switch s 2 [
        ("D", all_at s 3 (cstr "ATA__"));
        ("F", all_at s 3 (cstr "ILE__"));
        ("L", all_at s 3 (cstr "INE__"))])]);
    ("c", switch s 1 [
      ("l", all_at s 2 (cstr "osedir"));
      ("o", all_at s 2 (cstr "ntinue"))]);
    ("d", all_at s 1 (cstr "bmclose"));
    ("e", switch s 1 [
      ("n", switch s 2 [
        ("d", switch s 3 [
          ("g", all_at s 4 (cstr "rent"));
          ("p", all_at s 4 (cstr "went"))])])]);
    ("f", all_at s 1 (cstr "ormline"));
    ("g", switch s 1 [
      ("e", switch s 2 [
        ("t", switch s 3 [
          ("g", switch s 4 [
            ("r", switch s 5 [
              ("e", all_at s 6 (cstr "nt"));
              ("g", all_at s 6 (cstr "id"));
              ("n", all_at s 6 (cstr "am"))])]);
          ("l", all_at s 4 (cstr "ogin"));
          ("p", switch s 4 [
            ("w", switch s 5 [
              ("e", all_at s 6 (cstr "nt"));
              ("n", all_at s 6 (cstr "am"));
              ("u", all_at s 6 (cstr "id"))])])])])]);
    ("r", switch s 1 [
      ("e", switch s 2 [
        ("a", switch s 3 [
          ("d", switch s 4 [
            ("l", switch s 5 [
              ("i", switch s 6 [
                ("n", switch s 7 [
                  ("e", Done true);
                  ("k", Done true)])])]);
            ("p", all_at s 5 (cstr "ipe"))])])])]);
    ("s", switch s 1 [
      ("e", switch s 2 [
        ("t", switch s 3 [
          ("g", all_at s 4 (cstr "rent"));
          ("p", all_at s 4 (cstr "went"))])]);
      ("h", switch s 2 [
        ("m", all_at s 3 (cstr "write"));
        ("u", all_at s 3 (cstr "tdown"))]);
      ("y", all_at s 2 (cstr "swrite"))]);
    ("t", all_at s 1 (cstr "runcate"))].

Definition keyword_9 (s : list Z) : outcome bool :=
  switch s 0 [
    ("U", all_at s 1 (cstr "NITCHECK"));
    ("_", all_at s 1 (cstr "_CLASS__"));
    ("e", switch s 1 [
      ("n", all_at s 2 (cstr "dnetent"));
      ("v", all_at s 2 (cstr "albytes"))]);
    ("g", all_at s 1 (cstr "etnetent"));
    ("l", all_at s 1 (cstr "ocaltime"));
    ("p", all_at s 1 (cstr "rototype"));
    ("q", all_at s 1 (cstr "uotemeta"));
    ("r", all_at s 1 (cstr "ewinddir"));
    ("s", all_at s 1 (cstr "etnetent"));
    ("w", all_at s 1 (cstr "antarray"))].

Definition keyword_10 (s : list Z) : outcome bool :=
  switch s 0 [
    ("e", switch s 1 [
      ("n", switch s 2 [
        ("d", switch s 3 [
          ("h", all_at s 4 (cstr "ostent"));
          ("s", all_at s 4 (cstr "ervent"))])])]);
    ("g", switch s 1 [
      ("e", switch s 2 [
        ("t", switch s 3 [
          ("h", all_at s 4 (cstr "ostent"));
          ("s", switch s 4 [
            ("e", all_at s 5 (cstr "rvent"));
            ("o", all_at s 5 (cstr "ckopt"))])])])]);
    ("s", switch s 1 [
      ("e", switch s 2 [
        ("t", switch s 3 [
          ("h", all_at s 4 (cstr "ostent"));
          ("s", switch s 4 [
            ("e", all_at s 5 (cstr "rvent"));
            ("o", all_at s 5 (cstr "ckopt"))])])]);
      ("o", all_at s 2 (cstr "cketpair"))])].

Definition keyword_11 (s : list Z) : outcome bool :=
  switch s 0 [
    ("_", all_at s 1 (cstr "_PACKAGE__"));
    ("e", all_at s 1 (cstr "ndprotoent"));
    ("g", switch s 1 [
      ("e", switch s 2 [
        ("t", switch s 3 [
          ("p", switch s 4 [
            ("e", all_at s 5 (cstr "ername"));
            ("r", switch s 5 [
              ("i", all_at s 6 (cstr "ority"));
              ("o", all_at s 6 (cstr "toent"))])]);
          ("s", all_at s 4 (cstr "ockname"))])])]);
    ("s", switch s 1 [
      ("e", switch s 2 [
        ("t", switch s 3 [
          ("p", switch s 4 [
            ("r", switch s 5 [
              ("i", all_at s 6 (cstr "ority"));
              ("o", all_at s 6 (cstr "toent"))])])])])])].

Definition keyword_12 (s : list Z) : outcome bool :=
  switch s 0 [
    ("g", switch s 1 [
      ("e", switch s 2 [
        ("t", switch s 3 [
          ("n", switch s 4 [
            ("e", switch s 5 [
              ("t", switch s 6 [
                ("b", switch s 7 [
                  ("y", switch s 8 [
                    ("a", all_at s 9 (cstr "ddr"));
                    ("n", all_at s 9 (cstr "ame"))])])])])])])])])].

Definition keyword_13 (s : list Z) : outcome bool :=
  switch s 0 [
    ("g", switch s 1 [
      ("e", switch s 2 [
        ("t", switch s 3 [
          ("h", switch s 4 [
            ("o", switch s 5 [
              ("s", switch s 6 [
                ("t", switch s 7 [
                  ("b", switch s 8 [
                    ("y", switch s 9 [
                      ("a", all_at s 10 (cstr "ddr"));
                      ("n", all_at s 10 (cstr "ame"))])])])])])]);
          ("s", switch s 4 [
            ("e", switch s 5 [
              ("r", switch s 6 [
                ("v", switch s 7 [
                  ("b", switch s 8 [
                    ("y", switch s 9 [
                      ("n", all_at s 10 (cstr "ame"));
                      ("p", all_at s 10 (cstr "ort"))])])])])])])])])])].

Definition keyword_14 (s : list Z) : outcome bool :=
  all_at s 0 (cstr "getprotobyname").

Definition keyword_16 (s : list Z) : outcome bool :=
  all_at s 0 (cstr "getprotobynumber").

Definition tsp_is_perl_keyword (s : list Z) (len : Z) : outcome bool :=
  if len =? 1 then keyword_1 s
  else if len =? 2 then keyword_2 s
  else if len =? 3 then keyword_3 s
  else if len =? 4 then keyword_4 s
  else if len =? 5 then keyword_5 s
  else if len =? 6 then keyword_6 s
  else if len =? 7 then keyword_7 s
  else if len =? 8 then keyword_8 s
  else if len =? 9 then keyword_9 s
  else if len =? 10 then keyword_10 s
  else if len =? 11 then keyword_11 s
  else if len =? 12 then keyword_12 s
  else if len =? 13 then keyword_13 s
  else if len =? 14 then keyword_14 s
  else if len =? 16 then keyword_16 s
  else Done false.

(** ** The words *)

Definition perl_keywords : list String.string := ([
  "m"; "q"; "s"; "x"; "y"; "do"; "eq"; "fc"; "ge"; "gt"; "if"; "lc"; "le"; "lt"; "my"; "ne";
  "no"; "or"; "qq"; "qr"; "qw"; "qx"; "tr"; "uc"; "END"; "abs"; "and"; "chr"; "cmp"; "cos";
  "die"; "eof"; "exp"; "for"; "hex"; "int"; "isa"; "log"; "map"; "not"; "oct"; "ord"; "our";
  "pop"; "pos"; "ref"; "say"; "sin"; "sub"; "tie"; "try"; "use"; "vec"; "xor"; "INIT"; "bind";
  "chop"; "dump"; "each"; "else"; "eval"; "exec"; "exit"; "fork"; "getc"; "glob"; "goto";
  "grep"; "join"; "keys"; "kill"; "last"; "link"; "lock"; "next"; "open"; "pack"; "pipe";
  "push"; "rand"; "read"; "recv"; "redo"; "seek"; "send"; "sort"; "sqrt"; "stat"; "tell";
  "tied"; "time"; "wait"; "warn"; "BEGIN"; "CHECK"; "alarm"; "atan2"; "bless"; "catch";
  "chdir"; "chmod"; "chomp"; "chown"; "class"; "close"; "crypt"; "defer"; "elsif"; "fcntl";
  "field"; "flock"; "index"; "ioctl"; "local"; "lstat"; "mkdir"; "print"; "reset"; "rmdir";
  "semop"; "shift"; "sleep"; "split"; "srand"; "state"; "study"; "times"; "umask"; "undef";
  "untie"; "until"; "utime"; "while"; "write"; "ADJUST"; "accept"; "caller"; "chroot";
  "delete"; "exists"; "fileno"; "format"; "gmtime"; "length"; "listen"; "method"; "msgctl";
  "msgget"; "msgrcv"; "msgsnd"; "printf"; "rename"; "return"; "rindex"; "scalar"; "select";
  "semctl"; "semget"; "shmctl"; "shmget"; "socket"; "splice"; "substr"; "system"; "unless";
  "unlink"; "unpack"; "values"; "DESTROY"; "__END__"; "__SUB__"; "binmode"; "connect";
  "dbmopen"; "defined"; "finally"; "foreach"; "getpgrp"; "getppid"; "lcfirst"; "opendir";
  "package"; "readdir"; "require"; "reverse"; "seekdir"; "setpgrp"; "shmread"; "sprintf";
  "symlink"; "syscall"; "sysopen"; "sysread"; "sysseek"; "telldir"; "ucfirst"; "unshift";
  "waitpid"; "AUTOLOAD"; "__DATA__"; "__FILE__"; "__LINE__"; "closedir"; "continue";
  "dbmclose"; "endgrent"; "endpwent"; "formline"; "getgrent"; "getgrgid"; "getgrnam";
  "getlogin"; "getpwent"; "getpwnam"; "getpwuid"; "readline"; "readlink"; "readpipe";
  "setgrent"; "setpwent"; "shmwrite"; "shutdown"; "syswrite"; "truncate"; "UNITCHECK";
  "__CLASS__"; "endnetent"; "evalbytes"; "getnetent"; "localtime"; "prototype"; "quotemeta";
  "rewinddir"; "setnetent"; "wantarray"; "endhostent"; "endservent"; "gethostent";
  "getservent"; "getsockopt"; "sethostent"; "setservent"; "setsockopt"; "socketpair";
  "__PACKAGE__"; "endprotoent"; "getpeername"; "getpriority"; "getprotoent"; "getsockname";
  "setpriority"; "setprotoent"; "getnetbyaddr"; "getnetbyname"; "gethostbyaddr";
  "gethostbyname"; "getservbyname"; "getservbyport"; "getprotobyname"; "getprotobynumber"])%string.

(** [o] tells whether the [n] characters from index [i] are one of the words. *)
Definition accepts (s : list Z) (i n : nat) (o : outcome bool) (ws : list (list Z)) : Prop :=
  (i + n ≤ length s)%nat → o = Done (bool_decide (take n (drop i s) ∈ ws)).

Definition accepts_cases (s : list Z) (i n : nat) (cases : list (Z * outcome bool))
    (ws : list (list Z)) : Prop :=
  (S i + n ≤ length s)%nat → ∀ x,
    select x cases = Done (bool_decide (x :: take n (drop (S i) s) ∈ ws)).

Lemma take_drop_lookup (s : list Z) i n : (i < length s)%nat →
  ∃ x, s !! i = Some x ∧ take (S n) (drop i s) = x :: take n (drop (S i) s).
Proof.
  intros [x Hx]%lookup_lt_is_Some_2. exists x. split; [done|].
  by rewrite (drop_S s x i Hx).
Qed.

Lemma accepts_true s i : accepts s i 0 (Done true) [[]].
Proof. intros _. rewrite take_0. by rewrite bool_decide_true by by left. Qed.

Lemma accepts_all s i n w : length w = n → accepts s i n (all_at s i w) [w].
Proof.
  intros <-. revert i. induction w as [|c w IH]; intros i Hl; [by apply accepts_true|].
  simpl in Hl. destruct (take_drop_lookup s i (length w)) as (x&Hx&Ht); [lia|].
  cbn [all_at length]. unfold char_at. rewrite Hx, Ht. cbn [obind]. destruct (x =? c) eqn:E.
  - rewrite IH by lia. f_equal. apply bool_decide_ext. rewrite !list_elem_of_singleton.
    assert (x = c) as -> by lia. split; [by intros ->|by intros [= ->]].
  - rewrite bool_decide_false; [done|]. rewrite list_elem_of_singleton. intros [= ->]. lia.
Qed.

Lemma accepts_nil s i n : accepts_cases s i n [] [].
Proof. intros _ x. by rewrite bool_decide_false by apply not_elem_of_nil. Qed.

Lemma accepts_cons s i n c o cases ws1 ws2 :
  accepts s (S i) n o ws1 → accepts_cases s i n cases ws2 →
  forallb (λ w, negb (hd 0 w =? c)) ws2 = true →
  accepts_cases s i n ((c, o) :: cases) ((cons c <$> ws1) ++ ws2).
Proof.
  intros H1 H2 Hc Hl x. cbn [select].
  assert (∀ w, c :: w ∉ ws2) as Hnot.
  { intros w Hw%list_elem_of_In. rewrite forallb_forall in Hc. specialize (Hc _ Hw). simpl in Hc. lia. }
  destruct (x =? c) eqn:E.
  - assert (x = c) as -> by lia. rewrite H1 by lia. f_equal. apply bool_decide_ext.
    rewrite elem_of_app, list_elem_of_fmap. split; [intros; left; by eexists|].
    intros [(w&[= ->]&?)|Hw]; [done|by apply Hnot in Hw].
  - rewrite H2 by done. f_equal. apply bool_decide_ext. rewrite elem_of_app, list_elem_of_fmap.
    split; [by right|]. intros [(w&[= ->]&?)|?]; [lia|done].
Qed.

Lemma accepts_switch s i n cases ws :
  accepts_cases s i n cases ws → accepts s i (S n) (switch s i cases) ws.
Proof.
  intros H Hl. destruct (take_drop_lookup s i n) as (x&Hx&Ht); [lia|].
  unfold switch, char_at. rewrite Hx, Ht. cbn [obind]. apply H. lia.
Qed.

Ltac trie :=
  repeat first
    [ apply accepts_true | apply accepts_nil | eapply accepts_all; reflexivity
    | eapply accepts_cons | eapply accepts_switch ]; try (vm_compute; reflexivity).

Lemma keyword_words (s w junk : list Z) o ws : s = w ++ junk →
  accepts s 0 (length w) o ws →
  filter (λ k, length k = length w) (cstr <$> perl_keywords) = ws →
  o = Done (bool_decide (w ∈ cstr <$> perl_keywords)).
Proof.
  intros -> Ho <-. rewrite Ho by (rewrite length_app; lia). f_equal. apply bool_decide_ext.
  rewrite drop_0, take_app_length, list_elem_of_filter. tauto.
Qed.

Lemma keyword_1_words s : ∃ ws, accepts s 0 1 (keyword_1 s) ws
  ∧ filter (λ k, length k = 1%nat) (cstr <$> perl_keywords) = ws.
Proof. eexists. split; [unfold keyword_1; trie|vm_compute; reflexivity]. Qed.

Lemma keyword_2_words s : ∃ ws, accepts s 0 2 (keyword_2 s) ws
  ∧ filter (λ k, length k = 2%nat) (cstr <$> perl_keywords) = ws.
Proof. eexists. split; [unfold keyword_2; trie|vm_compute; reflexivity]. Qed.

Lemma keyword_3_words s : ∃ ws, accepts s 0 3 (keyword_3 s) ws
  ∧ filter (λ k, length k = 3%nat) (cstr <$> perl_keywords) = ws.
Proof. eexists. split; [unfold keyword_3; trie|vm_compute; reflexivity]. Qed.

Lemma keyword_4_words s : ∃ ws, accepts s 0 4 (keyword_4 s) ws
  ∧ filter (λ k, length k = 4%nat) (cstr <$> perl_keywords) = ws.
Proof. eexists. split; [unfold keyword_4; trie|vm_compute; reflexivity]. Qed.

Lemma keyword_5_words s : ∃ ws, accepts s 0 5 (keyword_5 s) ws
  ∧ filter (λ k, length k = 5%nat) (cstr <$> perl_keywords) = ws.
Proof. eexists. split; [unfold keyword_5; trie|vm_compute; reflexivity]. Qed.

Lemma keyword_6_words s : ∃ ws, accepts s 0 6 (keyword_6 s) ws
  ∧ filter (λ k, length k = 6%nat) (cstr <$> perl_keywords) = ws.
Proof. eexists. split; [unfold keyword_6; trie|vm_compute; reflexivity]. Qed.

Lemma keyword_7_words s : ∃ ws, accepts s 0 7 (keyword_7 s) ws
  ∧ filter (λ k, length k = 7%nat) (cstr <$> perl_keywords) = ws.
Proof. eexists. split; [unfold keyword_7; trie|vm_compute; reflexivity]. Qed.

Lemma keyword_8_words s : ∃ ws, accepts s 0 8 (keyword_8 s) ws
  ∧ filter (λ k, length k = 8%nat) (cstr <$> perl_keywords) = ws.
Proof. eexists. split; [unfold keyword_8; trie|vm_compute; reflexivity]. Qed.

Lemma keyword_9_words s : ∃ ws, accepts s 0 9 (keyword_9 s) ws
  ∧ filter (λ k, length k = 9%nat) (cstr <$> perl_keywords) = ws.
Proof. eexists. split; [unfold keyword_9; trie|vm_compute; reflexivity]. Qed.

Lemma keyword_10_words s : ∃ ws, accepts s 0 10 (keyword_10 s) ws
  ∧ filter (λ k, length k = 10%nat) (cstr <$> perl_keywords) = ws.
Proof. eexists. split; [unfold keyword_10; trie|vm_compute; reflexivity]. Qed.

Lemma keyword_11_words s : ∃ ws, accepts s 0 11 (keyword_11 s) ws
  ∧ filter (λ k, length k = 11%nat) (cstr <$> perl_keywords) = ws.
Proof. eexists. split; [unfold keyword_11; trie|vm_compute; reflexivity]. Qed.

Lemma keyword_12_words s : ∃ ws, accepts s 0 12 (keyword_12 s) ws
  ∧ filter (λ k, length k = 12%nat) (cstr <$> perl_keywords) = ws.
Proof. eexists. split; [unfold keyword_12; trie|vm_compute; reflexivity]. Qed.

Lemma keyword_13_words s : ∃ ws, accepts s 0 13 (keyword_13 s) ws
  ∧ filter (λ k, length k = 13%nat) (cstr <$> perl_keywords) = ws.
Proof. eexists. split; [unfold keyword_13; trie|vm_compute; reflexivity]. Qed.

Lemma keyword_14_words s : ∃ ws, accepts s 0 14 (keyword_14 s) ws
  ∧ filter (λ k, length k = 14%nat) (cstr <$> perl_keywords) = ws.
Proof. eexists. split; [unfold keyword_14; trie|vm_compute; reflexivity]. Qed.

Lemma keyword_16_words s : ∃ ws, accepts s 0 16 (keyword_16 s) ws
  ∧ filter (λ k, length k = 16%nat) (cstr <$> perl_keywords) = ws.
Proof. eexists. split; [unfold keyword_16; trie|vm_compute; reflexivity]. Qed.

Lemma keyword_case w junk n (k : list Z → outcome bool) :
  (∀ s, ∃ ws, accepts s 0 n (k s) ws ∧ filter (λ k, length k = n) (cstr <$> perl_keywords) = ws) →
  length w = n → k (w ++ junk) = Done (bool_decide (w ∈ cstr <$> perl_keywords)).
Proof.
  intros H <-. destruct (H (w ++ junk)) as (ws&Ha&Hw). by eapply keyword_words.
Qed.

Lemma keywords_lengths w : w ∈ cstr <$> perl_keywords →
  length w ∈ [1; 2; 3; 4; 5; 6; 7; 8; 9; 10; 11; 12; 13; 14; 16]%nat.
Proof.
  assert (forallb (λ w, bool_decide (length w ∈ [1; 2; 3; 4; 5; 6; 7; 8; 9; 10; 11; 12; 13; 14; 16]%nat))
    (cstr <$> perl_keywords) = true) as H by by vm_compute.
  rewrite forallb_forall in H. intros Hw%list_elem_of_In. by apply H, bool_decide_eq_true in Hw.
Qed.

Ltac by_length H :=
  match goal with
  | |- (if ?b then _ else _) = _ => destruct b eqn:?; [apply (keyword_case _ _ _ _ H); lia|]
  end.

Lemma keyword_tree (w junk : list Z) :
  tsp_is_perl_keyword (w ++ junk) (Z.of_nat (length w))
    = Done (bool_decide (w ∈ cstr <$> perl_keywords)).
Proof.
  unfold tsp_is_perl_keyword.
  by_length keyword_1_words.
  by_length keyword_2_words.
  by_length keyword_3_words.
  by_length keyword_4_words.
  by_length keyword_5_words.
  by_length keyword_6_words.
  by_length keyword_7_words.
  by_length keyword_8_words.
  by_length keyword_9_words.
  by_length keyword_10_words.
  by_length keyword_11_words.
  by_length keyword_12_words.
  by_length keyword_13_words.
  by_length keyword_14_words.
  by_length keyword_16_words.
  rewrite bool_decide_false; [done|]. intros Hw%keywords_lengths.
  rewrite !elem_of_cons in Hw. rewrite elem_of_nil in Hw. lia.
Qed.

(** C39: on every word, and whatever follows it in the buffer, the decision tree
    over the characters tells whether the word is one of the Perl keywords, and
    reads no character behind the word. *)
Theorem perl_keyword_tree (w junk : list Z) :
  tsp_is_perl_keyword (w ++ junk) (Z.of_nat (length w))
    = Done (bool_decide (w ∈ cstr <$> perl_keywords)).
Proof. apply keyword_tree. Qed.
