(* ===== verification/PerlIntuit.v ===== *)
(** * Guesses of the Perl scanner

    [tsp_intuit_more.h]: whether a bracket in a pattern opens a subscript, or a
    character class or quantifier; [tsp_intuit_readline.h]: whether [<...>] is a
    file glob. A buffer with its length is the list of its characters, and a
    pointer into it an index; a read behind the length is [Undefined], unless
    the code tests for the end of the buffer first. *)

From S2P Require Import Prelude Logic PerlKeywords.

(** [s < e && p( *s)], for the pointer [s] at index [i]. *)
Definition is_at (p : Z → bool) (s : list Z) (i : nat) : bool :=
  match s !! i with Some c => p c | None => false end.

(** [while (s < e && p( *s)) s++;] *)
Definition skip_class (p : Z → bool) (s : list Z) (i : nat) : nat := (i + span p (drop i s))%nat.

(** [int] addition. *)
Definition i32_add (a b : Z) : outcome Z :=
  let r := a + b in
  if (-2147483648 <=? r) && (r <? 2147483648) then Done r else Undefined.

(** ** Subscripts *)

Definition tsp_im_isdigit (c : Z) : bool := ("0" <=? c) && (c <=? "9").
Definition tsp_im_isalpha (c : Z) : bool := ("a" <=? c) && (c <=? "z") || ("A" <=? c) && (c <=? "Z").
Definition tsp_im_isword (c : Z) : bool := tsp_im_isalpha c || tsp_im_isdigit c || (c =? "_").
Definition tsp_im_isblank (c : Z) : bool := (c =? " ") || (c =? TAB).

Definition tsp_im_in (set : list Z) (c : Z) : bool :=
  if c =? 0 then false else existsb (λ k, to_uchar k =? to_uchar c) set.

Definition tsp_regcurly (s : list Z) : bool :=
  if negb (is_at (Z.eqb "{") s 0) then false
  else
    let i := skip_class tsp_im_isblank s 1 in
    let '(min_present, i) :=
      if is_at tsp_im_isdigit s i then (true, skip_class tsp_im_isdigit s (S i)) else (false, i) in
    let i := skip_class tsp_im_isblank s i in
    let '(max_present, i) :=
      if is_at (Z.eqb ",") s i then
        let i := skip_class tsp_im_isblank s (S i) in
        let '(max_present, i) :=
          if is_at tsp_im_isdigit s i then (true, skip_class tsp_im_isdigit s (S i)) else (false, i) in
        (max_present, skip_class tsp_im_isblank s i)
      else (false, i) in
    is_at (Z.eqb "}") s i && (min_present || max_present).

(** The state of the weighing loop; [seen] counts the characters, in bytes. *)
Record weighing := mkWeighing { weight : Z; seen : list Z; un_char : Z; first_time : bool }.

Definition seen_count (seen : list Z) (c : Z) : Z := nth (Z.to_nat (to_uchar c)) seen 0.

(** A [@], [&] or [$]. *)
Definition weigh_sigil (s : list Z) (i : nat) (c : Z) (w : weighing) : outcome Z :=
  let? weight := i32_add (weight w) (- (seen_count (seen w) c * 10)) in
  if is_at (λ d, tsp_im_isword (to_uchar d)) s (i + 1) then i32_add weight (-10)
  else if (c =? "$")
          && is_at (λ d, negb (d =? 0) && tsp_im_in (cstr "[#!%*<>()-=") (to_uchar d)) s (i + 1)
  then
    let s2 := default 0 (s !! (i + 2)%nat) in
    i32_add weight (if tsp_im_in (cstr "])} =") (to_uchar s2) then -10 else -1)
  else Done weight.

(** A backslash: the weight, and the index of the last character of the escape. *)
Definition weigh_escape (s : list Z) (send i : nat) (w : weighing) : outcome (Z * nat) :=
  let keep o := let? weight := o in Done (weight, i) in
  match s !! (i + 1)%nat with
  | Some d =>
      if d =? 0 then keep (i32_add (weight w) 100)
      else if tsp_im_in (cstr "wds]") (to_uchar d) then keep (i32_add (weight w) 100)
      else if negb (seen_count (seen w) "'" =? 0) || negb (seen_count (seen w) DQUOTE =? 0)
      then keep (i32_add (weight w) 1)
      else if tsp_im_in (cstr "abcfnrtvx") (to_uchar d) then keep (i32_add (weight w) 40)
      else if tsp_im_isdigit (to_uchar d) then
        let? weight := i32_add (weight w) 40 in
        Done (weight, (skip_class (λ d, tsp_im_isdigit (to_uchar d)) (take send s) (i + 1) - 1)%nat)
      else Done (weight w, i)
  | None => keep (i32_add (weight w) 100)
  end.

Definition weigh_dash (s : list Z) (i : nat) (w : weighing) : outcome Z :=
  let? weight := i32_add (weight w) (if is_at (Z.eqb BACKSLASH) s (i + 1) then 50 else 0) in
  let? weight := i32_add weight
    (if negb (first_time w) && tsp_im_in (cstr "aA01! ") (un_char w) then 30 else 0) in
  let? weight := i32_add weight
    (if is_at (λ d, tsp_im_in (cstr "zZ79~") (to_uchar d)) s (i + 1) then 30 else 0) in
  i32_add weight
    (if first_time w && is_at (λ d, tsp_im_isdigit (to_uchar d) || (d =? "$")) s (i + 1)
     then -5 else 0).

(** Any other character [c]; [un_char w] is the one before it. *)
Definition weigh_other (s : list Z) (send i : nat) (c : Z) (w : weighing) : outcome (Z * nat) :=
  let prev := un_char w in
  let? '(weight, i') :=
    if (first_time w || negb (tsp_im_isword prev) && negb (prev =? "$") && negb (prev =? "@")
                        && negb (prev =? "&"))
       && tsp_im_isalpha (to_uchar c)
       && is_at (λ d, tsp_im_isalpha (to_uchar d)) (take send s) (i + 1)
    then
      let i' := skip_class (λ d, tsp_im_isalpha (to_uchar d)) (take send s) i in
      let? keyword := tsp_is_perl_keyword (drop i s) (Z.of_nat (i' - i)) in
      let? weight := i32_add (weight w) (if keyword : bool then -150 else 0) in
      Done (weight, i')
    else Done (weight w, i) in
  let? weight := i32_add weight
    (if negb (first_time w) && (to_uchar c =? to_uchar (prev + 1)) then 5 else 0) in
  let? weight := i32_add weight (- seen_count (seen w) c) in
  Done (weight, i').

(** A round of the loop at index [i], below [send]: the next state and index. *)
Definition weigh_char (s : list Z) (send i : nat) (w : weighing) : outcome (weighing * nat) :=
  let? c := char_at s i in
  let keep o := let? weight := o in Done (weight, i) in
  let? '(weight, i') :=
    if (c =? "@") || (c =? "&") || (c =? "$") then keep (weigh_sigil s i c w)
    else if c =? BACKSLASH then weigh_escape s send i w
    else if c =? "-" then keep (weigh_dash s i w)
    else weigh_other s send i c w in
  let seen := <[Z.to_nat (to_uchar c) := to_uchar (seen_count (seen w) c + 1)]> (seen w) in
  Done (mkWeighing weight seen (to_uchar c) false, S i').

Fixpoint weigh_loop (fuel : nat) (s : list Z) (send i : nat) (w : weighing) : outcome Z :=
  match fuel with
  | O => OutOfFuel
  | S fuel =>
      if (i <? send)%nat then
        let? '(w, i) := weigh_char s send i w in
        weigh_loop fuel s send i w
      else Done (weight w)
  end.

(** [true] for a subscript. *)
Definition tsp_intuit_more (s : list Z) : outcome bool :=
  match s with
  | [] => Done true
  | c :: _ =>
      if c =? "{" then Done (negb (tsp_regcurly s))
      else if negb (c =? "[") then Done true
      else if (length s <=? 1)%nat then Done true
      else
        let? c := char_at s 1 in
        if (c =? "]") || (c =? "^") then Done false
        else
          let send := skip_class (λ d, negb (d =? "]")) s 1 in
          if (send =? length s)%nat then Done true
          else
            let? short :=
              if tsp_im_isdigit c && (send - 1 <=? 2)%nat then
                if (send - 1 =? 1)%nat then Done true
                else let? d := char_at s 2 in Done (tsp_im_isdigit d)
              else Done false in
            if short : bool then Done true
            else
              let? weight := weigh_loop (S (length s)) s send 1
                (mkWeighing (if c =? "$" then -1 else 2) (replicate 256 0) 0 true) in
              Done (negb (0 <=? weight))
  end.

(** ** File globs *)

Definition tsp_rl_isdigit (c : Z) : bool := ("0" <=? c) && (c <=? "9").
Definition tsp_rl_isalpha (c : Z) : bool := ("a" <=? c) && (c <=? "z") || ("A" <=? c) && (c <=? "Z").
Definition tsp_rl_isword (c : Z) : bool := tsp_rl_isalpha c || tsp_rl_isdigit c || (c =? "_").
Definition tsp_rl_isspace (c : Z) : bool :=
  (c =? " ") || (c =? TAB) || (c =? LF) || (c =? CR) || (c =? 12) || (c =? VT).

Definition one_of (kw : list String.string) (w : list Z) : bool := existsb (λ k, bool_decide (w = cstr k)) kw.

Definition tsp_rl_is_trailing_keyword (w : list Z) : bool :=
  one_of ["if"; "unless"; "while"; "until"; "for"; "foreach"; "and"; "or"; "xor"; "not"; "cmp";
    "eq"; "ne"; "lt"; "gt"; "le"; "ge"; "x"]%string w.

Definition tsp_rl_is_infix_word (w : list Z) : bool :=
  one_of ["and"; "or"; "xor"; "not"; "cmp"; "eq"; "ne"; "lt"; "gt"; "le"; "ge"; "x"]%string w.

Definition rl_space (c : Z) : bool := tsp_rl_isspace (to_uchar c).
Definition rl_word (c : Z) : bool := tsp_rl_isword (to_uchar c).

Fixpoint infix_loop (fuel : nat) (s : list Z) (i : nat) : outcome bool :=
  match fuel with
  | O => OutOfFuel
  | S fuel =>
      if (i <? length s)%nat then
        let start := skip_class rl_space s i in
        let i := skip_class (λ c, negb (rl_space c)) s start in
        let word := take (i - start) (drop start s) in
        let clean := forallb (λ c, tsp_rl_isalpha (to_uchar c)) word in
        if clean && (start <? i)%nat && tsp_rl_is_infix_word word then Done true
        else infix_loop fuel s i
      else Done false
  end.

Definition tsp_rl_content_has_infix_op (s : list Z) : outcome bool := infix_loop (S (length s)) s 0.

Definition tsp_rl_is_glob_meta (c : Z) : bool := existsb (Z.eqb c) (cstr "*?[]{}~").

Definition tsp_rl_content_is_globshaped (s : list Z) : bool :=
  existsb (λ i,
    let c := to_uchar (nth i s 0) in
    tsp_rl_is_glob_meta c || (c =? "/")
    || (c =? ".") && ((0 <? i)%nat && is_at rl_word s (i - 1)) && is_at rl_word s (i + 1))
    (seq 0 (length s)).

(** The [while] loop, from index [i]. *)
Fixpoint filehandle_loop (fuel : nat) (s : list Z) (i : nat) (last_was_word : bool) : outcome bool :=
  match fuel with
  | O => OutOfFuel
  | S fuel =>
      match s !! i with
      | None => Done last_was_word
      | Some c =>
          if rl_word c then filehandle_loop fuel s (i + 1) true
          else if c =? ":" then
            if negb last_was_word then Done false
            else if negb (is_at (Z.eqb ":") s (i + 1)) then Done false
            else filehandle_loop fuel s (i + 2) false
          else if c =? "'" then
            if negb last_was_word then Done false else filehandle_loop fuel s (i + 1) false
          else if rl_space c then
            if negb last_was_word then Done false
            else Done (skip_class rl_space s (i + 1) =? length s)%nat
          else Done false
      end
  end.

Definition tsp_rl_is_filehandle (s : list Z) : outcome bool :=
  match s with
  | [] => Done false
  | c :: _ =>
      if rl_space c then Done false
      else
        let i := if c =? "$" then 1%nat else 0%nat in
        if (length s <=? i)%nat then Done false
        else filehandle_loop (S (length s)) s i false
  end.

(** What comes behind a text that looks like a glob. *)
Definition glob_is_complete (after : list Z) : bool :=
  let i := skip_class rl_space after 0 in
  match after !! i with
  | None => true
  | Some c =>
      let nc := to_uchar c in
      if tsp_rl_isalpha nc then
        let word := take (skip_class rl_word after i - i) (drop i after) in
        if tsp_rl_is_trailing_keyword word then true else true
      else negb (existsb (Z.eqb nc) (cstr "$@%" ++ [DQUOTE] ++ cstr "'") || tsp_rl_isdigit nc
                 || existsb (Z.eqb nc) (cstr "([{"))
  end.

Definition tsp_is_fileglob (content after : list Z) : outcome bool :=
  match content with
  | [] => Done true
  | _ =>
      let? infix := tsp_rl_content_has_infix_op content in
      if infix : bool then Done false
      else
        let? named := if tsp_rl_content_is_globshaped content then Done true
                      else tsp_rl_is_filehandle content in
        if negb named then Done false else Done (glob_is_complete after)
  end.
