(* ===== verification/PerlIntuitProofs.v ===== *)
(** * Properties of the guesses of the Perl scanner *)

From S2P Require Import Prelude Logic PerlKeywords PerlIntuit.

Lemma skip_class_le p s i : (i ≤ length s)%nat → (i ≤ skip_class p s i ≤ length s)%nat.
Proof.
  intros Hi. unfold skip_class. pose proof (span_length p (drop i s)). rewrite length_drop in *. lia.
Qed.

(** The characters that were skipped, and the one behind them. *)
Lemma skip_class_spec p s i : (i ≤ length s)%nat →
  ∃ l, drop i s = l ++ drop (skip_class p s i) s ∧ Forall (λ c, p c = true) l
    ∧ length l = (skip_class p s i - i)%nat ∧ is_at p s (skip_class p s i) = false.
Proof.
  intros Hi. unfold skip_class. exists (take (span p (drop i s)) (drop i s)). split_and!.
  - by rewrite <- drop_drop, take_drop.
  - apply take_span.
  - rewrite length_take. pose proof (span_length p (drop i s)). lia.
  - unfold is_at. rewrite <- lookup_drop. destruct (drop i s !! _) as [c|] eqn:Hc; [|done].
    assert (span p (drop i s) < length (drop i s))%nat as Hlt by by apply lookup_lt_Some in Hc.
    pose proof (hd_drop_span p (drop i s) (or_intror Hlt)) as Hd. rewrite hd_drop_nth in Hd.
    by rewrite (nth_lookup_Some _ _ 0 c Hc) in Hd.
Qed.

Lemma is_at_drop p s i : is_at p s i = is_at p (drop i s) 0.
Proof. unfold is_at. by rewrite lookup_drop, Nat.add_0_r. Qed.

(** ** Quantifiers *)

Definition blanks (l : list Z) : Prop := Forall (λ c, tsp_im_isblank c = true) l.
Definition digits (l : list Z) : Prop := Forall (λ c, tsp_im_isdigit c = true) l.

(** The text of a quantifier: [{m}], [{m,}], [{m,n}] or [{,n}], with blanks. *)
Inductive quantifier : list Z → Prop :=
  | quantifier_one b1 m b2 : blanks b1 → digits m → m ≠ [] → blanks b2 →
      quantifier (("{" : Z) :: b1 ++ m ++ b2 ++ [("}" : Z)])
  | quantifier_two b1 m b2 b3 n b4 : blanks b1 → digits m → blanks b2 → blanks b3 → digits n →
      blanks b4 → m ≠ [] ∨ n ≠ [] →
      quantifier (("{" : Z) :: b1 ++ m ++ b2 ++ ("," : Z) :: b3 ++ n ++ b4 ++ [("}" : Z)]).

(** The functions on the text from a pointer on. *)
Lemma skip_class_drop p s i : drop (skip_class p s i) s = drop (span p (drop i s)) (drop i s).
Proof. unfold skip_class. by rewrite drop_drop. Qed.

Lemma is_at_head p s i c l : drop i s = c :: l → is_at p s i = p c.
Proof. intros Hd. rewrite is_at_drop, Hd. done. Qed.

Lemma is_at_eqb k s i : is_at (Z.eqb k) s i = true → drop i s = k :: drop (S i) s.
Proof.
  unfold is_at. destruct (s !! i) as [c|] eqn:Hc; [|done]. intros ->%Z.eqb_eq. by apply drop_S.
Qed.

Lemma skip_class_app p s i l r : drop i s = l ++ r → Forall (λ c, p c = true) l →
  is_at p r 0 = false → skip_class p s i = (i + length l)%nat ∧ drop (i + length l) s = r.
Proof.
  intros Hd Hl Hr. unfold skip_class. rewrite Hd, span_app by done.
  assert (span p r = 0%nat) as -> by (destruct r as [|c r]; [done|]; simpl; unfold is_at in Hr; simpl in Hr; by rewrite Hr).
  split; [lia|]. by rewrite <- drop_drop, Hd, drop_app_length.
Qed.

(** An optional number: the test in front of the loop is that of the loop. *)
Lemma optional_skip p s i :
  (if is_at p s i then (true, skip_class p s (S i)) else (false, i))
  = ((i <? skip_class p s i)%nat, skip_class p s i).
Proof.
  unfold skip_class. destruct (is_at p s i) eqn:E.
  - unfold is_at in E. destruct (s !! i) as [c|] eqn:Hc; [|done].
    rewrite (drop_S s c i Hc). simpl. rewrite E. f_equal; [|lia]. symmetry. apply Nat.ltb_lt. lia.
  - rewrite is_at_drop in E. destruct (drop i s) as [|c l]; simpl; [f_equal; [|lia]; symmetry; apply Nat.ltb_ge; lia|].
    unfold is_at in E. simpl in E. rewrite E. f_equal; [|lia]. symmetry. apply Nat.ltb_ge. lia.
Qed.

(** Blanks, a number that may be missing, and blanks. *)
Definition padded_number (s : list Z) (i : nat) : bool * nat :=
  let i1 := skip_class tsp_im_isblank s i in
  let i2 := skip_class tsp_im_isdigit s i1 in
  ((i1 <? i2)%nat, skip_class tsp_im_isblank s i2).

Lemma regcurly_padded s :
  tsp_regcurly s =
    is_at (Z.eqb "{") s 0 &&
    (let '(min_present, i) := padded_number s 1 in
     let '(max_present, i) := if is_at (Z.eqb ",") s i then padded_number s (S i) else (false, i) in
     is_at (Z.eqb "}") s i && (min_present || max_present)).
Proof.
  unfold tsp_regcurly, padded_number. destruct (is_at (Z.eqb "{") s 0); [|done]. cbn [negb andb].
  rewrite optional_skip. destruct (is_at (Z.eqb ",") s _); [|done]. by rewrite optional_skip.
Qed.

Lemma padded_number_sound s i b j : (i ≤ length s)%nat → padded_number s i = (b, j) →
  ∃ b1 m b2, drop i s = b1 ++ m ++ b2 ++ drop j s ∧ blanks b1 ∧ digits m ∧ blanks b2
    ∧ (b = true ↔ m ≠ []) ∧ (j ≤ length s)%nat.
Proof.
  unfold padded_number. intros Hi [= <- <-].
  pose proof (skip_class_le tsp_im_isblank s i Hi) as H1.
  destruct (skip_class_spec tsp_im_isblank s i Hi) as (b1&Hd1&Hb1&_&_). set (i1 := skip_class _ s i) in *.
  pose proof (skip_class_le tsp_im_isdigit s i1 ltac:(lia)) as H2.
  destruct (skip_class_spec tsp_im_isdigit s i1 ltac:(lia)) as (m&Hd2&Hm&Hl&_). set (i2 := skip_class _ s i1) in *.
  pose proof (skip_class_le tsp_im_isblank s i2 ltac:(lia)) as H3.
  destruct (skip_class_spec tsp_im_isblank s i2 ltac:(lia)) as (b2&Hd3&Hb2&_&_).
  exists b1, m, b2. split_and!; [by rewrite Hd1, Hd2, Hd3|done|done|done| |lia].
  rewrite Nat.ltb_lt. destruct m; simpl in Hl; split; [lia|done|done|lia].
Qed.

Lemma padded_number_complete s i b1 m b2 c r : drop i s = b1 ++ m ++ b2 ++ c :: r →
  blanks b1 → digits m → blanks b2 → tsp_im_isblank c = false → tsp_im_isdigit c = false →
  ∃ j, padded_number s i = (negb (bool_decide (m = [])), j) ∧ drop j s = c :: r.
Proof.
  intros Hd Hb1 Hm Hb2 Hc1 Hc2. unfold padded_number. destruct m as [|d m].
  - cbn [app] in Hd. rewrite app_assoc in Hd.
    destruct (skip_class_app tsp_im_isblank s i (b1 ++ b2) (c :: r) Hd) as [-> Hd1];
      [by apply Forall_app|done|]. set (i1 := (i + length (b1 ++ b2))%nat) in *.
    destruct (skip_class_app tsp_im_isdigit s i1 [] (c :: r) Hd1) as [-> Hd2]; [done|done|].
    rewrite Nat.add_0_r in *.
    destruct (skip_class_app tsp_im_isblank s i1 [] (c :: r) Hd1) as [-> Hd3]; [done|done|].
    rewrite Nat.ltb_irrefl. cbn [length] in *. by eexists.
  - assert (tsp_im_isblank d = false) as Hd0.
    { apply Forall_cons in Hm as [Hm _]. unfold tsp_im_isdigit, tsp_im_isblank in *. lia. }
    destruct (skip_class_app tsp_im_isblank s i b1 ((d :: m) ++ b2 ++ c :: r) Hd) as [-> Hd1]; [done|done|].
    set (i1 := (i + length b1)%nat) in *.
    destruct (skip_class_app tsp_im_isdigit s i1 (d :: m) (b2 ++ c :: r) Hd1) as [-> Hd2]; [done| |].
    { destruct Hb2 as [|x b2 Hx _]; [done|]. unfold is_at. simpl.
      unfold tsp_im_isdigit, tsp_im_isblank in *. lia. }
    destruct (skip_class_app tsp_im_isblank s (i1 + length (d :: m)) b2 (c :: r) Hd2) as [-> Hd3]; [done|done|].
    eexists. split; [|done]. f_equal. simpl. apply Nat.ltb_lt. lia.
Qed.

Lemma regcurly_iff s : tsp_regcurly s = true ↔ ∃ q rest, s = q ++ rest ∧ quantifier q.
Proof.
  rewrite regcurly_padded. split.
  - intros [H0%is_at_eqb H]%andb_true_iff. rewrite drop_0 in H0.
    destruct (padded_number s 1) as [mp i] eqn:H1.
    assert (1 ≤ length s)%nat as Hl by (rewrite H0; simpl; lia).
    destruct (padded_number_sound s 1 mp i Hl H1) as (b1&m&b2&Hs&?&?&?&Hmp&Hi).
    destruct (is_at (Z.eqb ",") s i) eqn:Hc.
    + apply is_at_eqb in Hc. destruct (padded_number s (S i)) as [np j] eqn:Hp2.
      assert (S i ≤ length s)%nat as Hl2.
      { apply (f_equal length) in Hc. rewrite length_drop in Hc. simpl in Hc. lia. }
      destruct (padded_number_sound s (S i) np j Hl2 Hp2) as (b3&n&b4&Hs2&?&?&?&Hnp&Hj).
      apply andb_true_iff in H as [Hcl%is_at_eqb H].
      exists (("{" : Z) :: b1 ++ m ++ b2 ++ ("," : Z) :: b3 ++ n ++ b4 ++ [("}" : Z)]), (drop (S j) s).
      split; [|constructor; try done; apply orb_true_iff in H as [-> | ->]; [left; by apply Hmp|right; by apply Hnp]].
      rewrite H0 at 1. rewrite Hs, Hc, Hs2, Hcl. cbn [app]. rewrite <- !app_assoc. cbn [app].
      by rewrite <- !app_assoc.
    + apply andb_true_iff in H as [Hcl%is_at_eqb H]. rewrite orb_false_r in H. subst mp.
      exists (("{" : Z) :: b1 ++ m ++ b2 ++ [("}" : Z)]), (drop (S i) s).
      split; [|constructor; try done; by apply Hmp]. rewrite H0 at 1. rewrite Hs, Hcl. cbn [app].
      by rewrite <- !app_assoc.
  - intros (q&rest&->&Hq). destruct Hq as [b1 m b2 ??? ?|b1 m b2 b3 n b4 ?????? Hmn];
      (apply andb_true_iff; split; [done|]).
    + destruct (padded_number_complete ((("{" : Z) :: b1 ++ m ++ b2 ++ [("}" : Z)]) ++ rest) 1 b1 m b2 "}" rest)
        as (j&->&Hj); try done.
      { simpl. by rewrite drop_0, <- !app_assoc. }
      rewrite !(is_at_head _ _ _ _ _ Hj). rewrite bool_decide_false by done. cbn [Z.eqb Pos.eqb negb orb andb].
      by rewrite (is_at_head _ _ _ _ _ Hj).
    + destruct (padded_number_complete
        ((("{" : Z) :: b1 ++ m ++ b2 ++ ("," : Z) :: b3 ++ n ++ b4 ++ [("}" : Z)]) ++ rest) 1 b1 m b2
        "," (b3 ++ n ++ b4 ++ ("}" : Z) :: rest)) as (j&->&Hj); try done.
      { simpl. rewrite drop_0, <- !app_assoc. simpl. by rewrite <- !app_assoc. }
      rewrite (is_at_head (Z.eqb ",") _ _ _ _ Hj). cbn [Z.eqb Pos.eqb].
      destruct (padded_number_complete
        ((("{" : Z) :: b1 ++ m ++ b2 ++ ("," : Z) :: b3 ++ n ++ b4 ++ [("}" : Z)]) ++ rest) (S j) b3 n b4
        "}" rest) as (k&->&Hk); try done.
      { rewrite <- Nat.add_1_r, <- drop_drop, Hj. done. }
      rewrite (is_at_head _ _ _ _ _ Hk). cbn [Z.eqb Pos.eqb andb].
      apply orb_true_iff. rewrite !negb_true_iff, !bool_decide_eq_false. tauto.
Qed.

(** ** Subscripts *)

Lemma i32_add_small a b : -2147483648 ≤ a + b < 2147483648 → i32_add a b = Done (a + b).
Proof. intros ?. unfold i32_add. by replace (_ && _) with true by lia. Qed.

Definition bytes (l : list Z) : Prop := Forall (λ x, 0 ≤ x < 256) l.

Lemma seen_count_range l c : bytes l → 0 ≤ seen_count l c < 256.
Proof.
  intros Hl. unfold seen_count. destruct (l !! Z.to_nat (to_uchar c)) as [x|] eqn:Hx.
  - rewrite (nth_lookup_Some _ _ 0 x Hx). by apply (Forall_lookup_1 _ _ _ _ Hl Hx).
  - rewrite nth_overflow; [lia|]. by apply lookup_ge_None.
Qed.

(** The weight changes by at most 3000 with a character. *)
Definition near (o : outcome Z) (w : Z) : Prop := ∃ w', o = Done w' ∧ Z.abs (w' - w) ≤ 3000.

Definition weigh_ok (w : weighing) : Prop := Z.abs (weight w) ≤ 2000000000 ∧ bytes (seen w).

Ltac add_step := rewrite i32_add_small by lia; cbn [obind].
Ltac near_done := eexists; split; [reflexivity|lia].

Lemma weigh_sigil_near s i c w : weigh_ok w → near (weigh_sigil s i c w) (weight w).
Proof.
  intros [Hw Hs]. pose proof (seen_count_range (seen w) c Hs). unfold weigh_sigil, near. add_step.
  repeat case_match; try add_step; try (rewrite i32_add_small by lia); near_done.
Qed.

Lemma weigh_dash_near s i w : weigh_ok w → near (weigh_dash s i w) (weight w).
Proof.
  intros [Hw _]. unfold weigh_dash, near.
  repeat case_match; do 3 add_step; rewrite i32_add_small by lia; near_done.
Qed.

Lemma weigh_escape_near s send i w : weigh_ok w →
  ∃ w' i', weigh_escape s send i w = Done (w', i') ∧ Z.abs (w' - weight w) ≤ 3000 ∧ (i ≤ i')%nat.
Proof.
  intros [Hw _]. unfold weigh_escape. destruct (s !! (i + 1)%nat) as [d|].
  2: { add_step. do 2 eexists. split; [done|lia]. }
  repeat case_match; try add_step; do 2 eexists; (split; [done|]); unfold skip_class; lia.
Qed.

Lemma weigh_other_near s send i c w : weigh_ok w → (i ≤ length s)%nat →
  ∃ w' i', weigh_other s send i c w = Done (w', i') ∧ Z.abs (w' - weight w) ≤ 3000 ∧ (i ≤ i')%nat.
Proof.
  intros [Hw Hs] Hi. pose proof (seen_count_range (seen w) c Hs). unfold weigh_other.
  set (run := _ && is_at _ (take send s) (i + 1)). set (step := if run then _ else _).
  assert (∃ w' i', step = Done (w', i') ∧ Z.abs (w' - weight w) ≤ 150 ∧ (i ≤ i')%nat)
    as (w1&i1&->&?&?).
  { unfold step. destruct run; [|do 2 eexists; split; [done|lia]].
    set (i' := skip_class _ _ i).
    assert (i ≤ i' ≤ length s)%nat as Hi'.
    { unfold i', skip_class. pose proof (span_length (λ d, tsp_im_isalpha (to_uchar d)) (drop i (take send s))).
      rewrite length_drop, length_take in *. lia. }
    assert (tsp_is_perl_keyword (drop i s) (Z.of_nat (i' - i))
      = Done (bool_decide (take (i' - i) (drop i s) ∈ cstr <$> perl_keywords))) as ->.
    { rewrite <- (take_drop (i' - i) (drop i s)) at 1.
      replace (i' - i)%nat with (length (take (i' - i) (drop i s))) at 3.
      2: { rewrite length_take, length_drop. lia. }
      apply keyword_tree. }
    cbn [obind]. case_bool_decide; add_step; do 2 eexists; (split; [done|lia]). }
  cbn [obind]. repeat case_match; add_step; add_step; do 2 eexists; (split; [done|lia]).
Qed.

Lemma weigh_char_near s send i w : weigh_ok w → (i < length s)%nat →
  ∃ w' i', weigh_char s send i w = Done (w', i') ∧ Z.abs (weight w' - weight w) ≤ 3000
    ∧ bytes (seen w') ∧ (i < i')%nat.
Proof.
  intros Hw Hi. unfold weigh_char, char_at. destruct (lookup_lt_is_Some_2 s i Hi) as [c Hc].
  rewrite Hc. cbn [obind].
  set (step := if (c =? "@") || _ || _ then _ else _).
  assert (∃ w' i', step = Done (w', i') ∧ Z.abs (w' - weight w) ≤ 3000 ∧ (i ≤ i')%nat)
    as (w1&i1&->&?&?).
  { unfold step. case_match.
    { destruct (weigh_sigil_near s i c w Hw) as (w1&->&?). by exists w1, i. }
    case_match; [by apply weigh_escape_near|]. case_match; [|apply weigh_other_near; [done|lia]].
    destruct (weigh_dash_near s i w Hw) as (w1&->&?). by exists w1, i. }
  cbn [obind]. do 2 eexists. split; [done|]. split_and!; [done| |simpl; lia].
  apply Forall_insert; [apply Hw|]. apply Z.mod_pos_bound. lia.
Qed.

Lemma weigh_loop_total fuel s send i w : (send ≤ length s ≤ 256)%nat → (send - i < fuel)%nat →
  Z.abs (weight w) ≤ 3 + 3000 * Z.of_nat i → bytes (seen w) →
  ∃ r, weigh_loop fuel s send i w = Done r.
Proof.
  intros Hs. revert i w. induction fuel as [|fuel IH]; intros i w Hf Hw Hb; [lia|].
  cbn [weigh_loop]. destruct (i <? send)%nat eqn:E; [|by eexists]. apply Nat.ltb_lt in E.
  destruct (weigh_char_near s send i w) as (w'&i'&->&?&?&?); [split; [lia|done]|lia|].
  cbn [obind]. apply IH; [lia|lia|done].
Qed.

(** Behind [[], up to a matching [\]]: one or two digits. *)
Lemma short_total s d send : s !! 1%nat = Some d → d ≠ "]" → (1 < length s)%nat →
  send = skip_class (λ d, negb (d =? "]")) s 1 → send ≠ length s →
  ∃ b, (if tsp_im_isdigit d && (send - 1 <=? 2)%nat then
          if (send - 1 =? 1)%nat then Done true
          else let? e := char_at s 2 in Done (tsp_im_isdigit e)
        else Done false) = Done b.
Proof.
  intros Hd Hne El Hsend Es. destruct (_ && _) eqn:E2; [|by eexists].
  destruct (send - 1 =? 1)%nat eqn:E3; [by eexists|]. apply Nat.eqb_neq in E3.
  pose proof (skip_class_le (λ d, negb (d =? "]")) s 1 ltac:(lia)) as Hle. rewrite <- Hsend in Hle.
  assert (send ≠ 1%nat).
  { intros H1. destruct (skip_class_spec (λ d, negb (d =? "]")) s 1 ltac:(lia)) as (_&_&_&_&Hat).
    rewrite <- Hsend, H1 in Hat. unfold is_at in Hat. rewrite Hd in Hat. lia. }
  unfold char_at. destruct (lookup_lt_is_Some_2 s 2 ltac:(lia)) as [e ->]. by eexists.
Qed.

Lemma intuit_total s : (length s ≤ 256)%nat → ∃ b, tsp_intuit_more s = Done b.
Proof.
  intros Hl. unfold tsp_intuit_more. destruct s as [|c s']; [by exists true|]. set (s := c :: s') in *.
  destruct (c =? "{"); [by eexists|]. destruct (negb (c =? "[")); [by eexists|].
  destruct (length s <=? 1)%nat eqn:El; [by eexists|]. apply Nat.leb_gt in El.
  unfold char_at at 1. destruct (lookup_lt_is_Some_2 s 1 ltac:(lia)) as [d Hd]. rewrite Hd. cbn [obind].
  destruct ((d =? "]") || (d =? "^")) eqn:Ed; [by eexists|].
  pose proof (skip_class_le (λ d, negb (d =? "]")) s 1 ltac:(lia)) as Hsend.
  set (send := skip_class _ s 1) in *. destruct (send =? length s)%nat eqn:Es; [by eexists|].
  apply Nat.eqb_neq in Es. destruct (short_total s d send Hd ltac:(lia) El eq_refl Es) as [b ->].
  cbn [obind]. destruct b; [by eexists|].
  destruct (weigh_loop_total (S (length s)) s send 1
    (mkWeighing (if d =? "$" then -1 else 2) (replicate 256 0) 0 true)) as [r ->];
    [lia|lia|cbn [weight]; case_match; lia| |by eexists].
  apply Forall_replicate. lia.
Qed.

(** C38: for every buffer of at most 256 characters, the guess whether a bracket
    opens a subscript ends without a read behind the buffer and without an
    overflow of its weight; a brace opens a subscript exactly when the buffer
    does not begin with a quantifier. *)
Theorem perl_intuit_more (s : list Z) : (length s ≤ 256)%nat →
  ∃ b, tsp_intuit_more s = Done b
    ∧ (hd 0 s = "{" → (b = false ↔ ∃ q rest, s = q ++ rest ∧ quantifier q)).
Proof.
  intros Hl. destruct (intuit_total s Hl) as [b Hb]. exists b. split; [done|].
  destruct s as [|c s]; [done|]. intros Hc. simpl in Hc. unfold tsp_intuit_more in Hb.
  replace (c =? "{") with true in Hb by lia. injection Hb as <-.
  rewrite negb_false_iff. apply regcurly_iff.
Qed.

Lemma perl_intuit_more_witness :
  ∃ b, tsp_intuit_more (cstr "{2,3}x") = Done b
    ∧ (hd 0 (cstr "{2,3}x") = "{" → (b = false ↔ ∃ q rest, cstr "{2,3}x" = q ++ rest ∧ quantifier q)).
Proof. apply (perl_intuit_more (cstr "{2,3}x")). simpl. lia. Defined.

Example intuit_examples :
  tsp_intuit_more (cstr "[12]") = Done true ∧ tsp_intuit_more (cstr "[abc]") = Done false
  ∧ tsp_intuit_more (cstr "[$x]") = Done true ∧ tsp_intuit_more (cstr "[a-z]") = Done false
  ∧ tsp_intuit_more (cstr "{foo}") = Done true.
Proof. split_and!; by vm_compute. Qed.

(** ** File globs *)

(** An infix operator of the language as a word between spaces. *)
Definition infix_word_at (s : list Z) : Prop :=
  ∃ l w r, s = l ++ w ++ r ∧ tsp_rl_is_infix_word w = true
    ∧ (l = [] ∨ ∃ l' c, l = l' ++ [c] ∧ rl_space c = true)
    ∧ (r = [] ∨ ∃ c r', r = c :: r' ∧ rl_space c = true).

Lemma infix_word_letters w : tsp_rl_is_infix_word w = true →
  w ≠ [] ∧ Forall (λ c, tsp_rl_isalpha (to_uchar c) = true ∧ rl_space c = false) w.
Proof.
  unfold tsp_rl_is_infix_word, one_of. intros (k&Hk&Hw%bool_decide_eq_true)%existsb_exists. subst w.
  simpl in Hk. repeat destruct Hk as [<-|Hk]; try done; (split; [done|]); repeat constructor.
Qed.

Definition spaces (l : list Z) : Prop := Forall (λ c, rl_space c = true) l.
Definition letters (l : list Z) : Prop := Forall (λ c, negb (rl_space c) = true) l.
Definition at_space (r : list Z) : Prop := is_at (λ c, negb (rl_space c)) r 0 = false.

Lemma at_space_iff r : at_space r ↔ r = [] ∨ ∃ c r', r = c :: r' ∧ rl_space c = true.
Proof.
  unfold at_space, is_at. destruct r as [|c r]; simpl; [by split; [left|]|].
  rewrite negb_false_iff. split; [right; by exists c, r|]. by intros [?|(?&?&[= <- <-]&?)].
Qed.

Lemma run_unique x b w r : letters x → letters w → at_space b → at_space r →
  x ++ b = w ++ r → x = w ∧ b = r.
Proof.
  intros Hx Hw Hb Hr Heq. apply app_inj_1; [|done].
  assert (∀ y t, letters y → at_space t → span (λ c, negb (rl_space c)) (y ++ t) = length y) as Hspan.
  { intros y t Hy Ht. rewrite span_app by done. destruct t as [|c t]; [simpl; lia|].
    unfold at_space, is_at in Ht. simpl in *. rewrite Ht. lia. }
  rewrite <- (Hspan x b Hx Hb), Heq. by apply Hspan.
Qed.

Lemma not_space_last (l k : list Z) (l' : list Z) c : k ≠ [] → letters k →
  l ++ k = l' ++ [c] → rl_space c = true → False.
Proof.
  intros Hk Hl Heq Hc. destruct (exists_last Hk) as (k'&d&->). rewrite app_assoc in Heq.
  apply app_inj_tail in Heq as [_ ->]. apply Forall_app in Hl as [_ Hd].
  apply Forall_cons in Hd as [Hd _]. by rewrite Hc in Hd.
Qed.

(** A text of spaces, a word, and what begins with a space. *)
Lemma infix_word_step sp w r : spaces sp → letters w → at_space r →
  infix_word_at (sp ++ w ++ r) ↔ tsp_rl_is_infix_word w = true ∨ infix_word_at r.
Proof.
  intros Hsp Hw Hr. split.
  - intros (a&x&b&Heq&Hx&Ha&Hb). destruct (infix_word_letters x Hx) as [Hxne Hxl].
    assert (letters x) as Hlx by (eapply Forall_impl; [exact Hxl|]; intros c [_ ->]; done).
    apply at_space_iff in Hb as Hb'.
    assert (∀ k, x ++ b = k ++ w ++ r → k = [] → x = w) as Hrun.
    { intros k Hk ->. by apply (run_unique x b w r). }
    symmetry in Heq. apply app_eq_inv in Heq as [(k&->&Heq)|(k&->&Heq)].
    + symmetry in Heq. apply app_eq_inv in Heq as [(k'&->&Heq)|(k'&->&Heq)].
      * right. exists k', x, b. split_and!; [done|done| |done].
        destruct Ha as [Ha|(l'&d&Ha&Hd)].
        { apply app_eq_nil in Ha as [_ Ha]. apply app_eq_nil in Ha as [_ Ha]. by left. }
        destruct k' as [|c k']; [by left|]. right.
        destruct (exists_last (l := c :: k') ltac:(done)) as (k2&e&Hk2). rewrite Hk2 in *.
        exists k2, e. split; [done|]. rewrite !app_assoc in Ha. by apply app_inj_tail in Ha as [_ ->].
      * destruct k as [|c k].
        { left. cbn [app] in *. rewrite (Hrun [] Heq eq_refl) in Hx. done. }
        exfalso. apply Forall_app in Hw as [Hk _]. destruct Ha as [Ha|(l'&d&Ha&Hd)]; [by destruct sp|].
        by eapply (not_space_last sp (c :: k)).
    + destruct k as [|c k]; [left; cbn [app] in *; by rewrite <- (Hrun [] Heq eq_refl)|].
      exfalso. destruct x as [|d x]; [done|]. injection Heq as <- _.
      apply Forall_app in Hsp as [_ Hc]. apply Forall_cons in Hc as [Hc _].
      apply Forall_cons in Hlx as [Hd _]. by rewrite Hc in Hd.
  - intros [Hx|(a&x&b&->&Hx&Ha&Hb)].
    + exists sp, w, r. split_and!; [done|done| |by apply at_space_iff].
      destruct sp as [|c sp]; [by left|]. right.
      destruct (exists_last (l := c :: sp) ltac:(done)) as (k&e&Hk). exists k, e. split; [done|].
      unfold spaces in Hsp. rewrite Hk in Hsp. apply Forall_app in Hsp as [_ Hc].
      by apply Forall_cons in Hc as [Hc _].
    + exists (sp ++ w ++ a), x, b. split_and!; [by rewrite <- !app_assoc|done| |done].
      destruct Ha as [->|(l'&c&->&Hc)].
      * exfalso. destruct (infix_word_letters x Hx) as [Hne Hl]. destruct x as [|c x]; [done|].
        apply Forall_cons in Hl as [[_ Hc] _]. unfold at_space, is_at in Hr. simpl in Hr. by rewrite Hc in Hr.
      * right. exists (sp ++ w ++ l'), c. split; [by rewrite <- !app_assoc|done].
Qed.

Lemma infix_word_nil : ¬ infix_word_at [].
Proof.
  intros (l&w&r&Heq&Hw&_). destruct (infix_word_letters w Hw) as [Hne _].
  symmetry in Heq. apply app_eq_nil in Heq as [_ Heq]. by apply app_eq_nil in Heq as [? _].
Qed.

Lemma clean_infix_word w : forallb (λ c, tsp_rl_isalpha (to_uchar c)) w && (0 <? length w)%nat
  && tsp_rl_is_infix_word w = tsp_rl_is_infix_word w.
Proof.
  destruct (tsp_rl_is_infix_word w) eqn:E; [|by rewrite andb_false_r].
  destruct (infix_word_letters w E) as [Hne Hl]. rewrite andb_true_r, andb_true_iff. split.
  - apply forallb_forall. intros c Hc%list_elem_of_In. rewrite Forall_forall in Hl. by apply Hl.
  - destruct w; [done|]. simpl. by apply Nat.ltb_lt; lia.
Qed.

Lemma infix_loop_spec fuel s i : (i ≤ length s)%nat → (length s - i < fuel)%nat →
  ∃ b, infix_loop fuel s i = Done b ∧ (b = true ↔ infix_word_at (drop i s)).
Proof.
  revert i. induction fuel as [|fuel IH]; intros i Hi Hf; [lia|]. cbn [infix_loop].
  destruct (i <? length s)%nat eqn:El.
  2: { apply Nat.ltb_ge in El. exists false. split; [done|]. rewrite drop_ge by lia.
       split; [done|]. intros H. by apply infix_word_nil in H. }
  apply Nat.ltb_lt in El.
  pose proof (skip_class_le rl_space s i Hi) as H1.
  destruct (skip_class_spec rl_space s i Hi) as (sp&Hsp&Hsps&Hspl&Hat1).
  set (st := skip_class rl_space s i) in *.
  pose proof (skip_class_le (λ c, negb (rl_space c)) s st ltac:(lia)) as H2.
  destruct (skip_class_spec (λ c, negb (rl_space c)) s st ltac:(lia)) as (w&Hw&Hws&Hwl&Hat).
  set (j := skip_class _ s st) in *.
  assert (take (j - st) (drop st s) = w) as -> by (by rewrite Hw, <- Hwl, take_app_length).
  replace (st <? j)%nat with (0 <? length w)%nat by (rewrite Hwl; apply eq_true_iff_eq; rewrite !Nat.ltb_lt; lia).
  rewrite clean_infix_word.
  assert (infix_word_at (drop i s) ↔ tsp_rl_is_infix_word w = true ∨ infix_word_at (drop j s)) as Hstep.
  { rewrite Hsp, Hw. apply infix_word_step; [done|done|]. unfold at_space. by rewrite <- is_at_drop. }
  setoid_rewrite Hstep. destruct (tsp_rl_is_infix_word w) eqn:E; [exists true; tauto|].
  destruct (IH j) as (b&Hb&Hiff); [lia| |].
  { assert (i ≠ j); [|lia]. intros Hij.
    (* neither a space nor another character at index i *)
    assert (st = i) as Hst by lia. rewrite Hst in Hat1. rewrite <- Hij in Hat. unfold is_at in Hat1, Hat.
    destruct (lookup_lt_is_Some_2 s i El) as [c Hc]. rewrite Hc in Hat1, Hat. by rewrite Hat1 in Hat. }
  exists b. split; [done|]. rewrite Hiff. split; [by right|by intros [?|?]].
Qed.

(** For every text, the search for an operator in what might be a file glob
    ends, and finds one exactly when one of the infix operators that are words
    is there between spaces or ends of the text. *)
Theorem perl_infix_operator (s : list Z) :
  ∃ b, tsp_rl_content_has_infix_op s = Done b ∧ (b = true ↔ infix_word_at s).
Proof.
  destruct (infix_loop_spec (S (length s)) s 0) as (b&Hb&Hiff); [lia|lia|].
  exists b. split; [done|]. by rewrite drop_0 in Hiff.
Qed.

Lemma filehandle_loop_total fuel s i b : (length s - i < fuel)%nat →
  ∃ r, filehandle_loop fuel s i b = Done r.
Proof.
  revert i b. induction fuel as [|fuel IH]; intros i b Hf; [lia|]. cbn [filehandle_loop].
  destruct (s !! i) as [c|] eqn:Hc; [|by eexists]. apply lookup_lt_Some in Hc.
  repeat (case_match; try by eexists); apply IH; lia.
Qed.

Lemma fileglob_total content after : ∃ b, tsp_is_fileglob content after = Done b.
Proof.
  unfold tsp_is_fileglob. destruct content as [|c l]; [by eexists|]. cbv iota. set (s := c :: l).
  destruct (infix_loop_spec (S (length s)) s 0) as (b&Hb&_); [lia|lia|].
  assert (tsp_rl_content_has_infix_op s = Done b) as -> by exact Hb.
  cbn [obind]. destruct b; [by eexists|].
  assert (∃ r, (if tsp_rl_content_is_globshaped s then Done true else tsp_rl_is_filehandle s) = Done r)
    as [r ->].
  { case_match; [by eexists|]. unfold tsp_rl_is_filehandle, s. case_match; [by eexists|].
    case_match; [by eexists|]. apply filehandle_loop_total. simpl; lia. }
  cbn [obind]. case_match; by eexists.
Qed.
