(* ===== verification/PerlState.v ===== *)
(** * The state of the Perl scanner

    [crates/tree-sitter-perl-sqry/grammar-src/scanner.c]: the tokens, the stack of
    open quotes, the queue of announced heredocs, and their serialization. *)

From S2P Require Import Prelude CArray CString.

Inductive TokenType : Type :=
  | TOKEN_APOSTROPHE | TOKEN_DOUBLE_QUOTE | TOKEN_BACKTICK | TOKEN_SEARCH_SLASH
  | NO_TOKEN_SEARCH_SLASH_PLZ | TOKEN_OPEN_READLINE_BRACKET | TOKEN_OPEN_FILEGLOB_BRACKET
  | PERLY_SEMICOLON | PERLY_HEREDOC | TOKEN_CTRL_Z | TOKEN_QUOTELIKE_BEGIN
  | TOKEN_QUOTELIKE_MIDDLE_CLOSE | TOKEN_QUOTELIKE_MIDDLE_SKIP | TOKEN_QUOTELIKE_END_ZW
  | TOKEN_QUOTELIKE_END | TOKEN_Q_STRING_CONTENT | TOKEN_QQ_STRING_CONTENT
  | TOKEN_ESCAPE_SEQUENCE | TOKEN_ESCAPED_DELIMITER | TOKEN_DOLLAR_IN_REGEXP
  | TOKEN_REGEXP_OPEN_BRACKET | TOKEN_REGEXP_OPEN_BRACE | TOKEN_POD | TOKEN_GOBBLED_CONTENT
  | TOKEN_ATTRIBUTE_VALUE_BEGIN | TOKEN_ATTRIBUTE_VALUE | TOKEN_PROTOTYPE
  | TOKEN_SIGNATURE_START | TOKEN_HEREDOC_DELIM | TOKEN_COMMAND_HEREDOC_DELIM
  | TOKEN_HEREDOC_START | TOKEN_HEREDOC_MIDDLE | TOKEN_HEREDOC_END | TOKEN_FAT_COMMA_AUTOQUOTED
  | TOKEN_FAT_COMMA_AUTOQUOTED_AHEAD | TOKEN_FILETEST | TOKEN_BRACE_AUTOQUOTED
  | TOKEN_BRACE_END_ZW | TOKEN_DOLLAR_IDENT_ZW | TOKEN_NO_INTERP_WHITESPACE_ZW | TOKEN_NONASSOC
  | TOKEN_RECOVER_PAREN_CLOSE | TOKEN_RECOVER_BRACKET_CLOSE | TOKEN_RECOVER_BRACE_CLOSE
  | TOKEN_RECOVER_ARROW | TOKEN_RECOVER_BLOCK_CLOSE | TOKEN_FORMAT_CONTENT | TOKEN_X_OP
  | TOKEN_KW_CLASS | TOKEN_KW_ROLE | TOKEN_KW_METHOD | TOKEN_KW_ASYNC | TOKEN_KW_TRY
  | TOKEN_ERROR.

Definition TokenType_to_Z (t : TokenType) : Z :=
  match t with
  | TOKEN_APOSTROPHE => 0 | TOKEN_DOUBLE_QUOTE => 1 | TOKEN_BACKTICK => 2
  | TOKEN_SEARCH_SLASH => 3 | NO_TOKEN_SEARCH_SLASH_PLZ => 4 | TOKEN_OPEN_READLINE_BRACKET => 5
  | TOKEN_OPEN_FILEGLOB_BRACKET => 6 | PERLY_SEMICOLON => 7 | PERLY_HEREDOC => 8
  | TOKEN_CTRL_Z => 9 | TOKEN_QUOTELIKE_BEGIN => 10 | TOKEN_QUOTELIKE_MIDDLE_CLOSE => 11
  | TOKEN_QUOTELIKE_MIDDLE_SKIP => 12 | TOKEN_QUOTELIKE_END_ZW => 13
  | TOKEN_QUOTELIKE_END => 14 | TOKEN_Q_STRING_CONTENT => 15 | TOKEN_QQ_STRING_CONTENT => 16
  | TOKEN_ESCAPE_SEQUENCE => 17 | TOKEN_ESCAPED_DELIMITER => 18 | TOKEN_DOLLAR_IN_REGEXP => 19
  | TOKEN_REGEXP_OPEN_BRACKET => 20 | TOKEN_REGEXP_OPEN_BRACE => 21 | TOKEN_POD => 22
  | TOKEN_GOBBLED_CONTENT => 23 | TOKEN_ATTRIBUTE_VALUE_BEGIN => 24
  | TOKEN_ATTRIBUTE_VALUE => 25 | TOKEN_PROTOTYPE => 26 | TOKEN_SIGNATURE_START => 27
  | TOKEN_HEREDOC_DELIM => 28 | TOKEN_COMMAND_HEREDOC_DELIM => 29 | TOKEN_HEREDOC_START => 30
  | TOKEN_HEREDOC_MIDDLE => 31 | TOKEN_HEREDOC_END => 32 | TOKEN_FAT_COMMA_AUTOQUOTED => 33
  | TOKEN_FAT_COMMA_AUTOQUOTED_AHEAD => 34 | TOKEN_FILETEST => 35
  | TOKEN_BRACE_AUTOQUOTED => 36 | TOKEN_BRACE_END_ZW => 37 | TOKEN_DOLLAR_IDENT_ZW => 38
  | TOKEN_NO_INTERP_WHITESPACE_ZW => 39 | TOKEN_NONASSOC => 40
  | TOKEN_RECOVER_PAREN_CLOSE => 41 | TOKEN_RECOVER_BRACKET_CLOSE => 42
  | TOKEN_RECOVER_BRACE_CLOSE => 43 | TOKEN_RECOVER_ARROW => 44
  | TOKEN_RECOVER_BLOCK_CLOSE => 45 | TOKEN_FORMAT_CONTENT => 46 | TOKEN_X_OP => 47
  | TOKEN_KW_CLASS => 48 | TOKEN_KW_ROLE => 49 | TOKEN_KW_METHOD => 50 | TOKEN_KW_ASYNC => 51
  | TOKEN_KW_TRY => 52 | TOKEN_ERROR => 53
  end.

#[export] Instance perl_TokenType_eq_dec : EqDecision TokenType.
Proof. solve_decision. Defined.

(** ** Strings of which only the first characters count *)

Definition MAX_TSPSTRING_LEN : Z := 8.

(** [contents] has [MAX_TSPSTRING_LEN] characters. *)
Record TSPString := mkTSPString { length : Z; contents : list Z }.

Definition tspstring_zero : TSPString := mkTSPString 0 (replicate 8 0).

Definition tspstring_push (s : TSPString) (c : Z) : outcome TSPString :=
  let? n := i32_incr (length s) in
  Done (mkTSPString n
    (if length s <? MAX_TSPSTRING_LEN then <[Z.to_nat (length s) := c]> (contents s) else contents s)).

Definition tspstring_eq (s1 s2 : TSPString) : bool :=
  if negb (length s1 =? length s2) then false
  else
    let max_len := Z.to_nat (if length s1 <? MAX_TSPSTRING_LEN then length s1 else MAX_TSPSTRING_LEN) in
    bool_decide (take max_len (contents s1) = take max_len (contents s2)).

Definition tspstring_reset (s : TSPString) : TSPString := mkTSPString 0 (contents s).

(** ** Quotes *)

Definition close_for_open (c : Z) : Z :=
  if c =? "(" then ")" else if c =? "[" then "]" else if c =? "{" then "}"
  else if c =? "<" then ">" else 0.

Record TSPQuote := mkQuote { open : Z; close : Z; count : Z; body_leads_with_delim : bool }.

Definition tspquote_new : TSPQuote := mkQuote 0 0 0 false.

Record HeredocEntry := mkEntry { delim : TSPString; interpolates : bool; indents : bool }.

Definition entry_zero : HeredocEntry := mkEntry tspstring_zero false false.

(** The values of [enum HeredocState]; a restored one is any byte. *)
Definition HEREDOC_NONE : Z := 0.
Definition HEREDOC_START : Z := 1.
Definition HEREDOC_UNKNOWN : Z := 2.
Definition HEREDOC_CONTINUE : Z := 3.
Definition HEREDOC_END : Z := 4.

Definition HEREDOC_QUEUE_MAX : Z := 8.

Record LexerState := mkState {
  quotes : Array TSPQuote;
  heredoc_queue : list HeredocEntry;
  heredoc_count : Z;
  heredoc_state : Z;
  recovery_emitted : bool;
}.

Definition set_quotes (s : LexerState) (q : Array TSPQuote) : LexerState :=
  mkState q (heredoc_queue s) (heredoc_count s) (heredoc_state s) (recovery_emitted s).
Definition set_heredocs (s : LexerState) (queue : list HeredocEntry) (n state : Z) : LexerState :=
  mkState (quotes s) queue n state (recovery_emitted s).
Definition set_heredoc_state (s : LexerState) (state : Z) : LexerState :=
  set_heredocs s (heredoc_queue s) (heredoc_count s) state.
Definition set_recovery (s : LexerState) (b : bool) : LexerState :=
  mkState (quotes s) (heredoc_queue s) (heredoc_count s) (heredoc_state s) b.

Definition lexerstate_push_quote (s : LexerState) (opener : Z) : outcome LexerState :=
  let closer := close_for_open opener in
  let q := mkQuote (if closer =? 0 then 0 else opener) (if closer =? 0 then opener else closer)
             0 (body_leads_with_delim tspquote_new) in
  let? q := array_push (quotes s) q in
  Done (set_quotes s q).

(** The loop from index [n - 1] down: the index of the match, plus one, or 0. *)
Fixpoint find_quote (p : TSPQuote → bool) (a : Array TSPQuote) (n : nat) : outcome Z :=
  match n with
  | O => Done 0
  | S n =>
      let? q := array_get a (Z.of_nat n) in
      if p q then Done (Z.of_nat n + 1) else find_quote p a n
  end.

Definition lexerstate_is_quote_opener (s : LexerState) (check : Z) : outcome Z :=
  find_quote (λ q, negb (open q =? 0) && (check =? open q)) (quotes s) (Z.to_nat (size (quotes s))).

Definition lexerstate_is_quote_closer (s : LexerState) (c : Z) : outcome Z :=
  find_quote (λ q, negb (close q =? 0) && (c =? close q)) (quotes s) (Z.to_nat (size (quotes s))).

(** An assignment to the quote that [array_get] points to. *)
Definition assign_quote (s : LexerState) (index : Z) (q : TSPQuote) : outcome LexerState :=
  let? c := memcpy (CArray.contents (quotes s)) index [Some q] in
  Done (set_quotes s (mkArray c (size (quotes s)) (capacity (quotes s)))).

Definition lexerstate_saw_opener (s : LexerState) (idx : Z) : outcome LexerState :=
  let? q := array_get (quotes s) (idx - 1) in
  let? n := i32_incr (count q) in
  assign_quote s (idx - 1) (mkQuote (open q) (close q) n (body_leads_with_delim q)).

Definition lexerstate_saw_closer (s : LexerState) (idx : Z) : outcome LexerState :=
  let? q := array_get (quotes s) (idx - 1) in
  if negb (count q =? 0) then
    let? n := i32_decr (count q) in
    assign_quote s (idx - 1) (mkQuote (open q) (close q) n (body_leads_with_delim q))
  else Done s.

Definition lexerstate_is_quote_closed (s : LexerState) (idx : Z) : outcome bool :=
  let? q := array_get (quotes s) (idx - 1) in
  Done (count q =? 0).

Definition lexerstate_pop_quote (s : LexerState) (idx : Z) : outcome LexerState :=
  let? q := array_erase (quotes s) (idx - 1) in
  Done (set_quotes s q).

Definition lexerstate_is_paired_delimiter (s : LexerState) : outcome bool :=
  let? q := array_back (quotes s) in
  Done (negb (open q =? 0)).

(** [array_back(&state->quotes)->body_leads_with_delim = b] *)
Definition set_body_lead (s : LexerState) (b : bool) : outcome LexerState :=
  let? q := array_back (quotes s) in
  assign_quote s (to_u32 (size (quotes s) - 1)) (mkQuote (open q) (close q) (count q) b).

Definition lexerstate_take_body_lead (s : LexerState) (c : Z) : outcome (bool * LexerState) :=
  if size (quotes s) =? 0 then Done (false, s)
  else
    let? q := array_back (quotes s) in
    if body_leads_with_delim q && (c =? open q) then
      let? s := set_body_lead s false in Done (true, s)
    else Done (false, s).

(** ** Heredocs *)

Definition entry_at (queue : list HeredocEntry) (i : Z) : outcome HeredocEntry :=
  match queue !! Z.to_nat i with Some e => Done e | None => Undefined end.

Definition lexerstate_front_heredoc (s : LexerState) : outcome HeredocEntry :=
  entry_at (heredoc_queue s) 0.

Definition lexerstate_add_heredoc (s : LexerState) (delim : TSPString) (interp indent : bool)
  : LexerState :=
  let '(i, n) := if HEREDOC_QUEUE_MAX <=? heredoc_count s then (HEREDOC_QUEUE_MAX - 1, heredoc_count s)
                 else (heredoc_count s, heredoc_count s + 1) in
  set_heredocs s (<[Z.to_nat i := mkEntry delim interp indent]> (heredoc_queue s)) n
    (if n =? 1 then HEREDOC_START else heredoc_state s).

(** [queue[i] = queue[i + 1]] for the [n] indices from [i]. *)
Fixpoint shift_queue (n : nat) (queue : list HeredocEntry) (i : Z) : outcome (list HeredocEntry) :=
  match n with
  | O => Done queue
  | S n =>
      let? e := entry_at queue (i + 1) in
      shift_queue n (<[Z.to_nat i := e]> queue) (i + 1)
  end.

Definition lexerstate_finish_heredoc (s : LexerState) : outcome LexerState :=
  let? '(queue, n) :=
    if 0 <? heredoc_count s then
      let n := heredoc_count s - 1 in
      let? queue := shift_queue (Z.to_nat n) (heredoc_queue s) 0 in
      Done (queue, n)
    else Done (heredoc_queue s, heredoc_count s) in
  if n <? HEREDOC_QUEUE_MAX then
    Done (set_heredocs s (<[Z.to_nat n := entry_zero]> queue) n
      (if 0 <? n then HEREDOC_START else HEREDOC_NONE))
  else Undefined.

(** ** Serialization

    The bytes of the buffer are cells: those of a structure's padding hold no
    value. *)

Definition TREE_SITTER_SERIALIZATION_BUFFER_SIZE : Z := 1024.

(** [sizeof(TSPString)] and [sizeof(TSPQuote)] *)
Definition TSPSTRING_SIZE : Z := 36.
Definition TSPQUOTE_SIZE : Z := 16.

Definition SER_FIXED_OVERHEAD : Z := 1 + 1 + 1 + HEREDOC_QUEUE_MAX * (1 + 1 + TSPSTRING_SIZE) + 1.
Definition MAX_SERIALIZED_QUOTES : Z :=
  (TREE_SITTER_SERIALIZATION_BUFFER_SIZE - SER_FIXED_OVERHEAD) / TSPQUOTE_SIZE.

(** An [int32_t] in memory. *)
Definition i32_cells (z : Z) : list (option Z) := Some <$> u32_bytes (to_u32 z).

Definition quote_cells (q : TSPQuote) : list (option Z) :=
  i32_cells (open q) ++ i32_cells (close q) ++ i32_cells (count q)
  ++ [Some (of_bool (body_leads_with_delim q)); None; None; None].

Definition string_cells (s : TSPString) : list (option Z) :=
  i32_cells (length s) ++ concat (i32_cells <$> contents s).

Definition entry_cells (e : HeredocEntry) : list (option Z) :=
  [Some (of_bool (interpolates e)); Some (of_bool (indents e))] ++ string_cells (delim e).

(** The cells written, when they are in the buffer. *)
Definition tree_sitter_perl_external_scanner_serialize (s : LexerState) : outcome (list (option Z)) :=
  let n := size (quotes s) in
  let quote_count := if MAX_SERIALIZED_QUOTES <? n then MAX_SERIALIZED_QUOTES else n in
  let? qs := read_block (CArray.contents (quotes s)) (Z.to_nat quote_count) in
  if heredoc_count s <=? Z.of_nat (List.length (heredoc_queue s)) then
    let bytes := [Some (to_char quote_count)] ++ concat (quote_cells <$> qs)
      ++ [Some (to_char (heredoc_state s)); Some (to_char (heredoc_count s))]
      ++ concat (entry_cells <$> take (Z.to_nat (heredoc_count s)) (heredoc_queue s))
      ++ [Some (of_bool (recovery_emitted s))] in
    if Z.of_nat (List.length bytes) <=? TREE_SITTER_SERIALIZATION_BUFFER_SIZE then Done bytes
    else Undefined
  else Undefined.

(** The byte at the head of the rest of the buffer. *)
Definition next_byte (buffer : list (option Z)) : outcome (Z * list (option Z)) :=
  match buffer with
  | Some c :: buffer => Done (c, buffer)
  | _ => Undefined
  end.

Definition next_i32 (buffer : list (option Z)) : outcome (Z * list (option Z)) :=
  let? '(b0, buffer) := next_byte buffer in
  let? '(b1, buffer) := next_byte buffer in
  let? '(b2, buffer) := next_byte buffer in
  let? '(b3, buffer) := next_byte buffer in
  Done (to_i32 (bytes_u32 b0 b1 b2 b3), buffer).

(** A quote that was copied from the buffer, with its padding. *)
Definition next_quote (buffer : list (option Z)) : outcome (TSPQuote * list (option Z)) :=
  let? '(o, buffer) := next_i32 buffer in
  let? '(c, buffer) := next_i32 buffer in
  let? '(n, buffer) := next_i32 buffer in
  let? '(b, buffer) := next_byte buffer in
  if (3 <=? List.length buffer)%nat then Done (mkQuote o c n (to_bool b), drop 3 buffer) else Undefined.

(** [n] things, one after the other. *)
Fixpoint next_many {A} (next : list (option Z) → outcome (A * list (option Z))) (n : nat)
    (buffer : list (option Z)) : outcome (list A * list (option Z)) :=
  match n with
  | O => Done ([], buffer)
  | S n =>
      let? '(x, buffer) := next buffer in
      let? '(xs, buffer) := next_many next n buffer in
      Done (x :: xs, buffer)
  end.

Definition next_entry (buffer : list (option Z)) : outcome (HeredocEntry * list (option Z)) :=
  let? '(i, buffer) := next_byte buffer in
  let? '(d, buffer) := next_byte buffer in
  let? '(n, buffer) := next_i32 buffer in
  let? '(cs, buffer) := next_many next_i32 (Z.to_nat MAX_TSPSTRING_LEN) buffer in
  Done (mkEntry (mkTSPString n cs) (to_bool i) (to_bool d), buffer).

Definition tree_sitter_perl_external_scanner_deserialize (s : LexerState) (buffer : list (option Z))
  : outcome LexerState :=
  match buffer with
  | [] => Done (set_heredocs (set_quotes s array_init) (heredoc_queue s) 0 HEREDOC_NONE)
  | _ =>
      let? '(c, buffer) := next_byte buffer in
      let quote_count :=
        if MAX_SERIALIZED_QUOTES <? to_uchar c then MAX_SERIALIZED_QUOTES else to_uchar c in
      let? '(qs, buffer) := next_many next_quote (Z.to_nat quote_count) buffer in
      let a := array_reserve array_init quote_count in
      let? cells := memcpy (CArray.contents a) 0 (Some <$> qs) in
      let? '(state, buffer) := next_byte buffer in
      let? '(n, buffer) := next_byte buffer in
      let count := if HEREDOC_QUEUE_MAX <? to_uchar n then HEREDOC_QUEUE_MAX else to_uchar n in
      let? '(es, buffer) := next_many next_entry (Z.to_nat count) buffer in
      let? queue := memcpy (heredoc_queue s) 0 es in
      let? '(r, _) := next_byte buffer in
      Done (mkState (mkArray cells quote_count (capacity a)) queue count state (to_bool r))
  end.

Definition tree_sitter_perl_external_scanner_create : outcome LexerState :=
  tree_sitter_perl_external_scanner_deserialize
    (mkState array_init (replicate 8 entry_zero) 0 0 false) [].

Definition tree_sitter_perl_external_scanner_destroy (s : LexerState) : Array TSPQuote :=
  array_delete (quotes s).
