(* ===== verification/PerlStateProofs.v ===== *)
(** * Properties of the Perl scanner's state

    The array of open quotes as a stack, the queue of heredocs as a first-in
    first-out queue of at most eight entries, and their serialization. *)

From S2P Require Import Prelude CArray CArrayProofs CString PerlState.

(** ** The abstract state *)

Record astate := mkA {
  a_quotes : list TSPQuote;
  a_heredocs : list HeredocEntry;
  a_state : Z;
  a_recovery : bool;
}.

Definition wf_string (s : TSPString) : Prop := List.length (contents s) = 8%nat.

(** The first cells of the queue hold the announced heredocs. *)
Definition state_repr (s : LexerState) (a : astate) : Prop :=
  repr (quotes s) (a_quotes a)
  ∧ (∃ junk, heredoc_queue s = a_heredocs a ++ junk ∧ List.length (heredoc_queue s) = 8%nat)
  ∧ heredoc_count s = Z.of_nat (List.length (a_heredocs a))
  ∧ heredoc_state s = a_state a ∧ recovery_emitted s = a_recovery a.

(** The quote that an opener begins. *)
Definition quote_of (c : Z) : TSPQuote :=
  mkQuote (if close_for_open c =? 0 then 0 else c)
    (if close_for_open c =? 0 then c else close_for_open c) 0 false.

Definition with_quotes (a : astate) (qs : list TSPQuote) : astate :=
  mkA qs (a_heredocs a) (a_state a) (a_recovery a).
Definition with_heredocs (a : astate) (hs : list HeredocEntry) (st : Z) : astate :=
  mkA (a_quotes a) hs st (a_recovery a).
Definition with_state (a : astate) (st : Z) : astate := with_heredocs a (a_heredocs a) st.
Definition with_recovery (a : astate) (b : bool) : astate :=
  mkA (a_quotes a) (a_heredocs a) (a_state a) b.

(** ** Quotes *)

Lemma state_repr_quotes s a q qs : state_repr s a → repr q qs →
  state_repr (set_quotes s q) (with_quotes a qs).
Proof. by intros (?&?&?&?&?) ?. Qed.

Lemma push_quote_repr s a c : state_repr s a → Z.of_nat (List.length (a_quotes a)) + 1 < 4294967296 →
  ∃ s', lexerstate_push_quote s c = Done s'
    ∧ state_repr s' (with_quotes a (a_quotes a ++ [quote_of c])).
Proof.
  intros Hs Hl. destruct Hs as (Hq&Hs). unfold lexerstate_push_quote.
  destruct (repr_push (quotes s) (a_quotes a) (quote_of c) Hq Hl) as (q&Hp&Hq').
  unfold quote_of in Hp. cbn [body_leads_with_delim tspquote_new]. rewrite Hp. cbn [obind].
  eexists; split; [done|]. apply state_repr_quotes; [by split|done].
Qed.

(** The index of the last quote that satisfies [p], plus one, or 0. *)
Fixpoint last_index (p : TSPQuote → bool) (qs : list TSPQuote) : nat :=
  match qs with
  | [] => 0
  | q :: qs =>
      match last_index p qs with
      | O => if p q then 1 else 0
      | S i => S (S i)
      end
  end%nat.

Lemma last_index_snoc p qs q :
  last_index p (qs ++ [q]) = if p q then S (List.length qs) else last_index p qs.
Proof.
  induction qs as [|q' qs IH]; simpl; [done|]. rewrite IH. by destruct (p q), (last_index p qs).
Qed.

Lemma last_index_le p qs : (last_index p qs ≤ List.length qs)%nat.
Proof. induction qs as [|q qs IH]; simpl; [lia|]. repeat case_match; lia. Qed.

(** The quote at that index satisfies [p], and none behind it does. *)
Lemma last_index_spec p qs i : last_index p qs = S i →
  ∃ l q r, qs = l ++ q :: r ∧ List.length l = i ∧ p q = true ∧ Forall (λ x, p x = false) r.
Proof.
  revert i. induction qs as [|q qs IH] using rev_ind; [done|]. intros i.
  rewrite last_index_snoc. destruct (p q) eqn:Hp.
  - intros [= <-]. by exists qs, q, [].
  - intros (l&q'&r&->&?&?&?)%IH. exists l, q', (r ++ [q]). rewrite <- app_assoc. split_and!; try done.
    apply Forall_app; split; [done|by constructor].
Qed.

Lemma last_index_none p qs : last_index p qs = 0%nat ↔ Forall (λ x, p x = false) qs.
Proof.
  induction qs as [|q qs IH] using rev_ind; [split; [by constructor|done]|].
  rewrite last_index_snoc, Forall_app, Forall_singleton, <- IH.
  destruct (p q); split; [done|by intros [_ ?]| |]; [by intros ->|by intros [-> _]].
Qed.

Lemma find_quote_take p a l n : repr a l → (n ≤ List.length l)%nat →
  find_quote p a n = Done (Z.of_nat (last_index p (take n l))).
Proof.
  intros Ha. induction n as [|n IH]; intros Hn; [done|]. cbn [find_quote].
  destruct (lookup_lt_is_Some_2 l n) as [q Hq]; [lia|].
  rewrite (repr_get a l n q Ha Hq). cbn [obind].
  rewrite (take_S_r _ _ _ Hq), last_index_snoc, length_take_le by lia.
  destruct (p q); [f_equal; lia|]. apply IH. lia.
Qed.

Lemma find_quote_repr p a l : repr a l →
  find_quote p a (Z.to_nat (size a)) = Done (Z.of_nat (last_index p l)).
Proof.
  intros Ha. destruct (repr_size a l Ha) as [-> _]. rewrite Nat2Z.id, (find_quote_take p a l) by done.
  by rewrite take_ge.
Qed.

Definition opens (c : Z) (q : TSPQuote) : bool := negb (open q =? 0) && (c =? open q).
Definition closes (c : Z) (q : TSPQuote) : bool := negb (close q =? 0) && (c =? close q).

Lemma quote_opener_repr s a c : state_repr s a →
  lexerstate_is_quote_opener s c = Done (Z.of_nat (last_index (opens c) (a_quotes a))).
Proof. intros (Hq&_). by apply find_quote_repr. Qed.

Lemma quote_closer_repr s a c : state_repr s a →
  lexerstate_is_quote_closer s c = Done (Z.of_nat (last_index (closes c) (a_quotes a))).
Proof. intros (Hq&_). by apply find_quote_repr. Qed.

Definition set_count (q : TSPQuote) (n : Z) : TSPQuote :=
  mkQuote (open q) (close q) n (body_leads_with_delim q).

Lemma assign_quote_repr s a l q r i x : state_repr s a → a_quotes a = l ++ q :: r →
  i = Z.of_nat (List.length l) →
  ∃ s', assign_quote s i x = Done s' ∧ state_repr s' (with_quotes a (l ++ x :: r)).
Proof.
  intros Hs Ha Hi. pose proof Hs as (Hq&_). rewrite Ha in Hq. unfold assign_quote.
  destruct (repr_write _ l q x r i Hq Hi) as (c&->&Hc). cbn [obind].
  eexists; split; [done|]. by apply state_repr_quotes.
Qed.

Lemma get_quote_repr s a l q r : state_repr s a → a_quotes a = l ++ q :: r →
  array_get (quotes s) (Z.of_nat (S (List.length l)) - 1) = Done q.
Proof.
  intros (Hq&_) Ha. rewrite Ha in Hq. replace (_ - 1) with (Z.of_nat (List.length l)) by lia.
  apply (repr_get _ _ _ _ Hq). by apply list_lookup_middle.
Qed.

Lemma saw_opener_repr s a l q r : state_repr s a → a_quotes a = l ++ q :: r → count q < 2147483647 →
  ∃ s', lexerstate_saw_opener s (Z.of_nat (S (List.length l))) = Done s'
    ∧ state_repr s' (with_quotes a (l ++ set_count q (count q + 1) :: r)).
Proof.
  intros Hs Ha Hc. unfold lexerstate_saw_opener. rewrite (get_quote_repr s a l q r Hs Ha).
  cbn [obind]. rewrite i32_incr_small by done. cbn [obind].
  apply (assign_quote_repr s a l q r); [done..|lia].
Qed.

Lemma saw_closer_repr s a l q r : state_repr s a → a_quotes a = l ++ q :: r → 0 < count q →
  ∃ s', lexerstate_saw_closer s (Z.of_nat (S (List.length l))) = Done s'
    ∧ state_repr s' (with_quotes a (l ++ set_count q (count q - 1) :: r)).
Proof.
  intros Hs Ha Hc. unfold lexerstate_saw_closer. rewrite (get_quote_repr s a l q r Hs Ha).
  cbn [obind]. replace (count q =? 0) with false by lia. cbn [negb].
  rewrite i32_decr_small by lia. cbn [obind].
  apply (assign_quote_repr s a l q r); [done..|lia].
Qed.

Lemma quote_closed_repr s a l q r : state_repr s a → a_quotes a = l ++ q :: r →
  lexerstate_is_quote_closed s (Z.of_nat (S (List.length l))) = Done (count q =? 0).
Proof.
  intros Hs Ha. unfold lexerstate_is_quote_closed. by rewrite (get_quote_repr s a l q r Hs Ha).
Qed.

Lemma pop_quote_repr s a l q r : state_repr s a → a_quotes a = l ++ q :: r →
  ∃ s', lexerstate_pop_quote s (Z.of_nat (S (List.length l))) = Done s'
    ∧ state_repr s' (with_quotes a (l ++ r)).
Proof.
  intros Hs Ha. pose proof Hs as (Hq&_). rewrite Ha in Hq. unfold lexerstate_pop_quote.
  replace (_ - 1) with (Z.of_nat (List.length l)) by lia.
  destruct (repr_erase _ _ (List.length l) Hq) as (q'&Hp&Hr); [rewrite length_app; simpl; lia|].
  rewrite Hp. cbn [obind]. eexists; split; [done|]. apply state_repr_quotes; [done|].
  rewrite take_app_length in Hr. by rewrite <- Nat.add_1_r, <- drop_drop, drop_app_length in Hr.
Qed.

Lemma back_quote_repr s a l q : state_repr s a → a_quotes a = l ++ [q] →
  array_back (quotes s) = Done q.
Proof. intros (Hq&_) Ha. rewrite Ha in Hq. by eapply repr_back. Qed.

(** An empty stack has no last quote: the check of [array_get] fails. *)
Lemma back_quote_empty s a : state_repr s a → a_quotes a = [] → array_back (quotes s) = Aborted.
Proof.
  intros (Hq&_) Ha. rewrite Ha in Hq. unfold array_back. destruct (repr_size _ _ Hq) as [-> _].
  apply (repr_get_out _ [] _ Hq). by vm_compute.
Qed.

Definition set_lead (q : TSPQuote) (b : bool) : TSPQuote := mkQuote (open q) (close q) (count q) b.

Lemma set_body_lead_repr s a l q b : state_repr s a → a_quotes a = l ++ [q] →
  ∃ s', set_body_lead s b = Done s' ∧ state_repr s' (with_quotes a (l ++ [set_lead q b])).
Proof.
  intros Hs Ha. unfold set_body_lead. rewrite (back_quote_repr s a l q Hs Ha). cbn [obind].
  apply (assign_quote_repr s a l q []); [done..|]. destruct Hs as (Hq&_).
  destruct (repr_size _ _ Hq) as [Hsz ?]. rewrite Ha, length_app in Hsz. simpl in Hsz.
  rewrite to_u32_small by lia. lia.
Qed.

Lemma take_body_lead_repr s a c : state_repr s a →
  ∃ b s' qs, lexerstate_take_body_lead s c = Done (b, s') ∧ state_repr s' (with_quotes a qs)
    ∧ Forall2 (λ q q', count q = count q' ∧ open q = open q' ∧ close q = close q') (a_quotes a) qs.
Proof.
  intros Hs. unfold lexerstate_take_body_lead. destruct Hs as (Hq&Hs).
  destruct (repr_size _ _ Hq) as [Hsz _].
  assert (∀ qs, Forall2 (λ q q', count q = count q' ∧ open q = open q' ∧ close q = close q') qs qs)
    as Hrefl by (induction qs; by constructor).
  destruct (a_quotes a) as [|q l _] eqn:Ha using rev_ind.
  { rewrite Hsz. simpl. exists false, s, []. split_and!; [done| |by constructor].
    split; [by rewrite <- Ha in *|done]. }
  rewrite Hsz, length_app. simpl. replace (_ =? 0) with false by lia.
  assert (state_repr s a) as Hs' by (split; [by rewrite Ha|done]).
  rewrite (back_quote_repr s a l q Hs' Ha). cbn [obind].
  destruct (_ && _).
  - destruct (set_body_lead_repr s a l q false Hs' Ha) as (s'&->&?). cbn [obind].
    eexists _, s', _. split_and!; [done..|]. apply Forall2_app; [done|]. by repeat constructor.
  - exists false, s, (l ++ [q]). split_and!; [done|by rewrite <- Ha; destruct a|done].
Qed.

(** ** The queue of heredocs *)

(** A queue of at most eight: what does not fit replaces the last entry. *)
Definition enqueue (e : HeredocEntry) (hs : list HeredocEntry) : list HeredocEntry :=
  if (List.length hs <? 8)%nat then hs ++ [e] else take 7 hs ++ [e].

Lemma add_heredoc_repr s a d interp indent : state_repr s a →
  let hs := enqueue (mkEntry d interp indent) (a_heredocs a) in
  state_repr (lexerstate_add_heredoc s d interp indent)
    (with_heredocs a hs (if decide (List.length hs = 1%nat) then HEREDOC_START else a_state a)).
Proof.
  intros (Hq&(junk&Hj&H8)&Hn&Hst&Hr) hs.
  assert (List.length (a_heredocs a) ≤ 8)%nat by (rewrite Hj, length_app in H8; lia).
  unfold lexerstate_add_heredoc. rewrite Hn. set (e := mkEntry d interp indent) in *.
  unfold hs, enqueue, HEREDOC_QUEUE_MAX.
  destruct (8 <=? Z.of_nat (List.length (a_heredocs a))) eqn:E.
  - replace (_ <? 8)%nat with false by lia.
    assert (List.length (a_heredocs a) = 8%nat) as H8' by lia.
    assert (junk = []) as -> by (apply length_zero_iff_nil; rewrite Hj, length_app in H8; lia).
    rewrite app_nil_r in Hj. rewrite decide_False by (rewrite length_app, length_take, H8'; simpl; lia).
    split_and!; cbn; try done; [|by rewrite length_app, length_take, H8'|by rewrite H8'].
    exists []. rewrite Hj, length_insert, H8', app_nil_r. split; [|done].
    rewrite insert_take_drop, drop_ge by lia. done.
  - replace (_ <? 8)%nat with true by lia.
    destruct junk as [|x junk]; [rewrite Hj, length_app in H8; simpl in H8; lia|].
    split_and!; cbn; try done.
    + exists junk. rewrite length_insert. split; [|done]. rewrite Hj, Nat2Z.id, <- app_assoc.
      by rewrite insert_app_r_alt, Nat.sub_diag by lia.
    + rewrite length_app. simpl. lia.
    + rewrite length_app. simpl. repeat case_match; try done; lia.
Qed.

Lemma shift_queue_spec n pre x hs suf : n = List.length hs →
  shift_queue n (pre ++ x :: hs ++ suf) (Z.of_nat (List.length pre))
    = Done (pre ++ hs ++ default x (last hs) :: suf).
Proof.
  intros ->. revert pre x. induction hs as [|h hs IH]; intros pre x; [done|].
  cbn [List.length shift_queue app]. unfold entry_at.
  replace (Z.to_nat (_ + 1)) with (S (List.length pre)) by lia.
  rewrite lookup_app_r by lia. replace (S _ - _)%nat with 1%nat by lia. cbn [lookup list_lookup obind].
  rewrite Nat2Z.id, insert_app_r_alt, Nat.sub_diag by lia. cbn [insert list_insert].
  replace (Z.of_nat (List.length pre) + 1) with (Z.of_nat (List.length (pre ++ [h])))
    by (rewrite length_app; simpl; lia).
  replace (pre ++ h :: h :: hs ++ suf) with ((pre ++ [h]) ++ h :: hs ++ suf) by by rewrite <- app_assoc.
  rewrite IH, <- app_assoc. do 4 f_equal. destruct hs as [|h2 hs]; [done|].
  rewrite (last_cons h). by destruct (last (h2 :: hs)) eqn:E; [|apply last_None in E].
Qed.

Lemma finish_heredoc_repr s a e hs : state_repr s a → a_heredocs a = e :: hs →
  ∃ s', lexerstate_finish_heredoc s = Done s'
    ∧ state_repr s' (with_heredocs a hs (if decide (hs = []) then HEREDOC_NONE else HEREDOC_START)).
Proof.
  intros (Hq&(junk&Hj&H8)&Hn&Hst&Hr) Ha. rewrite Ha in *. simpl in Hn.
  unfold lexerstate_finish_heredoc. rewrite Hn. replace (0 <? _) with true by lia.
  replace (Z.of_nat (S (List.length hs)) - 1) with (Z.of_nat (List.length hs)) by lia.
  rewrite Nat2Z.id, Hj. rewrite <- app_comm_cons.
  pose proof (shift_queue_spec (List.length hs) [] e hs junk eq_refl) as Hshift.
  change (Z.of_nat (List.length [])) with 0 in Hshift. cbn [app] in Hshift. rewrite Hshift. cbn [obind].
  assert (List.length hs < 8)%nat by (rewrite Hj in H8; simpl in H8; rewrite length_app in H8; lia).
  unfold HEREDOC_QUEUE_MAX. replace (_ <? 8) with true by lia.
  eexists; split; [done|]. split_and!; cbn; try done.
  - exists (entry_zero :: junk). rewrite Nat2Z.id, insert_app_r_alt, Nat.sub_diag by lia.
    split; [done|]. rewrite Hj in H8. simpl in H8. rewrite length_app in *. simpl in *. lia.
  - by destruct hs.
Qed.

(** ** Serialization *)

Definition is_i32 (z : Z) : Prop := -2147483648 ≤ z < 2147483648.

Definition quote_ok (q : TSPQuote) : Prop := is_i32 (open q) ∧ is_i32 (close q) ∧ is_i32 (count q).

Definition entry_ok (e : HeredocEntry) : Prop :=
  is_i32 (length (delim e)) ∧ Forall is_i32 (contents (delim e)) ∧ wf_string (delim e).

#[export] Instance is_i32_dec z : Decision (is_i32 z).
Proof. unfold is_i32. apply _. Defined.
#[export] Instance quote_ok_dec q : Decision (quote_ok q).
Proof. unfold quote_ok. apply _. Defined.
#[export] Instance entry_ok_dec e : Decision (entry_ok e).
Proof. unfold entry_ok, wf_string. apply _. Defined.

(** The values are those of the fields' types. *)
Definition state_ok (a : astate) : Prop :=
  Forall quote_ok (a_quotes a) ∧ Forall entry_ok (a_heredocs a) ∧ 0 ≤ a_state a ≤ HEREDOC_END.

Lemma next_i32_cells z r : is_i32 z → next_i32 (i32_cells z ++ r) = Done (z, r).
Proof.
  intros Hz. unfold next_i32, i32_cells, u32_bytes. cbn.
  rewrite bytes_u32_bytes by (apply Z.mod_pos_bound; lia). do 2 f_equal.
  unfold is_i32, to_i32, to_u32 in *. Z.to_euclidean_division_equations. lia.
Qed.

Lemma length_i32_cells z : List.length (i32_cells z) = 4%nat.
Proof. done. Qed.

Lemma next_quote_cells q r : quote_ok q → next_quote (quote_cells q ++ r) = Done (q, r).
Proof.
  intros (Ho&Hc&Hn). unfold next_quote, quote_cells. rewrite <- !app_assoc.
  rewrite !(next_i32_cells _ _ Ho). cbn [obind]. rewrite (next_i32_cells _ _ Hc). cbn [obind].
  rewrite (next_i32_cells _ _ Hn). cbn [obind app next_byte List.length Nat.leb drop].
  destruct q as [o c n b]; simpl. by destruct b.
Qed.

Lemma next_many_cells {A} (next : list (option Z) → outcome (A * list (option Z))) cells xs r :
  (∀ x r, x ∈ xs → next (cells x ++ r) = Done (x, r)) →
  next_many next (List.length xs) (concat (cells <$> xs) ++ r) = Done (xs, r).
Proof.
  induction xs as [|x xs IH]; intros Hx; [done|]. cbn [fmap list_fmap concat next_many List.length].
  rewrite <- app_assoc, Hx by by left. cbn [obind]. rewrite IH by (intros; apply Hx; by right). done.
Qed.

Lemma next_entry_cells e r : entry_ok e → next_entry (entry_cells e ++ r) = Done (e, r).
Proof.
  intros (Hl&Hc&Hw). unfold next_entry, entry_cells, string_cells. rewrite <- !app_assoc.
  cbn [app next_byte obind]. rewrite (next_i32_cells _ _ Hl). cbn [obind].
  unfold wf_string in Hw. change (Z.to_nat MAX_TSPSTRING_LEN) with 8%nat. rewrite <- Hw.
  rewrite (next_many_cells next_i32 i32_cells).
  - cbn [obind]. destruct e as [[l cs] i d]; simpl. by destruct i, d.
  - intros x r' Hx. apply next_i32_cells. rewrite Forall_forall in Hc. auto.
Qed.

Lemma length_concat_cells {A} (cells : A → list (option Z)) k xs :
  (∀ x, x ∈ xs → List.length (cells x) = k) → List.length (concat (cells <$> xs)) = (List.length xs * k)%nat.
Proof.
  induction xs as [|x xs IH]; intros H; [done|]. cbn [fmap list_fmap concat].
  rewrite length_app, H by by left. rewrite IH by (intros; apply H; by right). simpl. lia.
Qed.

Lemma length_quote_cells q : List.length (quote_cells q) = 16%nat.
Proof. done. Qed.

Lemma length_entry_cells e : wf_string (delim e) → List.length (entry_cells e) = 38%nat.
Proof.
  intros Hw. unfold entry_cells, string_cells. rewrite !length_app, (length_concat_cells _ 4%nat) by done.
  by rewrite Hw.
Qed.

(** What the runtime saves for an abstract state. *)
Definition state_cells (a : astate) : list (option Z) :=
  let qs := take 44 (a_quotes a) in
  Some (Z.of_nat (List.length qs)) :: concat (quote_cells <$> qs)
  ++ [Some (a_state a); Some (Z.of_nat (List.length (a_heredocs a)))]
  ++ concat (entry_cells <$> a_heredocs a) ++ [Some (of_bool (a_recovery a))].

Lemma length_state_cells a : state_ok a → (List.length (a_heredocs a) ≤ 8)%nat →
  (List.length (state_cells a) ≤ 1024)%nat.
Proof.
  intros (Hq&He&_) H8. unfold state_cells. cbn [List.length]. rewrite !length_app.
  rewrite (length_concat_cells _ 16%nat) by done. rewrite (length_concat_cells _ 38%nat).
  - rewrite length_take. cbn [List.length]. lia.
  - intros x Hx. apply length_entry_cells. rewrite Forall_forall in He. by apply He.
Qed.

Lemma state_repr_8 s a : state_repr s a → (List.length (a_heredocs a) ≤ 8)%nat.
Proof. intros (_&(junk&Hj&H8)&_). rewrite Hj, length_app in H8. lia. Qed.

Lemma read_block_take {T} (l : list T) junk n : (n ≤ List.length l)%nat →
  read_block ((Some <$> l) ++ junk) n = Done (take n l).
Proof.
  intros Hn. pose proof (read_block_app (take n l) ((Some <$> drop n l) ++ junk)) as H.
  rewrite length_take_le, app_assoc, <- fmap_app, take_drop in H by done. exact H.
Qed.

Lemma serialize_repr s a : state_repr s a → state_ok a →
  tree_sitter_perl_external_scanner_serialize s = Done (state_cells a).
Proof.
  intros Hs Hok. pose proof (state_repr_8 s a Hs) as H8.
  pose proof (length_state_cells a Hok H8) as Hfit. destruct Hok as (_&_&Hst).
  destruct Hs as ((junk&Hc&Hsz&_)&(junk2&Hj&Hl)&Hn&Hstate&Hrec).
  unfold tree_sitter_perl_external_scanner_serialize. rewrite Hsz, Hc.
  set (n := if _ <? _ then _ else _).
  assert (Z.to_nat n = List.length (take 44 (a_quotes a))) as Hto.
  { unfold n. rewrite length_take. change MAX_SERIALIZED_QUOTES with 44. case_match; lia. }
  assert (0 ≤ n ≤ 44) as Hn44 by (unfold n; change MAX_SERIALIZED_QUOTES with 44; case_match; lia).
  rewrite read_block_take by (rewrite Hto, length_take; lia). cbn [obind].
  rewrite Hn, Hl. replace (_ <=? Z.of_nat 8) with true by lia.
  rewrite Nat2Z.id, Hj, take_app_length, Hstate, Hrec.
  rewrite !to_char_small by (unfold HEREDOC_END in *; lia).
  assert (take (Z.to_nat n) (a_quotes a) = take 44 (a_quotes a)) as Htake.
  { rewrite Hto, length_take. destruct (decide (44 ≤ List.length (a_quotes a))%nat);
      [by rewrite Nat.min_l by lia|]. rewrite Nat.min_r, !take_ge by lia. done. }
  rewrite Htake. replace n with (Z.of_nat (List.length (take 44 (a_quotes a)))) by lia.
  match goal with |- (if _ <=? _ then Done ?l else _) = _ => change l with (state_cells a) end.
  unfold TREE_SITTER_SERIALIZATION_BUFFER_SIZE. by replace (_ <=? 1024) with true by lia.
Qed.

Lemma deserialize_repr s0 a0 a : state_repr s0 a0 → state_ok a → (List.length (a_heredocs a) ≤ 8)%nat →
  ∃ s, tree_sitter_perl_external_scanner_deserialize s0 (state_cells a) = Done s
    ∧ state_repr s (with_quotes a (take 44 (a_quotes a))).
Proof.
  intros Hs0 (Hq&He&Hst) H8. unfold state_cells. set (qs := take 44 (a_quotes a)).
  assert (List.length qs ≤ 44)%nat as Hqs by (unfold qs; rewrite length_take; lia).
  assert (Forall quote_ok qs) as Hqok by by apply Forall_take.
  cbn [tree_sitter_perl_external_scanner_deserialize next_byte obind].
  rewrite to_uchar_small by lia. change MAX_SERIALIZED_QUOTES with 44.
  replace (44 <? _) with false by lia. rewrite Nat2Z.id.
  rewrite (next_many_cells next_quote quote_cells)
    by (intros x r Hx; apply next_quote_cells; rewrite Forall_forall in Hqok; auto).
  cbn [obind]. destruct (repr_load array_init [] qs repr_init ltac:(lia)) as (cells&Hm&Hr).
  rewrite Hm. cbn [obind next_byte app]. rewrite to_uchar_small by lia.
  unfold HEREDOC_QUEUE_MAX. replace (8 <? _) with false by lia. rewrite Nat2Z.id.
  rewrite (next_many_cells next_entry entry_cells)
    by (intros x r Hx; apply next_entry_cells; rewrite Forall_forall in He; auto).
  cbn [obind]. destruct Hs0 as (_&(junk&Hj&Hl)&_).
  assert (∃ queue, memcpy (heredoc_queue s0) 0 (a_heredocs a) = Done queue
    ∧ ∃ junk, queue = a_heredocs a ++ junk ∧ List.length queue = 8%nat) as (queue&Hcp&Hqu).
  { unfold memcpy. rewrite Hl. replace (_ && _) with true by lia. eexists; split; [done|].
    eexists; split; [done|]. rewrite !length_app, length_drop, Hl, length_take. simpl. lia. }
  rewrite Hcp. cbn [obind next_byte]. eexists; split; [done|].
  split_and!; cbn; try done. by destruct (a_recovery a).
Qed.

(** C16: saving and restoring. A state with any number of open quotes and up to
    eight announced heredocs is written to at most 1024 bytes, and these, restored
    over any state, give back the same heredocs, flags and mode, and the quotes:
    all of them up to 44, and of a deeper stack the 44 outermost. *)
Theorem perl_serialize_roundtrip (s s0 : LexerState) (a a0 : astate) :
  state_repr s a → state_ok a → state_repr s0 a0 →
  ∃ buffer s', tree_sitter_perl_external_scanner_serialize s = Done buffer
    ∧ (List.length buffer ≤ 1024)%nat
    ∧ tree_sitter_perl_external_scanner_deserialize s0 buffer = Done s'
    ∧ state_repr s' (with_quotes a (take 44 (a_quotes a))).
Proof.
  intros Hs Hok H0. pose proof (state_repr_8 s a Hs) as H8.
  destruct (deserialize_repr s0 a0 a H0 Hok H8) as (s'&?&?).
  exists (state_cells a), s'. split_and!; auto using serialize_repr, length_state_cells.
Qed.

(** The state that [create] makes. *)
Definition empty_state : LexerState := mkState array_init (replicate 8 entry_zero) 0 0 false.
Definition empty_astate : astate := mkA [] [] 0 false.

Lemma empty_repr : state_repr empty_state empty_astate.
Proof. split_and!; try done; [apply repr_init|]. by exists (replicate 8 entry_zero). Qed.

(** A stack of [n] braces, and one heredoc. *)
Definition deep_astate (n : nat) : astate :=
  mkA (replicate n (quote_of "{")) [mkEntry (mkTSPString 3 (cstr "EOT" ++ replicate 5 0)) true false] 1 true.
Definition deep_state (n : nat) : LexerState :=
  mkState (mkArray (Some <$> a_quotes (deep_astate n)) (Z.of_nat n) (Z.of_nat n))
    (a_heredocs (deep_astate n) ++ replicate 7 entry_zero) 1 1 true.

Lemma deep_repr n : Z.of_nat n < 4294967296 → state_repr (deep_state n) (deep_astate n).
Proof.
  intros Hn. split_and!; try done; [|by eexists].
  exists []. cbn. rewrite length_replicate, app_nil_r. split_and!; try done; lia.
Qed.

Lemma perl_serialize_roundtrip_witness :
  ∃ buffer s', tree_sitter_perl_external_scanner_serialize (deep_state 50) = Done buffer
    ∧ (List.length buffer ≤ 1024)%nat
    ∧ tree_sitter_perl_external_scanner_deserialize empty_state buffer = Done s'
    ∧ state_repr s' (deep_astate 44).
Proof.
  apply (perl_serialize_roundtrip (deep_state 50) empty_state (deep_astate 50) empty_astate).
  - by apply deep_repr.
  - unfold state_ok. split_and!; [apply Forall_replicate|apply Forall_singleton|..];
      try apply (bool_decide_unpack _); by vm_compute.
  - apply empty_repr.
Defined.

(** ** The queue as a refinement *)

Lemma front_heredoc_repr s a e hs : state_repr s a → a_heredocs a = e :: hs →
  lexerstate_front_heredoc s = Done e.
Proof.
  intros (_&(junk&Hj&_)&_) Ha. rewrite Ha in Hj.
  unfold lexerstate_front_heredoc, entry_at. by rewrite Hj.
Qed.

Lemma finish_empty_repr s a : state_repr s a → a_heredocs a = [] →
  ∃ s', lexerstate_finish_heredoc s = Done s' ∧ state_repr s' (with_heredocs a [] HEREDOC_NONE).
Proof.
  intros (Hq&(junk&Hj&H8)&Hn&Hst&Hr) Ha. rewrite Ha in *. unfold lexerstate_finish_heredoc.
  rewrite Hn. cbn. eexists; split; [done|]. split_and!; cbn; try done.
  eexists; split; [done|]. by rewrite length_insert.
Qed.

(** C17: the array of eight entries and its counter implement a bounded first-in
    first-out queue. To announce a heredoc is [enqueue], which lets it take the
    place of the last one when there are eight, and arms the consuming automaton
    for the first one; to finish one takes off the oldest, and arms the
    automaton for the next, if there is one. The order of the others is kept. *)
Theorem perl_heredoc_queue (s : LexerState) (a : astate) (d : TSPString) (interp indent : bool) :
  state_repr s a →
  (let hs := enqueue (mkEntry d interp indent) (a_heredocs a) in
   state_repr (lexerstate_add_heredoc s d interp indent)
     (with_heredocs a hs (if decide (List.length hs = 1%nat) then HEREDOC_START else a_state a)))
  ∧ match a_heredocs a with
    | [] => ∃ s', lexerstate_finish_heredoc s = Done s'
              ∧ state_repr s' (with_heredocs a [] HEREDOC_NONE)
    | e :: hs => lexerstate_front_heredoc s = Done e
              ∧ ∃ s', lexerstate_finish_heredoc s = Done s'
                ∧ state_repr s' (with_heredocs a hs
                    (if decide (hs = []) then HEREDOC_NONE else HEREDOC_START))
    end.
Proof.
  intros Hs. split; [by apply add_heredoc_repr|]. destruct (a_heredocs a) as [|e hs] eqn:Ha.
  - by apply finish_empty_repr.
  - split; [by eapply front_heredoc_repr|by eapply finish_heredoc_repr].
Qed.

Lemma perl_heredoc_queue_witness :
  state_repr (lexerstate_add_heredoc (deep_state 1) tspstring_zero true true)
    (with_heredocs (deep_astate 1)
      (a_heredocs (deep_astate 1) ++ [mkEntry tspstring_zero true true]) 1)
  ∧ ∃ s', lexerstate_finish_heredoc (deep_state 1) = Done s'
      ∧ state_repr s' (with_heredocs (deep_astate 1) [] HEREDOC_NONE).
Proof.
  destruct (perl_heredoc_queue (deep_state 1) (deep_astate 1) tspstring_zero true true)
    as (H1&_&H2); [by apply deep_repr|]. split; [exact H1|exact H2].
Defined.
