(* ===== verification/Perl.v ===== *)
(** * The Perl external scanner

    [crates/tree-sitter-perl-sqry/grammar-src/scanner.c] and [tsp_keywords.h]: the
    scan function, in the order of its parts. The local [c], which holds the
    last lookahead the code has read, is passed from part to part, since it may
    lag behind the lexer. A part either returns from the scan ([inl]) or goes on
    with its locals ([inr]); the labels of [goto]s are functions. *)

From S2P Require Import Prelude CArray CString Scan PerlUnicode PerlKeywords PerlIntuit PerlState.

(** [strchr(s, c) != NULL] of the scanner's own: finds the terminator as well. *)
Definition tsp_strchr (s : list Z) (c : Z) : bool := existsb (Z.eqb c) (s ++ [NUL]).

Definition isidfirst (c : Z) : outcome bool := if c =? "_" then Done true else is_tsp_id_start c.
Definition isidcont (c : Z) : outcome bool := if c =? "_" then Done true else is_tsp_id_continue c.

Definition is_interpolation_escape (c : Z) : bool :=
  (c <? 256) && tsp_strchr (cstr "$@-[{" ++ [BACKSLASH]) c.

(** [strcmp(word, k) == 0], for the characters stored in a block. *)
Definition word_is (word : list Z) (k : list Z) : bool := bool_decide (c_string word = k).

(** ** [tsp_keywords.h] *)

Definition KEYWORD_FIRST_CHAR_FILTER (la : Z) : bool := negb (existsb (Z.eqb la) (cstr "cmnprsu")).

Definition KEYWORD_WORD_CHAR (la : Z) : bool := existsb (Z.eqb la) (cstr "abcdeghklmnoprstu").

Inductive KwKind : Type := KW_NONE | KW_ALWAYS | KW_NEEDS_NAME.

Definition KEYWORD_MATCH (word : list Z) : KwKind :=
  if word_is word (cstr "package") || word_is word (cstr "use") || word_is word (cstr "no")
     || word_is word (cstr "class") || word_is word (cstr "role") then KW_ALWAYS
  else if word_is word (cstr "sub") || word_is word (cstr "method") then KW_NEEDS_NAME
  else KW_NONE.

Inductive PeekResult : Type :=
  | PEEK_NO_MATCH | PEEK_KEYWORD | PEEK_FAT_COMMA | PEEK_AUTOQUOTE_KEY | PEEK_NOT_KEYWORD.

Section scanner.
Context {L : Type} {HL : TSLexer L} {HW : WCType}.
Local Abbreviation M := (M L LexerState).

(** Go on with the result of a part, unless it returned. *)
Definition continue {A B} (m : M (bool + A)) (k : A → M (bool + B)) : M (bool + B) :=
  r <- m;;
  match r with
  | inl b => ret (inl b)
  | inr a => k a
  end.

Definition TOKEN (t : TokenType) : M bool := set_symbol (TokenType_to_Z t);; ret true.

(** [TOKEN] and [return] in a part. *)
Definition token {A} (t : TokenType) : M (bool + A) := r <- TOKEN t;; ret (inl r).
Definition return_ {A} (b : bool) : M (bool + A) := ret (inl b).
Definition next {A} (a : A) : M (bool + A) := ret (inr a).

Definition ADVANCE_C : M Z := advance_ false;; lookahead.

Definition is_whitespace (c : Z) : M bool := lift (is_tsp_whitespace c).
Definition id_first (c : Z) : M bool := lift (isidfirst c).
Definition id_cont (c : Z) : M bool := lift (isidcont c).

(** [while (cond) ADVANCE_C;] *)
Definition while_c (cond : Z → M bool) (c : Z) : M Z :=
  iter (λ c,
    b <- cond c;;
    if b : bool then c <- ADVANCE_C;; ret (inl c) else ret (inr c)) c.

(** [!lexer->eof(lexer)] *)
Definition not_eof : M bool := e <- eof;; ret (negb e).

(** [c != k && !lexer->eof(lexer)] *)
Definition until (k : Z) (c : Z) : M bool := if c =? k then ret false else not_eof.

Definition modify (f : LexerState → outcome LexerState) : M unit :=
  s <- get_payload;;
  s <- lift (f s);;
  set_payload s.

Definition skip_whitespace : M unit :=
  iter (λ _ : unit,
    c <- lookahead;;
    if c =? 0 then ret (inr tt)
    else
      w <- is_whitespace c;;
      if w : bool then advance_ true;; ret (inl tt) else ret (inr tt)) tt.

Definition skip_ws_to_eol : M bool :=
  iter (λ _ : unit,
    c <- lookahead;;
    if c =? 0 then ret (inr false)
    else
      w <- is_whitespace c;;
      if w : bool then
        advance_ true;;
        ret (if c =? LF then inr true else inl tt)
      else ret (inr false)) tt.

(** ** Statement keywords *)

(** The characters of the keyword set: the word, at most 15 of it, and the
    character behind it. *)
Definition read_keyword (la : Z) : M (list Z * Z) :=
  iter (λ '(word, la),
    if KEYWORD_WORD_CHAR la then
      let word := if (List.length word <? 15)%nat then word ++ [to_char la] else word in
      la <- ADVANCE_C;;
      ret (inl (word, la))
    else ret (inr (word, la))) ([], la).

(** [while (is_tsp_whitespace(la)) { lexer->advance(lexer, skip); la = lexer->lookahead; }] *)
Definition while_whitespace (skip : bool) (la : Z) : M Z :=
  iter (λ la,
    w <- is_whitespace la;;
    if w : bool then advance_ skip;; la <- lookahead;; ret (inl la) else ret (inr la)) la.

Definition peek_is_statement_keyword : M (PeekResult * bool) :=
  la <- lookahead;;
  if KEYWORD_FIRST_CHAR_FILTER la then ret (PEEK_NO_MATCH, false)
  else
    r <- read_keyword la;;
    let '(word, la) := r in
    longer <- id_cont la;;
    match (if longer : bool then KW_NONE else KEYWORD_MATCH word) with
    | KW_NONE =>
        la <- while_c id_cont la;;
        mark_end;;
        la <- while_whitespace false la;;
        ret (if la =? "=" then PEEK_AUTOQUOTE_KEY else PEEK_NOT_KEYWORD, false)
    | kind =>
        let is_structural := word_is word (cstr "method") || word_is word (cstr "class")
                             || word_is word (cstr "role") in
        la <- while_whitespace true la;;
        if la =? "=" then ret (PEEK_FAT_COMMA, is_structural)
        else
          first <- id_first la;;
          ret (match kind with
               | KW_NEEDS_NAME => if first : bool then PEEK_KEYWORD else PEEK_NOT_KEYWORD
               | _ => PEEK_KEYWORD
               end, is_structural)
    end.

(** ** Escapes *)

(** [maxlen] is not negative. *)
Definition _skip_chars (maxlen : nat) (allow : list Z) : M unit :=
  c <- lookahead;;
  iter (λ '(maxlen, c),
    match maxlen with
    | O => ret (inr tt)
    | S n =>
        if c =? 0 then ret (inr tt)
        else if tsp_strchr allow c then c <- ADVANCE_C;; ret (inl (n, c))
        else ret (inr tt)
    end) (maxlen, c).

Definition skip_hexdigits (maxlen : nat) : M unit := _skip_chars maxlen (cstr "0123456789ABCDEFabcdef").
Definition skip_octdigits (maxlen : nat) : M unit := _skip_chars maxlen (cstr "01234567").

Definition skip_braced : M unit :=
  c <- lookahead;;
  if negb (c =? "{") then ret tt
  else
    c <- ADVANCE_C;;
    while_c (λ c, ret (negb (c =? 0) && negb (c =? "}"))) c;;
    ADVANCE_C;;
    ret tt.

(** ** Autoquoted words, and the ends of the scan *)

(** The label [fat_comma_check]; what is behind it is the end of the scan. *)
Definition fat_comma_check (valid_symbols : TokenType → bool) : M bool :=
  c1 <- lookahead;;
  c <- ADVANCE_C;;
  if valid_symbols TOKEN_FAT_COMMA_AUTOQUOTED && ((c1 =? "=") && (c =? ">"))
  then TOKEN TOKEN_FAT_COMMA_AUTOQUOTED
  else if valid_symbols TOKEN_BRACE_AUTOQUOTED && (c1 =? "}") then TOKEN TOKEN_BRACE_AUTOQUOTED
  else ret false.

(** The rest of a comment: up to the first column of the next line. *)
Definition skip_comment (c : Z) : M Z :=
  while_c (λ _, col <- get_column;; if col =? 0 then ret false else not_eof) c.

(** The label [kw_autoquote]: white space and comments, up to the end of the
    input, where the scan returns. *)
Definition kw_autoquote (valid_symbols : TokenType → bool) (c : Z) : M bool :=
  r <- iter (λ c,
    w <- is_whitespace c;;
    if w || (c =? "#") then
      c <- while_c is_whitespace c;;
      c <- (if c =? "#" then c <- ADVANCE_C;; skip_comment c else ret c);;
      e <- eof;;
      if e : bool then ret (inr false) else ret (inl c)
    else ret (inr true)) c;;
  if r : bool then fat_comma_check valid_symbols else ret false.

(** The label [heredoc_token_handling]. *)
Definition heredoc_token_handling : M bool :=
  c <- ADVANCE_C;;
  mark_end;;
  first <- id_first c;;
  if (c =? BACKSLASH) || (c =? "~") || first then TOKEN PERLY_HEREDOC
  else
    skip_whitespace;;
    c <- lookahead;;
    if (c =? "'") || (c =? DQUOTE) || (c =? "`") then TOKEN PERLY_HEREDOC
    else ret false.
End scanner.

Notation "x <-? m ;; k" := (continue m (λ x, k))
  (at level 100, m at next level, right associativity) : scan_scope.

(** ** The parts of the scan *)

Section parts.
Context {L : Type} {HL : TSLexer L} {HW : WCType}.
Local Abbreviation M := (M L LexerState).
Context (valid_symbols : TokenType → bool).
Local Abbreviation valid := valid_symbols.
Local Abbreviation is_ERROR := (valid_symbols TOKEN_ERROR).

Definition scan_gobbled (c : Z) : M (bool + Z) :=
  if negb is_ERROR && valid TOKEN_GOBBLED_CONTENT then
    while_c (λ _, not_eof) c;;
    token TOKEN_GOBBLED_CONTENT
  else next c.

(** A line that begins with a dot: whether nothing but white space follows it. *)
Definition only_dot (c : Z) : M (bool * Z) :=
  c <- ADVANCE_C;;
  c <- while_c (λ c, ret ((c =? " ") || (c =? TAB) || (c =? CR))) c;;
  if c =? LF then ret (true, c)
  else e <- eof;; ret (e, c).

(** A line of a format; [inr] behind the last one. *)
Definition format_line (c : Z) : M (Z + Z) :=
  e <- eof;;
  if e : bool then ret (inr c)
  else
    r <- (if c =? "." then only_dot c else ret (false, c));;
    let '(dot, c) := r in
    if dot : bool then
      if c =? LF then c <- ADVANCE_C;; ret (inr c) else ret (inr c)
    else
      c <- while_c (until LF) c;;
      if c =? LF then c <- ADVANCE_C;; ret (inl c) else ret (inl c).

Definition scan_format (c : Z) : M (bool + Z) :=
  if negb is_ERROR && valid TOKEN_FORMAT_CONTENT then
    c <- while_c (until LF) c;;
    c <- (if c =? LF then ADVANCE_C else ret c);;
    iter format_line c;;
    mark_end;;
    token TOKEN_FORMAT_CONTENT
  else next c.

Definition scan_operators (c : Z) : M (bool + Z) :=
  if negb is_ERROR && valid TOKEN_NONASSOC then token TOKEN_NONASSOC
  else if negb is_ERROR && valid TOKEN_X_OP && (c =? "x") then
    c <- ADVANCE_C;;
    if ("0" <=? c) && (c <=? "9") then mark_end;; token TOKEN_X_OP else return_ false
  else next c.

(** *** Heredocs *)

(** The rest of a line: the line, whether it has an escape, and [c]. *)
Definition read_line (line : TSPString) (c : Z) : M (TSPString * bool * Z) :=
  iter (λ '(line, saw_escape, c),
    more <- until LF c;;
    if more : bool then
      r <- (if c =? CR then
              c <- ADVANCE_C;;
              if c =? LF then ret None
              else line <- lift (tspstring_push line CR);; ret (Some (line, c))
            else ret (Some (line, c)));;
      match r with
      | None => ret (inr (line, saw_escape, LF))
      | Some (line, c) =>
          line <- lift (tspstring_push line c);;
          let saw_escape := saw_escape || (c =? "$") || (c =? "@") || (c =? BACKSLASH) in
          c <- ADVANCE_C;;
          ret (inl (line, saw_escape, c))
      end
    else ret (inr (line, saw_escape, c))) (line, false, c).

(** A line of a heredoc; the loop ends with a return, or at the end of the input. *)
Definition heredoc_line (front : HeredocEntry) (p : TSPString * Z) : M (TSPString * Z + (bool + Z)) :=
  let '(line, c) := p in
  e <- eof;;
  if e : bool then ret (inr (inr c))
  else
    s <- get_payload;;
    col <- get_column;;
    let is_valid_start_pos := (heredoc_state s =? HEREDOC_END) || (col =? 0) in
    c <- (if is_valid_start_pos && indents front then skip_whitespace;; lookahead else ret c);;
    mark_end;;
    r <- read_line (tspstring_reset line) c;;
    let '(line, saw_escape, c) := r in
    if is_valid_start_pos && tspstring_eq line (delim front) then
      if negb (heredoc_state s =? HEREDOC_END) then
        set_payload (set_heredoc_state s HEREDOC_END);;
        b <- TOKEN TOKEN_HEREDOC_MIDDLE;;
        ret (inr (inl b))
      else
        mark_end;;
        modify lexerstate_finish_heredoc;;
        b <- TOKEN TOKEN_HEREDOC_END;;
        ret (inr (inl b))
    else if saw_escape && interpolates front then
      set_payload (set_heredoc_state s HEREDOC_CONTINUE);;
      b <- TOKEN TOKEN_HEREDOC_MIDDLE;;
      ret (inr (inl b))
    else
      c <- ADVANCE_C;;
      ret (inl (line, c)).

(** The rest of a line that has an escape: up to the escape or the line feed. *)
Definition heredoc_continue (p : bool * Z) : M (bool * Z + (bool + bool * Z)) :=
  let '(saw_chars, c) := p in
  if is_interpolation_escape c then mark_end;; ret (inr (inr (saw_chars, c)))
  else if c =? LF then
    mark_end;;
    s <- get_payload;;
    set_payload (set_heredoc_state s HEREDOC_UNKNOWN);;
    b <- TOKEN TOKEN_HEREDOC_MIDDLE;;
    ret (inr (inl b))
  else
    c <- ADVANCE_C;;
    ret (inl (true, c)).

Definition scan_heredoc_middle (c : Z) : M (bool + Z) :=
  s <- get_payload;;
  if valid TOKEN_HEREDOC_MIDDLE && negb is_ERROR && (0 <? heredoc_count s) then
    front <- lift (lexerstate_front_heredoc s);;
    if negb (heredoc_state s =? HEREDOC_CONTINUE) then
      iter (heredoc_line front) (tspstring_zero, c)
    else
      r <-? iter heredoc_continue (false, c);;
      let '(saw_chars, c) := r in
      if saw_chars : bool then token TOKEN_HEREDOC_MIDDLE else next c
  else next c.

(** White space up to the end of the line: [crossed_newline]. *)
Definition scan_line_start (c : Z) : M (bool + bool) :=
  if negb is_ERROR && iswspace c && valid TOKEN_NO_INTERP_WHITESPACE_ZW
  then token TOKEN_NO_INTERP_WHITESPACE_ZW
  else
    crossed_newline <- skip_ws_to_eol;;
    s <- get_payload;;
    col <- get_column;;
    if valid TOKEN_HEREDOC_START && (heredoc_state s =? HEREDOC_START) && (col =? 0) then
      set_payload (set_heredoc_state s HEREDOC_UNKNOWN);;
      token TOKEN_HEREDOC_START
    else next crossed_newline.

(** *** Attributes *)

Definition attribute_value (p : Z * Z) : M (Z * Z + unit) :=
  let '(delimcount, c) := p in
  e <- eof;;
  if e : bool then ret (inr tt)
  else if c =? BACKSLASH then
    ADVANCE_C;;
    c <- ADVANCE_C;;
    ret (inl (delimcount, c))
  else if c =? "(" then
    delimcount <- lift (i32_incr delimcount);;
    c <- ADVANCE_C;;
    ret (inl (delimcount, c))
  else if c =? ")" then
    if negb (delimcount =? 0) then
      delimcount <- lift (i32_decr delimcount);;
      c <- ADVANCE_C;;
      ret (inl (delimcount, c))
    else ret (inr tt)
  else
    c <- ADVANCE_C;;
    ret (inl (delimcount, c)).

Definition scan_attribute (c : Z) : M (bool + Z) :=
  if negb is_ERROR && valid TOKEN_ATTRIBUTE_VALUE_BEGIN && (c =? "(")
  then token TOKEN_ATTRIBUTE_VALUE_BEGIN
  else if negb is_ERROR && valid TOKEN_ATTRIBUTE_VALUE then
    iter attribute_value (0, c);;
    token TOKEN_ATTRIBUTE_VALUE
  else next c.

(** The white space: [skipped_whitespace] and [c]. *)
Definition scan_whitespace (c : Z) : M (bool + bool * Z) :=
  w <- is_whitespace c;;
  r <- (if w : bool then skip_whitespace;; c <- lookahead;; ret (true, c) else ret (false, c));;
  let '(skipped_whitespace, c) := r in
  if (c =? 26) && valid TOKEN_CTRL_Z then token TOKEN_CTRL_Z
  else next (skipped_whitespace, c).
End parts.
