(* ===== verification/PerlScan.v ===== *)
(** * The scan function of the Perl scanner

    [crates/tree-sitter-perl-sqry/grammar-src/scanner.c]: the parts of
    [tree_sitter_perl_external_scanner_scan] behind the white space, and the
    function itself, which runs the parts one after the other. *)

From S2P Require Import Prelude CArray CString Scan PerlUnicode PerlKeywords PerlIntuit PerlState Perl.

Section parts.
Context {L : Type} {HL : TSLexer L} {HW : WCType}.
Local Abbreviation M := (M L LexerState).
Context (valid_symbols : TokenType → bool).
Local Abbreviation valid := valid_symbols.
Local Abbreviation is_ERROR := (valid_symbols TOKEN_ERROR).

(** ** Contextual keywords *)

Definition any_recovery_valid : bool :=
  valid TOKEN_RECOVER_ARROW || valid TOKEN_RECOVER_PAREN_CLOSE || valid TOKEN_RECOVER_BRACKET_CLOSE
  || valid TOKEN_RECOVER_BRACE_CLOSE || valid TOKEN_RECOVER_BLOCK_CLOSE || valid PERLY_SEMICOLON.

(** An identifier, of which the first [n] characters are stored. *)
Definition read_ident (n : nat) (c : Z) : M (list Z * Z) :=
  iter (λ '(word, c),
    b <- id_cont c;;
    if b : bool then
      let word := if (List.length word <? n)%nat then word ++ [to_char c] else word in
      c <- ADVANCE_C;;
      ret (inl (word, c))
    else ret (inr (word, c))) ([], c).

(** What follows [async]. *)
Definition async_declaration (c : Z) : M bool :=
  r <- read_ident 8 c;;
  let nword := fst r in
  if word_is nword (cstr "sub") || word_is nword (cstr "method") || word_is nword (cstr "extended")
  then TOKEN TOKEN_KW_ASYNC
  else ret false.

(** The name of a method, and what follows it. *)
Definition method_name (c : Z) : M bool :=
  c <- while_c id_cont c;;
  c <- while_c is_whitespace c;;
  if negb (c =? "=") then TOKEN TOKEN_KW_METHOD else ret false.

Definition contextual_keyword (recovery_pending : bool) (c : Z) : M bool :=
  r <- read_ident 7 c;;
  let '(word, c) := r in
  mark_end;;
  c <- while_c is_whitespace c;;
  let is_class := negb recovery_pending && valid TOKEN_KW_CLASS && word_is word (cstr "class") in
  let is_role := negb recovery_pending && valid TOKEN_KW_ROLE && word_is word (cstr "role") in
  let is_method := negb recovery_pending && valid TOKEN_KW_METHOD && word_is word (cstr "method") in
  let is_async := valid TOKEN_KW_ASYNC && word_is word (cstr "async") in
  let is_try := valid TOKEN_KW_TRY && word_is word (cstr "try") in
  if is_try && (c =? "{") then TOKEN TOKEN_KW_TRY
  else if is_async && (c =? "{") then TOKEN TOKEN_KW_ASYNC
  else if is_async && ((c =? "s") || (c =? "m") || (c =? "e")) then async_declaration c
  else
    first <- id_first c;;
    if (is_class || is_role) && first
    then TOKEN (if is_class then TOKEN_KW_CLASS else TOKEN_KW_ROLE)
    else if is_method && ((c =? "{") || (c =? "(")) then TOKEN TOKEN_KW_METHOD
    else if is_method && first then method_name c
    else kw_autoquote valid_symbols c.

Definition scan_contextual (c : Z) (crossed_newline recovery_emitted : bool) : M (bool + unit) :=
  let oo_kw_valid := valid TOKEN_KW_CLASS || valid TOKEN_KW_ROLE || valid TOKEN_KW_METHOD in
  let asynctry_valid := valid TOKEN_KW_ASYNC || valid TOKEN_KW_TRY in
  let recovery_pending := any_recovery_valid && (crossed_newline || recovery_emitted) in
  let enter_oo := oo_kw_valid && negb recovery_pending
                  && ((c =? "c") || (c =? "r") || (c =? "m")) in
  let enter_asynctry := asynctry_valid && ((c =? "a") || (c =? "t")) in
  if negb is_ERROR && (enter_oo || enter_asynctry) then
    b <- contextual_keyword recovery_pending c;;
    return_ b
  else next tt.

(** ** Recovery *)

(** [state->recovery_emitted = true; TOKEN(t);] *)
Definition recovery_token (t : TokenType) : M (bool + unit) :=
  s <- get_payload;;
  set_payload (set_recovery s true);;
  token t.

Definition EMIT_RECOVERY_TOKENS (brace_ok : bool) : M (bool + unit) :=
  if valid TOKEN_RECOVER_ARROW then recovery_token TOKEN_RECOVER_ARROW
  else if valid TOKEN_RECOVER_PAREN_CLOSE then recovery_token TOKEN_RECOVER_PAREN_CLOSE
  else if valid TOKEN_RECOVER_BRACKET_CLOSE then recovery_token TOKEN_RECOVER_BRACKET_CLOSE
  else if brace_ok && valid TOKEN_RECOVER_BRACE_CLOSE then recovery_token TOKEN_RECOVER_BRACE_CLOSE
  else next tt.

Definition scan_boundary (c : Z) : M (bool + unit) :=
  e <- eof;;
  _ <-? (if negb is_ERROR && ((c =? "}") || (c =? ";") || e)
         then EMIT_RECOVERY_TOKENS (negb (c =? "}")) else next tt);;
  if valid PERLY_SEMICOLON && ((c =? "}") || e) && (is_ERROR || negb (valid TOKEN_BRACE_END_ZW))
  then token PERLY_SEMICOLON
  else if e then return_ false
  else next tt.

(** A statement keyword: the recovery tokens, or on with the scan. *)
Definition keyword_boundary (is_structural : bool) : M (bool + unit) :=
  _ <-? EMIT_RECOVERY_TOKENS true;;
  if is_structural && valid TOKEN_RECOVER_BLOCK_CLOSE then recovery_token TOKEN_RECOVER_BLOCK_CLOSE
  else if valid PERLY_SEMICOLON then recovery_token PERLY_SEMICOLON
  else next tt.

Definition scan_statement_keyword (c : Z) (crossed_newline recovery_emitted : bool)
  : M (bool + unit) :=
  if (crossed_newline || recovery_emitted) && negb is_ERROR && any_recovery_valid
     && negb (KEYWORD_FIRST_CHAR_FILTER c)
  then
    mark_end;;
    r <- peek_is_statement_keyword;;
    let '(peek, is_structural) := r in
    match peek with
    | PEEK_KEYWORD => keyword_boundary is_structural
    | PEEK_FAT_COMMA =>
        if valid TOKEN_FAT_COMMA_AUTOQUOTED_AHEAD then token TOKEN_FAT_COMMA_AUTOQUOTED_AHEAD
        else
          mark_end;;
          b <- fat_comma_check valid_symbols;;
          return_ b
    | PEEK_AUTOQUOTE_KEY =>
        b <- fat_comma_check valid_symbols;;
        return_ b
    | PEEK_NOT_KEYWORD => return_ false
    | PEEK_NO_MATCH => next tt
    end
  else next tt.

(** ** Angle brackets *)

(** A character in a buffer of [char]s. *)
Definition narrow (c : Z) : Z := if c <? 128 then to_char c else 127.

(** [if (clen < sizeof(content)) content[clen++] = ...], for 256 characters. *)
Definition store (buf : list Z) (c : Z) : list Z :=
  if (List.length buf <? 256)%nat then buf ++ [narrow c] else buf.

(** Gather the characters for which [cond] holds. *)
Definition gather (cond : Z → M bool) (buf : list Z) (c : Z) : M (list Z * Z) :=
  iter (λ '(buf, c),
    b <- cond c;;
    if b : bool then c' <- ADVANCE_C;; ret (inl (store buf c, c')) else ret (inr (buf, c))) (buf, c).

(** What follows the closing bracket, as far as it fits in [after]. *)
Definition gather_after (c : Z) : M (list Z) :=
  iter (λ '(after, c),
    b <- (if (List.length after <? 256)%nat then until LF c else ret false);;
    if b : bool then c' <- ADVANCE_C;; ret (inl (after ++ [narrow c], c')) else ret (inr after))
    ([], c).

(** The rest of [<...>], whose identifier is in [content]. *)
Definition fileglob (content : list Z) (c : Z) : M bool :=
  r <- gather (λ c, if (c =? ">") || (c =? "<") || (c =? ";") || (c =? LF) then ret false else not_eof)
         content c;;
  let '(content, c) := r in
  if c =? ">" then
    c <- ADVANCE_C;;
    after <- gather_after c;;
    glob <- lift (tsp_is_fileglob content after);;
    if glob : bool then
      modify (λ s, lexerstate_push_quote s "<");;
      TOKEN TOKEN_OPEN_FILEGLOB_BRACKET
    else ret false
  else ret false.

Definition angle_bracket : M bool :=
  c <- ADVANCE_C;;
  mark_end;;
  if c =? "<" then heredoc_token_handling
  else
    r <- (if c =? "$" then c <- ADVANCE_C;; ret (cstr "$", c) else ret ([], c));;
    let '(content, c) := r in
    r <- gather id_cont content c;;
    let '(content, c) := r in
    if c =? ">" then TOKEN TOKEN_OPEN_READLINE_BRACKET
    else if valid TOKEN_OPEN_FILEGLOB_BRACKET then fileglob content c
    else ret false.

Definition scan_angle_bracket (c : Z) : M (bool + unit) :=
  if (valid TOKEN_OPEN_FILEGLOB_BRACKET || valid TOKEN_OPEN_READLINE_BRACKET || valid PERLY_HEREDOC)
     && (c =? "<")
  then b <- angle_bracket;; return_ b
  else next tt.

(** ** Variables, quotes and brackets *)

Definition scan_dollar_ident (c : Z) (skipped_whitespace : bool) : M (bool + unit) :=
  if negb is_ERROR && valid TOKEN_DOLLAR_IDENT_ZW then
    cont <- id_cont c;;
    if negb (tsp_strchr (cstr "${") c) && (skipped_whitespace || negb cont) then
      if c =? ":" then
        mark_end;;
        c <- ADVANCE_C;;
        if c =? ":" then return_ false else token TOKEN_DOLLAR_IDENT_ZW
      else token TOKEN_DOLLAR_IDENT_ZW
    else next tt
  else next tt.

Definition scan_search_slash (c : Z) : M (bool + unit) :=
  if valid TOKEN_SEARCH_SLASH && (c =? "/") && negb (valid NO_TOKEN_SEARCH_SLASH_PLZ) then
    c <- ADVANCE_C;;
    mark_end;;
    if negb (c =? "/") then
      modify (λ s, lexerstate_push_quote s "/");;
      token TOKEN_SEARCH_SLASH
    else return_ false
  else next tt.

Definition open_quote (t : TokenType) (c : Z) : M (bool + unit) :=
  ADVANCE_C;;
  modify (λ s, lexerstate_push_quote s c);;
  token t.

Definition scan_quotes (c : Z) : M (bool + unit) :=
  if valid TOKEN_APOSTROPHE && (c =? "'") then open_quote TOKEN_APOSTROPHE "'"
  else if valid TOKEN_DOUBLE_QUOTE && (c =? DQUOTE) then open_quote TOKEN_DOUBLE_QUOTE DQUOTE
  else if valid TOKEN_BACKTICK && (c =? "`") then open_quote TOKEN_BACKTICK "`"
  else next tt.

(** A question to the payload. *)
Definition ask {A} (f : LexerState → outcome A) : M A :=
  s <- get_payload;;
  lift (f s).

Definition scan_dollar_in_regexp (c : Z) : M (bool + unit) :=
  if valid TOKEN_DOLLAR_IN_REGEXP && (c =? "$") then
    c <- ADVANCE_C;;
    closer <- ask (λ s, lexerstate_is_quote_closer s c);;
    if negb (closer =? 0) || ((c =? "(") || (c =? ")") || (c =? "|"))
    then token TOKEN_DOLLAR_IN_REGEXP
    else return_ false
  else next tt.

(** What follows the bracket: at most 256 characters, up to the closing one. *)
Definition gather_brackets (open close c : Z) : M (list Z) :=
  iter (λ '(buf, c),
    more <- (if (List.length buf <? 256)%nat && negb (c =? 0) then not_eof else ret false);;
    if more : bool then
      let buf := buf ++ [narrow c] in
      if c =? close then ret (inr buf)
      else c <- ADVANCE_C;; ret (inl (buf, c))
    else ret (inr buf)) ([to_char open], c).

Definition saw_opener_of (c : Z) (s : LexerState) : outcome LexerState :=
  let? qi := lexerstate_is_quote_opener s c in
  if negb (qi =? 0) then lexerstate_saw_opener s qi else Done s.

Definition regexp_bracket (open : Z) : M bool :=
  let close := if open =? "[" then "]" else "}" in
  c <- ADVANCE_C;;
  mark_end;;
  buf <- gather_brackets open close c;;
  subscript <- lift (tsp_intuit_more buf);;
  if negb subscript then
    modify (saw_opener_of open);;
    TOKEN (if open =? "[" then TOKEN_REGEXP_OPEN_BRACKET else TOKEN_REGEXP_OPEN_BRACE)
  else ret false.

Definition scan_regexp_bracket (c : Z) : M (bool + unit) :=
  if (valid TOKEN_REGEXP_OPEN_BRACKET && (c =? "[")) || (valid TOKEN_REGEXP_OPEN_BRACE && (c =? "{"))
  then
    s <- get_payload;;
    r <- lift (lexerstate_take_body_lead s c);;
    let '(leading, s) := r in
    set_payload s;;
    if leading : bool then next tt
    else b <- regexp_bracket c;; return_ b
  else next tt.

(** ** POD *)

Definition cut_marker : list Z := cstr "=cut".

Definition pod_stage (stage c : Z) : Z :=
  if c =? CR then stage
  else if (stage <? 1) && (c =? LF) then 0
  else if (0 <=? stage) && (stage <? 4) && (c =? nth (Z.to_nat stage) cut_marker 0) then stage + 1
  else if (stage =? 4) && ((c =? " ") || (c =? TAB)) then 5
  else if (stage =? 4) && (c =? LF) then 6
  else -1.

Definition pod_lines (c : Z) : M (Z * Z) :=
  iter (λ '(stage, c),
    more <- not_eof;;
    if more : bool then
      let stage := pod_stage stage c in
      if 4 <? stage then ret (inr (stage, c))
      else c <- ADVANCE_C;; ret (inl (stage, c))
    else ret (inr (stage, c))) (-1, c).

Definition scan_pod (c : Z) : M (bool + unit) :=
  if valid TOKEN_POD then
    column <- get_column;;
    if (column =? 0) && (c =? "=") then
      r <- pod_lines c;;
      let '(stage, c) := r in
      (if stage <? 6 then while_c (until LF) c;; ret tt else ret tt);;
      token TOKEN_POD
    else next tt
  else next tt.

(** ** Heredoc delimiters *)

(** An unquoted delimiter. *)
Definition heredoc_ident (delim : TSPString) (c : Z) : M TSPString :=
  iter (λ '(delim, c),
    b <- id_cont c;;
    if b : bool then
      delim <- lift (tspstring_push delim c);;
      c <- ADVANCE_C;;
      ret (inl (delim, c))
    else ret (inr delim)) (delim, c).

(** A quoted one, up to the closing quote or the end of the input. *)
Definition heredoc_quoted (delim_open : Z) (delim : TSPString) (c : Z) : M (TSPString * Z) :=
  iter (λ '(delim, c),
    more <- until delim_open c;;
    if more : bool then
      if c =? BACKSLASH then
        c' <- ADVANCE_C;;
        r <- (if c' =? delim_open then c'' <- ADVANCE_C;; ret (delim_open, c'') else ret (c, c'));;
        let '(to_add, c) := r in
        delim <- lift (tspstring_push delim to_add);;
        ret (inl (delim, c))
      else
        delim <- lift (tspstring_push delim c);;
        c <- ADVANCE_C;;
        ret (inl (delim, c))
    else ret (inr (delim, c))) (delim, c).

Definition add_heredoc (delim : TSPString) (interp indent : bool) : M unit :=
  s <- get_payload;;
  set_payload (lexerstate_add_heredoc s delim interp indent).

(** A tilde, a backslash and an identifier: the delimiter that was added, or
    [should_indent], [should_interpolate] and [c]. *)
Definition heredoc_bare (skipped_whitespace : bool) (c : Z) : M (bool + bool * bool * Z) :=
  if negb skipped_whitespace then
    r <- (if c =? "~" then c <- ADVANCE_C;; ret (true, c) else ret (false, c));;
    let '(should_indent, c) := r in
    r <- (if c =? BACKSLASH then c <- ADVANCE_C;; ret (false, c) else ret (true, c));;
    let '(should_interpolate, c) := r in
    first <- id_first c;;
    if first : bool then
      delim <- heredoc_ident tspstring_zero c;;
      add_heredoc delim should_interpolate should_indent;;
      token TOKEN_HEREDOC_DELIM
    else next (should_indent, should_interpolate, c)
  else next (false, true, c).

Definition scan_heredoc_delim (c : Z) (skipped_whitespace : bool) : M (bool + Z) :=
  if valid TOKEN_HEREDOC_DELIM || valid TOKEN_COMMAND_HEREDOC_DELIM then
    r <-? heredoc_bare skipped_whitespace c;;
    let '(should_indent, should_interpolate, c) := r in
    c <- (if should_indent : bool then skip_whitespace;; lookahead else ret c);;
    if should_interpolate && ((c =? "'") || (c =? DQUOTE) || (c =? "`")) then
      let delim_open := c in
      c <- ADVANCE_C;;
      r <- heredoc_quoted delim_open tspstring_zero c;;
      let '(delim, c) := r in
      if c =? delim_open then
        ADVANCE_C;;
        add_heredoc delim (negb (delim_open =? "'")) should_indent;;
        token (if delim_open =? "`" then TOKEN_COMMAND_HEREDOC_DELIM else TOKEN_HEREDOC_DELIM)
      else next c
    else next c
  else next c.

(** ** Quotelikes *)

Definition scan_middle_skip : M (bool + unit) :=
  if valid TOKEN_QUOTELIKE_MIDDLE_SKIP then
    paired <- ask lexerstate_is_paired_delimiter;;
    if negb paired then token TOKEN_QUOTELIKE_MIDDLE_SKIP else next tt
  else next tt.

(** The quote of the first part ends when the second part opens. *)
Definition retire_quote (s : LexerState) : outcome LexerState :=
  if valid TOKEN_QUOTELIKE_MIDDLE_SKIP && negb (size (quotes s) =? 0)
  then lexerstate_pop_quote s (size (quotes s)) else Done s.

Definition quotelike_begin (delim : Z) : M bool :=
  mark_end;;
  c <- ADVANCE_C;;
  if valid TOKEN_BRACE_END_ZW && (delim =? "}") then TOKEN TOKEN_BRACE_END_ZW
  else
    mark_end;;
    modify retire_quote;;
    modify (λ s, lexerstate_push_quote s delim);;
    (if negb (close_for_open delim =? 0) then
       c <- while_c is_whitespace c;;
       if c =? delim then modify (λ s, set_body_lead s true) else ret tt
     else ret tt);;
    TOKEN TOKEN_QUOTELIKE_BEGIN.

Definition scan_quotelike_begin (c : Z) (skipped_whitespace : bool) : M (bool + unit) :=
  if valid TOKEN_QUOTELIKE_BEGIN then
    if skipped_whitespace && (c =? "#") then return_ false
    else b <- quotelike_begin c;; return_ b
  else next tt.

(** ** Escapes *)

(** What belongs to the escape of [esc_c]. *)
Definition escape_body (esc_c c : Z) : M unit :=
  if esc_c =? "x" then if c =? "{" then skip_braced else skip_hexdigits 2
  else if (esc_c =? "N") || (esc_c =? "o") then skip_braced
  else if esc_c =? "0" then skip_octdigits 3
  else ret tt.

Definition is_quote_delimiter (c : Z) (s : LexerState) : outcome bool :=
  let? opener := lexerstate_is_quote_opener s c in
  if negb (opener =? 0) then Done true
  else let? closer := lexerstate_is_quote_closer s c in Done (negb (closer =? 0)).

(** Behind the backslash. *)
Definition escape (c : Z) : M (bool + Z) :=
  let esc_c := c in
  w <- is_whitespace c;;
  c <- (if w : bool then ret c else ADVANCE_C);;
  delimiter <- (if valid TOKEN_ESCAPED_DELIMITER then ask (is_quote_delimiter esc_c) else ret false);;
  if delimiter : bool then mark_end;; token TOKEN_ESCAPED_DELIMITER
  else if valid TOKEN_ESCAPE_SEQUENCE then
    mark_end;;
    if esc_c =? BACKSLASH then token TOKEN_ESCAPE_SEQUENCE
    else if valid TOKEN_Q_STRING_CONTENT then token TOKEN_Q_STRING_CONTENT
    else escape_body esc_c c;; token TOKEN_ESCAPE_SEQUENCE
  else next c.

Definition scan_escape (c : Z) : M (bool + Z) :=
  if c =? BACKSLASH then
    delimiter <- (if valid TOKEN_QUOTELIKE_END then
                    closer <- ask (λ s, lexerstate_is_quote_closer s BACKSLASH);;
                    ret (negb (closer =? 0))
                  else ret false);;
    if negb delimiter then c <- ADVANCE_C;; escape c
    else next c
  else next c.

(** ** The contents of a string *)

(** A character of the contents: the next state, or [None] for one that ends them. *)
Definition content_char (is_qq : bool) (c : Z) (s : LexerState) : outcome (option LexerState) :=
  if c =? BACKSLASH then Done None
  else
    let? quote_index := lexerstate_is_quote_opener s c in
    if negb (quote_index =? 0) then
      let? s := lexerstate_saw_opener s quote_index in Done (Some s)
    else
      let? quote_index := lexerstate_is_quote_closer s c in
      if negb (quote_index =? 0) then
        let? closed := lexerstate_is_quote_closed s quote_index in
        if closed : bool then Done None
        else let? s := lexerstate_saw_closer s quote_index in Done (Some s)
      else Done (if is_qq && is_interpolation_escape c then None else Some s).

Definition content_loop (is_qq : bool) (c : Z) : M bool :=
  iter (λ '(seen, c),
    if c =? 0 then ret (inr seen)
    else
      s <- get_payload;;
      r <- lift (content_char is_qq c s);;
      match r with
      | None => ret (inr seen)
      | Some s =>
          set_payload s;;
          c <- ADVANCE_C;;
          ret (inl (true, c))
      end) (false, c).

Definition scan_string_content (c : Z) : M (bool + unit) :=
  if valid TOKEN_Q_STRING_CONTENT || valid TOKEN_QQ_STRING_CONTENT then
    let is_qq := valid TOKEN_QQ_STRING_CONTENT in
    seen <- content_loop is_qq c;;
    if seen : bool then token (if is_qq then TOKEN_QQ_STRING_CONTENT else TOKEN_Q_STRING_CONTENT)
    else next tt
  else next tt.

(** ** The end of a quote *)

Definition closes_quote (c : Z) (s : LexerState) : outcome bool :=
  let? quote_index := lexerstate_is_quote_closer s c in
  if negb (quote_index =? 0) then lexerstate_is_quote_closed s quote_index else Done false.

Definition scan_middle_close (c : Z) : M (bool + unit) :=
  if valid TOKEN_QUOTELIKE_MIDDLE_CLOSE then
    closes <- ask (closes_quote c);;
    if closes : bool then ADVANCE_C;; token TOKEN_QUOTELIKE_MIDDLE_CLOSE else next tt
  else next tt.

Definition scan_quotelike_end (c : Z) : M (bool + unit) :=
  if valid TOKEN_QUOTELIKE_END then
    quote_index <- ask (λ s, lexerstate_is_quote_closer s c);;
    if negb (quote_index =? 0) then
      if valid TOKEN_QUOTELIKE_END_ZW then token TOKEN_QUOTELIKE_END_ZW
      else
        ADVANCE_C;;
        modify (λ s, lexerstate_pop_quote s quote_index);;
        token TOKEN_QUOTELIKE_END
    else next tt
  else next tt.

(** ** Prototypes, file tests and autoquoted names *)

(** [true] for a prototype, [false] for a signature. *)
Definition prototype (c : Z) : M bool :=
  iter (λ '(count, c),
    more <- not_eof;;
    if more : bool then
      if (c =? ")") && (count =? 0) then ADVANCE_C;; ret (inr true)
      else if c =? ")" then
        count <- lift (i32_decr count);; c <- ADVANCE_C;; ret (inl (count, c))
      else if c =? "(" then
        count <- lift (i32_incr count);; c <- ADVANCE_C;; ret (inl (count, c))
      else
        id <- lift (is_tsp_id_continue c);;
        if id : bool then ret (inr false) else c <- ADVANCE_C;; ret (inl (count, c))
    else ret (inr true)) (0, c).

Definition scan_prototype (c : Z) : M (bool + unit) :=
  if (c =? "(") && (valid TOKEN_PROTOTYPE || valid TOKEN_SIGNATURE_START) then
    c <- ADVANCE_C;;
    mark_end;;
    r <- prototype c;;
    if r : bool then mark_end;; token TOKEN_PROTOTYPE else token TOKEN_SIGNATURE_START
  else next tt.

Definition scan_filetest (c : Z) : M (bool + unit) :=
  if (c =? "-") && valid TOKEN_FILETEST then
    c <- ADVANCE_C;;
    if tsp_strchr (cstr "rwxoRWXOezsfdlpSbctugkTBMAC") c then
      c <- ADVANCE_C;;
      cont <- id_cont c;;
      if negb cont then token TOKEN_FILETEST else return_ false
    else return_ false
  else next tt.

(** A punctuation variable in braces. *)
Definition scan_brace_autoquoted (c : Z) : M (bool + unit) :=
  first <- id_first c;;
  if valid TOKEN_BRACE_AUTOQUOTED && negb first && (" " <? c) && negb (c =? "}") && negb (c =? "{")
     && negb (c =? "^") && negb (c =? "#") && negb (("0" <=? c) && (c <=? "9"))
  then
    c <- ADVANCE_C;;
    mark_end;;
    c <- while_c is_whitespace c;;
    if c =? "}" then token TOKEN_BRACE_AUTOQUOTED else return_ false
  else next tt.

(** [do ADVANCE_C while (c && isidcont(c));] *)
Definition skip_identifier : M Z :=
  c <- ADVANCE_C;;
  while_c (λ c, if c =? 0 then ret false else id_cont c) c.

Definition scan_autoquoted (c : Z) : M bool :=
  first <- id_first c;;
  if first && (valid TOKEN_FAT_COMMA_AUTOQUOTED || valid TOKEN_BRACE_AUTOQUOTED) then
    c <- skip_identifier;;
    mark_end;;
    kw_autoquote valid_symbols c
  else
    mark_end;;
    c2 <- ADVANCE_C;;
    e <- eof;;
    if e : bool then ret false
    else if (c =? "<") && (c2 =? "<") then heredoc_token_handling
    else if valid TOKEN_BRACE_END_ZW && (c =? "}") then TOKEN TOKEN_BRACE_END_ZW
    else ret false.

(** ** The scan *)

(** From the quotes to the end. *)
Definition scan_quotelike (c : Z) (skipped_whitespace : bool) : M (bool + bool) :=
  c <-? scan_heredoc_delim c skipped_whitespace;;
  _ <-? scan_middle_skip;;
  _ <-? scan_quotelike_begin c skipped_whitespace;;
  c <-? scan_escape c;;
  _ <-? scan_string_content c;;
  _ <-? scan_middle_close c;;
  _ <-? scan_quotelike_end c;;
  _ <-? scan_prototype c;;
  _ <-? scan_filetest c;;
  _ <-? scan_brace_autoquoted c;;
  b <- scan_autoquoted c;;
  next b.

(** From the contextual keywords to the point where an error ends the scan. *)
Definition scan_token (c : Z) (skipped_whitespace crossed_newline recovery_emitted : bool)
  : M (bool + bool) :=
  _ <-? scan_contextual c crossed_newline recovery_emitted;;
  _ <-? scan_boundary c;;
  _ <-? scan_statement_keyword c crossed_newline recovery_emitted;;
  _ <-? scan_angle_bracket c;;
  _ <-? scan_dollar_ident c skipped_whitespace;;
  _ <-? scan_search_slash c;;
  _ <-? scan_quotes c;;
  _ <-? scan_dollar_in_regexp c;;
  _ <-? scan_regexp_bracket c;;
  _ <-? scan_pod c;;
  if is_ERROR then return_ false else scan_quotelike c skipped_whitespace.

Definition scan (recovery_emitted : bool) : M (bool + bool) :=
  c <- lookahead;;
  c <-? scan_gobbled valid_symbols c;;
  c <-? scan_format valid_symbols c;;
  c <-? scan_operators valid_symbols c;;
  c <-? scan_heredoc_middle valid_symbols c;;
  crossed_newline <-? scan_line_start valid_symbols c;;
  c <-? scan_attribute valid_symbols c;;
  r <-? scan_whitespace valid_symbols c;;
  let '(skipped_whitespace, c) := r in
  scan_token c skipped_whitespace crossed_newline recovery_emitted.

Definition tree_sitter_perl_external_scanner_scan : M bool :=
  s <- get_payload;;
  set_payload (set_recovery s false);;
  r <- scan (recovery_emitted s);;
  ret (match r with inl b | inr b => b end).
End parts.
