(* ===== verification/PerlInvariant.v ===== *)
(** * The invariant of the Perl scanner's state

    The character classes as boolean functions; the invariant of the state with
    bounds on the open quotes, and what each operation on the state does to it. *)

From S2P Require Import Prelude CArray CArrayProofs CString Scan Logic.
From S2P Require Import PerlUnicode PerlKeywords PerlIntuit PerlIntuitProofs PerlState PerlStateProofs.
From S2P Require Import Perl PerlScan.

Ltac wp_hook ::= first [ progress unfold TOKEN | progress unfold token | progress unfold return_
  | progress unfold next | progress unfold ADVANCE_C ].

(** ** Character classes *)

Definition space (c : Z) : bool := in_ranges c tsp_whitespace.
Definition idfirst (c : Z) : bool := (c =? "_") || in_ranges c tsp_id_start.
Definition idcont (c : Z) : bool := (c =? "_") || in_ranges c tsp_id_continue.

Lemma tsp_whitespace_found c : is_tsp_whitespace c = Done (space c).
Proof. apply found_in_ranges; by vm_compute. Qed.
Lemma tsp_id_start_found c : is_tsp_id_start c = Done (in_ranges c tsp_id_start).
Proof. apply found_in_ranges; by vm_compute. Qed.
Lemma tsp_id_continue_found c : is_tsp_id_continue c = Done (in_ranges c tsp_id_continue).
Proof. apply found_in_ranges; by vm_compute. Qed.
Lemma isidfirst_found c : isidfirst c = Done (idfirst c).
Proof. unfold isidfirst, idfirst. rewrite tsp_id_start_found. by destruct (c =? "_"). Qed.
Lemma isidcont_found c : isidcont c = Done (idcont c).
Proof. unfold isidcont, idcont. rewrite tsp_id_continue_found. by destruct (c =? "_"). Qed.

#[export] Instance stops_space : StopsAtEof space.
Proof. by vm_compute. Qed.
#[export] Instance stops_idcont : StopsAtEof idcont.
Proof. by vm_compute. Qed.
#[export] Instance stops_idfirst : StopsAtEof idfirst.
Proof. by vm_compute. Qed.
#[export] Instance stops_id_continue : StopsAtEof (λ c, in_ranges c tsp_id_continue).
Proof. by vm_compute. Qed.

#[global] Opaque isidfirst isidcont is_tsp_whitespace is_tsp_id_start is_tsp_id_continue space idfirst idcont
  tsp_whitespace tsp_id_start tsp_id_continue.

(** ** The invariant *)

Section invariant.
(** Whether a quote must be open. *)
Context (need : bool).

(** At most [k] quotes are open, and at most [k] delimiters in each. *)
Definition inv (k : Z) (s : LexerState) : Prop :=
  ∃ a, state_repr s a ∧ Forall (λ q, 0 ≤ count q ≤ k) (a_quotes a)
    ∧ Z.of_nat (List.length (a_quotes a)) ≤ k ∧ (need = true → a_quotes a ≠ []).
End invariant.

Lemma inv_le need k k' s : inv need k s → k ≤ k' → inv false k' s.
Proof.
  intros (a&Hs&Hc&Hl&_) Hk. exists a. split_and!; [done| |lia|done].
  eapply Forall_impl; [exact Hc|]. simpl. lia.
Qed.

Lemma inv_weaken need k s : inv need k s → inv need (k + 1) s.
Proof.
  intros (a&Hs&Hc&Hl&Hn). exists a. split_and!; [done| |lia|done].
  eapply Forall_impl; [exact Hc|]. simpl. lia.
Qed.

Lemma inv_push need k s c : inv need k s → k < 4294967294 →
  ∃ s', lexerstate_push_quote s c = Done s' ∧ ∀ need', inv need' (k + 1) s'.
Proof.
  intros (a&Hs&Hc&Hl&Hn) Hk.
  destruct (push_quote_repr s a c Hs ltac:(lia)) as (s'&?&?). exists s'. split; [done|].
  intros need'. eexists. split_and!; [done|..]; cbn.
  - apply Forall_app. split; [eapply Forall_impl; [exact Hc|simpl; lia]|].
    apply Forall_singleton. cbn. lia.
  - rewrite length_app. simpl. lia.
  - intros _. by destruct (a_quotes a).
Qed.

Lemma inv_heredocs need k s s' a hs st b : state_repr s a → inv need k s →
  state_repr s' (with_recovery (with_heredocs a hs st) b) → inv need k s'.
Proof.
  intros Hs (a'&Hs2&Hc&Hl&Hn) Hs'. eexists. split; [done|]. cbn.
  assert (a_quotes a' = a_quotes a) as <- by (eapply repr_inj; [apply Hs2|apply Hs]). done.
Qed.

Lemma inv_heredoc_state need k s st : inv need k s → inv need k (set_heredoc_state s st).
Proof. intros (a&(?&?&?&?&?)&?). exists (with_state a st). split; [by split_and!|done]. Qed.

Lemma inv_recovery need k s b : inv need k s → inv need k (set_recovery s b).
Proof. intros (a&(?&?&?&?&?)&?). exists (with_recovery a b). split; [by split_and!|done]. Qed.

Lemma inv_add_heredoc need k s d i t : inv need k s → inv need k (lexerstate_add_heredoc s d i t).
Proof. intros (a&Hs&?). eexists. split; [by apply add_heredoc_repr|done]. Qed.

Lemma inv_finish_heredoc need k s : inv need k s →
  ∃ s', lexerstate_finish_heredoc s = Done s' ∧ inv need k s'.
Proof.
  intros (a&Hs&H). destruct (a_heredocs a) as [|e hs] eqn:Ha.
  - destruct (finish_empty_repr s a Hs Ha) as (s'&?&?). exists s'. split; [done|]. by eexists.
  - destruct (finish_heredoc_repr s a e hs Hs Ha) as (s'&?&?). exists s'. split; [done|]. by eexists.
Qed.

Lemma inv_front_heredoc need k s : inv need k s → ∃ e, lexerstate_front_heredoc s = Done e.
Proof.
  intros (a&(_&(junk&Hj&H8)&_)&_). unfold lexerstate_front_heredoc, entry_at.
  destruct (heredoc_queue s) as [|e l]; [done|]. by exists e.
Qed.

Lemma inv_opener need k s c : inv need k s →
  ∃ i, lexerstate_is_quote_opener s c = Done i ∧ 0 ≤ i.
Proof. intros (a&Hs&_). eexists. split; [by apply quote_opener_repr|lia]. Qed.

Lemma inv_closer need k s c : inv need k s →
  ∃ i, lexerstate_is_quote_closer s c = Done i ∧ 0 ≤ i.
Proof. intros (a&Hs&_). eexists. split; [by apply quote_closer_repr|lia]. Qed.

(** The index of a delimiter is that of a quote. *)
Lemma inv_delimiter need k s i (find : TSPQuote → bool) : inv need k s →
  find_quote find (quotes s) (Z.to_nat (size (quotes s))) = Done i → i ≠ 0 →
  ∃ a l q r, state_repr s a ∧ a_quotes a = l ++ q :: r ∧ i = Z.of_nat (S (List.length l))
    ∧ 0 ≤ count q ≤ k ∧ Forall (λ q, 0 ≤ count q ≤ k) (l ++ r)
    ∧ Z.of_nat (List.length (a_quotes a)) ≤ k.
Proof.
  intros (a&Hs&Hc&Hl&_) Hf Hi. pose proof Hs as (Hq&_). rewrite (find_quote_repr _ _ _ Hq) in Hf.
  injection Hf as <-. destruct (last_index find (a_quotes a)) as [|j] eqn:Hj; [done|].
  destruct (last_index_spec _ _ _ Hj) as (l&q&r&Ha&<-&_). exists a, l, q, r.
  rewrite Ha in Hc. apply Forall_app in Hc as [? [? ?]%Forall_cons].
  split_and!; try done; try lia. by apply Forall_app.
Qed.

Lemma inv_with_quotes s a l q r k : state_repr s (with_quotes a (l ++ q :: r)) →
  0 ≤ count q ≤ k → Forall (λ q, 0 ≤ count q ≤ k) (l ++ r) →
  Z.of_nat (List.length (l ++ q :: r)) ≤ k → ∀ need, inv need k s.
Proof.
  intros Hs Hq Hc Hl need. eexists. split; [done|]. cbn. apply Forall_app in Hc as [? ?].
  split_and!; [|done|intros _; by destruct l]. apply Forall_app. split; [done|by constructor].
Qed.

Lemma inv_saw_opener need k s c i : inv need k s → k < 2147483647 →
  lexerstate_is_quote_opener s c = Done i → i ≠ 0 →
  ∃ s', lexerstate_saw_opener s i = Done s' ∧ inv need (k + 1) s'.
Proof.
  intros Hs Hk Hf Hi. destruct (inv_delimiter _ _ _ _ _ Hs Hf Hi) as (a&l&q&r&Ha&Hl&->&Hq&Hc&Hn).
  destruct (saw_opener_repr s a l q r Ha Hl ltac:(lia)) as (s'&?&Hs'). exists s'. split; [done|].
  eapply inv_with_quotes; [exact Hs'|cbn; lia| |].
  - eapply Forall_impl; [exact Hc|]. simpl. lia.
  - rewrite Hl, !length_app in *. simpl in *. lia.
Qed.

Lemma inv_closed need k s c i : inv need k s →
  lexerstate_is_quote_closer s c = Done i → i ≠ 0 →
  ∃ b : bool, lexerstate_is_quote_closed s i = Done b
    ∧ (b = false → ∃ s', lexerstate_saw_closer s i = Done s' ∧ inv need k s').
Proof.
  intros Hs Hf Hi. destruct (inv_delimiter _ _ _ _ _ Hs Hf Hi) as (a&l&q&r&Ha&Hl&->&Hq&Hc&Hn).
  eexists. split; [by apply (quote_closed_repr s a l q r)|]. intros Hb.
  destruct (saw_closer_repr s a l q r Ha Hl ltac:(lia)) as (s'&?&Hs'). exists s'. split; [done|].
  eapply inv_with_quotes; [exact Hs'|cbn; lia|done|].
  rewrite Hl, !length_app in *. simpl in *. lia.
Qed.

Lemma inv_pop need k s c i : inv need k s →
  lexerstate_is_quote_closer s c = Done i → i ≠ 0 →
  ∃ s', lexerstate_pop_quote s i = Done s' ∧ inv false k s'.
Proof.
  intros Hs Hf Hi. destruct (inv_delimiter _ _ _ _ _ Hs Hf Hi) as (a&l&q&r&Ha&Hl&->&Hq&Hc&Hn).
  destruct (pop_quote_repr s a l q r Ha Hl) as (s'&?&Hs'). exists s'. split; [done|].
  eexists. split; [done|]. cbn. split_and!; [done| |done].
  rewrite Hl, !length_app in *. simpl in *. lia.
Qed.

(** The last quote is retired when the second part opens. *)
Lemma inv_retire (valid : TokenType → bool) need k s : inv need k s →
  ∃ s', retire_quote valid s = Done s' ∧ inv false k s'.
Proof.
  intros (a&Hs&Hc&Hl&Hn). unfold retire_quote. pose proof Hs as (Hq&_).
  destruct (repr_size _ _ Hq) as [Hsz _]. destruct (_ && _) eqn:E.
  - destruct (a_quotes a) as [|q l _] eqn:Ha using rev_ind; [rewrite Hsz in E; simpl in E; lia|].
    rewrite Hsz, length_app. simpl. replace (_ + 1)%nat with (S (List.length l)) by lia.
    destruct (pop_quote_repr s a l q [] Hs Ha) as (s'&?&Hs'). exists s'. split; [done|].
    eexists. split; [done|]. cbn. rewrite app_nil_r. apply Forall_app in Hc as [? _].
    rewrite length_app in Hl. simpl in Hl. split_and!; [done|lia|done].
  - exists s. split; [done|]. by exists a.
Qed.

Lemma inv_take_body_lead need k s c : inv need k s →
  ∃ b s', lexerstate_take_body_lead s c = Done (b, s') ∧ inv need k s'.
Proof.
  intros (a&Hs&Hc&Hl&Hn). destruct (take_body_lead_repr s a c Hs) as (b&s'&qs&?&Hs'&Hf).
  exists b, s'. split; [done|]. eexists. split; [done|]. cbn.
  pose proof (Forall2_length _ _ _ Hf) as Hlen. split_and!; [|lia|].
  - clear -Hf Hc. induction Hf as [|q q' l l' (Hq&_) Hf IH]; [done|].
    apply Forall_cons in Hc as [? ?]. rewrite Hq in *. constructor; auto.
  - intros Ht. specialize (Hn Ht). by destruct (a_quotes a), qs.
Qed.

Lemma inv_paired k s : inv true k s → ∃ b, lexerstate_is_paired_delimiter s = Done b.
Proof.
  intros (a&Hs&_&_&Hn). unfold lexerstate_is_paired_delimiter.
  destruct (exists_last (Hn eq_refl)) as (l&q&Ha). rewrite (back_quote_repr s a l q Hs Ha).
  by eexists.
Qed.

Lemma inv_set_body_lead need k s b : inv true k s →
  ∃ s', set_body_lead s b = Done s' ∧ inv need k s'.
Proof.
  intros (a&Hs&Hc&Hl&Hn). destruct (exists_last (Hn eq_refl)) as (l&q&Ha).
  destruct (set_body_lead_repr s a l q b Hs Ha) as (s'&?&Hs'). exists s'. split; [done|].
  rewrite Ha in *. apply Forall_app in Hc as [? Hq]. rewrite Forall_singleton in Hq.
  eapply inv_with_quotes; [exact Hs'|cbn; lia|by rewrite app_nil_r|]. rewrite !length_app in *. exact Hl.
Qed.
