(* ===== verification/PerlTotal.v ===== *)
(** * A logic for the termination of the Perl scanner

    [Run]: a step of the scan ends without fault, moves forward, and keeps the
    state well formed; its rules, and the functions that the parts of the scan
    share. A loop tests its local [c], which may lag behind the
    lexer by one read: the measure of a loop counts such a lag, and a scan needs
    loop bounds of two more than what is left of the input. *)

From S2P Require Import Prelude CArray CArrayProofs CString Scan Logic.
From S2P Require Import PerlUnicode PerlKeywords PerlIntuit PerlIntuitProofs PerlState PerlStateProofs.
From S2P Require Import Perl PerlScan PerlInvariant.

(** ** Computations that keep the invariant *)

Section run.
Context {L : Type} {HL : TSLexer L} {HW : WCType} {HS : TSLexerSpec L}.
Local Abbreviation M := (M L LexerState).
(** Whether a quote must be open, the bound on the quotes, and a bound on the
    length of the input. *)
Context (need : bool) (k N : Z).

(** The state after a step that is followed by others, at the end of the scan,
    and after a part of it. *)
Definition keeps {A} (a : A) (s : LexerState) : Prop := inv need k s.
Definition ends {A} (a : A) (s : LexerState) : Prop := inv false (k + N + 2) s.
Definition parts {A B} (r : A + B) (s : LexerState) : Prop :=
  match r with inl a => ends a s | inr b => keeps b s end.

Class Run {A} (m : M A) (P : A → LexerState → Prop) : Prop :=
  run n v y s : (S (rem v) < n)%nat → Z.of_nat (rem v) ≤ N → inv need k s →
    wp m n v y s (λ a v' _ s', advanced v v' ∧ P a s').

Lemma run_weaken {A} (m : M A) (P Q : A → LexerState → Prop) :
  Run m P → (∀ a s, P a s → Q a s) → Run m Q.
Proof.
  intros Hm HPQ n v y s ???. eapply wp_mono; [by apply Hm|]. intros a v' y' s' [? ?]. eauto.
Qed.

Lemma run_bind {A B} (m : M A) (g : A → M B) P : Run m keeps → (∀ a, Run (g a) P) → Run (bind m g) P.
Proof.
  intros Hm Hg n v y s Hn HN Hs. apply wp_bind. eapply wp_mono; [by apply Hm|].
  intros a v' y' s' [Ha Hs']. pose proof (advanced_rem _ _ Ha).
  eapply wp_mono; [apply Hg; [lia|lia|done]|]. intros b v2 y2 s2 [? ?]. split; [by etrans|done].
Qed.

Lemma run_if {A} (b : bool) (m1 m2 : M A) P : Run m1 P → Run m2 P → Run (if b then m1 else m2) P.
Proof. by destruct b. Qed.

Lemma run_reads {A} (m : M A) : Reads (inv need k) m → Run m keeps.
Proof. intros Hm n v y s ???. eapply wp_mono; [apply Hm; [lia|done]|]. done. Qed.

Lemma keeps_ends {A} (a : A) s : 0 ≤ N → keeps a s → ends a s.
Proof. intros HN Hs. eapply inv_le; [done|lia]. Qed.

Lemma run_ends {A} (m : M A) : Run m keeps → Run m ends.
Proof.
  intros Hm n v y s ???. eapply wp_mono; [by apply Hm|]. intros a v' y' s' [? ?].
  split; [done|]. apply keeps_ends; [lia|done].
Qed.

Lemma run_ret {A} (a : A) (P : A → LexerState → Prop) : (∀ s, inv need k s → P a s) → Run (ret a) P.
Proof. intros HP n v y s ???. apply wp_ret. split; [done|auto]. Qed.

Lemma run_TOKEN t P : (∀ s, inv need k s → P true s) → Run (TOKEN t) P.
Proof. intros HP n v y s ???. unfold TOKEN. wps. split; [done|auto]. Qed.

Lemma run_continue {A B} (m : M (bool + A)) (g : A → M (bool + B)) :
  Run m parts → (∀ a, Run (g a) parts) → Run (continue m g) parts.
Proof.
  intros Hm Hg n v y s Hn HN Hs. unfold continue. apply wp_bind.
  eapply wp_mono; [by apply Hm|]. intros [b|a] v' y' s' [Ha Hs'].
  - by apply wp_ret.
  - pose proof (advanced_rem _ _ Ha).
    eapply wp_mono; [apply Hg; [lia|lia|done]|]. intros r v2 y2 s2 [? ?]. split; [by etrans|done].
Qed.

Lemma run_return {A} (m : M bool) : Run m ends → Run (b <- m;; return_ b) (@parts bool A).
Proof.
  intros Hm n v y s Hn HN Hs. apply wp_bind. eapply wp_mono; [by apply Hm|].
  intros b v' y' s' [? ?]. unfold return_. by wps.
Qed.

Lemma run_token {A} t : Run (token t) (@parts bool A).
Proof.
  intros n v y s ???. unfold token, TOKEN. wps. split; [done|]. cbn. apply keeps_ends; [lia|done].
Qed.

Lemma run_return_ {A} b : Run (return_ b) (@parts bool A).
Proof.
  intros n v y s ???. unfold return_. wps. split; [done|]. cbn. apply keeps_ends; [lia|done].
Qed.

Lemma run_next {A} (a : A) : Run (next a) (@parts bool A).
Proof. intros n v y s ???. unfold next. by wps. Qed.

(** Changes of the payload. *)
Lemma run_modify f P : (∀ s, inv need k s → ∃ s', f s = Done s' ∧ P tt s') → Run (modify f) P.
Proof.
  intros Hf n v y s ? ? Hs. destruct (Hf s Hs) as (s'&Hrun&?). unfold modify. wps.
  eapply wp_lift; [exact Hrun|]. by wps.
Qed.

Lemma run_set_payload s (P : unit → LexerState → Prop) : P tt s → Run (set_payload s) P.
Proof. intros HP n v y s0 ???. by wps. Qed.

Lemma run_get_payload {A} (g : LexerState → M A) P :
  (∀ s, inv need k s → Run (g s) P) → Run (bind get_payload g) P.
Proof. intros Hg n v y s Hn HN Hs. wps. by apply Hg. Qed.

Lemma run_lift {A} (o : outcome A) a : o = Done a → Run (lift o) keeps.
Proof. intros Ho n v y s ???. eapply wp_lift; [exact Ho|done]. Qed.

Lemma run_ask {A} (f : LexerState → outcome A) : (∀ s, inv need k s → ∃ a, f s = Done a) →
  Run (ask f) keeps.
Proof.
  intros Hf n v y s ? ? Hs. destruct (Hf s Hs) as [a Ha]. unfold ask. wps. by eapply wp_lift.
Qed.

(** ** Loops

    [cur] is the local that follows the lookahead. A round that begins with an
    up-to-date local consumes, and every round leaves one behind. *)
Lemma wp_c_loop {A B} (I : B → view → Z → LexerState → Prop) (cur : B → Z) (body : B → M (B + A)) b
    n v y s (Q : post A) :
  (∀ b v y s, I b v y s → wp (body b) n v y s (λ r v' y' s',
    match r with
    | inl b' => advanced v v' ∧ I b' v' y' s' ∧ cur b' = look v' ∧ (cur b = look v → rem v' < rem v)%nat
    | inr a => Q a v' y' s'
    end)) →
  I b v y s → (S (rem v) < n)%nat → wp (iter body b) n v y s Q.
Proof.
  intros Hbody HI Hn.
  apply (wp_iter I (λ b v, rem v + if decide (cur b = look v) then 0 else 1)%nat);
    [|done|case_decide; lia].
  intros b1 v1 y1 s1 HI1. eapply wp_mono; [by apply Hbody|].
  intros [b2|a] v2 y2 s2; [|done]. intros (Ha&HI2&Hcur&Hlt). split; [done|].
  pose proof (advanced_rem _ _ Ha). rewrite (decide_True _ _ Hcur). case_decide; [|lia].
  specialize (Hlt ltac:(done)). lia.
Qed.

Lemma run_c_loop {A B} (J : B → view → Prop) (cur : B → Z) (body : B → M (B + A)) b P :
  (∀ b n v y s, (S (rem v) < n)%nat → Z.of_nat (rem v) ≤ N → inv need k s → J b v →
    wp (body b) n v y s (λ r v' _ s', advanced v v' ∧
      match r with
      | inl b' => inv need k s' ∧ J b' v' ∧ cur b' = look v' ∧ (cur b = look v → rem v' < rem v)%nat
      | inr a => P a s'
      end)) →
  (∀ v, Z.of_nat (rem v) ≤ N → J b v) → Run (iter body b) P.
Proof.
  intros Hbody HJ n v y s Hn HN Hs.
  apply (wp_c_loop (λ b v' _ s', advanced v v' ∧ J b v' ∧ inv need k s') cur);
    [|split_and!; [done|auto|done]|done].
  intros b1 v1 y1 s1 (Ha&HJ1&Hs1). pose proof (advanced_rem _ _ Ha).
  eapply wp_mono; [apply Hbody; [lia|lia|done|done]|].
  intros [b2|a] v2 y2 s2 (Ha2&H2).
  - destruct H2 as (?&?&?&?). split_and!; try done. by etrans.
  - split; [by etrans|done].
Qed.

(** A test that does not move, and that fails at the end of the input. *)
Class Guard (cond : Z → M bool) : Prop :=
  guard c n v y s (Q : post bool) :
    (∀ b : bool, (b = true → c = look v → (0 < rem v)%nat) → Q b v y s) → wp (cond c) n v y s Q.

Lemma run_guard cond c : Guard cond → Run (cond c) keeps.
Proof. intros Hg n v y s ???. by apply Hg. Qed.

Lemma run_while_c cond c : Guard cond → Run (while_c cond c) keeps.
Proof.
  intros Hg. apply (run_c_loop (λ _ _, True) id); [|done].
  intros c1 n v y s Hn HN Hs _. wp_step. apply Hg. intros [] Hb; unfold ADVANCE_C; wps.
  - split; [by auto with scan|]. split_and!; [done..|]. intros Hc. specialize (Hb eq_refl Hc).
    rewrite rem_adv. lia.
  - done.
Qed.

(** From an up-to-date local, the loop leaves one. *)
Lemma wp_while_c_cur cond n v y s (Q : post (S := LexerState) Z) : Guard cond → (rem v < n)%nat →
  (∀ v', advanced v v' → Q (look v') v' y s) → wp (while_c cond (look v)) n v y s Q.
Proof.
  intros Hg Hn HQ. apply (wp_iter (λ c v' y' s', c = look v' ∧ advanced v v' ∧ y' = y ∧ s' = s)
    (λ _ v', rem v')); [|done..].
  intros c1 v1 y1 s1 (->&Ha&->&->). wp_step. apply Hg. intros [] Hb; unfold ADVANCE_C; wps.
  - specialize (Hb eq_refl eq_refl). rewrite rem_adv.
    split; [|lia]. split_and!; try done. etrans; [exact Ha|auto with scan].
  - auto.
Qed.

(** What a class of characters skips, from any local. *)
Definition skipped (p : Z → bool) (c : Z) (v : view) : view :=
  if p c then adv_span p false (adv false v) else v.

Lemma wp_while_class p f c n v y s (Q : post (S := LexerState) Z) :
  p 0 = false → (∀ c, f c = Done (p c)) → (S (rem v) < n)%nat →
  Q (if p c then look (skipped p c v) else c) (skipped p c v) y s →
  wp (while_c (λ c, lift (f c)) c) n v y s Q.
Proof.
  intros H0 Hf Hn HQ. unfold skipped in HQ.
  set (w := adv_span p false (adv false v)) in *.
  apply (wp_c_loop (λ c' v' y' s', s' = s ∧ y' = y ∧ (c' = c ∧ v' = v
    ∨ p c = true ∧ c' = look v' ∧ adv_span p false v' = w)) id); [|by auto|done].
  intros c1 v1 y1 s1 (->&->&Hc1). wp_step. eapply wp_lift; [apply Hf|].
  assert (p c1 = true → c1 = look v1 → 0 < rem v1)%nat as Hpos.
  { intros Hp ->. apply look_pos. intros E. rewrite E in Hp. congruence. }
  destruct (p c1) eqn:Hp; unfold ADVANCE_C; wps.
  - split_and!; [auto with scan|done|done| |done|].
    + right. destruct Hc1 as [[-> ->]|(Hpc&->&Hw)]; [by split_and!|].
      specialize (Hpos eq_refl eq_refl). split_and!; [done..|].
      etrans; [symmetry; apply adv_span_true; [lia|done]|exact Hw].
    + cbv [id]. intros Hc. specialize (Hpos eq_refl Hc). rewrite rem_adv. lia.
  - destruct Hc1 as [[-> ->]|(Hpc&->&Hw)]; [by rewrite Hp in HQ|].
    rewrite adv_span_false in Hw by done. subst w. by rewrite Hpc, <- Hw in HQ.
Qed.

Lemma guard_class (p : Z → bool) (f : Z → outcome bool) :
  p 0 = false → (∀ c, f c = Done (p c)) → Guard (λ c, lift (f c)).
Proof.
  intros H0 Hf c n v y s Q HQ. eapply wp_lift; [apply Hf|]. apply HQ. intros Hp ->.
  apply look_pos. intros E. rewrite E in Hp. congruence.
Qed.

Lemma guard_pure (p : Z → bool) : p 0 = false → Guard (λ c, ret (p c)).
Proof.
  intros H0 c n v y s Q HQ. apply wp_ret, HQ. intros Hp ->. apply look_pos. intros E.
  rewrite E in Hp. congruence.
Qed.
End run.

(** Follows the structure of a computation; what is left are its leaves. *)
Ltac run_step :=
  cbv beta zeta;
  lazymatch goal with
  | |- ∀ _, _ => intro
  | |- Run _ _ _ (bind ?m (λ b, return_ b)) _ => apply run_return
  | |- Run _ _ _ (bind get_payload _) _ => apply run_get_payload; intros ? ?
  | |- Run _ _ _ (bind (modify _) _) _ => fail
  | |- Run _ _ _ (bind _ _) _ => apply run_bind
  | |- Run _ _ _ (continue _ _) _ => apply run_continue
  | |- Run _ _ _ (if _ then _ else _) _ => apply run_if
  | |- Run _ _ _ (match ?x with _ => _ end) _ => destruct x
  | |- Run _ _ _ (token _) _ => apply run_token
  | |- Run _ _ _ (return_ _) _ => apply run_return_
  | |- Run _ _ _ (next _) _ => apply run_next
  | |- Run _ _ _ (TOKEN _) (keeps _ _) => apply run_TOKEN; done
  | |- Run _ _ _ (while_c _ _) (keeps _ _) => apply run_while_c; apply _
  | |- Run _ _ _ _ _ =>
      first [ apply _ | solve [apply run_reads; apply _] | solve [apply run_ends; apply _]
            | solve [apply run_ends, run_reads; apply _] | solve [apply run_ends, run_TOKEN; done] ]
  end.
Ltac run_tac := repeat run_step.


#[global] Typeclasses Opaque is_whitespace id_first id_cont not_eof until while_c ADVANCE_C lift.

Section helpers.
Context {L : Type} {HL : TSLexer L} {HW : WCType} {HS : TSLexerSpec L}.
Context (need : bool) (k N : Z).
Local Abbreviation Run := (Run need k N).
Local Abbreviation keeps := (keeps need k).
Local Abbreviation ends := (ends k N).
Local Abbreviation parts := (parts need k N).

#[export] Instance guard_is_whitespace : Guard is_whitespace.
Proof. apply (guard_class space); [done|apply tsp_whitespace_found]. Qed.
#[export] Instance guard_id_cont : Guard id_cont.
Proof. apply (guard_class idcont); [done|apply isidcont_found]. Qed.
#[export] Instance guard_id_first : Guard id_first.
Proof. apply (guard_class idfirst); [done|apply isidfirst_found]. Qed.
#[export] Instance guard_not_eof : Guard (λ _, not_eof).
Proof.
  intros c n v y s Q HQ. unfold not_eof. wps. apply HQ. intros He _.
  apply not_eof_pos. by destruct (at_eof v).
Qed.
#[export] Instance guard_until x : Guard (until x).
Proof. intros c n v y s Q HQ. unfold until. wps; [by apply HQ|]. by apply (guard (cond := λ _, not_eof) c). Qed.

#[export] Instance run_not_eof : Run not_eof keeps.
Proof. apply (run_guard need k N (λ _, not_eof) 0 _). Qed.
#[export] Instance run_until x c : Run (until x c) keeps.
Proof. apply run_guard; apply _. Qed.
#[export] Instance run_is_whitespace c : Run (is_whitespace c) keeps.
Proof. apply run_guard; apply _. Qed.
#[export] Instance run_id_first c : Run (id_first c) keeps.
Proof. apply run_guard; apply _. Qed.
#[export] Instance run_id_cont c : Run (id_cont c) keeps.
Proof. apply run_guard; apply _. Qed.
#[export] Instance run_ADVANCE_C : Run ADVANCE_C keeps.
Proof. unfold ADVANCE_C. run_tac. Qed.

Lemma wp_modify f s' n v y s (Q : post (S := LexerState) unit) :
  f s = Done s' → Q tt v y s' → wp (L := L) (modify f) n v y s Q.
Proof. intros Hf HQ. unfold modify. wps. eapply wp_lift; [exact Hf|]. by wps. Qed.

Lemma wp_is_whitespace c n v y s (Q : post (S := LexerState) bool) :
  Q (space c) v y s → wp (L := L) (is_whitespace c) n v y s Q.
Proof. intros HQ. eapply wp_lift; [apply tsp_whitespace_found|done]. Qed.
Lemma wp_id_first c n v y s (Q : post (S := LexerState) bool) :
  Q (idfirst c) v y s → wp (L := L) (id_first c) n v y s Q.
Proof. intros HQ. eapply wp_lift; [apply isidfirst_found|done]. Qed.
Lemma wp_id_cont c n v y s (Q : post (S := LexerState) bool) :
  Q (idcont c) v y s → wp (L := L) (id_cont c) n v y s Q.
Proof. intros HQ. eapply wp_lift; [apply isidcont_found|done]. Qed.
End helpers.

(** The characters of a class, with the tests written out. *)
Ltac wp_class :=
  lazymatch goal with
  | |- wp (is_whitespace _) _ _ _ _ _ => apply wp_is_whitespace
  | |- wp (id_first _) _ _ _ _ _ => apply wp_id_first
  | |- wp (id_cont _) _ _ _ _ _ => apply wp_id_cont
  end.
Ltac wp_hook ::= first [ wp_class | progress unfold TOKEN | progress unfold token
  | progress unfold return_ | progress unfold next | progress unfold ADVANCE_C
  | progress unfold not_eof | progress unfold until ].

(** The body of a loop over [c]. *)
Ltac c_leaf :=
  split_and!;
  first [ done | advanced_tac | rem_tac
        | let Hc := fresh "Hc" in intros Hc; cbv [id fst snd] in Hc; subst; rem_tac | idtac ].

Section loops.
Context {L : Type} {HL : TSLexer L} {HW : WCType} {HS : TSLexerSpec L}.
Context (need : bool) (k N : Z).
Local Abbreviation Run := (Run need k N).
Local Abbreviation keeps := (keeps need k).
Local Abbreviation ends := (ends k N).
Local Abbreviation parts := (parts need k N).

#[export] Instance reads_skip_whitespace (I : LexerState → Prop) : Reads I skip_whitespace.
Proof. unfold skip_whitespace. reads_loop. Qed.
#[export] Instance reads_skip_ws_to_eol (I : LexerState → Prop) : Reads I skip_ws_to_eol.
Proof. unfold skip_ws_to_eol. reads_loop. case_match; [|done]. rem_tac. Qed.


#[export] Instance run_read_keyword c : Run (read_keyword c) keeps.
Proof.
  unfold read_keyword. apply (run_c_loop _ _ _ (λ _ _, True) snd); [|done].
  intros [word c1] n v y s Hn HN Hs _. wps; c_leaf.
Qed.
#[export] Instance run_while_whitespace sk c : Run (while_whitespace sk c) keeps.
Proof.
  unfold while_whitespace. apply (run_c_loop _ _ _ (λ _ _, True) id); [|done].
  intros c1 n v y s Hn HN Hs _. wps; c_leaf.
Qed.
#[export] Instance run_peek : Run peek_is_statement_keyword keeps.
Proof. unfold peek_is_statement_keyword. run_tac. Qed.

#[export] Instance run_skip_chars m allow : Run (_skip_chars m allow) keeps.
Proof.
  unfold _skip_chars. run_step; [run_step|]. intros c0.
  apply (run_c_loop _ _ _ (λ _ _, True) snd); [|done].
  intros [[|m'] c1] n v y s Hn HN Hs _; wps; c_leaf.
Qed.
#[export] Instance guard_braced : Guard (λ c, ret (negb (c =? 0) && negb (c =? "}"))).
Proof. by apply (guard_pure (λ c, negb (c =? 0) && negb (c =? "}"))). Qed.
#[export] Instance run_skip_braced : Run skip_braced keeps.
Proof. unfold skip_braced. run_tac. Qed.

#[export] Instance guard_comment :
  Guard (λ _, col <- get_column;; if col =? 0 then ret false else not_eof).
Proof.
  intros c n v y s Q HQ. unfold not_eof. wps; [by apply HQ|]. apply HQ. intros He _.
  apply not_eof_pos. by destruct (at_eof v).
Qed.
(** The characters of a class, from any local. *)
Lemma wp_while_space c n v y s (Q : post (S := LexerState) Z) : (S (rem v) < n)%nat →
  Q (if space c then look (skipped space c v) else c) (skipped space c v) y s →
  wp (L := L) (while_c is_whitespace c) n v y s Q.
Proof. apply wp_while_class; [done|apply tsp_whitespace_found]. Qed.
Lemma wp_while_id c n v y s (Q : post (S := LexerState) Z) : (S (rem v) < n)%nat →
  Q (if idcont c then look (skipped idcont c v) else c) (skipped idcont c v) y s →
  wp (L := L) (while_c id_cont c) n v y s Q.
Proof. apply wp_while_class; [done|apply isidcont_found]. Qed.

Lemma advanced_skipped p c v : advanced v (skipped p c v).
Proof. unfold skipped. destruct (p c); auto with scan. Qed.

Lemma rem_skipped p c v : p 0 = false → p c = true → c = look v → (rem (skipped p c v) < rem v)%nat.
Proof.
  intros H0 Hp ->. unfold skipped. rewrite Hp.
  assert (0 < rem v)%nat by (apply look_pos; intros E; rewrite E in Hp; congruence).
  pose proof (rem_adv_span_le p false (adv false v)). rewrite rem_adv in *. lia.
Qed.

#[export] Instance run_skip_comment c : Run (skip_comment c) keeps.
Proof. unfold skip_comment. run_tac. Qed.
(** The characters before an [x], from any local. *)
Definition skipped_until (x c : Z) (v : view) : view :=
  if (c =? x) || at_eof v then v else adv_span (λ d, negb (d =? x)) false (adv false v).

Lemma wp_while_until x c n v y s (Q : post (S := LexerState) Z) : (S (rem v) < n)%nat →
  Q (if (c =? x) || at_eof v then c else look (skipped_until x c v)) (skipped_until x c v) y s →
  wp (L := L) (while_c (until x) c) n v y s Q.
Proof.
  intros Hn HQ. unfold skipped_until in HQ. set (p := λ d, negb (d =? x)) in *.
  set (w := adv_span p false (adv false v)) in *.
  apply (wp_c_loop (λ c' v' y' s', s' = s ∧ y' = y ∧ (c' = c ∧ v' = v
    ∨ (c =? x) || at_eof v = false ∧ c' = look v' ∧ adv_span p false v' = w)) id); [|by auto|done].
  intros c1 v1 y1 s1 (->&->&Hc1). unfold until, not_eof.
  destruct (c1 =? x) eqn:Hx; [wps|wps; [apply negb_true_iff in E|apply negb_false_iff in E]; rename E into He].
  - destruct Hc1 as [[-> ->]|(Hpc&->&Hw)]; [by rewrite Hx in HQ|].
    rewrite adv_span_false in Hw by (unfold p; by rewrite Hx). subst w. by rewrite Hpc, <- Hw in HQ.
  - assert (0 < rem v1)%nat by by apply not_eof_pos. rewrite rem_adv.
    split_and!; [auto with scan|done|done| |done|lia]. right.
    destruct Hc1 as [[-> ->]|(Hpc&->&Hw)]; [by rewrite Hx, He|].
    split_and!; [done..|]. etrans; [symmetry; apply adv_span_true|exact Hw].
    + lia.
    + unfold p. by rewrite Hx.
  - destruct Hc1 as [[-> ->]|(Hpc&->&Hw)]; [by rewrite He, orb_true_r in HQ|].
    rewrite Hpc in HQ. assert (adv_span p false v1 = v1) as Hv.
    { unfold adv_span. apply at_eof_rem in He. unfold rem in He. by destruct (v_rest v1). }
    rewrite Hv in Hw. subst w. by rewrite <- Hw in HQ.
Qed.

Lemma advanced_skipped_until x c v : advanced v (skipped_until x c v).
Proof. unfold skipped_until. case_match; auto with scan. Qed.

Lemma rem_skipped_until x c v : (c =? x) = false → at_eof v = false →
  (rem (skipped_until x c v) < rem v)%nat.
Proof.
  intros Hx He. unfold skipped_until. rewrite Hx, He. apply not_eof_pos in He. cbn.
  pose proof (rem_adv_span_le (λ d, negb (d =? x)) false (adv false v)). rewrite rem_adv in *. lia.
Qed.

#[export] Instance run_fat_comma_check vs : Run (fat_comma_check vs) keeps.
Proof. unfold fat_comma_check. run_tac. Qed.
#[export] Instance run_kw_autoquote vs c : Run (kw_autoquote vs c) keeps.
Proof.
  unfold kw_autoquote. run_step; [|run_tac]. apply (run_c_loop _ _ _ (λ _ _, True) id); [|done].
  intros c1 n v y s Hn HN Hs _. wps; [|c_leaf]. apply wp_while_space; [done|].
  pose proof (advanced_skipped space c1 v) as Ha. pose proof (advanced_rem _ _ Ha).
  pose proof (rem_skipped space c1 v eq_refl) as Hlt. set (w := skipped space c1 v) in *.
  set (c2 := if space c1 then look w else c1).
  assert (c1 = look v → c2 = look w) as Hc2.
  { unfold c2, w, skipped. destruct (space c1); [done|auto]. }
  wps.
  - unfold skip_comment. apply wp_while_c_cur; [apply _|rem_tac|]. intros v' Ha'. wps; c_leaf.
  - done.
  - assert (space c1 = true) as Hsp.
    { destruct (space c1) eqn:Hsp; [done|]. unfold c2 in E0. cbn in E. congruence. }
    split_and!; [done..|unfold c2; by rewrite Hsp|auto].
Qed.
#[export] Instance run_heredoc_token_handling : Run heredoc_token_handling keeps.
Proof. unfold heredoc_token_handling. run_tac. Qed.
End loops.
