(* ===== verification/PerlScanTotal.v ===== *)
(** * Termination of the Perl scanner

    Every call of the scan function ends without fault, moves forward in the
    input, and keeps the state well formed; without an open quote, the question
    for the kind of the last one is a failed assertion. *)

From S2P Require Import Prelude CArray CArrayProofs CString Scan Logic.
From S2P Require Import PerlUnicode PerlKeywords PerlIntuit PerlIntuitProofs PerlState PerlStateProofs.
From S2P Require Import Perl PerlScan PerlInvariant PerlTotal.

Section total.
Context {L : Type} {HL : TSLexer L} {HW : WCType} {HS : TSLexerSpec L}.
Context (valid : TokenType → bool).
Local Abbreviation need := (valid TOKEN_QUOTELIKE_MIDDLE_SKIP).
Context (k N : Z) (Hk : 0 ≤ k) (HN0 : 0 ≤ N) (Hmax : k + N + 2 ≤ 2147483647).
Local Abbreviation Run := (Run need k N).
Local Abbreviation keeps := (keeps need k).
Local Abbreviation ends := (ends k N).
Local Abbreviation parts := (parts need k N).

(** ** Up to the white space *)

#[local] Instance run_scan_gobbled c : Run (scan_gobbled valid c) parts.
Proof. unfold scan_gobbled. run_tac. Qed.

#[local] Instance guard_blank : Guard (λ c, ret ((c =? " ") || (c =? TAB) || (c =? CR))).
Proof. by apply (guard_pure (λ c, (c =? " ") || (c =? TAB) || (c =? CR))). Qed.

(** The test for a line with a dot leaves [c] up to date, and has read the dot. *)
Lemma wp_only_dot n v y s (Q : post (S := LexerState) (bool * Z)) : (rem v < n)%nat →
  (∀ b v', advanced (adv false v) v' → Q (b, look v') v' y s) → wp (only_dot 46) n v y s Q.
Proof.
  intros Hn HQ. unfold only_dot. wps. apply wp_while_c_cur; [apply _|rem_tac|].
  intros v' Ha. wps; auto.
Qed.

(** The rest of a line, from an up-to-date local or before the end of the input. *)
Lemma wp_rest_of_line c n v y s (Q : post (S := LexerState) (Z + Z)) : (S (rem v) < n)%nat →
  c = look v ∨ at_eof v = false →
  (∀ v', advanced v v' → (at_eof v = false → rem v' < rem v)%nat → Q (inl (look v')) v' y s) →
  wp (c <- while_c (until LF) c;;
      if c =? LF then c <- ADVANCE_C;; ret (inl c) else ret (inl c)) n v y s Q.
Proof.
  intros Hn Hc HQ. wp_step. apply wp_while_until; [done|].
  pose proof (advanced_skipped_until LF c v) as Ha. pose proof (advanced_rem _ _ Ha).
  pose proof (rem_skipped_until LF c v) as Hlt. destruct ((c =? LF) || at_eof v) eqn:E; cbv iota.
  - assert (skipped_until LF c v = v) as -> by (unfold skipped_until; by rewrite E).
    wps; [apply HQ; [auto with scan|intros He; apply not_eof_pos in He; rewrite rem_adv; lia]|].
    destruct Hc as [->|He]; [|by rewrite He in E].
    apply HQ; [done|]. intros He. by rewrite He in E.
  - apply orb_false_iff in E as [E E']. specialize (Hlt E E').
    wps; (apply HQ; [eauto with scan|intros _; rewrite ?rem_adv; lia]).
Qed.

Lemma run_format_lines c : Run (iter format_line c) keeps.
Proof.
  apply (run_c_loop _ _ _ (λ _ _, True) id); [|done].
  intros c1 n v y s Hn HN Hs _. unfold format_line. wp_step. wp_step. wp_step; [wps; c_leaf|].
  assert (0 < rem v)%nat by by apply not_eof_pos. wp_step. wp_step.
  - assert (c1 = 46) as -> by lia. apply wp_only_dot; [lia|]. intros b v' Ha.
    pose proof (advanced_rem _ _ Ha) as Hr. rewrite rem_adv in Hr.
    destruct b; [wps; c_leaf|]. cbv beta iota. apply wp_rest_of_line; [lia|auto|]. intros v2 Ha2 _.
    pose proof (advanced_rem _ _ Ha2). split_and!; try done; [|intros _; lia].
    etrans; [|exact Ha2]. etrans; [|exact Ha]. auto with scan.
  - wp_step. cbv beta iota. apply wp_rest_of_line; [lia|auto|]. intros v2 Ha2 Hlt. split_and!; auto.
Qed.

#[local] Instance run_scan_format c : Run (scan_format valid c) parts.
Proof. unfold scan_format. pose proof run_format_lines. run_tac. Qed.
#[local] Instance run_scan_operators c : Run (scan_operators valid c) parts.
Proof. unfold scan_operators. run_tac. Qed.

(** *** Heredocs *)

Lemma tspstring_push_done s c : length s < 2147483647 →
  ∃ s', tspstring_push s c = Done s' ∧ length s' = length s + 1.
Proof. intros Hl. unfold tspstring_push. rewrite i32_incr_small by done. by eexists. Qed.

#[local] Instance run_read_line line c : length line = 0 → Run (read_line line c) keeps.
Proof.
  intros Hline. unfold read_line.
  apply (run_c_loop _ _ _ (λ p v, length p.1.1 + Z.of_nat (rem v) ≤ N ∨ rem v = 0%nat) snd);
    [|intros v Hv; left; cbn; lia].
  intros [[l saw] c1] n v y s Hn HN Hs HJ. cbn [fst snd] in *. wps; try by c_leaf.
  - assert (0 < rem v)%nat by (apply not_eof_pos; by destruct (at_eof v)).
    destruct (tspstring_push_done l CR ltac:(lia)) as (l1&Hl1&?). eapply wp_lift; [exact Hl1|]. wps.
    destruct (tspstring_push_done l1 (look (adv false v)) ltac:(lia)) as (l2&Hl2&?).
    eapply wp_lift; [exact Hl2|]. wps. cbn [fst snd].
    split_and!; [by auto with scan|done| |done|intros _; rewrite !rem_adv; lia].
    rewrite !rem_adv. lia.
  - assert (0 < rem v)%nat by (apply not_eof_pos; by destruct (at_eof v)).
    destruct (tspstring_push_done l c1 ltac:(lia)) as (l1&Hl1&?). eapply wp_lift; [exact Hl1|]. wps.
    cbn [fst snd]. split_and!; [by auto with scan|done| |done|intros _; rewrite !rem_adv; lia].
    rewrite !rem_adv. lia.
Qed.

(** Runs a step that keeps the invariant. *)
Ltac run_call :=
  eapply wp_mono; [apply (run need k N); [rem_tac|rem_tac|done]|];
  let a := fresh "a" in let v' := fresh "v" in let y' := fresh "y" in
  let s' := fresh "s" in intros a v' y' s' [? ?]; cbv beta.

Lemma run_heredoc_lines front line c : Run (iter (heredoc_line front) (line, c)) parts.
Proof.
  apply (run_c_loop _ _ _ (λ _ _, True) snd); [|done].
  intros [l c1] n v y s Hn HN Hs _. unfold heredoc_line. wp_step. wp_step.
  wp_step; [by wp_step|]. assert (0 < rem v)%nat by by apply not_eof_pos.
  do 2 wp_step. do 2 wp_step. cbv zeta.
  set (start := (heredoc_state s =? HEREDOC_END) || _).
  assert (Run (if start && indents front then skip_whitespace;; lookahead else ret c1) keeps) by run_tac.
  assert (Run (read_line (tspstring_reset l) c1) keeps) by by apply run_read_line.
  wp_step. run_call. do 2 wp_step. wp_step.
  assert (Run (read_line (tspstring_reset l) a) keeps) by by apply run_read_line.
  run_call. rename select (keeps a0 _) into Hs1. destruct a0 as [[line1 saw] c2]. cbv beta iota.
  assert (advanced v v1) by (etrans; [eassumption|]; etrans; [|eassumption]; auto with scan).
  assert (∀ st, parts (inl true : bool + Z) (set_heredoc_state s st)) as Hst.
  { intros st. apply (keeps_ends need); [lia|]. by apply inv_heredoc_state. }
  wps.
  - split; [done|apply Hst].
  - unfold modify. wps. destruct (inv_finish_heredoc _ _ _ Hs1) as (s2&Hrun&Hs2).
    eapply wp_lift; [exact Hrun|]. wps. split; [by auto with scan|]. apply (keeps_ends need); [lia|done].
  - split; [done|apply Hst].
  - split_and!; [by auto with scan|done..|]. intros _. rem_tac.
Qed.

Lemma run_heredoc_continue c : Run (iter heredoc_continue (false, c)) parts.
Proof.
  apply (run_c_loop _ _ _ (λ _ _, True) snd); [|done].
  intros [saw c1] n v y s Hn HN Hs _. unfold heredoc_continue. wps.
  - split; [by auto with scan|done].
  - split; [by auto with scan|]. apply (keeps_ends need); [lia|]. by apply inv_heredoc_state.
  - split_and!; [by auto with scan|done..|]. cbn. intros ->. rewrite rem_adv.
    assert (0 < rem v)%nat; [|lia]. apply look_pos. intros Hl. by rewrite Hl in E.
Qed.

#[local] Instance run_scan_heredoc_middle c : Run (scan_heredoc_middle valid c) parts.
Proof.
  unfold scan_heredoc_middle. apply run_get_payload. intros s Hs. apply run_if; [|run_tac].
  pose proof run_heredoc_lines. pose proof run_heredoc_continue.
  run_step.
  - destruct (inv_front_heredoc _ _ _ Hs) as [e He]. eapply run_lift. exact He.
  - run_tac.
Qed.

#[local] Instance run_scan_line_start c : Run (scan_line_start valid c) parts.
Proof.
  unfold scan_line_start. run_tac. apply run_set_payload, inv_heredoc_state. done.
Qed.

(** *** Attributes and white space *)

(** A round of a loop with a counter. *)
Ltac count_leaf :=
  cbn [fst snd]; rewrite ?rem_adv; split_and!;
  first [done | by auto with scan | lia | intros _; lia].

Lemma run_attribute_value c : Run (iter attribute_value (0, c)) keeps.
Proof.
  apply (run_c_loop _ _ _ (λ p v, 0 ≤ p.1 ∧ p.1 + Z.of_nat (rem v) ≤ N) snd);
    [|cbn; lia].
  intros [d c1] n v y s Hn HN Hs HJ. cbn [fst snd] in *. unfold attribute_value. wps; try by c_leaf.
  all: assert (0 < rem v)%nat by by apply not_eof_pos.
  - count_leaf.
  - eapply wp_lift; [apply i32_incr_small; lia|]. wps. count_leaf.
  - eapply wp_lift; [apply i32_decr_small; lia|]. wps. count_leaf.
  - count_leaf.
Qed.

#[local] Instance run_scan_attribute c : Run (scan_attribute valid c) parts.
Proof. unfold scan_attribute. pose proof run_attribute_value. run_tac. Qed.
#[local] Instance run_scan_whitespace c : Run (scan_whitespace valid c) parts.
Proof. unfold scan_whitespace. run_tac. Qed.

(** ** Keywords and recovery *)

#[local] Instance run_read_ident m c : Run (read_ident m c) keeps.
Proof.
  unfold read_ident. apply (run_c_loop _ _ _ (λ _ _, True) snd); [|done].
  intros [word c1] n v y s Hn HN Hs _. wps; c_leaf.
Qed.
#[local] Instance run_async_declaration c : Run (async_declaration c) keeps.
Proof. unfold async_declaration. run_tac. Qed.
#[local] Instance run_method_name c : Run (method_name c) keeps.
Proof. unfold method_name. run_tac. Qed.
#[local] Instance run_contextual_keyword b c : Run (contextual_keyword valid b c) keeps.
Proof. unfold contextual_keyword. run_tac. Qed.
#[local] Instance run_scan_contextual c b1 b2 : Run (scan_contextual valid c b1 b2) parts.
Proof. unfold scan_contextual. run_tac. Qed.

#[local] Instance run_recovery_token t : Run (recovery_token t) parts.
Proof. unfold recovery_token. run_tac. by apply run_set_payload, inv_recovery. Qed.
#[local] Instance run_EMIT_RECOVERY_TOKENS b : Run (EMIT_RECOVERY_TOKENS valid b) parts.
Proof. unfold EMIT_RECOVERY_TOKENS. run_tac. Qed.
#[local] Instance run_scan_boundary c : Run (scan_boundary valid c) parts.
Proof. unfold scan_boundary. run_tac. Qed.
#[local] Instance run_keyword_boundary b : Run (keyword_boundary valid b) parts.
Proof. unfold keyword_boundary. run_tac. Qed.
#[local] Instance run_scan_statement_keyword c b1 b2 : Run (scan_statement_keyword valid c b1 b2) parts.
Proof. unfold scan_statement_keyword. run_tac. Qed.

(** ** Angle brackets *)

(** A change of the payload at the end of the scan. *)
Lemma run_modify_token f t : (∀ s, inv need k s → ∃ s', f s = Done s' ∧ inv false (k + N + 2) s') →
  Run (modify f;; TOKEN t) ends.
Proof.
  intros Hf n v y s Hn HN Hs. destruct (Hf s Hs) as (s'&Hrun&Hs'). unfold modify. wps.
  eapply wp_lift; [exact Hrun|]. by wps.
Qed.

Lemma run_modify_part {A} f t : (∀ s, inv need k s → ∃ s', f s = Done s' ∧ inv false (k + N + 2) s') →
  Run (modify f;; token t) (λ r s, parts (r : bool + A) s).
Proof.
  intros Hf n v y s Hn HN Hs. destruct (Hf s Hs) as (s'&Hrun&Hs'). unfold modify. wps.
  eapply wp_lift; [exact Hrun|]. by wps.
Qed.

Lemma push_ends c s : inv need k s →
  ∃ s', lexerstate_push_quote s c = Done s' ∧ inv false (k + N + 2) s'.
Proof.
  intros Hs. destruct (inv_push need k s c Hs ltac:(lia)) as (s'&?&Hs').
  exists s'. split; [done|]. eapply inv_le; [apply (Hs' true)|lia].
Qed.

Lemma run_lift_total {A} (o : outcome A) : (∃ a, o = Done a) → Run (lift o) keeps.
Proof. intros [a Ha]. by eapply run_lift. Qed.

Lemma run_bind_post {A B} (R : A → Prop) (m : M L LexerState A) (g : A → M L LexerState B) P :
  Run m (λ a s, keeps a s ∧ R a) → (∀ a, R a → Run (g a) P) → Run (bind m g) P.
Proof.
  intros Hm Hg n v y s Hn HN Hs. apply wp_bind. eapply wp_mono; [by apply Hm|].
  intros a v' y' s' (Ha&Hs'&HR). pose proof (advanced_rem _ _ Ha).
  eapply wp_mono; [apply Hg; [done|lia|lia|done]|]. intros b v2 y2 s2 [? ?]. split; [by etrans|done].
Qed.

(** ** Angle brackets *)

#[local] Instance run_gather cond buf c : Guard cond → Run (gather cond buf c) keeps.
Proof.
  intros Hg. unfold gather. apply (run_c_loop _ _ _ (λ _ _, True) snd); [|done].
  intros [b1 c1] n v y s Hn HN Hs _. wp_step. apply Hg. intros b Hb. wps; c_leaf.
Qed.

#[local] Instance run_gather_after c : Run (gather_after c) keeps.
Proof.
  unfold gather_after. apply (run_c_loop _ _ _ (λ _ _, True) snd); [|done].
  intros [b1 c1] n v y s Hn HN Hs _. wps; try by c_leaf.
Qed.

#[local] Instance guard_glob : Guard
  (λ c, if (c =? ">") || (c =? "<") || (c =? ";") || (c =? LF) then ret false else not_eof).
Proof.
  intros c n v y s Q HQ. destruct (_ || _); [apply wp_ret; by apply HQ|].
  by apply (guard (cond := λ _, not_eof) c).
Qed.

#[local] Instance run_fileglob content c : Run (fileglob content c) ends.
Proof.
  unfold fileglob. run_step; [run_tac|]. intros [content1 c1].
  run_step; [|run_tac]. do 2 (run_step; [run_tac|intro]).
  run_step; [apply run_lift_total, fileglob_total|intro]. run_step; [|run_tac].
  apply run_modify_token. intros. by apply push_ends.
Qed.
#[local] Instance run_angle_bracket : Run (angle_bracket valid) ends.
Proof. unfold angle_bracket. run_tac. Qed.
#[local] Instance run_scan_angle_bracket c : Run (scan_angle_bracket valid c) parts.
Proof. unfold scan_angle_bracket. run_tac. Qed.

(** ** Variables, quotes and brackets *)

#[local] Instance run_scan_dollar_ident c b : Run (scan_dollar_ident valid c b) parts.
Proof. unfold scan_dollar_ident. run_tac. Qed.
#[local] Instance run_scan_search_slash c : Run (scan_search_slash valid c) parts.
Proof.
  unfold scan_search_slash. run_tac. apply run_modify_part. intros. by apply push_ends.
Qed.
#[local] Instance run_open_quote t c : Run (open_quote t c) parts.
Proof. unfold open_quote. run_tac. apply run_modify_part. intros. by apply push_ends. Qed.
#[local] Instance run_scan_quotes c : Run (scan_quotes valid c) parts.
Proof. unfold scan_quotes. run_tac. Qed.

Lemma closer_done c s : inv need k s → ∃ i, lexerstate_is_quote_closer s c = Done i.
Proof. intros Hs. destruct (inv_closer _ _ _ c Hs) as (i&?&_). by exists i. Qed.

#[local] Instance run_ask_closer c : Run (ask (λ s, lexerstate_is_quote_closer s c)) keeps.
Proof. apply run_ask. apply closer_done. Qed.
#[local] Instance run_scan_dollar_in_regexp c : Run (scan_dollar_in_regexp valid c) parts.
Proof. unfold scan_dollar_in_regexp. run_tac. Qed.

Lemma run_gather_brackets o cl c :
  Run (gather_brackets o cl c) (λ buf s, keeps buf s ∧ (List.length buf ≤ 256)%nat).
Proof.
  unfold gather_brackets.
  apply (run_c_loop _ _ _ (λ p _, (List.length p.1 ≤ 256)%nat) snd); [|cbn; lia].
  intros [buf c1] n v y s Hn HN Hs HJ. cbn [fst snd] in *. wps; try by c_leaf.
  - split_and!; [done..|]. rewrite length_app. simpl. lia.
  - split_and!; [by auto with scan|done| |done|].
    + cbn [fst]. rewrite length_app. simpl. lia.
    + intros _. rewrite rem_adv. assert (0 < rem v)%nat; [|lia].
      apply not_eof_pos. by destruct (at_eof v).
Qed.

#[local] Instance run_regexp_bracket o : Run (regexp_bracket o) ends.
Proof.
  unfold regexp_bracket. do 2 (run_step; [run_tac|intro]).
  eapply run_bind_post; [apply run_gather_brackets|]. intros buf Hbuf.
  run_step; [apply run_lift_total, intuit_total; exact Hbuf|intro]. run_step; [|run_tac].
  apply run_modify_token. intros s Hs. unfold saw_opener_of.
  destruct (inv_opener _ _ _ o Hs) as (i&Hi&?). rewrite Hi. cbn [obind].
  destruct (negb _) eqn:E.
  - destruct (inv_saw_opener _ _ _ o i Hs ltac:(lia) Hi ltac:(lia)) as (s'&?&?).
    exists s'. split; [done|]. eapply inv_le; [done|lia].
  - exists s. split; [done|]. eapply inv_le; [done|lia].
Qed.

#[local] Instance run_scan_regexp_bracket c : Run (scan_regexp_bracket valid c) parts.
Proof.
  unfold scan_regexp_bracket. apply run_if; [|run_tac]. apply run_get_payload. intros s Hs.
  destruct (inv_take_body_lead _ _ _ c Hs) as (b&s'&Ht&Hs').
  intros n v y s0 ???. wps. eapply wp_lift; [exact Ht|]. cbv beta iota. wp_step. wp_step.
  destruct b; [by wps|]. by apply (run_return need k N (regexp_bracket c) _).
Qed.

(** ** POD and heredoc delimiters *)

#[local] Instance run_pod_lines c : Run (pod_lines c) keeps.
Proof.
  unfold pod_lines. apply (run_c_loop _ _ _ (λ _ _, True) snd); [|done].
  intros [st c1] n v y s Hn HN Hs _. wps; c_leaf.
Qed.
#[local] Instance run_scan_pod c : Run (scan_pod valid c) parts.
Proof. unfold scan_pod. run_tac. Qed.

#[local] Instance run_heredoc_ident c : Run (heredoc_ident tspstring_zero c) keeps.
Proof.
  unfold heredoc_ident. apply (run_c_loop _ _ _ (λ p v, length p.1 + Z.of_nat (rem v) ≤ N + 1
    ∧ (p.2 ≠ look v → length p.1 + Z.of_nat (rem v) ≤ N)) snd); [|cbn; lia].
  intros [d c1] n v y s Hn HN Hs HJ. cbn [fst snd] in *. wps; [|by c_leaf].
  assert (c1 = look v → 0 < rem v)%nat as Hpos by (intros ->; by apply (look_class_pos idcont)).
  destruct (tspstring_push_done d c1 ltac:(lia)) as (d1&Hd1&?). eapply wp_lift; [exact Hd1|]. wps.
  cbn [fst snd]. rewrite rem_adv.
  split_and!; [by auto with scan|done|lia|done|done|intros Hc; specialize (Hpos Hc); lia].
Qed.

#[local] Instance run_heredoc_quoted o c : Run (heredoc_quoted o tspstring_zero c) keeps.
Proof.
  unfold heredoc_quoted.
  apply (run_c_loop _ _ _ (λ p v, length p.1 + Z.of_nat (rem v) ≤ N) snd); [|cbn; lia].
  intros [d c1] n v y s Hn HN Hs HJ. cbn [fst snd] in *. wps; try by c_leaf.
  all: assert (0 < rem v)%nat by (apply not_eof_pos; by destruct (at_eof v)).
  all: edestruct (tspstring_push_done d) as (d1&Hd1&?); [|eapply wp_lift; [exact Hd1|]]; [lia|].
  all: wps; cbn [fst snd]; rewrite !rem_adv.
  all: split_and!; [by auto with scan|done|lia|done|intros _; lia].
Qed.

Lemma run_add_heredoc d i t : Run (add_heredoc d i t) keeps.
Proof.
  unfold add_heredoc. apply run_get_payload. intros s Hs. by apply run_set_payload, inv_add_heredoc.
Qed.

#[local] Instance run_heredoc_bare b c : Run (heredoc_bare b c) parts.
Proof. unfold heredoc_bare. pose proof run_add_heredoc. run_tac. Qed.
#[local] Instance run_scan_heredoc_delim c b : Run (scan_heredoc_delim valid c b) parts.
Proof. unfold scan_heredoc_delim. pose proof run_add_heredoc. run_tac. Qed.

(** ** Quotelikes *)

#[local] Instance run_scan_middle_skip : Run (scan_middle_skip valid) parts.
Proof.
  unfold scan_middle_skip. destruct need eqn:E; [|run_tac].
  apply run_bind; [|run_tac]. apply run_ask. intros s Hs. by eapply inv_paired.
Qed.

#[local] Instance run_quotelike_begin c : Run (quotelike_begin valid c) ends.
Proof.
  unfold quotelike_begin. do 2 (run_step; [run_tac|intro]). run_step; [run_tac|].
  intros n v y s Hn HN Hs. do 3 wp_step.
  destruct (inv_retire valid _ _ _ Hs) as (s1&Hr&Hs1). eapply wp_modify; [exact Hr|].
  wp_step. destruct (inv_push _ _ _ c Hs1) as (s2&Hp&Hs2); [lia|].
  eapply wp_modify; [exact Hp|]. wp_step.
  assert (∀ s, inv false (k + 1) s → inv false (k + N + 2) s) as Hle
    by (intros ??; eapply inv_le; [done|lia]).
  wp_step; [|wps; split; [by auto with scan|apply Hle, Hs2]].
  wp_step. apply wp_while_space; [done|].
  pose proof (advanced_skipped space a0 (mark v)) as Ha.
  assert (advanced v (skipped space a0 (mark v))) by (etrans; [|exact Ha]; auto with scan).
  wp_step; [|wps; split; [done|apply Hle, Hs2]].
  destruct (inv_set_body_lead false _ _ true (Hs2 true)) as (s3&Hb&Hs3).
  eapply wp_modify; [exact Hb|]. wps. split; [done|by apply Hle].
Qed.
#[local] Instance run_scan_quotelike_begin c b : Run (scan_quotelike_begin valid c b) parts.
Proof. unfold scan_quotelike_begin. run_tac. Qed.

(** ** Escapes and contents *)

#[local] Instance run_escape_body e c : Run (escape_body e c) keeps.
Proof. unfold escape_body. run_tac. Qed.
#[local] Instance run_ask_delimiter c : Run (ask (is_quote_delimiter c)) keeps.
Proof.
  apply run_ask. intros s Hs. unfold is_quote_delimiter.
  destruct (inv_opener _ _ _ c Hs) as (i&->&_). destruct (inv_closer _ _ _ c Hs) as (j&->&_).
  cbn [obind]. destruct (negb _); by eexists.
Qed.
#[local] Instance run_escape c : Run (escape valid c) parts.
Proof. unfold escape. run_tac. Qed.
#[local] Instance run_scan_escape c : Run (scan_escape valid c) parts.
Proof. unfold scan_escape. run_tac. Qed.

Lemma inv_content_char q c j s : inv need j s → j < 2147483647 →
  ∃ r, content_char q c s = Done r ∧ match r with Some s' => inv need (j + 1) s' | None => True end.
Proof.
  intros Hs Hj. unfold content_char. destruct (c =? _); [by eexists|].
  destruct (inv_opener _ _ _ c Hs) as (i&Hi&?). rewrite Hi. cbn [obind]. destruct (negb (i =? 0)) eqn:E.
  - destruct (inv_saw_opener _ _ _ c i Hs Hj Hi ltac:(lia)) as (s'&->&?). by eexists.
  - destruct (inv_closer _ _ _ c Hs) as (i2&Hi2&?). rewrite Hi2. cbn [obind].
    destruct (negb (i2 =? 0)) eqn:E2; [|eexists; split; [done|]; destruct (q && _); [done|by apply (inv_weaken _ j)]].
    destruct (inv_closed _ _ _ c i2 Hs Hi2 ltac:(lia)) as (b&Hb&Hnext).
    rewrite Hb. cbn [obind]. destruct b; [by eexists|].
    destruct (Hnext eq_refl) as (s'&->&Hs'). eexists. split; [done|]. by apply (inv_weaken _ j).
Qed.

Lemma run_content_loop q c : Run (content_loop q c) (λ b s, if b then ends b s else keeps b s).
Proof.
  intros n v y s Hn HN Hs. unfold content_loop.
  apply (wp_c_loop (λ '(seen, c) v' _ s', advanced v v' ∧ (seen = false → s' = s) ∧ ∃ j, inv need j s'
    ∧ k ≤ j ∧ j + Z.of_nat (rem v' + if decide (c = look v') then 0 else 1) ≤ k + N + 1) snd); [|..|done].
  - intros [seen c1] v1 y1 s1 (Ha&Hseen&j&Hj&Hkj&Hle). cbn [snd]. wps.
    { split; [done|]. destruct seen; [eapply inv_le; [exact Hj|lia]|by rewrite Hseen]. }
    destruct (inv_content_char q c1 j s1 Hj ltac:(lia)) as (r&Hr&Hs').
    eapply wp_lift; [exact Hr|]. destruct r as [s2|]; wps.
    + assert (c1 = look v1 → 0 < rem v1)%nat as Hpos by (intros ->; apply look_pos; lia).
      assert (c1 = look v1 → (rem (adv false v1) < rem v1)%nat) as Hlt
        by (intros Hc; specialize (Hpos Hc); rewrite rem_adv; lia).
      split_and!; [by auto with scan| |done| |done|done]. 
      * etrans; [exact Ha|auto with scan].
      * exists (j + 1). split_and!; [done|lia|]. rewrite decide_True by done. rewrite rem_adv.
        case_decide; [specialize (Hpos ltac:(done)); lia|lia].
    + split; [done|]. destruct seen; [eapply inv_le; [exact Hj|lia]|by rewrite Hseen].
  - split_and!; [done..|]. exists k. split_and!; [done|lia|]. case_decide; lia.
Qed.

#[local] Instance run_scan_string_content c : Run (scan_string_content valid c) parts.
Proof.
  unfold scan_string_content. apply run_if; [|run_tac]. cbv zeta.
  intros n v y s Hn HN Hs. wp_step. eapply wp_mono; [by apply run_content_loop|].
  intros [] v' y' s' [? Hs']; by wps.
Qed.

(** ** The end of a quote *)

#[local] Instance run_ask_closes c : Run (ask (closes_quote c)) keeps.
Proof.
  apply run_ask. intros s Hs. unfold closes_quote.
  destruct (inv_closer _ _ _ c Hs) as (i&Hi&?). rewrite Hi. cbn [obind].
  destruct (negb (i =? 0)) eqn:E; [|by eexists].
  destruct (inv_closed _ _ _ c i Hs Hi ltac:(lia)) as (b&->&_). by eexists.
Qed.
#[local] Instance run_scan_middle_close c : Run (scan_middle_close valid c) parts.
Proof. unfold scan_middle_close. run_tac. Qed.

#[local] Instance run_scan_quotelike_end c : Run (scan_quotelike_end valid c) parts.
Proof.
  unfold scan_quotelike_end, ask. apply run_if; [|run_tac]. intros n v y s Hn HN Hs. do 3 wp_step.
  destruct (inv_closer _ _ _ c Hs) as (i&Hi&?). eapply wp_lift; [exact Hi|].
  wp_step; [|by wps]. wp_step; [by apply (run_token need k N _)|]. wp_step.
  unfold ADVANCE_C. wp_step. wp_step. wp_step. wp_step.
  destruct (inv_pop _ _ _ c i Hs Hi ltac:(lia)) as (s'&Hp&Hs').
  eapply wp_modify; [exact Hp|]. wps. split; [by auto with scan|]. eapply inv_le; [exact Hs'|lia].
Qed.

(** ** The last parts *)

#[local] Instance run_prototype c : Run (prototype c) keeps.
Proof.
  unfold prototype. apply (run_c_loop _ _ _ (λ p v, 0 ≤ p.1 ∧ p.1 + Z.of_nat (rem v) ≤ N) snd);
    [|cbn; lia].
  intros [d c1] n v y s Hn HN Hs HJ. cbn [fst snd] in *. wps; try by c_leaf.
  all: assert (0 < rem v)%nat by (apply not_eof_pos; by destruct (at_eof v)).
  - eapply wp_lift; [apply i32_decr_small; lia|]. wps. count_leaf.
  - eapply wp_lift; [apply i32_incr_small; lia|]. wps. count_leaf.
  - eapply wp_lift; [apply tsp_id_continue_found|]. wps; [done|]. count_leaf.
Qed.
#[local] Instance run_scan_prototype c : Run (scan_prototype valid c) parts.
Proof. unfold scan_prototype. run_tac. Qed.
#[local] Instance run_scan_filetest c : Run (scan_filetest valid c) parts.
Proof. unfold scan_filetest. run_tac. Qed.
#[local] Instance run_scan_brace_autoquoted c : Run (scan_brace_autoquoted valid c) parts.
Proof. unfold scan_brace_autoquoted. run_tac. Qed.
#[local] Instance guard_identifier : Guard (λ c, if c =? 0 then ret false else id_cont c).
Proof.
  intros c n v y s Q HQ. destruct (c =? 0); [apply wp_ret; by apply HQ|]. by apply guard.
Qed.
#[local] Instance run_scan_autoquoted c : Run (scan_autoquoted valid c) keeps.
Proof. unfold scan_autoquoted, skip_identifier. run_tac. Qed.

(** ** The scan *)

Lemma run_scan_quotelike c b : Run (scan_quotelike valid c b) parts.
Proof. unfold scan_quotelike. run_tac. Qed.
Lemma run_scan_token c b1 b2 b3 : Run (scan_token valid c b1 b2 b3) parts.
Proof. unfold scan_token. pose proof run_scan_quotelike. run_tac. Qed.
Lemma run_scan b : Run (scan valid b) parts.
Proof. unfold scan. pose proof run_scan_token. run_tac. Qed.
End total.

(** The scan from a state with at most [k] quotes, and at most [k] delimiters in each. *)
Lemma wp_perl_scan {L : Type} `{HS : TSLexerSpec L} `{!WCType} (valid : TokenType → bool) (k : Z) n v y (s : LexerState) :
  inv (valid TOKEN_QUOTELIKE_MIDDLE_SKIP) k s → 0 ≤ k →
  (S (rem v) < n)%nat → k + Z.of_nat (rem v) + 2 ≤ 2147483647 →
  wp (tree_sitter_perl_external_scanner_scan valid) n v y s
    (λ _ v' _ s', advanced v v' ∧ inv false (k + Z.of_nat (rem v) + 2) s').
Proof.
  intros Hs Hk Hn Hmax. set (N := Z.of_nat (rem v)) in *. unfold tree_sitter_perl_external_scanner_scan. wps.
  eapply wp_mono; [apply (run_scan valid k N Hk ltac:(lia) Hmax); [done|lia|by apply inv_recovery]|].
  intros r v' y' s' [Ha Hs']. wps. split; [done|]. destruct r; [done|]. eapply inv_le; [done|lia].
Qed.

(** C1: every call of the scan function ends without fault: no access outside of
    a buffer, the stack of quotes or the queue of heredocs, no overflow of a
    counter, no failed assertion, and no loop that does not end. It only moves
    forward in the input, the token lies in what was read, and the state stays
    well formed. The loop bound may be any number that exceeds what is left of
    the input by two; the quotes and what is left of the input must not exceed
    an [int], and a quote must be open where the parser asks for the middle of a
    quotelike. *)
Theorem perl_scan_total {L : Type} `{TSLexerSpec L} `{!WCType} (valid : TokenType → bool) (k : Z)
    (n : nat) (l : L) (y : Z) (s : LexerState) :
  inv (valid TOKEN_QUOTELIKE_MIDDLE_SKIP) k s → 0 ≤ k →
  (S (rem (view_of l)) < n)%nat → k + Z.of_nat (rem (view_of l)) + 2 ≤ 2147483647 →
  ∃ b l' y' s', tree_sitter_perl_external_scanner_scan valid n (mkst l y s)
      = Done (b, mkst l' y' s')
    ∧ advanced (view_of l) (view_of l') ∧ inv false (k + Z.of_nat (rem (view_of l)) + 2) s'.
Proof.
  intros Hs Hk Hn Hmax.
  exact (wp_run _ n l y s _ (wp_perl_scan valid k n _ y s Hs Hk Hn Hmax)).
Qed.

(** The beginning of a double quoted string, with an unclosed quote around it. *)
Lemma perl_scan_total_witness :
  ∃ b l' y' s', tree_sitter_perl_external_scanner_scan
      (λ t, bool_decide (t = TOKEN_QQ_STRING_CONTENT)) 20%nat (mkst (input (cstr "a{b}c")) 99 (deep_state 2))
      = Done (b, mkst l' y' s')
    ∧ advanced (input (cstr "a{b}c")) l' ∧ inv false 9 s'.
Proof.
  refine (perl_scan_total (λ t, bool_decide (t = TOKEN_QQ_STRING_CONTENT)) 2 20%nat
    (input (cstr "a{b}c")) 99 (deep_state 2) _ _ _ _); [|done|vm_compute; lia|done].
  exists (deep_astate 2). split_and!; [by apply deep_repr| |by vm_compute|done].
  apply Forall_replicate. by vm_compute.
Defined.
