(* ===== verification/PerlClaims.v ===== *)
(** * What the Perl scanner recognizes

    Whole calls of the scan function for the symbols the parser asks for: the
    contents and the end of a quote, and the tokens that close what is left open. *)

From S2P Require Import Prelude CArray CArrayProofs CString Scan Logic.
From S2P Require Import PerlUnicode PerlKeywords PerlIntuit PerlIntuitProofs PerlState PerlStateProofs.
From S2P Require Import Perl PerlScan PerlInvariant PerlTotal.

(** The parser asks for none but these. *)
Definition only (ts : list TokenType) (valid : TokenType → bool) : Prop :=
  ∀ t, valid t = true → t ∈ ts.

Lemma only_false ts valid t : only ts valid → bool_decide (t ∈ ts) = false → valid t = false.
Proof.
  intros Ho Ht%bool_decide_eq_false. destruct (valid t) eqn:E; [|done]. by apply Ho in E.
Qed.

(** The symbols for which the scan does something in front of the keywords. *)
Definition early_tokens : list TokenType :=
  [TOKEN_GOBBLED_CONTENT; TOKEN_FORMAT_CONTENT; TOKEN_NONASSOC; TOKEN_X_OP;
   TOKEN_HEREDOC_MIDDLE; TOKEN_NO_INTERP_WHITESPACE_ZW; TOKEN_HEREDOC_START;
   TOKEN_ATTRIBUTE_VALUE_BEGIN; TOKEN_ATTRIBUTE_VALUE; TOKEN_CTRL_Z].

Lemma only_incl ts ts' valid : forallb (λ t, bool_decide (t ∈ ts')) ts = true → only ts valid → only ts' valid.
Proof.
  intros Hts Hv t Ht%Hv. rewrite forallb_forall in Hts. apply (bool_decide_unpack _), Is_true_true, Hts.
  by apply list_elem_of_In.
Qed.

Lemma only_early ts valid : only ts valid → forallb (λ t, bool_decide (t ∉ ts)) early_tokens = true →
  Forall (λ t, valid t = false) early_tokens.
Proof.
  intros Hv Ht. apply Forall_forall. intros t Hin. rewrite forallb_forall in Ht.
  eapply only_false; [done|]. apply bool_decide_eq_false. apply (bool_decide_unpack _).
  apply Is_true_true, Ht. by apply list_elem_of_In.
Qed.

(** The symbols that the parser does not ask for. *)
Ltac drop_invalid Hv :=
  repeat match type of Hv with
  | only ?ts ?valid =>
      match goal with
      | |- context [valid ?t] => rewrite (only_false ts valid t Hv eq_refl)
      end
  end; cbn [andb orb negb].

Section scan.
Context {L : Type} {HL : TSLexer L} {HW : WCType} {HS : TSLexerSpec L}.

Lemma wp_continue {A B} (m : M L LexerState (bool + A)) (g : A → M L LexerState (bool + B)) n v y s Q :
  wp m n v y s (λ r v' y' s', match r with
    | inl b => Q (inl b) v' y' s'
    | inr a => wp (g a) n v' y' s' Q
    end) → wp (continue m g) n v y s Q.
Proof.
  intros H. unfold continue. apply wp_bind. eapply wp_mono; [exact H|].
  intros [b|a] v' y' s'; [by intros; apply wp_ret|done].
Qed.

(** A part that does nothing. *)
Lemma wp_next {A B} (a : A) (g : A → M L LexerState (bool + B)) n v y s Q :
  wp (g a) n v y s Q → wp (continue (next a) g) n v y s Q.
Proof. intros H. apply wp_continue. unfold next. by wps. Qed.

Lemma wp_skip_whitespace n v y s (Q : post (S := LexerState) unit) : (rem v < n)%nat →
  Q tt (adv_span space true v) y s → wp (L := L) skip_whitespace n v y s Q.
Proof.
  intros Hn HQ. unfold skip_whitespace.
  apply (wp_iter (λ _ v' y' s', y' = y ∧ s' = s ∧ adv_span space true v' = adv_span space true v)
    (λ _ v', rem v')); [|done..].
  intros [] v1 y1 s1 (->&->&Hv). wps.
  - assert (space (look v1) = false) as Hsp by (replace (look v1) with 0 by lia; apply stops_space).
    by rewrite adv_span_false in Hv by done; subst.
  - assert (0 < rem v1)%nat by by apply (look_class_pos space).
    rewrite rem_adv. split; [|lia]. split_and!; [done..|]. rewrite <- Hv. symmetry.
    apply adv_span_true; [lia|done].
  - rewrite adv_span_false in Hv by done. by subst.
Qed.

Lemma wp_skip_ws_to_eol n v y s (Q : post (S := LexerState) bool) : (rem v < n)%nat →
  (∀ b v', adv_span space true v' = adv_span space true v → (rem v' ≤ rem v)%nat →
     (space (look v) = false → v' = v) → Q b v' y s) →
  wp (L := L) skip_ws_to_eol n v y s Q.
Proof.
  intros Hn HQ. unfold skip_ws_to_eol.
  apply (wp_iter (λ _ v' y' s', y' = y ∧ s' = s ∧ adv_span space true v' = adv_span space true v
    ∧ (rem v' ≤ rem v)%nat ∧ (space (look v) = false → v' = v)) (λ _ v', rem v')); [|done..].
  intros [] v1 y1 s1 (->&->&Hv&Hr&Hsame). wps; try by apply HQ.
  assert (0 < rem v1)%nat by by apply (look_class_pos space).
  assert (adv_span space true (adv true v1) = adv_span space true v) as Hv'.
  { rewrite <- Hv. symmetry. apply adv_span_true; [lia|done]. }
  assert (space (look v) = false → adv true v1 = v) as Hsame'.
  { intros Hsp. specialize (Hsame Hsp). subst. congruence. }
  destruct (look v1 =? LF).
  - apply HQ; [done|rewrite rem_adv; lia|done].
  - rewrite rem_adv. split_and!; try done; lia.
Qed.

(** The parts in front of the keywords: only white space is skipped. *)
Lemma wp_scan_early valid b n v y s Q : Forall (λ t, valid t = false) early_tokens →
  (rem v < n)%nat →
  (∀ crossed, let w := adv_span space true v in
     wp (scan_token valid (look w) (space (look v)) crossed b) n w y s Q) →
  wp (scan (L := L) valid b) n v y s Q.
Proof.
  intros Hts Hn H. unfold scan. unfold early_tokens in Hts.
  assert (∀ t, valid t = false → valid t = false) as Hno by done.
  repeat match goal with Hf : Forall _ (_ :: _) |- _ => apply Forall_cons in Hf as [? ?] end.
  wp_step. wp_step. unfold scan_gobbled, scan_format, scan_operators, scan_heredoc_middle.
  rewrite !(Hno TOKEN_GOBBLED_CONTENT), !(Hno TOKEN_FORMAT_CONTENT), !(Hno TOKEN_NONASSOC),
    !(Hno TOKEN_X_OP), !(Hno TOKEN_HEREDOC_MIDDLE), !andb_false_r by done.
  do 3 apply wp_next. cbn [andb]. apply wp_continue. do 2 wp_step. unfold next. wp_step.
  unfold scan_line_start. rewrite !(Hno TOKEN_NO_INTERP_WHITESPACE_ZW), !andb_false_r by done.
  apply wp_continue. wp_step. apply wp_skip_ws_to_eol; [done|]. intros crossed v1 Hv1 Hr Hsame.
  rewrite !(Hno TOKEN_HEREDOC_START) by done. cbn [andb].
  do 4 wp_step. unfold next at 1. wp_step. unfold scan_attribute.
  rewrite !(Hno TOKEN_ATTRIBUTE_VALUE_BEGIN), !(Hno TOKEN_ATTRIBUTE_VALUE), !andb_false_r by done.
  cbn [andb]. apply wp_next. unfold scan_whitespace. rewrite !(Hno TOKEN_CTRL_Z) by done.
  apply wp_continue. wp_step. apply wp_is_whitespace. wp_step.
  destruct (space (look v)) eqn:Hsp.
  - wp_step. apply wp_skip_whitespace; [lia|]. do 3 wp_step. cbv beta iota.
    rewrite andb_false_r. unfold next. wps. rewrite Hv1. apply H.
  - wp_step. cbv beta iota. rewrite andb_false_r. unfold next. wps.
    rewrite (Hsame eq_refl). specialize (H crossed). by rewrite (adv_span_false _ _ _ Hsp) in H.
Qed.

Lemma wp_perl_scan_parts valid n v y s (Q : post (S := LexerState) bool) :
  wp (scan (L := L) valid (recovery_emitted s)) n v y (set_recovery s false)
    (λ r v' y' s', Q (match r with inl b | inr b => b end) v' y' s') →
  wp (tree_sitter_perl_external_scanner_scan valid) n v y s Q.
Proof.
  intros H. unfold tree_sitter_perl_external_scanner_scan. wps.
  eapply wp_mono; [exact H|]. intros r v' y' s' HQ. by wps.
Qed.
End scan.

(** ** What is left open *)

(** The tokens that close what is left open, in the order in which they are tried. *)
Definition recovery_order (c : Z) : list TokenType :=
  [TOKEN_RECOVER_ARROW; TOKEN_RECOVER_PAREN_CLOSE; TOKEN_RECOVER_BRACKET_CLOSE]
  ++ if c =? "}" then [] else [TOKEN_RECOVER_BRACE_CLOSE].

Section recovery.
Context {L : Type} {HL : TSLexer L} {HW : WCType} {HS : TSLexerSpec L}.

Lemma wp_recovery_token {A} t n v y s (Q : post (S := LexerState) (bool + A)) :
  Q (inl true) v (TokenType_to_Z t) (set_recovery s true) →
  wp (L := L) (bind get_payload (λ s, bind (set_payload (set_recovery s true)) (λ _, token t))) n v y s Q.
Proof. intros HQ. by wps. Qed.

Lemma wp_scan_boundary valid c n v y s (Q : post (S := LexerState) (bool + unit)) :
  valid TOKEN_ERROR = false → c = "}" ∨ c = ";" ∨ at_eof v = true →
  match find valid (recovery_order c) with
  | Some t => Q (inl true) v (TokenType_to_Z t) (set_recovery s true)
  | None =>
      if valid PERLY_SEMICOLON && ((c =? "}") || at_eof v) && negb (valid TOKEN_BRACE_END_ZW)
      then Q (inl true) v (TokenType_to_Z PERLY_SEMICOLON) s
      else Q (if at_eof v then inl false else inr tt) v y s
  end → wp (L := L) (scan_boundary valid c) n v y s Q.
Proof.
  intros Herr Hc HQ. unfold scan_boundary. do 2 wp_step. rewrite Herr. cbn [negb andb orb].
  replace ((c =? "}") || (c =? ";") || at_eof v) with true
    by (symmetry; destruct Hc as [->|[->| ->]]; [done|done|by rewrite orb_true_r]).
  apply wp_continue. unfold EMIT_RECOVERY_TOKENS, recovery_token.
  unfold recovery_order in HQ. cbn [app find] in HQ.
  destruct (valid TOKEN_RECOVER_ARROW); [by apply wp_recovery_token|].
  destruct (valid TOKEN_RECOVER_PAREN_CLOSE); [by apply wp_recovery_token|].
  destruct (valid TOKEN_RECOVER_BRACKET_CLOSE); [by apply wp_recovery_token|].
  assert (find valid (if c =? "}" then [] else [TOKEN_RECOVER_BRACE_CLOSE])
    = if negb (c =? "}") && valid TOKEN_RECOVER_BRACE_CLOSE then Some TOKEN_RECOVER_BRACE_CLOSE else None)
    as Hf by (destruct (c =? "}"); [done|by cbn; destruct (valid _)]).
  rewrite Hf in HQ. clear Hf. destruct (_ && valid TOKEN_RECOVER_BRACE_CLOSE);
    [by apply wp_recovery_token|].
  unfold next at 1. wp_step. destruct (_ && _); [by wps|]. destruct (at_eof v); by wps.
Qed.

(** No contextual keyword begins with another letter. *)
Lemma wp_no_contextual {B} valid c b1 b2 (g : unit → M L LexerState (bool + B)) n v y s Q :
  existsb (Z.eqb c) (cstr "crmat") = false → wp (g tt) n v y s Q →
  wp (continue (scan_contextual valid c b1 b2) g) n v y s Q.
Proof.
  intros Hc H. unfold scan_contextual. cbv zeta. change (cstr "crmat") with [99; 114; 109; 97; 116] in Hc.
  cbn [existsb] in Hc. rewrite !orb_false_iff in Hc.
  destruct Hc as (H1&H2&H3&H4&H5&_). rewrite H1, H2, H3, H4, H5. cbn [orb].
  rewrite !andb_false_r. by apply wp_next.
Qed.

(** A run whose result is known. *)
Lemma wp_exact {A} (m : M L LexerState A) n l y s a w y' s' :
  wp m n (view_of l) y s (λ b v' t s'', b = a ∧ v' = w ∧ t = y' ∧ s'' = s') →
  ∃ l', m n (mkst l y s) = Done (a, mkst l' y' s') ∧ view_of l' = w.
Proof. intros (b&l'&t&s2&Hrun&->&Hv&->&->)%wp_run. by exists l'. Qed.
End recovery.


Definition among (ts : list TokenType) (t : TokenType) : bool := bool_decide (t ∈ ts).

Lemma only_among ts ts' : forallb (λ t, bool_decide (t ∈ ts')) ts = true → only ts' (among ts).
Proof.
  intros Hts. apply (only_incl ts); [done|]. intros t Ht. by apply bool_decide_eq_true in Ht.
Qed.

(** Two brackets are open in front of a brace: first the parenthesis is closed. *)
Definition recovery_example : list TokenType :=
  [TOKEN_RECOVER_PAREN_CLOSE; TOKEN_RECOVER_BRACKET_CLOSE; PERLY_SEMICOLON].


(** ** The contents of a quote *)

(** What a character does to the nesting depth in a quote; it may end it. *)
Definition step_depth (q : TSPQuote) (d x : Z) : option Z :=
  if opens x q then Some (d + 1)
  else if closes x q then if d =? 0 then None else Some (d - 1)
  else Some d.

Fixpoint nested (q : TSPQuote) (d : Z) (text : list Z) : option Z :=
  match text with
  | [] => Some d
  | x :: text => d' ← step_depth q d x; nested q d' text
  end.

(** A character of the contents that is no escape, and no delimiter of an outer quote. *)
Definition ordinary (is_qq : bool) (outer : list TSPQuote) (q : TSPQuote) (x : Z) : Prop :=
  x ≠ 0 ∧ x ≠ BACKSLASH ∧ Forall (λ r, opens x r = false ∧ closes x r = false) outer
  ∧ (opens x q || closes x q || negb (is_qq && is_interpolation_escape x)) = true.

#[export] Instance ordinary_dec is_qq outer q x : Decision (ordinary is_qq outer q x).
Proof. unfold ordinary. apply _. Defined.

Lemma last_index_top p l q : Forall (λ r, p r = false) l →
  last_index p (l ++ [q]) = if p q then S (List.length l) else 0%nat.
Proof. intros Hl. rewrite last_index_snoc. destruct (p q); [done|]. by apply last_index_none. Qed.

Lemma content_char_top is_qq outer q d x s a : state_repr s a → a_quotes a = outer ++ [set_count q d] →
  0 ≤ d < 2147483647 → ordinary is_qq outer q x →
  match step_depth q d x with
  | Some d' => ∃ s', content_char is_qq x s = Done (Some s')
      ∧ state_repr s' (with_quotes a (outer ++ [set_count q d']))
  | None => content_char is_qq x s = Done None
  end.
Proof.
  intros Hs Ha Hd (H0&Hb&Hout&Hesc). unfold content_char.
  replace (x =? BACKSLASH) with false by lia. rewrite (quote_opener_repr s a x Hs), Ha.
  rewrite last_index_top by (eapply Forall_impl; [exact Hout|by intros ? []]).
  change (opens x (set_count q d)) with (opens x q). unfold step_depth.
  destruct (opens x q) eqn:Ho; cbn [obind].
  - replace (negb _) with true by lia.
    destruct (saw_opener_repr s a outer (set_count q d) [] Hs Ha ltac:(cbn; lia)) as (s'&->&Hs').
    by exists s'.
  - change (negb (Z.of_nat 0 =? 0)) with false. cbv iota. rewrite (quote_closer_repr s a x Hs), Ha.
    rewrite last_index_top by (eapply Forall_impl; [exact Hout|by intros ? []]).
    change (closes x (set_count q d)) with (closes x q). destruct (closes x q) eqn:Hc; cbn [obind].
    + replace (negb _) with true by lia. rewrite (quote_closed_repr s a outer _ [] Hs Ha). cbn [obind].
      change (count (set_count q d)) with d. destruct (d =? 0) eqn:Hd0; [done|].
      destruct (saw_closer_repr s a outer (set_count q d) [] Hs Ha ltac:(cbn; lia)) as (s'&->&Hs').
      by exists s'.
    + change (negb (Z.of_nat 0 =? 0)) with false. cbv iota. cbn in Hesc.
      apply negb_true_iff in Hesc. rewrite Hesc. exists s. split; [done|].
      rewrite <- Ha. by destruct a.
Qed.

Lemma step_depth_range q d x d' : step_depth q d x = Some d' → 0 ≤ d → 0 ≤ d' ≤ d + 1.
Proof. unfold step_depth. repeat case_match; intros; simplify_eq; lia. Qed.

(** With the scan at the head of [text ++ x :: rest]. *)
Lemma rest_at_n v text x rest k : v_rest v = text ++ x :: rest → (k ≤ List.length text)%nat →
  look (adv_n false k v) = nth k (text ++ [x]) 0 ∧ rem (adv_n false k v) = (List.length (text ++ x :: rest) - k)%nat.
Proof.
  intros Hv Hk. rewrite look_adv_n. unfold rem. rewrite rest_adv_n, length_drop, Hv. split; [|done].
  destruct (decide (k < List.length text)%nat); [by rewrite !app_nth1 by lia|].
  rewrite !app_nth2 by lia. by replace (k - _)%nat with 0%nat by lia.
Qed.

(** The symbols of the parts behind the escapes. *)
Definition late_symbols : list TokenType :=
  [TOKEN_Q_STRING_CONTENT; TOKEN_QQ_STRING_CONTENT; TOKEN_ESCAPE_SEQUENCE; TOKEN_ESCAPED_DELIMITER;
   TOKEN_QUOTELIKE_MIDDLE_CLOSE; TOKEN_QUOTELIKE_END; TOKEN_QUOTELIKE_END_ZW; TOKEN_PROTOTYPE;
   TOKEN_SIGNATURE_START; TOKEN_FILETEST; TOKEN_BRACE_AUTOQUOTED; TOKEN_FAT_COMMA_AUTOQUOTED].

(** What the parser asks for in a quote. *)
Definition quote_symbols : list TokenType :=
  [TOKEN_Q_STRING_CONTENT; TOKEN_QQ_STRING_CONTENT; TOKEN_ESCAPE_SEQUENCE; TOKEN_ESCAPED_DELIMITER;
   TOKEN_QUOTELIKE_END].

Section content.
Context {L : Type} {HL : TSLexer L} {HW : WCType} {HS : TSLexerSpec L}.

Lemma wp_content_loop is_qq outer q text x rest n v y s a (Q : post (S := LexerState) bool) :
  state_repr s a → a_quotes a = outer ++ [set_count q 0] →
  v_rest v = text ++ x :: rest → (rem v < n)%nat → Z.of_nat (List.length text) < 2147483647 →
  nested q 0 text = Some 0 → Forall (ordinary is_qq outer q) text →
  ordinary is_qq outer q x → opens x q = false → closes x q = true →
  (∀ s', state_repr s' a → (text = [] → s' = s) →
     Q (bool_decide (text ≠ [])) (adv_n false (List.length text) v) y s') →
  wp (L := L) (content_loop is_qq (look v)) n v y s Q.
Proof.
  intros Hs Ha Hv Hn Hlen Hnest Htext Hx Hopen Hclose HQ. unfold content_loop.
  apply (wp_iter (λ '(seen, c) v' y' s', y' = y ∧ c = look v' ∧ ∃ l r d, text = l ++ r
      ∧ v' = adv_n false (List.length l) v ∧ seen = bool_decide (l ≠ []) ∧ nested q d r = Some 0
      ∧ 0 ≤ d ≤ Z.of_nat (List.length l) ∧ state_repr s' (with_quotes a (outer ++ [set_count q d]))
      ∧ (l = [] → s' = s)) (λ _ v', rem v')); [| |done].
  2: { split_and!; [done..|]. exists [], text, 0. split_and!; try done. rewrite <- Ha. by destruct a. }
  intros [seen c] v1 y1 s1 (->&->&l&r&d&->&->&->&Hr&Hd&Hs1&Hsame).
  rewrite length_app in Hlen. apply Forall_app in Htext as [_ Htext].
  rewrite <- app_assoc in Hv.
  assert (look (adv_n false (List.length l) v) = hd x r
    ∧ (0 < rem (adv_n false (List.length l) v))%nat) as [Hlook Hpos].
  { rewrite look_adv_n. unfold rem. rewrite rest_adv_n, Hv, drop_app_length, app_nth2, Nat.sub_diag by lia.
    destruct r; simpl; split; (done || lia). }
  assert (ordinary is_qq outer q (hd x r)) as Hord
    by (destruct r; [done|by apply Forall_cons in Htext as [? _]]).
  rewrite Hlook. wp_step; [destruct Hord; lia|]. do 2 wp_step.
  pose proof (content_char_top is_qq outer q d (hd x r) s1 _ Hs1 eq_refl ltac:(lia) Hord) as Hstep.
  destruct r as [|z r]; cbn [hd] in *.
  - injection Hr as ->. unfold step_depth in Hstep. rewrite Hopen, Hclose in Hstep. cbn in Hstep.
    wp_step. eapply wp_lift; [exact Hstep|]. wps.
    rewrite app_nil_r in HQ. apply HQ; [|done]. rewrite <- Ha in Hs1. by destruct a.
  - cbn in Hr. destruct (step_depth q d z) as [d'|] eqn:Hd'; [|done]. cbn in Hr.
    pose proof (step_depth_range _ _ _ _ Hd' ltac:(lia)). destruct Hstep as (s2&Hc&Hs2).
    wp_step. eapply wp_lift; [exact Hc|]. unfold ADVANCE_C. wps. rewrite rem_adv. split; [|lia].
    split_and!; [done..|]. exists (l ++ [z]), r, d'. rewrite <- app_assoc, length_app, Nat.add_1_r.
    split_and!; try done; [by destruct l|lia|lia|by destruct l].
Qed.

(** The parts in front of the contents of a string. *)
Lemma wp_scan_late valid b n v y s Q :
  only late_symbols valid → space (look v) = false → look v ≠ BACKSLASH → at_eof v = false →
  (rem v < n)%nat →
  wp (_ <-? scan_string_content valid (look v);;
      _ <-? scan_middle_close valid (look v);;
      _ <-? scan_quotelike_end valid (look v);;
      _ <-? scan_prototype valid (look v);;
      _ <-? scan_filetest valid (look v);;
      _ <-? scan_brace_autoquoted valid (look v);;
      b <- scan_autoquoted valid (look v);;
      next b) n v y s Q →
  wp (scan (L := L) valid b) n v y s Q.
Proof.
  intros Hv Hsp Hb He Hn H. apply wp_scan_early; [by apply (only_early late_symbols)|done|].
  intros crossed. rewrite adv_span_false by done. set (c := look v) in *. unfold scan_token.
  unfold scan_contextual, scan_statement_keyword, any_recovery_valid, scan_angle_bracket,
    scan_dollar_ident, scan_search_slash, scan_quotes, scan_dollar_in_regexp, scan_regexp_bracket,
    scan_pod, scan_quotelike, scan_heredoc_delim, scan_middle_skip, scan_quotelike_begin, scan_boundary,
    EMIT_RECOVERY_TOKENS. cbv zeta. drop_invalid Hv. rewrite !andb_false_r. cbn [orb].
  apply wp_next, wp_continue. do 2 wp_step. rewrite He. apply wp_continue.
  assert (∀ (b : bool) (P : post (bool + unit)), P (inr tt) v y s →
    wp (if b then next tt else next tt) n v y s P) as Hnext by (intros [] P HP; unfold next; by wps).
  apply Hnext. unfold next at 1. wp_step. cbn [andb]. do 8 apply wp_next.
  apply wp_next. do 2 apply wp_next. unfold scan_escape.
  replace (look v =? BACKSLASH) with false by lia. by apply wp_next.
Qed.


(** The end of a quote. At the closing delimiter of the innermost quote, with
    no nested one open, the scan takes that delimiter as the end of the quote,
    which is the one taken off the stack; the outer quotes stay. *)
Theorem perl_quote_end (valid : TokenType → bool) (outer : list TSPQuote) (q : TSPQuote) (x : Z)
    (rest : list Z) (n : nat) (l : L) (y : Z) (s : LexerState) (a : astate) :
  only quote_symbols valid → valid TOKEN_QUOTELIKE_END = true →
  state_repr s a → a_quotes a = outer ++ [q] → count q = 0 →
  v_rest (view_of l) = x :: rest → (rem (view_of l) < n)%nat → space x = false →
  ordinary (valid TOKEN_QQ_STRING_CONTENT) outer q x → opens x q = false → closes x q = true →
  ∃ l' s', tree_sitter_perl_external_scanner_scan valid n (mkst l y s)
      = Done (true, mkst l' (TokenType_to_Z TOKEN_QUOTELIKE_END) s')
    ∧ view_of l' = adv false (view_of l)
    ∧ state_repr s' (with_quotes (with_recovery a false) outer).
Proof.
  intros Hv Hend Hs Ha Hq0 Hrest Hn Hsp Hx Ho Hc.
  assert (q = set_count q 0) as Hq by (destruct q; cbn in *; by subst).
  set (v := view_of l) in *. assert (look v = x) as Hlook by (unfold look; by rewrite Hrest).
  assert (state_repr (set_recovery s false) (with_recovery a false)) as Hs1
    by (destruct Hs as (?&?&?&?&?); by split_and!).
  assert (wp (tree_sitter_perl_external_scanner_scan valid) n v y s (λ b v' t s',
    b = true ∧ v' = adv false v ∧ t = TokenType_to_Z TOKEN_QUOTELIKE_END
    ∧ state_repr s' (with_quotes (with_recovery a false) outer))) as Hwp.
  { apply wp_perl_scan_parts, wp_scan_late;
      [by apply (only_incl quote_symbols)|by rewrite Hlook|rewrite Hlook; apply Hx|unfold at_eof; by rewrite Hrest|done|].
    apply wp_continue.
    assert (∀ s1 (P : post (bool + unit)), state_repr s1 (with_recovery a false) →
      (∀ s2, state_repr s2 (with_recovery a false) → P (inr tt) v y s2) →
      wp (scan_string_content valid (look v)) n v y s1 P) as Hcontent.
    { intros s1 P Hs2 HP. unfold scan_string_content. destruct (_ || _); [|unfold next; wps; by apply HP].
      cbv zeta. wp_step.
      apply (wp_content_loop _ outer q [] x rest _ _ _ _ (with_recovery a false)); try done.
      { by rewrite <- Hq. }
      intros s2 Hs3 _. cbn. unfold next. wps. by apply HP. }
    apply Hcontent; [done|]. intros s2 Hs2. unfold scan_middle_close. drop_invalid Hv. apply wp_next.
    apply wp_continue. unfold scan_quotelike_end, ask. rewrite Hend. drop_invalid Hv.
    do 3 wp_step. rewrite Hlook. eapply wp_lift; [by apply quote_closer_repr|].
    cbn [a_quotes with_recovery]. rewrite Ha, last_index_top.
    2: { destruct Hx as (_&_&Hout&_). eapply Forall_impl; [exact Hout|by intros ? []]. }
    rewrite Hc. replace (negb _) with true by lia. wps.
    destruct (pop_quote_repr s2 (with_recovery a false) outer q [] Hs2 Ha) as (s3&Hp&Hs3).
    eapply wp_modify; [exact Hp|]. wps. rewrite app_nil_r in Hs3. by split_and!. }
  apply wp_run in Hwp as (b&l'&t&s'&Hrun&->&Hv'&->&Hs'). by exists l', s'.
Qed.
End content.

(** In [qq{a{b}c}], inside of another quote: the contents, and the end. *)
Definition brace_quotes : astate := mkA [quote_of "/"; quote_of "{"] [] 0 false.
Definition brace_state : LexerState :=
  mkState (mkArray (Some <$> a_quotes brace_quotes) 2 2) (replicate 8 entry_zero) 0 0 false.

Lemma brace_repr : state_repr brace_state brace_quotes.
Proof. split_and!; try done; [by exists []|]. by exists (replicate 8 entry_zero). Qed.


Lemma perl_quote_end_witness :
  ∃ l' s', tree_sitter_perl_external_scanner_scan (among [TOKEN_QUOTELIKE_END]) 10%nat
      (mkst (input (cstr "} ")) 99 brace_state)
      = Done (true, mkst l' (TokenType_to_Z TOKEN_QUOTELIKE_END) s')
    ∧ view_of l' = adv false (input (cstr "} ")) ∧ state_repr s' (mkA [quote_of "/"] [] 0 false).
Proof.
  refine (perl_quote_end (among [TOKEN_QUOTELIKE_END]) [quote_of "/"] (quote_of "{")
    "}" (cstr " ") 10%nat (input (cstr "} ")) 99 brace_state brace_quotes _ _ _ _ _ _ _ _ _ _ _).
  1: by apply only_among.
  all: try done; try apply brace_repr; try (vm_compute; lia);
    apply (bool_decide_unpack _); by vm_compute.
Defined.
