(* ===== verification/PerlHeredoc.v ===== *)
(** * Heredocs of the Perl scanner

    The body of a heredoc, line by line, up to the line that is its delimiter,
    and that line. Of a delimiter the scanner keeps the length and the first
    eight characters. *)

From S2P Require Import Prelude CArray CArrayProofs CString Scan Logic.
From S2P Require Import PerlUnicode PerlKeywords PerlIntuit PerlIntuitProofs PerlState PerlStateProofs.
From S2P Require Import Perl PerlScan PerlInvariant PerlTotal PerlClaims.

(** ** Strings of which the first characters are kept *)

(** [s] is what is kept of the characters [w]. *)
Definition string_repr (s : TSPString) (w : list Z) : Prop :=
  length s = Z.of_nat (List.length w) ∧ List.length (contents s) = 8%nat
  ∧ take (List.length w) (contents s) = take 8 w.

(** The strings that the scanner cannot tell apart. *)
Definition same_string (w1 w2 : list Z) : Prop :=
  List.length w1 = List.length w2 ∧ take 8 w1 = take 8 w2.
#[export] Instance same_string_dec w1 w2 : Decision (same_string w1 w2).
Proof. unfold same_string. apply _. Defined.

Lemma string_repr_reset s w : string_repr s w → string_repr (tspstring_reset s) [].
Proof. intros (_&?&_). by split_and!. Qed.

Lemma string_repr_zero : string_repr tspstring_zero [].
Proof. done. Qed.

Lemma string_repr_push s w c : string_repr s w → Z.of_nat (List.length w) < 2147483647 →
  ∃ s', tspstring_push s c = Done s' ∧ string_repr s' (w ++ [c]).
Proof.
  intros (Hl&H8&Ht) Hw. unfold tspstring_push. rewrite i32_incr_small by lia. cbn [obind].
  eexists. split; [done|]. unfold string_repr. cbn [length contents]. rewrite Hl, length_app. cbn [List.length].
  unfold MAX_TSPSTRING_LEN. destruct (_ <? 8) eqn:E.
  - rewrite Nat2Z.id, length_insert. split_and!; [lia|done|].
    rewrite (take_ge (w ++ [c])) by (rewrite length_app; simpl; lia).
    rewrite (take_ge w) in Ht by lia. rewrite Nat.add_1_r.
    rewrite (take_S_r _ _ c) by (rewrite list_lookup_insert; rewrite ?decide_True by lia; done).
    by rewrite take_insert, decide_False, Ht by lia.
  - split_and!; [lia|done|]. rewrite take_app_le by lia.
    rewrite !(take_ge (contents s)) in * by lia. done.
Qed.

Lemma string_repr_eq s1 s2 w1 w2 : string_repr s1 w1 → string_repr s2 w2 →
  tspstring_eq s1 s2 = bool_decide (same_string w1 w2).
Proof.
  intros (Hl1&H81&Ht1) (Hl2&H82&Ht2). unfold tspstring_eq. rewrite Hl1, Hl2.
  destruct (Z.of_nat (List.length w1) =? Z.of_nat (List.length w2)) eqn:E; cbn [negb].
  2: { symmetry. apply bool_decide_eq_false. intros [? _]. lia. }
  assert (List.length w1 = List.length w2) as Hl by lia.
  assert (∀ s w, List.length (contents s) = 8%nat → List.length w = List.length w1 →
    take (List.length w) (contents s) = take 8 w →
    take (Z.to_nat (if Z.of_nat (List.length w1) <? MAX_TSPSTRING_LEN then Z.of_nat (List.length w1)
      else MAX_TSPSTRING_LEN)) (contents s) = take 8 w) as Hmax.
  { intros s w H8 Hw Ht. unfold MAX_TSPSTRING_LEN. destruct (_ <? 8) eqn:E8.
    - by rewrite Nat2Z.id, <- Hw.
    - rewrite <- Ht. rewrite !take_ge by lia. done. }
  rewrite (Hmax s1 w1), (Hmax s2 w2) by done. apply bool_decide_ext. unfold same_string. by split; [|intros [_ ?]].
Qed.

(** ** Lines *)

(** A line without line ends. *)
Definition plain_line (w : list Z) : Prop := Forall (λ c, c ≠ LF ∧ c ≠ CR) w.

#[export] Instance plain_line_dec w : Decision (plain_line w).
Proof. unfold plain_line. apply _. Defined.

Definition is_escape (c : Z) : bool := (c =? "$") || (c =? "@") || (c =? BACKSLASH).

(** Behind a line: the end of the input, or a line feed. *)
Definition line_end (tail : list Z) : Prop := tail = [] ∨ ∃ tail', tail = LF :: tail'.

Section lines.
Context {L : Type} {HL : TSLexer L} {HW : WCType} {HS : TSLexerSpec L}.

Lemma wp_read_line line w tail n v y s (Q : post (S := LexerState) (TSPString * bool * Z)) :
  string_repr line [] → v_rest v = w ++ tail → plain_line w → line_end tail →
  (rem v < n)%nat → Z.of_nat (rem v) < 2147483647 →
  (∀ line', string_repr line' w →
     Q (line', existsb is_escape w, hd 0 tail) (adv_n false (List.length w) v) y s) →
  wp (L := L) (read_line line (look v)) n v y s Q.
Proof.
  intros Hline Hv Hw Ht Hn Hmax HQ. unfold read_line.
  apply (wp_iter (λ '(line', saw, c) v' y' s', y' = y ∧ s' = s ∧ c = look v' ∧ ∃ l r, w = l ++ r
      ∧ v' = adv_n false (List.length l) v ∧ saw = existsb is_escape l ∧ string_repr line' l)
    (λ _ v', rem v')); [| |done].
  2: { split_and!; [done..|]. exists [], w. by split_and!. }
  intros [[line1 saw] c] v1 y1 s1 (->&->&->&l&r&->&->&->&Hline1).
  apply Forall_app in Hw as [_ Hr]. rewrite <- app_assoc in Hv.
  assert (v_rest (adv_n false (List.length l) v) = r ++ tail) as Hrest
    by by rewrite rest_adv_n, Hv, drop_app_length.
  assert (Z.of_nat (List.length l) < 2147483647)
    by (unfold rem in *; rewrite Hv, length_app in *; lia).
  set (v1 := adv_n false (List.length l) v) in *.
  assert (look v1 = hd 0 (r ++ tail)) as Hlook by (unfold look; by rewrite Hrest).
  destruct r as [|x r].
  - assert (wp (until LF (look v1)) n v1 y s (λ b v' y' s', b = false ∧ v' = v1 ∧ y' = y ∧ s' = s)) as Hu.
    { unfold until, not_eof. rewrite Hlook. destruct Ht as [->|[tail' ->]]; [|by wps].
      change (hd 0 ([] ++ []) =? LF) with false. cbv iota. do 3 wp_step. unfold at_eof. by rewrite Hrest. }
    wp_step. eapply wp_mono; [exact Hu|]. intros b v' y' s' (->&->&->&->). wps.
    rewrite Hlook, app_nil_r in *. by apply HQ.
  - apply Forall_cons in Hr as [[Hlf Hcr] _]. cbn in Hlook. unfold until, not_eof. rewrite Hlook.
    replace (x =? LF) with false by lia. replace (x =? CR) with false by lia.
    do 4 wp_step. unfold at_eof. rewrite Hrest. cbn [app negb]. wps.
    destruct (string_repr_push line1 l x Hline1 ltac:(lia)) as (line2&Hp&Hline2).
    eapply wp_lift; [exact Hp|]. unfold ADVANCE_C. wps. rewrite rem_adv.
    assert (0 < rem v1)%nat by (unfold rem; rewrite Hrest; simpl; lia).
    split; [|lia]. split_and!; [done..|]. exists (l ++ [x]), r.
    rewrite <- app_assoc, length_app, Nat.add_1_r, existsb_app. split_and!; try done.
    cbn [existsb]. unfold is_escape at 3.
    by destruct (existsb is_escape l), (x =? "$"), (x =? "@"), (x =? BACKSLASH).
Qed.

(** ** The body *)

(** A line of the body: not the delimiter, and without a place where an
    interpolation may begin. *)
Definition body_line (interp : bool) (dw w : list Z) : Prop :=
  plain_line w ∧ ¬ same_string w dw ∧ interp && existsb is_escape w = false.

#[export] Instance body_line_dec interp dw w : Decision (body_line interp dw w).
Proof. unfold body_line. apply _. Defined.

Definition body (lines : list (list Z)) : list Z := concat ((λ w, w ++ [LF]) <$> lines).

Lemma body_cons w lines : body (w :: lines) = w ++ LF :: body lines.
Proof. unfold body. cbn. by rewrite <- app_assoc. Qed.

Lemma body_snoc lines w : body (lines ++ [w]) = body lines ++ w ++ [LF].
Proof. unfold body. rewrite fmap_app, concat_app. cbn. by rewrite app_nil_r. Qed.

(** Behind a line and its end. *)
Lemma view_next_line v w r : v_rest v = w ++ LF :: r →
  let v' := adv false (adv_n false (List.length w) v) in
  v_rest v' = r ∧ v_pos v' = (v_pos v + List.length (w ++ [LF]))%nat ∧ column (v_past v') = 0%nat
  ∧ v_start v' = v_start v.
Proof.
  intros Hv v'. set (u := adv_n false (List.length w) v) in *.
  assert (v_rest u = LF :: r) as Hu by (unfold u; by rewrite rest_adv_n, Hv, drop_app_length).
  assert (v_pos u = v_pos v + List.length w)%nat as Hp.
  { apply v_pos_adv_n. unfold rem. rewrite Hv, length_app. lia. }
  assert (v_start u = v_start v) as Hs by apply v_start_adv_n.
  assert (0 < rem u)%nat by (unfold rem; rewrite Hu; simpl; lia).
  subst v'. split_and!.
  - by rewrite rest_adv, Hu.
  - rewrite v_pos_adv, Hp, length_app by done. cbn [List.length]. lia.
  - unfold adv. by rewrite Hu.
  - rewrite <- Hs. unfold adv. by rewrite Hu.
Qed.

Lemma wp_heredoc_body front dw lines dl tail n v y s (Q : post (S := LexerState) (bool + Z)) :
  string_repr (delim front) dw → indents front = false → Forall (body_line (interpolates front) dw) lines →
  plain_line dl → same_string dl dw → line_end tail → dl ++ tail ≠ [] →
  v_rest v = body lines ++ dl ++ tail → column (v_past v) = 0%nat →
  (rem v < n)%nat → Z.of_nat (rem v) < 2147483647 → heredoc_state s ≠ HEREDOC_END →
  (∀ v', advanced v v' → v_start v' = v_start v →
     v_end v' = Some (v_pos v + List.length (body lines))%nat →
     Q (inl true) v' (TokenType_to_Z TOKEN_HEREDOC_MIDDLE) (set_heredoc_state s HEREDOC_END)) →
  wp (L := L) (iter (heredoc_line front) (tspstring_zero, look v)) n v y s Q.
Proof.
  intros Hd Hind Hlines Hdl Hsame Htail Hne Hv Hcol Hn Hmax Hend HQ.
  apply (wp_iter (λ '(line, c) v' y' s', y' = y ∧ s' = s ∧ c = look v' ∧ ∃ l r w, lines = l ++ r
      ∧ advanced v v' ∧ v_start v' = v_start v ∧ v_pos v' = (v_pos v + List.length (body l))%nat
      ∧ v_rest v' = body r ++ dl ++ tail ∧ column (v_past v') = 0%nat ∧ string_repr line w)
    (λ _ v', rem v')); [| |done].
  2: { split_and!; [done..|]. exists [], lines, []. split_and!; try done. }
  intros [line c] v1 y1 s1 (->&->&->&l&r&w0&->&Ha&Hstart&Hpos&Hrest&Hcol1&Hline).
  apply Forall_app in Hlines as [_ Hr]. pose proof (advanced_rem _ _ Ha).
  unfold heredoc_line. wp_step. wp_step.
  assert (at_eof v1 = false) as ->.
  { unfold at_eof. rewrite Hrest. destruct r as [|[|??] r]; try done. simpl. by destruct (dl ++ tail). }
  do 4 wp_step. cbv zeta. rewrite Hcol1, Hind, orb_true_r. cbn [andb]. do 5 wp_step.
  set (w := match r with [] => dl | w :: _ => w end).
  set (rest := match r with [] => tail | _ :: r => LF :: body r ++ dl ++ tail end).
  assert (v_rest (mark v1) = w ++ rest) as Hw.
  { rewrite rest_mark, Hrest. unfold w, rest. destruct r; [done|]. rewrite body_cons.
    by rewrite <- app_assoc. }
  rewrite <- (look_mark v1). apply (wp_read_line _ w rest).
  { by eapply string_repr_reset. }
  { done. }
  { unfold w. destruct r; [done|]. by apply Forall_cons in Hr as [[? _] _]. }
  { unfold rest. destruct r; [done|]. right. by eexists. }
  { rewrite rem_mark. lia. }
  { rewrite rem_mark. lia. }
  intros line' Hline'. cbv beta iota. rewrite (string_repr_eq _ _ _ _ Hline' Hd). cbn [andb].
  subst w rest. destruct r as [|w' r]; cbv beta iota in Hw, Hline' |- *.
  - rewrite bool_decide_true by done.
    replace (heredoc_state s =? HEREDOC_END) with false by lia. cbn [negb]. wps.
    rewrite app_nil_r in HQ. apply HQ.
    + etrans; [exact Ha|]. etrans; [apply advanced_mark|apply advanced_adv_n].
    + by rewrite v_start_adv_n.
    + rewrite v_end_adv_n, v_end_mark. by rewrite Hpos.
  - apply Forall_cons in Hr as [(_&Hno&Hesc) _]. rewrite bool_decide_false by done.
    rewrite andb_comm in Hesc. rewrite Hesc. unfold ADVANCE_C. wps.
    destruct (view_next_line (mark v1) w' _ Hw) as (Hrest'&Hpos'&Hcol'&Hstart').
    split.
    + split_and!; [done..|]. exists (l ++ [w']), r, w'. rewrite <- app_assoc.
      split_and!; try done.
      * etrans; [exact Ha|]. etrans; [apply advanced_mark|]. etrans; [apply advanced_adv_n|apply advanced_adv].
      * by rewrite Hstart'.
      * rewrite Hpos', body_snoc, !length_app. change (v_pos (mark v1)) with (v_pos v1). lia.
    + unfold rem. rewrite Hrest', Hrest, body_cons, !length_app. simpl. lia.
Qed.

(** ** The line of the delimiter *)

Lemma wp_heredoc_delimiter front dw dl tail n v y s s2 (Q : post (S := LexerState) (bool + Z)) :
  string_repr (delim front) dw → indents front = false →
  plain_line dl → same_string dl dw → line_end tail → dl ++ tail ≠ [] → v_rest v = dl ++ tail →
  (rem v < n)%nat → Z.of_nat (rem v) < 2147483647 → heredoc_state s = HEREDOC_END →
  lexerstate_finish_heredoc s = Done s2 →
  (let v' := mark (adv_n false (List.length dl) (mark v)) in
   Q (inl true) v' (TokenType_to_Z TOKEN_HEREDOC_END) s2) →
  wp (L := L) (iter (heredoc_line front) (tspstring_zero, look v)) n v y s Q.
Proof.
  intros Hd Hind Hdl Hsame Htail Hne Hv Hn Hmax Hend Hfin HQ.
  apply (wp_iter (λ '(line, c) v' y' s', y' = y ∧ s' = s ∧ c = look v' ∧ v' = v ∧ string_repr line [])
    (λ _ v', rem v')); [|by split_and!|done].
  intros [line c] v1 y1 s1 (->&->&->&->&Hline). unfold heredoc_line. wp_step. wp_step.
  assert (at_eof v = false) as -> by (unfold at_eof; rewrite Hv; by destruct (dl ++ tail)).
  do 4 wp_step. cbv zeta. rewrite Hend, Hind, Z.eqb_refl. cbn [orb andb]. do 5 wp_step.
  rewrite <- (look_mark v). apply (wp_read_line _ dl tail); try done; [by eapply string_repr_reset|].
  intros line' Hline'. cbv beta iota. rewrite (string_repr_eq _ _ _ _ Hline' Hd).
  rewrite bool_decide_true by done. cbn [negb andb]. wps.
  eapply wp_modify; [exact Hfin|]. wps. exact HQ.
Qed.

(** The parts in front of the heredocs. *)
Lemma wp_scan_heredoc valid b e hs n v y s a Q :
  Forall (λ t, valid t = false) [TOKEN_ERROR; TOKEN_GOBBLED_CONTENT; TOKEN_FORMAT_CONTENT;
    TOKEN_NONASSOC; TOKEN_X_OP] → valid TOKEN_HEREDOC_MIDDLE = true →
  state_repr s a → a_heredocs a = e :: hs → a_state a ≠ HEREDOC_CONTINUE →
  wp (iter (heredoc_line e) (tspstring_zero, look v)) n v y s (λ r v' y' s',
    match r with inl b => Q (inl b) v' y' s' | inr _ => False end) →
  wp (scan (L := L) valid b) n v y s Q.
Proof.
  intros Hts Hmid Hs Ha Hst H. unfold scan.
  assert (∀ t, valid t = false → valid t = false) as Hno by done.
  repeat match goal with Hf : Forall _ (_ :: _) |- _ => apply Forall_cons in Hf as [? ?] end.
  wp_step. wp_step. unfold scan_gobbled, scan_format, scan_operators, scan_heredoc_middle.
  rewrite !(Hno TOKEN_GOBBLED_CONTENT), !(Hno TOKEN_FORMAT_CONTENT), !(Hno TOKEN_NONASSOC),
    !(Hno TOKEN_X_OP), !(Hno TOKEN_ERROR), Hmid, !andb_false_r by done.
  do 3 apply wp_next. apply wp_continue. do 2 wp_step.
  pose proof Hs as (_&_&Hn&Hst'&_). rewrite Hn, Ha. cbn [List.length andb negb].
  replace (0 <? _) with true by lia. wp_step.
  eapply wp_lift; [by eapply front_heredoc_repr|].
  rewrite Hst'. replace (a_state a =? HEREDOC_CONTINUE) with false by lia. cbn [negb].
  eapply wp_mono; [exact H|]. by intros [|] v' y' s'.
Qed.

(** The body of a heredoc. From the beginning of a line, the scan takes all
    lines up to the first one that is the delimiter of the oldest announced
    heredoc, which is compared by its length and first eight characters, as one
    token, the line feeds included; the delimiter is next. *)
Lemma perl_heredoc_body (valid : TokenType → bool) (e : HeredocEntry) (hs : list HeredocEntry)
    (dw dl tail : list Z) (lines : list (list Z)) (n : nat) (l : L) (y : Z) (s : LexerState) (a : astate) :
  Forall (λ t, valid t = false) [TOKEN_ERROR; TOKEN_GOBBLED_CONTENT; TOKEN_FORMAT_CONTENT;
    TOKEN_NONASSOC; TOKEN_X_OP] → valid TOKEN_HEREDOC_MIDDLE = true →
  state_repr s a → a_heredocs a = e :: hs → a_state a ≠ HEREDOC_CONTINUE → a_state a ≠ HEREDOC_END →
  string_repr (delim e) dw → indents e = false → Forall (body_line (interpolates e) dw) lines →
  plain_line dl → same_string dl dw → line_end tail → dl ++ tail ≠ [] →
  let v := view_of l in
  v_rest v = body lines ++ dl ++ tail → column (v_past v) = 0%nat → v_start v = v_pos v →
  (rem v < n)%nat → Z.of_nat (rem v) < 2147483647 →
  ∃ l' s', tree_sitter_perl_external_scanner_scan valid n (mkst l y s)
      = Done (true, mkst l' (TokenType_to_Z TOKEN_HEREDOC_MIDDLE) s')
    ∧ token_text (view_of l') = body lines
    ∧ text (view_of l') = text v ∧ token_end (view_of l') = (v_pos v + List.length (body lines))%nat
    ∧ state_repr s' (with_recovery (with_state a HEREDOC_END) false).
Proof.
  intros Hts Hmid Hs Ha Hc He Hd Hind Hlines Hdl Hsame Htail Hne v Hv Hcol Hstart Hn Hmax.
  assert (state_repr (set_recovery s false) (with_recovery a false)) as Hs1
    by (destruct Hs as (?&?&?&?&?); by split_and!).
  assert (wp (tree_sitter_perl_external_scanner_scan valid) n v y s (λ b v' t s',
    b = true ∧ (token_text v' = body lines ∧ text v' = text v
      ∧ token_end v' = (v_pos v + List.length (body lines))%nat) ∧ t = TokenType_to_Z TOKEN_HEREDOC_MIDDLE
    ∧ state_repr s' (with_recovery (with_state a HEREDOC_END) false))) as Hwp.
  { eapply wp_perl_scan_parts, wp_scan_heredoc; [done..|]. eapply wp_heredoc_body; try done.
    { destruct Hs as (_&_&_&Hst&_). cbn. by rewrite Hst. }
    intros v' (Ht&_) Hst Hend. split_and!; [done| |done|unfold token_end; by rewrite Hend|done|].
    - rewrite (token_text_split v v' (List.length (body lines))), Hv, take_app_length;
        [done|by rewrite Hst|unfold token_end; by rewrite Hend|done].
    - destruct Hs1 as (?&?&?&?&?). by split_and!. }
  apply wp_run in Hwp as (b&l'&t&s'&Hrun&->&(?&?&?)&->&?). by exists l', s'.
Qed.

(** The end of a heredoc. Behind the body the scan takes the delimiter, as
    it stands in the text, and takes the heredoc off the queue; the next one
    begins then, if another was announced on the same line. *)
Lemma perl_heredoc_end (valid : TokenType → bool) (e : HeredocEntry) (hs : list HeredocEntry)
    (dw dl tail : list Z) (n : nat) (l : L) (y : Z) (s : LexerState) (a : astate) :
  Forall (λ t, valid t = false) [TOKEN_ERROR; TOKEN_GOBBLED_CONTENT; TOKEN_FORMAT_CONTENT;
    TOKEN_NONASSOC; TOKEN_X_OP] → valid TOKEN_HEREDOC_MIDDLE = true →
  state_repr s a → a_heredocs a = e :: hs → a_state a = HEREDOC_END →
  string_repr (delim e) dw → indents e = false →
  plain_line dl → same_string dl dw → line_end tail → dl ++ tail ≠ [] →
  let v := view_of l in
  v_rest v = dl ++ tail → v_start v = v_pos v → (rem v < n)%nat → Z.of_nat (rem v) < 2147483647 →
  ∃ l' s', tree_sitter_perl_external_scanner_scan valid n (mkst l y s)
      = Done (true, mkst l' (TokenType_to_Z TOKEN_HEREDOC_END) s')
    ∧ token_text (view_of l') = dl
    ∧ state_repr s' (with_recovery
        (with_heredocs a hs (if decide (hs = []) then HEREDOC_NONE else HEREDOC_START)) false).
Proof.
  intros Hts Hmid Hs Ha He Hd Hind Hdl Hsame Htail Hne v Hv Hstart Hn Hmax.
  assert (state_repr (set_recovery s false) (with_recovery a false)) as Hs1
    by (destruct Hs as (?&?&?&?&?); by split_and!).
  destruct (finish_heredoc_repr _ _ e hs Hs1 Ha) as (s2&Hfin&Hs2).
  assert (wp (tree_sitter_perl_external_scanner_scan valid) n v y s (λ b v' t s',
    b = true ∧ token_text v' = dl ∧ t = TokenType_to_Z TOKEN_HEREDOC_END ∧ s' = s2)) as Hwp.
  { eapply wp_perl_scan_parts, wp_scan_heredoc; [done..|by cbn; rewrite He|].
    eapply wp_heredoc_delimiter; try done.
    { destruct Hs as (_&_&_&Hst&_). cbn. by rewrite Hst. }
    split_and!; try done. rewrite (token_text_mark (List.length dl) (mark v)); [|done|].
    - by rewrite rest_mark, Hv, take_app_length.
    - rewrite rem_mark. unfold rem. rewrite Hv, length_app. lia. }
  apply wp_run in Hwp as (b&l'&t&s'&Hrun&->&?&->&->). by exists l', s2.
Qed.
End lines.

(** A heredoc with the delimiter [EOT], after its announcement, and at its end. *)
Definition eot_entry : HeredocEntry :=
  mkEntry (mkTSPString 3 (cstr "EOT" ++ replicate 5 0)) true false.
Definition eot_astate (st : Z) : astate := mkA [] [eot_entry] st false.
Definition eot_state (st : Z) : LexerState :=
  mkState array_init (eot_entry :: replicate 7 entry_zero) 1 st false.
Definition eot_lines : list (list Z) := [cstr "some text"; []; cstr "EOTs"].

Lemma eot_repr st : state_repr (eot_state st) (eot_astate st).
Proof. split_and!; try done; [apply repr_init|]. by exists (replicate 7 entry_zero). Qed.

Lemma perl_heredoc_body_witness :
  ∃ l' s', tree_sitter_perl_external_scanner_scan (among [TOKEN_HEREDOC_MIDDLE]) 40%nat
      (mkst (input (body eot_lines ++ cstr "EOT" ++ [LF])) 99 (eot_state HEREDOC_UNKNOWN))
      = Done (true, mkst l' (TokenType_to_Z TOKEN_HEREDOC_MIDDLE) s')
    ∧ token_text l' = body eot_lines ∧ text l' = body eot_lines ++ cstr "EOT" ++ [LF]
    ∧ token_end l' = List.length (body eot_lines) ∧ state_repr s' (eot_astate HEREDOC_END).
Proof.
  refine (perl_heredoc_body (among [TOKEN_HEREDOC_MIDDLE]) eot_entry [] (cstr "EOT") (cstr "EOT") [LF]
    eot_lines 40%nat (input (body eot_lines ++ cstr "EOT" ++ [LF])) 99 (eot_state HEREDOC_UNKNOWN)
    (eot_astate HEREDOC_UNKNOWN) _ _ _ _ _ _ _ _ _ _ _ _ _ _ _ _ _ _); try done.
  - by repeat constructor.
  - apply eot_repr.
  - apply (bool_decide_unpack _). by vm_compute.
  - apply (bool_decide_unpack _). by vm_compute.
  - right. by exists [].
  - vm_compute. lia.
Defined.

Lemma perl_heredoc_end_witness :
  ∃ l' s', tree_sitter_perl_external_scanner_scan (among [TOKEN_HEREDOC_MIDDLE]) 10%nat
      (mkst (input (cstr "EOT")) 99 (eot_state HEREDOC_END))
      = Done (true, mkst l' (TokenType_to_Z TOKEN_HEREDOC_END) s')
    ∧ token_text l' = cstr "EOT" ∧ state_repr s' (mkA [] [] HEREDOC_NONE false).
Proof.
  refine (perl_heredoc_end (among [TOKEN_HEREDOC_MIDDLE]) eot_entry [] (cstr "EOT") (cstr "EOT") []
    10%nat (input (cstr "EOT")) 99 (eot_state HEREDOC_END) (eot_astate HEREDOC_END)
    _ _ _ _ _ _ _ _ _ _ _ _ _ _ _); try done.
  - by repeat constructor.
  - apply eot_repr.
  - apply (bool_decide_unpack _). by vm_compute.
  - by left.
  - vm_compute. lia.
Defined.
