(* ===== verification/PerlTokens.v ===== *)
(** * Quoted keys and heredoc announcements of the Perl scanner

    Tokens that the scan decides by looking ahead: a word in front of a fat comma
    or a closing brace; the delimiter that announces a heredoc. *)

From S2P Require Import Prelude CArray CArrayProofs CString Scan Logic.
From S2P Require Import PerlUnicode PerlKeywords PerlIntuit PerlIntuitProofs PerlState PerlStateProofs.
From S2P Require Import Perl PerlScan PerlInvariant PerlTotal PerlClaims PerlHeredoc.

(** ** Looking ahead *)

(** [v'] is reached by reading from [v], and the token's bounds are the same. *)
Definition peeked (v v' : view) : Prop :=
  advanced v v' ∧ v_start v' = v_start v ∧ v_end v' = v_end v.

#[export] Instance peeked_preorder : PreOrder peeked.
Proof.
  split; [by intros v|]. intros v1 v2 v3 (?&?&?) (?&?&?). split_and!; [by etrans|congruence..].
Qed.

Lemma peeked_adv v : peeked v (adv false v).
Proof. split_and!; [apply advanced_adv|by destruct v as [p [|c r] b e]..]. Qed.

Lemma rest_look v : (0 < rem v)%nat → v_rest v = look v :: v_rest (adv false v).
Proof. intros H. rewrite rest_adv. by apply rest_cons. Qed.

(** The text of a token that was marked in front of what was peeked. *)
Lemma token_text_peeked k v v' : v_start v = v_pos v → (k ≤ rem v)%nat →
  peeked (mark (adv_n false k v)) v' → token_text v' = take k (v_rest v).
Proof.
  intros Hs Hk ((Ht&_)&Hs'&He). rewrite <- (token_text_mark k v) by done.
  unfold token_text, token_end. rewrite Ht, Hs', He. done.
Qed.

Section peek.
Context {L : Type} {HL : TSLexer L} {HW : WCType} {HS : TSLexerSpec L}.

(** A loop over [c] in step with the lexer, whose test depends on the view. *)
Lemma wp_peek_loop (cond : Z → M L LexerState bool) (p : view → bool) (J : view → Prop) n v y s Q :
  (∀ v' (P : post (S := LexerState) bool), P (p v') v' y s → wp (cond (look v')) n v' y s P) →
  (∀ v', p v' = true → (0 < rem v')%nat) →
  (∀ v', J v' → p v' = true → J (adv false v')) → J v → (rem v < n)%nat →
  (∀ v', peeked v v' → J v' → p v' = false → (if p v then (rem v' < rem v)%nat else v' = v) → Q (look v') v' y s) →
  wp (while_c cond (look v)) n v y s Q.
Proof.
  intros Hcond Hpos HJ HJv Hn HQ. unfold while_c.
  apply (wp_iter (λ c v' y' s', c = look v' ∧ y' = y ∧ s' = s ∧ peeked v v' ∧ J v'
    ∧ (v' = v ∨ p v = true ∧ (rem v' < rem v)%nat)) (λ _ v', rem v')); [|split_and!; try done; by left|done].
  intros c v1 y1 s1 (->&->&->&Hv1&HJ1&Hlt). wp_step. apply Hcond. destruct (p v1) eqn:Hp; wps.
  - specialize (Hpos v1 Hp). rewrite rem_adv. split; [|lia]. split_and!; auto.
    + etrans; [done|apply peeked_adv].
    + right. destruct Hlt as [->|[? ?]]; split; (done || lia).
  - apply HQ; [done..|]. destruct Hlt as [->|[-> ?]]; [by rewrite Hp|done].
Qed.
End peek.

(** ** White space and comments *)

(** What is left behind the white space and the comments, in a comment or not. *)
Fixpoint gap (comment : bool) (l : list Z) : list Z :=
  match l with
  | [] => []
  | c :: r =>
      if comment then gap (negb (c =? LF)) r
      else if space c then gap false r
      else if c =? "#" then gap true r
      else l
  end.

(** The symbol of a word in front of [rest]: a fat comma, or a closing brace. *)
Definition quoted_by (valid : TokenType → bool) (rest : list Z) : option TokenType :=
  if valid TOKEN_FAT_COMMA_AUTOQUOTED && ((hd 0 rest =? "=") && (hd 0 (tail rest) =? ">"))
  then Some TOKEN_FAT_COMMA_AUTOQUOTED
  else if valid TOKEN_BRACE_AUTOQUOTED && (hd 0 rest =? "}") then Some TOKEN_BRACE_AUTOQUOTED
  else None.

Lemma quoted_by_nil valid : quoted_by valid [] = None.
Proof. unfold quoted_by. by rewrite !andb_false_r. Qed.

Section keys.
Context {L : Type} {HL : TSLexer L} {HW : WCType} {HS : TSLexerSpec L}.

Lemma wp_skip_space G n v y s (Q : post (S := LexerState) Z) :
  gap false (v_rest v) = G → (rem v < n)%nat →
  (∀ v', peeked v v' → gap false (v_rest v') = G → space (look v') = false →
     (if space (look v) then (rem v' < rem v)%nat else v' = v) → Q (look v') v' y s) →
  wp (L := L) (while_c is_whitespace (look v)) n v y s Q.
Proof.
  intros HG Hn HQ. apply (wp_peek_loop _ (λ v, space (look v)) (λ v', gap false (v_rest v') = G)); try done.
  - intros v' P HP. by apply wp_is_whitespace.
  - intros v' Hp. by apply (look_class_pos space).
  - intros v' Hv' Hp. rewrite <- Hv', (rest_look v') by by apply (look_class_pos space).
    cbn. by rewrite Hp.
Qed.

Lemma wp_skip_comment G n v y s (Q : post (S := LexerState) Z) :
  gap true (v_rest v) = G → column (v_past v) ≠ 0%nat → (rem v < n)%nat →
  (∀ v', peeked v v' → gap false (v_rest v') = G → Q (look v') v' y s) →
  wp (L := L) (skip_comment (look v)) n v y s Q.
Proof.
  intros HG Hcol Hn HQ.
  apply (wp_peek_loop _ (λ v, negb (Z.of_nat (column (v_past v)) =? 0) && negb (at_eof v))
    (λ v', gap (negb (column (v_past v') =? 0)%nat) (v_rest v') = G)).
  - intros v' P HP. cbv beta in HP. wps; apply HP.
  - intros v' [_ He]%andb_true_iff. apply not_eof_pos. by destruct (at_eof v').
  - intros v' Hv' [Hc He%negb_true_iff]%andb_true_iff.
    rewrite <- Hv'. replace (column (v_past v') =? 0)%nat with false by lia.
    apply not_eof_pos in He. rewrite (rest_look v') by done. cbn [gap negb].
    destruct v' as [p [|c r] b e]; cbn in *; [lia|]. by destruct (c =? LF).
  - by replace (column (v_past v) =? 0)%nat with false by lia.
  - done.
  - intros v' Hpeek Hv' Hp _. apply HQ; [done|]. rewrite <- Hv'.
    destruct (column (v_past v') =? 0)%nat eqn:Hc; [done|].
    assert (at_eof v' = true) as He by (destruct (at_eof v'); [done|lia]).
    by destruct v' as [p [|c r] b e].
Qed.

Lemma wp_kw_autoquote valid n v y s (Q : post (S := LexerState) bool) :
  (rem v < n)%nat →
  (∀ v', peeked v v' → match quoted_by valid (gap false (v_rest v)) with
     | Some t => Q true v' (TokenType_to_Z t) s
     | None => Q false v' y s
     end) →
  wp (L := L) (kw_autoquote valid (look v)) n v y s Q.
Proof.
  intros Hn HQ. unfold kw_autoquote. set (G := gap false (v_rest v)) in *. wp_step.
  apply (wp_iter (λ c v' y' s', c = look v' ∧ y' = y ∧ s' = s ∧ peeked v v' ∧ gap false (v_rest v') = G)
    (λ _ v', rem v')); [|by split_and!|done].
  intros c v1 y1 s1 (->&->&->&Hv1&HG). pose proof (advanced_rem _ _ (proj1 Hv1)) as Hr1.
  wp_step. apply wp_is_whitespace. destruct (space (look v1) || (look v1 =? "#")) eqn:Hc.
  - wp_step. apply (wp_skip_space G); [done|lia|]. intros v2 Hv2 HG2 Hsp2 Hlt2.
    pose proof (advanced_rem _ _ (proj1 Hv2)) as Hr2. wp_step.
    assert (∀ v3, peeked v2 v3 → gap false (v_rest v3) = G → (rem v3 < rem v1)%nat →
      wp (e <- eof;; if e : bool then ret (inr false) else ret (inl (look v3))) n v3 y s
        (λ r v' y' s', match r with
         | inl b' => (b' = look v' ∧ y' = y ∧ s' = s ∧ peeked v v' ∧ gap false (v_rest v') = G) ∧ (rem v' < rem v1)%nat
         | inr r => wp (L := L) (if r then fat_comma_check valid else ret false) n v' y' s' Q
         end)) as Hend.
    { intros v3 Hv3 HG3 Hlt3. assert (peeked v v3) as Hv by (do 2 (etrans; [done|]); done).
      wps; [|by split_and!]. assert (G = []) as HG0 by (rewrite <- HG3; by destruct v3 as [p [|c r] b e]).
      specialize (HQ v3 Hv). by rewrite HG0, quoted_by_nil in HQ. }
    destruct (look v2 =? "#") eqn:Hsharp.
    + assert (0 < rem v2)%nat as Hpos by by apply (look_eqb_pos _ "#").
      unfold ADVANCE_C. do 4 wp_step. apply (wp_skip_comment G).
      * rewrite <- HG2, (rest_look v2) by done. cbn. by rewrite Hsp2, Hsharp.
      * destruct v2 as [p [|c r] b e]; cbn in *; [lia|]. by replace (c =? LF) with false by lia.
      * rewrite rem_adv. lia.
      * intros v3 Hv3 HG3. pose proof (advanced_rem _ _ (proj1 Hv3)) as Hr3. rewrite rem_adv in Hr3.
        apply Hend; [|done|lia]. etrans; [apply peeked_adv|done].
    + wp_step. apply Hend; [done..|]. destruct (space (look v1)); [done|].
      subst. by rewrite Hsharp in Hc.
  - wp_step. unfold fat_comma_check, ADVANCE_C.
    apply orb_false_iff in Hc as [Hsp Hsharp].
    assert (G = v_rest v1) as HGv.
    { rewrite <- HG. destruct v1 as [p [|c r] b e]; [done|]. cbn in *. by rewrite Hsp, Hsharp. }
    specialize (HQ (adv false v1) ltac:(etrans; [done|apply peeked_adv])). rewrite HGv in HQ.
    unfold quoted_by in HQ. rewrite <- (rest_adv false) in HQ. fold (look v1) (look (adv false v1)) in HQ.
    wps; done.
Qed.
(** The identifier. *)
Lemma wp_skip_identifier w r n v y s (Q : post (S := LexerState) Z) :
  v_rest v = w ++ r → Forall (λ c, idcont c = true) (tail w) → w ≠ [] → idcont (hd 0 r) = false →
  (rem v < n)%nat → (let v' := adv_n false (List.length w) v in Q (look v') v' y s) →
  wp (L := L) skip_identifier n v y s Q.
Proof.
  intros Hv Hw Hne Hr Hn HQ. destruct w as [|c w]; [done|]. cbn [tail List.length] in *. cbv zeta in HQ.
  rewrite adv_n_S in HQ. unfold skip_identifier, ADVANCE_C. do 4 wp_step.
  set (v1 := adv false v) in *. assert (v_rest v1 = w ++ r) as Hv1 by (unfold v1; by rewrite rest_adv, Hv).
  assert (adv_span idcont false v1 = adv_n false (List.length w) v1) as Hspan.
  { unfold adv_span. rewrite Hv1, span_app by done. destruct r as [|x r]; cbn in *.
    - by rewrite Nat.add_0_r.
    - by rewrite Hr, Nat.add_0_r. }
  apply (wp_peek_loop _ (λ v, negb (look v =? 0) && idcont (look v))
    (λ v', adv_span idcont false v' = adv_n false (List.length w) v1)).
  - intros v' P HP. cbv beta in HP. wp_step; [wps; exact HP|]. by apply wp_id_cont.
  - intros v' [Hz _]%andb_true_iff. apply look_pos. lia.
  - intros v' Hv' [Hz Hid]%andb_true_iff. rewrite <- Hv'. symmetry. apply adv_span_true; [|done].
    assert (0 < rem v')%nat by (apply look_pos; lia). lia.
  - done.
  - unfold v1. rewrite rem_adv. lia.
  - intros v' _ Hv' Hp _. rewrite adv_span_false in Hv'; [by rewrite Hv'|].
    destruct (look v' =? 0) eqn:Hz; [|done]. replace (look v') with 0 by lia. apply stops_idcont.
Qed.

End keys.

(** A key with a comment in front of its fat comma. *)
Definition key_rest : list Z := cstr " # c" ++ [LF] ++ cstr " => 1".


(** ** The announcement of a heredoc *)

Definition announce_symbols : list TokenType := [TOKEN_HEREDOC_DELIM; TOKEN_COMMAND_HEREDOC_DELIM].

(** The marks in front of a delimiter: indented, and not interpolating. *)
Definition heredoc_marks (indent literal : bool) : list Z :=
  (if indent then cstr "~" else []) ++ (if literal then [BACKSLASH] else []).

(** An identifier. *)
Definition identifier (w : list Z) : Prop :=
  w ≠ [] ∧ idfirst (hd 0 w) = true ∧ Forall (λ c, idcont c = true) w.
#[export] Instance identifier_dec w : Decision (identifier w).
Proof. unfold identifier. apply _. Defined.

Section announce.
Context {L : Type} {HL : TSLexer L} {HW : WCType} {HS : TSLexerSpec L}.

Lemma wp_scan_announce valid b n v y s Q :
  only announce_symbols valid → valid TOKEN_HEREDOC_DELIM || valid TOKEN_COMMAND_HEREDOC_DELIM = true →
  space (look v) = false → at_eof v = false → (rem v < n)%nat →
  (∀ g : Z → M L LexerState (bool + bool), wp (continue (r <-? heredoc_bare false (look v);;
      let '(should_indent, should_interpolate, c) := r in
      c <- (if should_indent : bool then skip_whitespace;; lookahead else ret c);;
      if should_interpolate && ((c =? "'") || (c =? DQUOTE) || (c =? "`")) then
        let delim_open := c in
        c <- ADVANCE_C;;
        r <- heredoc_quoted delim_open tspstring_zero c;;
        let '(delim, c) := r in
        if c =? delim_open then
          ADVANCE_C;;
          add_heredoc delim (negb (delim_open =? "'")) should_indent;;
          token (if delim_open =? "`" then TOKEN_COMMAND_HEREDOC_DELIM else TOKEN_HEREDOC_DELIM)
        else next c
      else next c) g) n v y s Q) →
  wp (scan (L := L) valid b) n v y s Q.
Proof.
  intros Hv Hone Hsp He Hn H. apply wp_scan_early; [by apply (only_early announce_symbols)|done|].
  intros crossed. cbv zeta. rewrite adv_span_false, Hsp by done. unfold scan_token.
  unfold scan_contextual, scan_statement_keyword, any_recovery_valid, scan_angle_bracket,
    scan_dollar_ident, scan_search_slash, scan_quotes, scan_dollar_in_regexp, scan_regexp_bracket,
    scan_pod, scan_quotelike, scan_heredoc_delim, scan_boundary, EMIT_RECOVERY_TOKENS. cbv zeta.
  drop_invalid Hv. rewrite !andb_false_r. cbn [orb].
  apply wp_next, wp_continue. do 2 wp_step. rewrite He. apply wp_continue.
  assert (∀ (b : bool) (P : post (bool + unit)), P (inr tt) v y s →
    wp (if b then next tt else next tt) n v y s P) as Hnext by (intros [] P HP; unfold next; by wps).
  apply Hnext. unfold next at 1. wp_step. cbn [andb]. do 8 apply wp_next.
  rewrite Hone. apply H.
Qed.

Lemma wp_heredoc_ident w r n v y s (Q : post (S := LexerState) TSPString) :
  v_rest v = w ++ r → Forall (λ c, idcont c = true) w → idcont (hd 0 r) = false →
  (rem v < n)%nat → Z.of_nat (List.length w) < 2147483647 →
  (∀ d, string_repr d w → Q d (adv_n false (List.length w) v) y s) →
  wp (L := L) (heredoc_ident tspstring_zero (look v)) n v y s Q.
Proof.
  intros Hv Hw Hr Hn Hlen HQ. unfold heredoc_ident.
  apply (wp_iter (λ '(d, c) v' y' s', c = look v' ∧ y' = y ∧ s' = s ∧ ∃ w1 w2, w = w1 ++ w2
    ∧ string_repr d w1 ∧ v' = adv_n false (List.length w1) v) (λ _ v', rem v')); [| |done].
  2: { split_and!; [done..|]. exists [], w. split_and!; [done|apply string_repr_zero|done]. }
  intros [d c] v1 y1 s1 (->&->&->&w1&w2&->&Hd&->). rewrite length_app in Hlen.
  apply Forall_app in Hw as [_ Hw2]. rewrite <- app_assoc in Hv.
  set (v1 := adv_n false (List.length w1) v) in *.
  assert (v_rest v1 = w2 ++ r) as Hv1 by (unfold v1; by rewrite rest_adv_n, Hv, drop_app_length).
  wp_step. apply wp_id_cont. destruct w2 as [|x w2].
  - assert (look v1 = hd 0 r) as Hlook by (unfold look; by rewrite Hv1).
    rewrite Hlook, Hr. rewrite app_nil_r in HQ. wps. by apply HQ.
  - assert (look v1 = x) as Hlook by (unfold look; by rewrite Hv1).
    apply Forall_cons in Hw2 as [Hx _]. rewrite Hlook, Hx.
    destruct (string_repr_push d w1 x Hd ltac:(lia)) as (d'&Hpush&Hd'). wp_step. wp_step.
    eapply wp_lift; [exact Hpush|]. unfold ADVANCE_C. wps. rewrite rem_adv.
    assert (0 < rem v1)%nat by (unfold rem; rewrite Hv1; simpl; lia). split; [|lia].
    split_and!; [done..|]. exists (w1 ++ [x]), w2. rewrite <- app_assoc, length_app, Nat.add_1_r.
    by split_and!.
Qed.
(** One of the marks, if it is there. *)
Lemma wp_heredoc_mark k (here : bool) rest yes no n v y s (Q : post (S := LexerState) (bool * Z)) :
  v_rest v = (if here then [k] else []) ++ rest → (here = false → hd 0 rest ≠ k) →
  (let v' := adv_n false (if here then 1 else 0) v in
   v_rest v' = rest → Q (if here then yes else no, look v') v' y s) →
  wp (L := L) (if look v =? k then c <- ADVANCE_C;; ret (yes, c) else ret (no, look v)) n v y s Q.
Proof.
  intros Hv Hk HQ. destruct here; cbn in Hv.
  - replace (look v =? k) with true by (unfold look; rewrite Hv; cbn; lia). unfold ADVANCE_C. wps.
    apply HQ. change (adv_n false 1 v) with (adv false v). by rewrite rest_adv, Hv.
  - specialize (Hk eq_refl). replace (look v =? k) with false by (unfold look; rewrite Hv; lia). wps. by apply HQ.
Qed.

Lemma wp_heredoc_bare t b w r n v y s (Q : post (S := LexerState) (bool + bool * bool * Z)) :
  v_rest v = heredoc_marks t b ++ w ++ r → identifier w → idcont (hd 0 r) = false →
  (rem v < n)%nat → Z.of_nat (rem v) < 2147483647 →
  (∀ d, string_repr d w → Q (inl true) (adv_n false (List.length (heredoc_marks t b ++ w)) v)
     (TokenType_to_Z TOKEN_HEREDOC_DELIM) (lexerstate_add_heredoc s d (negb b) t)) →
  wp (L := L) (heredoc_bare false (look v)) n v y s Q.
Proof.
  intros Hv (Hne&Hfirst&Hw) Hr Hn Hmax HQ.
  assert (hd 0 (w ++ r) = hd 0 w) as Hhd by by destruct w.
  assert (∀ k, idfirst k = false → hd 0 w ≠ k) as Hother by (intros k Hk E; congruence).
  unfold heredoc_bare. cbn [negb]. wp_step. unfold heredoc_marks in *. rewrite <- app_assoc in Hv.
  apply (wp_heredoc_mark "~" t _ _ _ _ _ _ _ _ Hv).
  { intros _. destruct b; [done|]. cbn [app]. rewrite Hhd. apply Hother. by vm_compute. }
  intros v1 Hv1. cbv beta iota. wp_step.
  apply (wp_heredoc_mark BACKSLASH b _ _ _ _ _ _ _ _ Hv1).
  { intros _. rewrite Hhd. apply Hother. by vm_compute. }
  intros v2 Hv2. cbv beta iota. wp_step.
  apply wp_id_first. assert (look v2 = hd 0 w) as -> by (unfold look; by rewrite Hv2).
  rewrite Hfirst. wp_step.
  assert (v2 = adv_n false (List.length ((if t then cstr "~" else []) ++ (if b then [BACKSLASH] else []))) v)
    as Hview by (unfold v2, v1; rewrite adv_n_add; by destruct t, b).
  assert (rem v2 ≤ rem v)%nat as Hrem by (rewrite Hview; apply advanced_rem, advanced_adv_n).
  assert (List.length w ≤ rem v2)%nat by (unfold rem; rewrite Hv2, length_app; lia).
  replace (hd 0 w) with (look v2) by (unfold look; by rewrite Hv2).
  apply (wp_heredoc_ident w r); [done..|lia|lia|]. intros d Hd. unfold add_heredoc. wps.
  specialize (HQ d Hd). rewrite length_app, Nat.add_comm, <- adv_n_add, <- Hview in HQ.
  replace (negb b) with (if b then false else true) in HQ by by destruct b. by destruct t.
Qed.

(** The announcement of a heredoc. Behind the operator, an identifier in
    front of which a tilde and a backslash may stand is one token, marks
    included; the heredoc that is announced has the identifier as its delimiter,
    is indented if the tilde is there and interpolates if the backslash is not,
    and goes to the end of the queue. *)
Lemma heredoc_announced (valid : TokenType → bool) (t b : bool) (w r : list Z)
    (n : nat) (l : L) (y : Z) (s : LexerState) (a : astate) :
  only announce_symbols valid → valid TOKEN_HEREDOC_DELIM || valid TOKEN_COMMAND_HEREDOC_DELIM = true →
  state_repr s a → identifier w → space (hd 0 w) = false → idcont (hd 0 r) = false →
  let v := view_of l in
  v_rest v = heredoc_marks t b ++ w ++ r → v_start v = v_pos v → v_end v = None →
  (rem v < n)%nat → Z.of_nat (rem v) < 2147483647 →
  ∃ l' s' d, tree_sitter_perl_external_scanner_scan valid n (mkst l y s)
      = Done (true, mkst l' (TokenType_to_Z TOKEN_HEREDOC_DELIM) s')
    ∧ token_text (view_of l') = heredoc_marks t b ++ w ∧ string_repr d w
    ∧ (let hs := enqueue (mkEntry d (negb b) t) (a_heredocs a) in
       state_repr s' (with_recovery (with_heredocs a hs
         (if decide (List.length hs = 1%nat) then HEREDOC_START else a_state a)) false)).
Proof.
  intros Hv Hone Hs Hid Hsp Hr v Hrest Hstart Hmark Hn Hmax.
  assert (state_repr (set_recovery s false) (with_recovery a false)) as Hs1
    by (destruct Hs as (?&?&?&?&?); by split_and!).
  assert (wp (tree_sitter_perl_external_scanner_scan valid) n v y s (λ b0 v' z s', b0 = true
    ∧ v' = adv_n false (List.length (heredoc_marks t b ++ w)) v ∧ z = TokenType_to_Z TOKEN_HEREDOC_DELIM
    ∧ ∃ d, string_repr d w ∧ s' = lexerstate_add_heredoc (set_recovery s false) d (negb b) t)) as Hwp.
  { apply wp_perl_scan_parts, wp_scan_announce; try done.
    - unfold look. rewrite Hrest. destruct Hid as [Hne _].
      destruct t; [by vm_compute|]. destruct b; [by vm_compute|]. by destruct w.
    - unfold at_eof. rewrite Hrest. destruct Hid as [Hne _]. destruct t, b, w; done.
    - intros g. do 2 apply wp_continue. eapply wp_heredoc_bare; try done.
      intros d Hd. split_and!; try done. by exists d. }
  apply wp_run in Hwp as (b0&l'&z&s'&Hrun&->&Hview&->&d&Hd&->).
  exists l', (lexerstate_add_heredoc (set_recovery s false) d (negb b) t), d. split_and!; [done| |done|].
  - rewrite Hview, token_text_no_mark, Hrest, app_assoc, take_app_length; try done.
    unfold rem. rewrite Hrest, !length_app. lia.
  - apply (add_heredoc_repr _ _ d (negb b) t Hs1).
Qed.
End announce.

(** An indented heredoc that does not interpolate, announced behind another. *)
Lemma heredoc_announced_witness :
  ∃ l' s' d, tree_sitter_perl_external_scanner_scan (among [TOKEN_HEREDOC_DELIM]) 20%nat
      (mkst (input (cstr "~\EOT;")) 99 (eot_state HEREDOC_START))
      = Done (true, mkst l' (TokenType_to_Z TOKEN_HEREDOC_DELIM) s')
    ∧ token_text l' = cstr "~\EOT" ∧ string_repr d (cstr "EOT")
    ∧ state_repr s' (mkA [] [eot_entry; mkEntry d false true] HEREDOC_START false).
Proof.
  refine (heredoc_announced (among [TOKEN_HEREDOC_DELIM]) true true (cstr "EOT") (cstr ";") 20%nat
    (input (cstr "~\EOT;")) 99 (eot_state HEREDOC_START) (eot_astate HEREDOC_START) _ _ _ _ _ _ _ _ _ _ _).
  - by apply only_among.
  - by vm_compute.
  - apply eot_repr.
  - apply (bool_decide_unpack _). by vm_compute.
  - by vm_compute.
  - by vm_compute.
  - by vm_compute.
  - done.
  - done.
  - vm_compute. lia.
  - by vm_compute.
Defined.
