(* ===== verification/PerlPod.v ===== *)
(** * Documentation blocks of the Perl scanner

    A POD block is a token from its first line to the [=cut] line, which is
    found by an automaton over the characters; its specification is on lines. *)

From S2P Require Import Prelude CArray CArrayProofs CString Scan Logic.
From S2P Require Import PerlUnicode PerlKeywords PerlIntuit PerlIntuitProofs PerlState PerlStateProofs.
From S2P Require Import Perl PerlScan PerlInvariant PerlTotal PerlClaims PerlHeredoc PerlTokens.

(** ** Lines *)

(** A line that ends a block: the marker, and anything behind a blank. *)
Definition cut_line (w : list Z) : Prop :=
  w = cut_marker ∨ ∃ b x, (b = " " ∨ b = TAB) ∧ w = cut_marker ++ b :: x.

(** A line that is a beginning of the marker: behind it the automaton does not
    see that a line begins. *)
Definition partial_cut (w : list Z) : Prop := ∃ k, (0 < k < 4)%nat ∧ w = take k cut_marker.

Definition pod_line (w : list Z) : Prop := plain_line w ∧ ¬ cut_line w ∧ ¬ partial_cut w.

#[export] Instance cut_line_dec w : Decision (cut_line w).
Proof.
  destruct (decide (w = cut_marker)) as [|H1]; [by left; left|].
  destruct (decide (take 4 w = cut_marker ∧ (nth 4 w 0 = " " ∨ nth 4 w 0 = TAB))) as [[H2 H3]|H2].
  - left. right. destruct w as [|a [|b [|c [|d [|e w]]]]]; try done.
    exists e, w. split; [done|]. by injection H2 as -> -> -> ->.
  - right. intros [|(b&x&Hb&->)]; [done|]. by destruct H2.
Defined.

#[export] Instance partial_cut_dec w : Decision (partial_cut w).
Proof.
  destruct (decide (w = take 1 cut_marker ∨ w = take 2 cut_marker ∨ w = take 3 cut_marker)) as [H|H].
  - left. destruct H as [->|[->| ->]]; [exists 1%nat|exists 2%nat|exists 3%nat]; split; (lia || done).
  - right. intros (k&Hk&->). destruct H.
    destruct k as [|[|[|[|k]]]]; [lia|by left|right; by left|right; by right|lia].
Defined.

#[export] Instance pod_line_dec w : Decision (pod_line w).
Proof. unfold pod_line. apply _. Defined.

(** ** Where the automaton ends *)

Definition in_line (c : Z) : bool := negb (c =? LF).

(** How far a scan from a stage goes. *)
Fixpoint pod_end (stage : Z) (l : list Z) : nat :=
  match l with
  | [] => 0%nat
  | c :: r =>
      let stage := pod_stage stage c in
      if stage =? 6 then 0%nat
      else if stage =? 5 then span in_line l
      else S (pod_end stage r)
  end.

Lemma pod_stage_other c : c ≠ LF → c ≠ CR → pod_stage (-1) c = -1.
Proof.
  intros Hl Hc. unfold pod_stage. replace (c =? CR) with false by lia. by replace (c =? LF) with false by lia.
Qed.

Lemma pod_end_other w r : plain_line w → pod_end (-1) (w ++ LF :: r) = (S (List.length w) + pod_end 0 r)%nat.
Proof.
  induction 1 as [|c w [Hl Hc] _ IH]; [done|]. cbn [app pod_end List.length].
  rewrite pod_stage_other by done. cbn. by rewrite IH.
Qed.

(** The stages of the marker. *)
Lemma pod_stage_marker s c : (s < 4)%nat → c ≠ LF → c ≠ CR →
  pod_stage (Z.of_nat s) c = if c =? nth s cut_marker 0 then Z.of_nat (S s) else -1.
Proof.
  intros Hs Hl Hc. unfold pod_stage. replace (c =? CR) with false by lia.
  replace (c =? LF) with false by lia. rewrite andb_false_r, Nat2Z.id.
  replace (0 <=? Z.of_nat s) with true by lia. replace (Z.of_nat s <? 4) with true by lia. cbn [andb].
  destruct (c =? _); [lia|]. replace (Z.of_nat s =? 4) with false by lia. done.
Qed.

Lemma pod_end_line s w r : (s ≤ 4)%nat → plain_line w →
  ¬ cut_line (take s cut_marker ++ w) → ¬ partial_cut (take s cut_marker ++ w) →
  pod_end (Z.of_nat s) (w ++ LF :: r) = (S (List.length w) + pod_end 0 r)%nat.
Proof.
  intros Hs Hw. revert s Hs. induction Hw as [|c w [Hl Hc] Hw IH]; intros s Hs Hcut Hpart.
  - rewrite app_nil_r in Hcut, Hpart. destruct (decide (s = 0%nat)) as [->|]; [done|].
    destruct (decide (s = 4%nat)) as [->|]; [by destruct Hcut; left|].
    destruct Hpart. exists s. split; [lia|done].
  - cbn [app pod_end List.length]. destruct (decide (s = 4%nat)) as [->|].
    + assert (c ≠ " " ∧ c ≠ TAB) as [? ?].
      { split; intros ->; destruct Hcut; right; eexists _, w; split; try done; [by left|by right]. }
      replace (pod_stage (Z.of_nat 4) c) with (-1).
      2: { unfold pod_stage. replace (c =? CR) with false by lia. replace (c =? LF) with false by lia.
           replace (c =? " ") with false by lia. by replace (c =? TAB) with false by lia. }
      cbn. by rewrite pod_end_other.
    + rewrite pod_stage_marker by (done || lia). destruct (c =? nth s cut_marker 0) eqn:E.
      * replace (Z.of_nat (S s) =? 6) with false by lia. replace (Z.of_nat (S s) =? 5) with false by lia.
        assert (take s cut_marker ++ c :: w = take (S s) cut_marker ++ w) as Htake.
        { apply Z.eqb_eq in E. subst c. destruct s as [|[|[|[|s]]]]; (done || lia). }
        rewrite Htake in Hcut, Hpart. rewrite IH by (done || lia). done.
      * cbn. by rewrite pod_end_other.
Qed.

Lemma span_plain w : plain_line w → span in_line w = List.length w.
Proof.
  intros Hw. rewrite <- (app_nil_r w), span_app, length_app; [done|].
  eapply Forall_impl; [exact Hw|]. intros c [? ?]. unfold in_line. lia.
Qed.

Lemma span_plain_end w tail : plain_line w → line_end tail → span in_line (w ++ tail) = List.length w.
Proof.
  intros Hw Ht. rewrite span_app.
  - destruct Ht as [->|[t' ->]]; cbn; lia.
  - eapply Forall_impl; [exact Hw|]. intros c [? ?]. unfold in_line. lia.
Qed.

(** The line of the marker is the last one. *)
Lemma pod_end_cut w tail : cut_line w → plain_line w → line_end tail → pod_end 0 (w ++ tail) = List.length w.
Proof.
  intros [->|(b&x&Hb&->)] Hw Ht; [by destruct Ht as [->|[t' ->]]|].
  assert (plain_line (b :: x)) as Hx by (apply Forall_app in Hw as [_ ?]; done).
  rewrite <- app_assoc. change (pod_end 0 (cut_marker ++ (b :: x) ++ tail)) with
    (4 + pod_end 4 ((b :: x) ++ tail))%nat.
  replace (pod_end 4 ((b :: x) ++ tail)) with (span in_line ((b :: x) ++ tail)).
  - by rewrite span_plain_end.
  - by destruct Hb as [->| ->].
Qed.

(** Without one, the end of the input is. *)
Lemma pod_end_eof s w : -1 ≤ s ≤ 4 → plain_line w → pod_end s w = List.length w.
Proof.
  intros Hs Hw. revert s Hs. induction Hw as [|c w [Hl Hc] Hw IH]; intros s Hs; [done|].
  cbn [pod_end List.length]. assert (-1 ≤ pod_stage s c ≤ 5) as Hst.
  { unfold pod_stage. replace (c =? LF) with false by lia. rewrite !andb_false_r.
    repeat case_match; lia. }
  replace (pod_stage s c =? 6) with false by lia. destruct (pod_stage s c =? 5) eqn:E.
  - change (S (List.length w)) with (List.length (c :: w)). by apply span_plain, Forall_cons.
  - rewrite IH; [done|lia].
Qed.

Lemma pod_end_lines lines r : Forall pod_line lines →
  pod_end 0 (body lines ++ r) = (List.length (body lines) + pod_end 0 r)%nat.
Proof.
  induction 1 as [|w lines (Hw&Hcut&Hpart) _ IH]; [done|].
  rewrite body_cons, <- app_assoc, <- app_comm_cons, (pod_end_line 0) by (done || lia).
  rewrite IH, length_app. cbn. lia.
Qed.

(** ** The scan *)

Section pod.
Context {L : Type} {HL : TSLexer L} {HW : WCType} {HS : TSLexerSpec L}.

(** In the loop, [stage] has seen all characters in front of [c]. *)
Lemma wp_pod_lines n v y s (Q : post (S := LexerState) (Z * Z)) :
  (rem v < n)%nat →
  (∀ stage v', peeked v v' →
     adv_n false (if stage <? 6 then span in_line (v_rest v') else 0%nat) v'
       = adv_n false (pod_end (-1) (v_rest v)) v → Q (stage, look v') v' y s) →
  wp (L := L) (pod_lines (look v)) n v y s Q.
Proof.
  intros Hn HQ. unfold pod_lines. set (E := adv_n false (pod_end (-1) (v_rest v)) v) in *.
  apply (wp_iter (λ '(stage, c) v' y' s', c = look v' ∧ y' = y ∧ s' = s ∧ peeked v v' ∧ -1 ≤ stage ≤ 4
      ∧ adv_n false (pod_end stage (v_rest v')) v' = E) (λ _ v', rem v')); [|by split_and!|done].
  intros [stage c] v1 y1 s1 (->&->&->&Hv1&Hst&HE). unfold not_eof, ADVANCE_C.
  assert (at_eof v1 = false → (0 < rem v1)%nat ∧ (let stage' := pod_stage stage (look v1) in
    -1 ≤ stage' ≤ 6 ∧ adv_n false (if stage' =? 6 then 0%nat
      else if stage' =? 5 then span in_line (v_rest v1)
      else S (pod_end stage' (v_rest (adv false v1)))) v1 = E)) as Hround.
  { intros He%not_eof_pos. rewrite (rest_look v1) in HE by done. split; [done|].
    cbv zeta. rewrite (rest_look v1) at 1 by done. split; [|exact HE].
    unfold pod_stage. repeat case_match; lia. }
  wps.
  - destruct Hround as (Hpos&Hst'&HE'); [by destruct (at_eof v1)|]. apply HQ; [done|]. rewrite <- HE'.
    destruct (pod_stage stage (look v1) =? 6) eqn:E6.
    + by replace (_ <? 6) with false by lia.
    + replace (_ =? 5) with true by lia. by replace (_ <? 6) with true by lia.
  - destruct Hround as (Hpos&Hst'&HE'); [by destruct (at_eof v1)|]. rewrite rem_adv. split; [|lia].
    replace (_ =? 6) with false in HE' by lia. replace (_ =? 5) with false in HE' by lia.
    rewrite adv_n_S in HE'. split_and!; try done; try lia. etrans; [done|apply peeked_adv].
  - apply HQ; [done|]. rewrite <- HE. destruct v1 as [p [|c r] b e]; [|done].
    by destruct (stage <? 6).
Qed.

Lemma wp_rest_line n v y s (Q : post (S := LexerState) Z) :
  (rem v < n)%nat → (let v' := adv_n false (span in_line (v_rest v)) v in Q (look v') v' y s) →
  wp (L := L) (while_c (until LF) (look v)) n v y s Q.
Proof.
  intros Hn HQ. apply (wp_peek_loop _ (λ v, in_line (look v) && negb (at_eof v))
    (λ v', adv_span in_line false v' = adv_span in_line false v)); try done.
  - intros v' P HP. unfold until, not_eof, in_line in *. wps; exact HP.
  - intros v' [_ He]%andb_true_iff. apply not_eof_pos. by destruct (at_eof v').
  - intros v' Hv' [Hl He]%andb_true_iff. assert (0 < rem v')%nat.
    { apply not_eof_pos. by destruct (at_eof v'). }
    rewrite <- Hv'. symmetry. apply adv_span_true; [lia|done].
  - intros v' _ Hv' Hp _. fold (adv_span in_line false v) in HQ. cbv zeta in HQ. rewrite <- Hv' in HQ.
    destruct (at_eof v') eqn:He.
    + by destruct v' as [p [|c r] b e].
    + rewrite adv_span_false in HQ; [done|]. by rewrite andb_true_r in Hp.
Qed.
Lemma wp_scan_pod valid n v y s (Q : post (S := LexerState) (bool + unit)) :
  valid TOKEN_POD = true → look v = "=" → column (v_past v) = 0%nat → (rem v < n)%nat →
  Q (inl true) (adv_n false (pod_end (-1) (v_rest v)) v) (TokenType_to_Z TOKEN_POD) s →
  wp (L := L) (scan_pod valid "=") n v y s Q.
Proof.
  intros Hv Hlook Hcol Hn HQ. unfold scan_pod. rewrite Hv, <- Hlook. do 2 wp_step. rewrite Hcol, Hlook.
  change ((Z.of_nat 0 =? 0) && ("=" =? "=")) with true. cbv iota. rewrite <- Hlook. wp_step.
  apply wp_pod_lines; [done|]. intros stage v' Hv' Hend. cbv iota beta.
  pose proof (advanced_rem _ _ (proj1 Hv')). wp_step. wp_step.
  - wp_step. apply wp_rest_line; [lia|]. cbv zeta. rewrite Hend. wps. exact HQ.
  - unfold adv_n at 1 in Hend. cbn in Hend. subst v'. wps. exact HQ.
Qed.

(** The parts in front do nothing at an equals sign. *)
Lemma wp_scan_equals valid b n v y s Q :
  Forall (λ t, valid t = false) (TOKEN_DOLLAR_IDENT_ZW :: early_tokens) → look v = "=" → (rem v < n)%nat →
  (∀ g : unit → M L LexerState (bool + bool), wp (continue (scan_pod valid "=") g) n v y s Q) →
  wp (scan (L := L) valid b) n v y s Q.
Proof.
  intros [Hzw Hearly]%Forall_cons Hlook Hn H. apply wp_scan_early; [done..|]. intros crossed.
  assert (space "=" = false) as Hsp by by vm_compute.
  cbv zeta. rewrite adv_span_false by by rewrite Hlook. rewrite !Hlook.
  unfold scan_token. apply wp_no_contextual; [done|].
  assert (at_eof v = false) as He.
  { destruct (at_eof v) eqn:He; [|done]. apply at_eof_look in He. congruence. }
  apply wp_continue. unfold scan_boundary. do 2 wp_step. rewrite He.
  change ("=" =? "}") with false. change ("=" =? ";") with false. cbn [orb]. rewrite !andb_false_r.
  apply wp_continue. unfold next at 1. wp_step. cbn [andb]. unfold next at 1. wp_step.
  unfold scan_statement_keyword. change (negb (KEYWORD_FIRST_CHAR_FILTER "=")) with false.
  unfold scan_angle_bracket, scan_dollar_ident, scan_search_slash, scan_quotes, scan_dollar_in_regexp,
    scan_regexp_bracket. rewrite Hzw.
  change ("=" =? "<") with false. change ("=" =? "/") with false. change ("=" =? "'") with false.
  change ("=" =? DQUOTE) with false. change ("=" =? "`") with false. change ("=" =? "$") with false.
  change ("=" =? "[") with false. change ("=" =? "{") with false.
  rewrite !andb_false_r. cbn [andb orb]. do 7 apply wp_next. apply H.
Qed.

End pod.

(** A block with a paragraph, and what follows it. *)
Definition pod_lines_example : list (list Z) := [[]; cstr "Text, =cut"; cstr "=cute"].


(** A line with a single equals sign hides the marker on the next one. *)
Lemma pod_partial_marker :
  (λ r, match r with Done (true, σ) => Some (token_text (lex σ)) | _ => None end)
    (tree_sitter_perl_external_scanner_scan (among [TOKEN_POD]) 60%nat
      (mkst (input (body [cstr "=pod"; cstr "="; cstr "=cut"; cstr "code"])) 99 empty_state))
  = Some (body [cstr "=pod"; cstr "="; cstr "=cut"; cstr "code"]).
Proof. by vm_compute. Qed.
