(* ===== verification/PerlSession.v ===== *)
(** * A heredoc of the Perl scanner, from its announcement to its end

    The calls that recognize a heredoc, one after the other: the delimiter, the
    beginning behind the line of the announcement, the body, and the end. *)

From S2P Require Import Prelude CArray CArrayProofs CString Scan Logic Session.
From S2P Require Import PerlUnicode PerlKeywords PerlIntuit PerlIntuitProofs PerlState PerlStateProofs.
From S2P Require Import Perl PerlScan PerlInvariant PerlTotal PerlClaims PerlHeredoc PerlTokens.

Section session.
Context {L : Type} {HL : TSLexer L} {HW : WCType} {HS : TSLexerSpec L}.

(** The rest of the line is white space. *)
Lemma wp_skip_to_line ws r n v y s (Q : post (S := LexerState) bool) :
  v_rest v = ws ++ LF :: r → Forall (λ c, space c = true ∧ c ≠ LF) ws → (rem v < n)%nat →
  Q true (adv_n true (S (List.length ws)) v) y s →
  wp (L := L) skip_ws_to_eol n v y s Q.
Proof.
  intros Hv Hws Hn HQ. unfold skip_ws_to_eol.
  apply (wp_iter (λ _ v' y' s', y' = y ∧ s' = s ∧ ∃ w, v_rest v' = w ++ LF :: r
      ∧ Forall (λ c, space c = true ∧ c ≠ LF) w
      ∧ adv_n true (S (List.length w)) v' = adv_n true (S (List.length ws)) v) (λ _ v', rem v')); [| |done].
  2: { split_and!; [done..|]. by exists ws. }
  intros [] v1 y1 s1 (->&->&w&Hv1&Hw&Hend). wp_step. wp_step.
  assert (space LF = true) as Hlf by by vm_compute.
  assert (look v1 = hd LF w) as Hlook by (unfold look; rewrite Hv1; by destruct w).
  assert (space (look v1) = true) as Hsp.
  { rewrite Hlook. destruct w; [done|]. by apply Forall_cons in Hw as [[? _] _]. }
  wp_step.
  { assert (space 0 = false) by apply stops_space. replace (look v1) with 0 in Hsp by lia. congruence. }
  wp_step. apply wp_is_whitespace. rewrite Hsp. wp_step. wp_step. wp_step.
  destruct w as [|c w]; cbn [hd] in Hlook; rewrite Hlook.
  - rewrite Z.eqb_refl. by rewrite <- Hend in HQ.
  - apply Forall_cons in Hw as [[_ Hc] Hw]. replace (c =? LF) with false by lia.
    rewrite rem_adv. split; [|unfold rem; rewrite Hv1; simpl; lia]. split_and!; [done..|].
    exists w. split_and!; [by rewrite rest_adv, Hv1|done|]. by rewrite <- Hend, <- adv_n_S.
Qed.

Lemma adv_n_line ws r v : v_rest v = ws ++ LF :: r →
  let v' := adv_n true (S (List.length ws)) v in
  v_rest v' = r ∧ text v' = text v ∧ column (v_past v') = 0%nat ∧ v_start v' = v_pos v' ∧ v_end v' = v_end v.
Proof.
  intros Hv v'. set (u := adv_n true (List.length ws) v).
  assert (v' = adv true u) as Hv'.
  { unfold v', u. change (adv true) with (adv_n true 1). by rewrite adv_n_add. }
  assert (v_rest u = LF :: r) as Hu by (unfold u; by rewrite rest_adv_n, Hv, drop_app_length).
  split_and!.
  - by rewrite Hv', rest_adv, Hu.
  - apply advanced_adv_n.
  - rewrite Hv'. unfold adv. by rewrite Hu.
  - rewrite Hv'. unfold adv, v_pos. by rewrite Hu.
  - apply v_end_adv_n.
Qed.

(** The beginning of a heredoc, behind the line of its announcement. *)
Lemma perl_heredoc_start (valid : TokenType → bool) (ws r : list Z) (n : nat) (l : L) (y : Z)
    (s : LexerState) (a : astate) :
  Forall (λ t, valid t = false) [TOKEN_ERROR; TOKEN_GOBBLED_CONTENT; TOKEN_FORMAT_CONTENT;
    TOKEN_NONASSOC; TOKEN_X_OP; TOKEN_HEREDOC_MIDDLE; TOKEN_NO_INTERP_WHITESPACE_ZW] →
  valid TOKEN_HEREDOC_START = true → state_repr s a → a_state a = HEREDOC_START →
  v_rest (view_of l) = ws ++ LF :: r → Forall (λ c, space c = true ∧ c ≠ LF) ws →
  (rem (view_of l) < n)%nat →
  ∃ l' s', tree_sitter_perl_external_scanner_scan valid n (mkst l y s)
      = Done (true, mkst l' (TokenType_to_Z TOKEN_HEREDOC_START) s')
    ∧ view_of l' = adv_n true (S (List.length ws)) (view_of l)
    ∧ state_repr s' (with_recovery (with_state a HEREDOC_UNKNOWN) false).
Proof.
  intros Hts Hv Hs Hst Hrest Hws Hn.
  assert (∀ t, valid t = false → valid t = false) as Hno by done.
  repeat match goal with Hf : Forall _ (_ :: _) |- _ => apply Forall_cons in Hf as [? ?] end.
  destruct (wp_exact (tree_sitter_perl_external_scanner_scan valid) n l y s true
    (adv_n true (S (List.length ws)) (view_of l)) (TokenType_to_Z TOKEN_HEREDOC_START)
    (set_heredoc_state (set_recovery s false) HEREDOC_UNKNOWN)) as (l'&Hrun&Hview).
  - apply wp_perl_scan_parts. unfold scan, scan_gobbled, scan_format, scan_operators, scan_heredoc_middle.
    rewrite !(Hno TOKEN_GOBBLED_CONTENT), !(Hno TOKEN_FORMAT_CONTENT), !(Hno TOKEN_NONASSOC),
      !(Hno TOKEN_X_OP), !(Hno TOKEN_HEREDOC_MIDDLE), !andb_false_r by done.
    wp_step. wp_step. do 3 apply wp_next. cbn [andb]. apply wp_continue. do 2 wp_step. unfold next at 1. wp_step.
    unfold scan_line_start. rewrite !(Hno TOKEN_NO_INTERP_WHITESPACE_ZW), !andb_false_r by done.
    apply wp_continue. wp_step. eapply wp_skip_to_line; [done..|].
    destruct (adv_n_line ws r (view_of l) Hrest) as (_&_&Hcol&_). do 4 wp_step. rewrite Hcol, Hv.
    assert (heredoc_state (set_recovery s false) = HEREDOC_START) as Hstart.
    { destruct Hs as (_&_&_&Hs&_). cbn. congruence. }
    rewrite Hstart. change (true && (HEREDOC_START =? HEREDOC_START) && (Z.of_nat 0 =? 0)) with true.
    cbv iota. by wps.
  - exists l', (set_heredoc_state (set_recovery s false) HEREDOC_UNKNOWN). split_and!; [done..|].
    destruct Hs as (?&?&?&?&?). by split_and!.
Qed.

(** A call reports the token [t] with the text [w], and the next one begins behind it. *)
Definition yields (valid : TokenType → bool) (n : nat) (t : TokenType) : list Z → L → LexerState → (L → LexerState → Prop) → Prop :=
  Session.yields tree_sitter_perl_external_scanner_scan valid n (TokenType_to_Z t).

(** What the parser does not ask for where it waits for a heredoc. *)
Definition not_here : list TokenType :=
  [TOKEN_ERROR; TOKEN_GOBBLED_CONTENT; TOKEN_FORMAT_CONTENT; TOKEN_NONASSOC; TOKEN_X_OP].

(** From the end of the line of the announcement. *)
Lemma heredoc_from_start (start middle : TokenType → bool) (e : HeredocEntry) (hs : list HeredocEntry)
    (w ws dl tail : list Z) (lines : list (list Z)) (n : nat) (l1 : L) (s1 : LexerState) (a : astate) :
  Forall (λ t, start t = false) (TOKEN_HEREDOC_MIDDLE :: TOKEN_NO_INTERP_WHITESPACE_ZW :: not_here) →
  start TOKEN_HEREDOC_START = true →
  Forall (λ t, middle t = false) not_here → middle TOKEN_HEREDOC_MIDDLE = true →
  state_repr s1 a → a_heredocs a = e :: hs → a_state a = HEREDOC_START →
  string_repr (delim e) w → indents e = false →
  v_rest (view_of l1) = ws ++ LF :: body lines ++ dl ++ tail → v_end (view_of l1) = None →
  (rem (view_of l1) < n)%nat → Z.of_nat (rem (view_of l1)) < 2147483647 →
  Forall (λ c, space c = true ∧ c ≠ LF) ws → Forall (body_line (interpolates e) w) lines →
  plain_line dl → same_string dl w → line_end tail → dl ++ tail ≠ [] →
  yields start n TOKEN_HEREDOC_START [] l1 s1 (λ l2 s2,
    yields middle n TOKEN_HEREDOC_MIDDLE (body lines) l2 s2 (λ l3 s3,
      yields middle n TOKEN_HEREDOC_END dl l3 s3 (λ _ s4,
        state_repr s4 (with_recovery
          (with_heredocs a hs (if decide (hs = []) then HEREDOC_NONE else HEREDOC_START)) false)))).
Proof.
  intros Hstart Hst Hmid Hm Hs1 Ha Hstate Hd Hind Hrest He Hn Hmax Hws Hlines Hdl Hsame Htail Hne y1.
  destruct (perl_heredoc_start start ws (body lines ++ dl ++ tail) n l1 y1 s1 a) as (l2'&s2&Hrun2&Hv2&Hs2);
    try done.
  { apply Forall_cons in Hstart as [? [? ?]%Forall_cons].
    apply (Forall_app_2 _ not_here); [done|by repeat constructor]. }
  destruct (adv_n_line ws (body lines ++ dl ++ tail) (view_of l1) Hrest) as (Hrest2&Ht2&Hcol2&Hstart2&Hend2).
  rewrite <- Hv2 in *. exists l2', s2. split_and!; [done| |].
  { unfold token_text, token_end. rewrite Hend2, He, Hstart2. apply drop_ge. rewrite length_take. simpl. lia. }
  intros l2 (Hrt&Hrp&Hrs&Hre) y2. unfold token_end in Hrp. rewrite Hend2, He in Hrp. cbn in Hrp.
  destruct (same_place (view_of l2') (view_of l2) Hrt Hrp) as [Hpast Hrest2'].
  assert (rem (view_of l2) < rem (view_of l1))%nat as Hrem.
  { unfold rem. rewrite Hrest2', Hrest2, Hrest, (length_app ws). cbn [List.length]. lia. }
  rewrite Hrest2 in Hrest2'.
  destruct (perl_heredoc_body middle e hs w dl tail lines n l2 y2 s2
    (with_recovery (with_state a HEREDOC_UNKNOWN) false)) as (l3'&s3&Hrun3&Htext3&Ht3&Hp3&Hs3);
    try done; try lia; [by rewrite Hpast|].
  exists l3', s3. split_and!; [done..|].
  intros l3 (Hrt3&Hrp3&Hrs3&Hre3) y3. rewrite Hp3 in Hrp3.
  assert (v_rest (view_of l3) = dl ++ tail) as Hrest3.
  { rewrite (rest_at_pos (view_of l2) (view_of l3) _ ltac:(by rewrite Hrt3, Ht3) Hrp3), Hrest2'. apply drop_app_length. }
  assert (rem (view_of l3) ≤ rem (view_of l2))%nat as Hrem3.
  { unfold rem. rewrite Hrest3, Hrest2', !length_app. lia. }
  destruct (perl_heredoc_end middle e hs w dl tail n l3 y3 s3
    (with_recovery (with_state (with_recovery (with_state a HEREDOC_UNKNOWN) false) HEREDOC_END) false))
    as (l4&s4&Hrun4&Htext4&Hs4); try done; try lia.
  exists l4, s4. by split_and!.
Qed.

End session.

