(* ===== verification/PerlEmits.v ===== *)
(** * The symbols of the Perl scanner

    [emits]: when a computation reports a token, the result symbol is one of the
    allowed ones, and otherwise it is the one it was. The rules are those of the
    monad, and the proof follows the structure of the scan function. *)

From S2P Require Import Prelude CArray CString Scan PerlUnicode PerlKeywords PerlIntuit PerlState Perl PerlScan.

Section emits.
Context {L : Type} {HL : TSLexer L}.
Local Abbreviation M := (M L LexerState).
Context (allowed : TokenType → bool).

Definition emits {A} (reports : A → bool) (m : M A) : Prop :=
  ∀ n σ a σ', m n σ = Done (a, σ') →
    if reports a then ∃ t, allowed t = true ∧ sym σ' = TokenType_to_Z t else sym σ' = sym σ.

Definition never {A} (a : A) : bool := false.
Definition part {A} (r : bool + A) : bool := match r with inl b => b | inr _ => false end.
Definition last {A B} (reports : A → bool) (r : B + A) : bool :=
  match r with inl _ => false | inr a => reports a end.

Lemma emits_ret {A} r (a : A) : r a = false → emits r (ret a).
Proof. intros Hr n σ a' σ' [= <- <-]. by rewrite Hr. Qed.

(** A computation that reports nothing itself. *)
Lemma emits_bind {A B} r (m : M A) (g : A → M B) :
  emits never m → (∀ a, emits r (g a)) → emits r (bind m g).
Proof.
  intros Hm Hg n σ b σ' H. unfold bind in H. destruct (m n σ) as [[a σ1]| | |] eqn:E; try done.
  apply Hm in E. apply Hg in H. simpl in E. by rewrite E in H.
Qed.

(** One whose answer is handed on. *)
Lemma emits_map {A B} r r' (m : M A) (h : A → B) :
  (∀ a, r' (h a) = r a) → emits r m → emits r' (bind m (λ a, ret (h a))).
Proof.
  intros Hh Hm n σ b σ' H. unfold bind in H. destruct (m n σ) as [[a σ1]| | |] eqn:E; try done.
  injection H as <- <-. rewrite Hh. by apply (Hm _ _ _ _ E).
Qed.

Lemma emits_if {A} r (b : bool) (m1 m2 : M A) :
  (b = true → emits r m1) → (b = false → emits r m2) → emits r (if b then m1 else m2).
Proof. destruct b; auto. Qed.

(** A test that is made only under a condition. *)
Lemma emits_test {B} r (b : bool) (m : M bool) (g : bool → M B) :
  (b = true → emits never m) → (b = true → ∀ a, emits r (g a)) → emits r (g false) →
  emits r (bind (if b then m else ret false) g).
Proof.
  destruct b; intros Hm Hg Hf; [by apply emits_bind; auto|].
  intros n σ a σ' H. by apply (Hf n σ a σ').
Qed.

Lemma emits_TOKEN t : allowed t = true → emits (λ b, b) (TOKEN t).
Proof. intros Ht n σ b σ' [= <- <-]. by exists t. Qed.

Lemma emits_token {A} (r : bool + A → bool) t :
  (∀ b, r (inl b) = b) → allowed t = true → emits r (token t).
Proof. intros Hr Ht n σ b σ' [= <- <-]. rewrite Hr. by exists t. Qed.

Lemma emits_continue {A B} r' (m : M (bool + A)) (g : A → M (bool + B)) :
  (∀ b, r' (inl b) = b) → emits part m → (∀ a, emits r' (g a)) → emits r' (continue m g).
Proof.
  intros Hr Hm Hg n σ r σ' H. unfold continue, bind in H.
  destruct (m n σ) as [[[b|a] σ1]| | |] eqn:E; try done; apply Hm in E; simpl in E.
  - injection H as <- <-. by rewrite Hr.
  - apply Hg in H. by rewrite E in H.
Qed.

Lemma emits_iter {A B} r (body : B → M (B + A)) b :
  (∀ b, emits (last r) (body b)) → emits r (iter body b).
Proof.
  intros Hbody n σ. unfold iter. generalize n at 1 as k. intros k. revert b σ.
  induction k as [|k IH]; intros b σ a σ' H; [done|]. simpl in H. unfold bind in H.
  destruct (body b n σ) as [[[b'|a'] σ1]| | |] eqn:E; try done; apply Hbody in E; simpl in E.
  - apply IH in H. by rewrite E in H.
  - by injection H as <- <-.
Qed.

(** The operations that leave the symbol alone. *)
Lemma emits_lookahead : emits never lookahead. Proof. by intros n σ a σ' [= <- <-]. Qed.
Lemma emits_advance sk : emits never (advance_ sk). Proof. by intros n σ a σ' [= <- <-]. Qed.
Lemma emits_mark_end : emits never mark_end. Proof. by intros n σ a σ' [= <- <-]. Qed.
Lemma emits_eof : emits never eof. Proof. by intros n σ a σ' [= <- <-]. Qed.
Lemma emits_get_column : emits never get_column. Proof. by intros n σ a σ' [= <- <-]. Qed.
Lemma emits_get_payload : emits never get_payload. Proof. by intros n σ a σ' [= <- <-]. Qed.
Lemma emits_set_payload s : emits never (set_payload s). Proof. by intros n σ a σ' [= <- <-]. Qed.
Lemma emits_lift {A} (o : outcome A) : emits never (lift o).
Proof. intros n σ a σ' H. unfold lift in H. destruct o; try done. by injection H as <- <-. Qed.
End emits.

(** The symbols that a scan may report: those that the parser asks for, and the
    few that stand in the place of another. *)
Definition may_report (valid : TokenType → bool) (t : TokenType) : bool :=
  valid t ||
  match t with
  | PERLY_HEREDOC => true
  | TOKEN_HEREDOC_END => valid TOKEN_HEREDOC_MIDDLE
  | TOKEN_HEREDOC_DELIM => valid TOKEN_COMMAND_HEREDOC_DELIM
  | TOKEN_COMMAND_HEREDOC_DELIM => valid TOKEN_HEREDOC_DELIM
  | TOKEN_OPEN_READLINE_BRACKET => valid TOKEN_OPEN_FILEGLOB_BRACKET || valid PERLY_HEREDOC
  | TOKEN_PROTOTYPE => valid TOKEN_SIGNATURE_START
  | TOKEN_SIGNATURE_START => valid TOKEN_PROTOTYPE
  | _ => false
  end.

(** The facts of the guards decide whether a symbol is one of them. *)
Ltac allowed_tac :=
  repeat match goal with
  | |- context [if ?b then _ else _] => destruct b eqn:?
  | H : _ && _ = true |- _ => apply andb_true_iff in H as [? ?]
  | H : _ || _ = true |- _ => apply orb_true_iff in H as [?|?]
  end; cbv [may_report];
  repeat match goal with H : ?b = true |- context [?b] => rewrite H end;
  rewrite ?orb_true_r; first [reflexivity | exfalso; lia].

Ltac head_of m := lazymatch m with ?f _ => head_of f | _ => m end.

(** Follows the structure of a computation. *)
Ltac emit_step :=
  cbv beta zeta;
  lazymatch goal with
  | |- ∀ _, _ => intro
  | |- emits _ _ (ret _) => apply emits_ret; repeat case_match; done
  | |- emits _ _ (return_ false) => apply emits_ret; done
  | |- emits _ _ (next _) => apply emits_ret; done
  | |- emits _ _ (token _) => apply emits_token; [done|allowed_tac]
  | |- emits _ _ (TOKEN _) => apply emits_TOKEN; allowed_tac
  | |- emits _ _ (bind ?m return_) => apply (emits_map _ (λ b, b) _ m (λ b, inl b)); [done|]
  | |- emits _ _ (bind ?m (λ b, return_ b)) => apply (emits_map _ (λ b, b) _ m (λ b, inl b)); [done|]
  | |- emits _ _ (bind (TOKEN ?t) (λ b, ret (inr (inl b)))) =>
      apply (emits_map _ (λ b, b) _ (TOKEN t) (λ b, inr (inl b))); [done|]
  | |- emits _ _ (bind ?m (λ b, next b)) => apply (emits_map _ (λ b, b) _ m (λ b, inr b)); [done|]
  | |- emits _ _ (bind (if _ then _ else ret false) _) => apply emits_test
  | |- emits _ _ (bind _ _) => apply emits_bind
  | |- emits _ _ (continue _ _) => apply emits_continue; [done|..]
  | |- emits _ _ (iter _ _) => apply emits_iter
  | |- emits _ _ (if _ then _ else _) => apply emits_if
  | |- emits _ _ (match ?x with _ => _ end) => destruct x
  | |- emits _ _ lookahead => apply emits_lookahead
  | |- emits _ _ (advance_ _) => apply emits_advance
  | |- emits _ _ mark_end => apply emits_mark_end
  | |- emits _ _ eof => apply emits_eof
  | |- emits _ _ get_column => apply emits_get_column
  | |- emits _ _ get_payload => apply emits_get_payload
  | |- emits _ _ (set_payload _) => apply emits_set_payload
  | |- emits _ _ (lift _) => apply emits_lift
  | |- emits _ _ ?m => let h := head_of m in unfold h
  end.
Ltac emit_tac := repeat emit_step.

Section scan.
Context {L : Type} {HL : TSLexer L} {HW : WCType}.
Context (valid : TokenType → bool).
Local Abbreviation emits := (emits (L := L) (may_report valid)).

Lemma emits_scan_gobbled c : emits part (scan_gobbled valid c).
Proof. emit_tac. Qed.
Lemma emits_scan_format c : emits part (scan_format valid c).
Proof. emit_tac. Qed.
Lemma emits_scan_operators c : emits part (scan_operators valid c).
Proof. emit_tac. Qed.
Lemma emits_scan_heredoc_middle c : emits part (scan_heredoc_middle valid c).
Proof. emit_tac. Qed.
Lemma emits_scan_line_start c : emits part (scan_line_start valid c).
Proof. emit_tac. Qed.
Lemma emits_scan_attribute c : emits part (scan_attribute valid c).
Proof. emit_tac. Qed.
Lemma emits_scan_whitespace c : emits part (scan_whitespace valid c).
Proof. emit_tac. Qed.
Lemma emits_scan_contextual c b1 b2 : emits part (scan_contextual valid c b1 b2).
Proof. emit_tac. Qed.
Lemma emits_scan_boundary c : emits part (scan_boundary valid c).
Proof. emit_tac. Qed.
Lemma emits_scan_statement_keyword c b1 b2 : emits part (scan_statement_keyword valid c b1 b2).
Proof. emit_tac. Qed.
Lemma emits_scan_angle_bracket c : emits part (scan_angle_bracket valid c).
Proof. emit_tac. Qed.
Lemma emits_scan_regexp_bracket c : emits part (scan_regexp_bracket valid c).
Proof. emit_tac. Qed.
Lemma emits_scan_heredoc_delim c b : emits part (scan_heredoc_delim valid c b).
Proof. emit_tac. Qed.
Lemma emits_scan_string_content c : emits part (scan_string_content valid c).
Proof. emit_tac. Qed.
Lemma emits_scan_escape c : emits part (scan_escape valid c).
Proof. emit_tac. Qed.
Lemma emits_scan_prototype c : emits part (scan_prototype valid c).
Proof. emit_tac. Qed.
Lemma emits_scan_quotelike_begin c b : emits part (scan_quotelike_begin valid c b).
Proof. emit_tac. Qed.
Lemma emits_scan_autoquoted c : emits (λ b, b) (scan_autoquoted valid c).
Proof. emit_tac. Qed.

Definition answer (r : bool + bool) : bool := match r with inl b | inr b => b end.

#[local] Create HintDb emits.
#[local] Hint Resolve emits_scan_gobbled emits_scan_format emits_scan_operators emits_scan_heredoc_middle
  emits_scan_line_start emits_scan_attribute emits_scan_whitespace emits_scan_contextual emits_scan_boundary
  emits_scan_statement_keyword emits_scan_angle_bracket emits_scan_regexp_bracket emits_scan_heredoc_delim
  emits_scan_string_content emits_scan_escape emits_scan_prototype emits_scan_quotelike_begin
  emits_scan_autoquoted : emits.

Lemma emits_scan_quotelike c b : emits answer (scan_quotelike valid c b).
Proof. unfold scan_quotelike. repeat first [solve [auto with emits] | emit_step]. Qed.

Lemma emits_scan b : emits answer (scan valid b).
Proof.
  unfold scan, scan_token. pose proof emits_scan_quotelike.
  repeat first [solve [auto with emits] | emit_step].
Qed.

(** C23: the type of the result symbol. When the scan function answers that there
    is a token, the result symbol is a member of the enumeration: one that the
    parser asked for, or the operator of a heredoc, which rules out another
    reading, or one of the few that are decided together with one it asked for.
    When it answers that there is none, the result symbol is as it was. *)
Theorem perl_result_symbol (n : nat) (σ σ' : st L LexerState) (b : bool) :
  tree_sitter_perl_external_scanner_scan valid n σ = Done (b, σ') →
  if b then ∃ t, may_report valid t = true ∧ sym σ' = TokenType_to_Z t else sym σ' = sym σ.
Proof.
  assert (emits (λ b, b) (tree_sitter_perl_external_scanner_scan valid)) as Hemits.
  { unfold tree_sitter_perl_external_scanner_scan. do 2 (apply emits_bind; [emit_tac|intros ?]).
    apply (emits_map _ answer (λ b, b) _ answer); [done|apply emits_scan]. }
  apply Hemits.
Qed.
End scan.

(** The announcement of a heredoc where a command could also stand: the symbol
    stands in the place of the one that was asked for. *)
Lemma perl_result_symbol_witness :
  ∃ t, may_report (λ t, bool_decide (t = TOKEN_COMMAND_HEREDOC_DELIM)) t = true
    ∧ TokenType_to_Z TOKEN_HEREDOC_DELIM = TokenType_to_Z t.
Proof.
  refine (perl_result_symbol (λ t, bool_decide (t = TOKEN_COMMAND_HEREDOC_DELIM)) 10%nat
    (mkst (input (cstr "EOT;")) 99 (mkState array_init (replicate 8 entry_zero) 0 0 false)) (mkst _ _ _) true _).
  by vm_compute.
Defined.
