(* ===== verification/PerlReplay.v ===== *)
(** * Replay of the Perl scanner

    The scan sees the open quotes and the announced heredocs, and not how the array
    of the quotes came about, nor what the queue holds behind the heredocs. *)

From S2P Require Import Prelude CArray CArrayProofs CString Codec Scan Logic Replay Session.
From S2P Require Import PerlUnicode PerlKeywords PerlIntuit PerlState PerlStateProofs Perl PerlScan PerlInvariant PerlTotal PerlScanTotal.

Definition same_perl (s1 s2 : LexerState) : Prop := ∃ a, state_repr s1 a ∧ state_repr s2 a.

(** ** Operations on the state *)

Section operations.
Implicit Types s : LexerState.

Lemma same_quotes s1 s2 a q1 q2 qs : state_repr s1 a → state_repr s2 a → repr q1 qs → repr q2 qs →
  same_perl (set_quotes s1 q1) (set_quotes s2 q2).
Proof. intros H1 H2 R1 R2. exists (with_quotes a qs). by split; apply state_repr_quotes. Qed.

Lemma same_push s1 s2 c : same_perl s1 s2 → same_outcome same_perl (lexerstate_push_quote s1 c) (lexerstate_push_quote s2 c).
Proof.
  intros (a&H1&H2). unfold lexerstate_push_quote. set (q := mkQuote _ _ _ _).
  pose proof (push_same (quotes s1) (quotes s2) (a_quotes a) (a_quotes a) q q (proj1 H1) (proj1 H2) eq_refl) as H.
  unfold same_outcome in *. destruct (array_push (quotes s1) q), (array_push (quotes s2) q); try done.
  destruct H. by eapply same_quotes.
Qed.

Lemma same_assign s1 s2 i q : same_perl s1 s2 → same_outcome same_perl (assign_quote s1 i q) (assign_quote s2 i q).
Proof.
  intros (a&H1&H2). unfold assign_quote.
  pose proof (store_same (quotes s1) (quotes s2) (a_quotes a) (a_quotes a) i q q (proj1 H1) (proj1 H2)) as H.
  unfold same_outcome in *. destruct (memcpy (CArray.contents (quotes s1)) i [Some q]), (memcpy (CArray.contents (quotes s2)) i [Some q]); try done.
  destruct H. by eapply same_quotes.
Qed.

(** A quote that is read is the same on both sides. *)
Lemma same_get {A} (T : A → A → Prop) s1 s2 i k1 k2 : same_perl s1 s2 → (∀ q, same_outcome T (k1 q) (k2 q)) →
  same_outcome T (let? q := array_get (quotes s1) i in k1 q) (let? q := array_get (quotes s2) i in k2 q).
Proof.
  intros (a&H1&H2) Hk. pose proof (get_same_eq (quotes s1) (quotes s2) (a_quotes a) i (proj1 H1) (proj1 H2)) as H.
  unfold same_outcome in H. destruct (array_get (quotes s1) i) as [q| | |]; [|done..].
  destruct (array_get (quotes s2) i) as [q'| | |]; cbn [obind]; [|by destruct (k1 q)..]. subst q'. apply Hk.
Qed.

Lemma same_size s1 s2 : same_perl s1 s2 → size (quotes s1) = size (quotes s2).
Proof. intros (a&H1&H2). by eapply size_same; [apply H1|apply H2|]. Qed.

Lemma same_opener s1 s2 c : same_perl s1 s2 → ∃ i, lexerstate_is_quote_opener s1 c = Done i ∧ lexerstate_is_quote_opener s2 c = Done i.
Proof. intros (a&H1&H2). eexists. by split; apply quote_opener_repr. Qed.

Lemma same_closer s1 s2 c : same_perl s1 s2 → ∃ i, lexerstate_is_quote_closer s1 c = Done i ∧ lexerstate_is_quote_closer s2 c = Done i.
Proof. intros (a&H1&H2). eexists. by split; apply quote_closer_repr. Qed.

Lemma same_saw_opener s1 s2 i : same_perl s1 s2 → same_outcome same_perl (lexerstate_saw_opener s1 i) (lexerstate_saw_opener s2 i).
Proof. intros H. apply same_get; [done|]. intros q. destruct (i32_incr (count q)); [by apply same_assign|done..]. Qed.

Lemma same_saw_closer s1 s2 i : same_perl s1 s2 → same_outcome same_perl (lexerstate_saw_closer s1 i) (lexerstate_saw_closer s2 i).
Proof.
  intros H. apply same_get; [done|]. intros q. destruct (negb _); [|done].
  destruct (i32_decr (count q)); [by apply same_assign|done..].
Qed.

Lemma same_closed s1 s2 i : same_perl s1 s2 → same_outcome eq (lexerstate_is_quote_closed s1 i) (lexerstate_is_quote_closed s2 i).
Proof. intros H. by apply same_get. Qed.

Lemma same_pop s1 s2 i : same_perl s1 s2 → same_outcome same_perl (lexerstate_pop_quote s1 i) (lexerstate_pop_quote s2 i).
Proof.
  intros (a&H1&H2). unfold lexerstate_pop_quote.
  pose proof (erase_any_same (quotes s1) (quotes s2) (a_quotes a) (a_quotes a) (i - 1) (proj1 H1) (proj1 H2) eq_refl) as H.
  unfold same_outcome in *. destruct (array_erase (quotes s1) (i - 1)), (array_erase (quotes s2) (i - 1)); try done.
  destruct H. by eapply same_quotes.
Qed.

Lemma same_paired s1 s2 : same_perl s1 s2 → same_outcome eq (lexerstate_is_paired_delimiter s1) (lexerstate_is_paired_delimiter s2).
Proof. intros H. unfold lexerstate_is_paired_delimiter, array_back. rewrite (same_size s1 s2 H). by apply same_get. Qed.

Lemma same_set_lead s1 s2 b : same_perl s1 s2 → same_outcome same_perl (set_body_lead s1 b) (set_body_lead s2 b).
Proof.
  intros H. unfold set_body_lead, array_back. rewrite (same_size s1 s2 H). apply same_get; [done|]. intros q. by apply same_assign.
Qed.

Lemma same_take_lead s1 s2 c : same_perl s1 s2 →
  same_outcome (λ r1 r2, r1.1 = r2.1 ∧ same_perl r1.2 r2.2) (lexerstate_take_body_lead s1 c) (lexerstate_take_body_lead s2 c).
Proof.
  intros H. unfold lexerstate_take_body_lead, array_back. rewrite (same_size s1 s2 H). destruct (_ =? 0); [done|].
  apply same_get; [done|]. intros q. destruct (_ && _); [|done].
  pose proof (same_set_lead s1 s2 false H) as Hs. unfold same_outcome in *.
  destruct (set_body_lead s1 false), (set_body_lead s2 false); done.
Qed.

Lemma same_add_heredoc s1 s2 d b1 b2 : same_perl s1 s2 → same_perl (lexerstate_add_heredoc s1 d b1 b2) (lexerstate_add_heredoc s2 d b1 b2).
Proof. intros (a&H1&H2). eexists. by split; apply add_heredoc_repr. Qed.

Lemma same_heredoc_state s1 s2 st : same_perl s1 s2 → same_perl (set_heredoc_state s1 st) (set_heredoc_state s2 st).
Proof.
  intros (a&(?&?&?&?&?)&(?&?&?&?&?)). exists (with_state a st). by split; split_and!.
Qed.

Lemma same_recovery s1 s2 b : same_perl s1 s2 → same_perl (set_recovery s1 b) (set_recovery s2 b).
Proof.
  intros (a&(?&?&?&?&?)&(?&?&?&?&?)). exists (with_recovery a b). by split; split_and!.
Qed.

Lemma same_finish s1 s2 : same_perl s1 s2 → same_outcome same_perl (lexerstate_finish_heredoc s1) (lexerstate_finish_heredoc s2).
Proof.
  intros (a&H1&H2). destruct (a_heredocs a) as [|e hs] eqn:Ha.
  - assert (∀ s, state_repr s a → ∃ s', lexerstate_finish_heredoc s = Done s' ∧ state_repr s' (with_heredocs a [] HEREDOC_NONE)) as Hf.
    { intros s (Hq&(junk&Hj&H8)&Hn&Hst&Hr). unfold lexerstate_finish_heredoc. rewrite Hn, Ha. cbn.
      eexists; split; [done|]. split_and!; cbn; try done. exists (<[0%nat := entry_zero]> junk).
      rewrite Ha in Hj. rewrite Hj in H8 |- *. by rewrite length_insert. }
    destruct (Hf s1 H1) as (t1&->&?), (Hf s2 H2) as (t2&->&?). by eexists.
  - destruct (finish_heredoc_repr s1 a e hs H1 Ha) as (t1&->&?), (finish_heredoc_repr s2 a e hs H2 Ha) as (t2&->&?). by eexists.
Qed.

Lemma same_front s1 s2 : same_perl s1 s2 → 0 < heredoc_count s1 →
  same_outcome eq (lexerstate_front_heredoc s1) (lexerstate_front_heredoc s2).
Proof.
  intros (a&(_&(j1&Q1&_)&N1&_)&(_&(j2&Q2&_)&_)) Hn. unfold lexerstate_front_heredoc, entry_at. rewrite Q1, Q2, N1 in *.
  by destruct (a_heredocs a); [cbn in Hn; lia|].
Qed.

(** The fields that are read. *)
Lemma same_fields s1 s2 : same_perl s1 s2 → heredoc_count s1 = heredoc_count s2
  ∧ heredoc_state s1 = heredoc_state s2 ∧ recovery_emitted s1 = recovery_emitted s2.
Proof. intros (a&(_&_&?&?&?)&(_&_&?&?&?)). split_and!; congruence. Qed.
End operations.

Section replay.
Context {L : Type} {HL : TSLexer L} {HW : WCType}.
Local Abbreviation sim := (sim (L := L) same_perl).

Lemma sim_modify f : (∀ s1 s2, same_perl s1 s2 → same_outcome same_perl (f s1) (f s2)) → sim eq (modify f) (modify f).
Proof.
  intros Hf. apply sim_get. intros s1 s2 H. apply (sim_lift_bind _ same_perl); [by apply Hf|].
  intros t1 t2 Ht. by apply sim_set.
Qed.

Lemma sim_ask {A} (f : LexerState → outcome A) : (∀ s1 s2, same_perl s1 s2 → same_outcome eq (f s1) (f s2)) → sim eq (ask f) (ask f).
Proof. intros Hf. apply sim_get. intros s1 s2 H. by apply sim_lift, Hf. Qed.

Lemma same_found {A} (T : A → A → Prop) o1 o2 (k1 k2 : Z → outcome A) : (∃ i, o1 = Done i ∧ o2 = Done i) →
  (∀ i, same_outcome T (k1 i) (k2 i)) → same_outcome T (let? i := o1 in k1 i) (let? i := o2 in k2 i).
Proof. intros (i&->&->) Hk. apply Hk. Qed.

Lemma sim_push_quote c : sim eq (modify (λ s, lexerstate_push_quote s c)) (modify (λ s, lexerstate_push_quote s c)).
Proof. apply sim_modify. intros. by apply same_push. Qed.
Lemma sim_pop_quote i : sim eq (modify (λ s, lexerstate_pop_quote s i)) (modify (λ s, lexerstate_pop_quote s i)).
Proof. apply sim_modify. intros. by apply same_pop. Qed.
Lemma sim_body_lead b : sim eq (modify (λ s, set_body_lead s b)) (modify (λ s, set_body_lead s b)).
Proof. apply sim_modify. intros. by apply same_set_lead. Qed.
Lemma sim_finish : sim eq (modify lexerstate_finish_heredoc) (modify lexerstate_finish_heredoc).
Proof. apply sim_modify, same_finish. Qed.
Lemma sim_saw_opener c : sim eq (modify (saw_opener_of c)) (modify (saw_opener_of c)).
Proof.
  apply sim_modify. intros s1 s2 H. unfold saw_opener_of. apply same_found; [by apply same_opener|].
  intros i. destruct (negb _); [by apply same_saw_opener|done].
Qed.
Lemma sim_retire vs : sim eq (modify (retire_quote vs)) (modify (retire_quote vs)).
Proof.
  apply sim_modify. intros s1 s2 H. unfold retire_quote. rewrite (same_size s1 s2 H). destruct (_ && _); [by apply same_pop|done].
Qed.

Lemma sim_ask_closer c : sim eq (ask (λ s, lexerstate_is_quote_closer s c)) (ask (λ s, lexerstate_is_quote_closer s c)).
Proof. apply sim_ask. intros s1 s2 H. by destruct (same_closer s1 s2 c H) as (i&->&->). Qed.
Lemma sim_ask_paired : sim eq (ask lexerstate_is_paired_delimiter) (ask lexerstate_is_paired_delimiter).
Proof. apply sim_ask, same_paired. Qed.
Lemma sim_ask_delimiter c : sim eq (ask (is_quote_delimiter c)) (ask (is_quote_delimiter c)).
Proof.
  apply sim_ask. intros s1 s2 H. apply same_found; [by apply same_opener|]. intros i. destruct (negb _); [done|].
  apply same_found; [by apply same_closer|done].
Qed.
Lemma sim_ask_closes c : sim eq (ask (closes_quote c)) (ask (closes_quote c)).
Proof.
  apply sim_ask. intros s1 s2 H. apply same_found; [by apply same_closer|]. intros i. destruct (negb _); [by apply same_closed|done].
Qed.

Lemma sim_add_heredoc d b1 b2 : sim eq (add_heredoc d b1 b2) (add_heredoc d b1 b2).
Proof. apply sim_get. intros s1 s2 H. by apply sim_set, same_add_heredoc. Qed.
Lemma sim_recovery_token t : sim eq (recovery_token t) (recovery_token t).
Proof. apply sim_get. intros s1 s2 H. apply sim_bind_eq; [by apply sim_set, same_recovery|sim_tac]. Qed.
#[local] Hint Resolve sim_push_quote sim_pop_quote sim_body_lead sim_finish sim_saw_opener sim_retire sim_ask_closer
  sim_ask_paired sim_ask_delimiter sim_ask_closes sim_add_heredoc sim_recovery_token : sim.

(** ** The parts of the scan *)

Lemma sim_heredoc_line e p : sim eq (heredoc_line e p) (heredoc_line e p).
Proof.
  unfold heredoc_line. destruct p as [line c]. apply sim_bind_eq; [sim_tac|intros [|]]; [sim_tac|].
  apply sim_get. intros s1 s2 H. destruct (same_fields s1 s2 H) as (_&Hst&_). rewrite Hst.
  do 2 (apply sim_bind_eq; [sim_tac|intros ?]). cbv zeta. do 2 (apply sim_bind_eq; [sim_tac|intros ?]).
  destruct a2 as [[line' esc] c']. destruct (_ && _); [destruct (negb _); [|sim_tac]|destruct (_ && _); [|sim_tac]];
    (apply sim_bind_eq; [by apply sim_set, same_heredoc_state|sim_tac]).
Qed.
#[local] Hint Resolve sim_heredoc_line : sim.

Lemma sim_heredoc_continue p : sim eq (heredoc_continue p) (heredoc_continue p).
Proof.
  unfold heredoc_continue. destruct p as [b c]. destruct (is_interpolation_escape c); [sim_tac|].
  destruct (c =? LF); [|sim_tac]. apply sim_bind_eq; [sim_tac|intros _]. apply sim_get. intros s1 s2 H.
  apply sim_bind_eq; [by apply sim_set, same_heredoc_state|sim_tac].
Qed.

Lemma sim_eq_sum {A B} (m : M L LexerState (A + B)) : sim eq m m → sim (sum_rel eq eq) m m.
Proof. intros H. eapply sim_mono; [exact H|]. intros r ? <-. apply sum_rel_refl. Qed.

Lemma sim_scan_heredoc_middle vs c : sim eq (scan_heredoc_middle vs c) (scan_heredoc_middle vs c).
Proof.
  apply sim_get. intros s1 s2 H. destruct (same_fields s1 s2 H) as (Hn&Hst&_). rewrite Hst, <- Hn.
  destruct (_ && _ && _) eqn:E; [|sim_tac]. apply (sim_lift_bind _ eq).
  - apply same_front; [done|]. lia.
  - intros e ? <-. destruct (heredoc_state s2 =? _); cbn [negb].
    + unfold continue. apply sim_bind_eq; [|sim_tac]. apply sim_iter_eq. intros p. apply sim_eq_sum, sim_heredoc_continue.
    + apply sim_iter_eq. intros p. apply sim_eq_sum, sim_heredoc_line.
Qed.

Lemma sim_scan_line_start vs c : sim eq (scan_line_start vs c) (scan_line_start vs c).
Proof.
  unfold scan_line_start. destruct (_ && _); [sim_tac|]. apply sim_bind_eq; [sim_tac|intros x].
  apply sim_get. intros s1 s2 H. destruct (same_fields s1 s2 H) as (_&Hst&_). rewrite Hst.
  apply sim_bind_eq; [sim_tac|intros col]. destruct (_ && _); [|sim_tac].
  apply sim_bind_eq; [by apply sim_set, same_heredoc_state|sim_tac].
Qed.

Lemma same_content_char q c s1 s2 : same_perl s1 s2 → same_outcome (λ r1 r2, match r1, r2 with
    | Some t1, Some t2 => same_perl t1 t2 | None, None => True | _, _ => False end) (content_char q c s1) (content_char q c s2).
Proof.
  intros H. unfold content_char. destruct (c =? _); [done|]. apply same_found; [by apply same_opener|]. intros i.
  destruct (negb _).
  - pose proof (same_saw_opener s1 s2 i H) as Ho. unfold same_outcome in *.
    by destruct (lexerstate_saw_opener s1 i), (lexerstate_saw_opener s2 i).
  - apply same_found; [by apply same_closer|]. intros j. destruct (negb _); [|by destruct (_ && _)].
    pose proof (same_closed s1 s2 j H) as Hc. pose proof (same_saw_closer s1 s2 j H) as Ho. unfold same_outcome in *.
    destruct (lexerstate_is_quote_closed s1 j) as [b| | |], (lexerstate_is_quote_closed s2 j) as [b'| | |]; cbn [obind];
      try done; try (subst b'; destruct b; [done|]; by destruct (lexerstate_saw_closer s1 j), (lexerstate_saw_closer s2 j)).
    all: destruct b; [done|]; by destruct (lexerstate_saw_closer s1 j).
Qed.

Lemma sim_content_loop q c : sim eq (content_loop q c) (content_loop q c).
Proof.
  apply sim_iter_eq. intros [seen c']. destruct (c' =? 0); [sim_tac|]. apply sim_get. intros s1 s2 H.
  eapply sim_lift_bind; [by apply same_content_char|]. intros [t1|] [t2|] Ht; try done.
Qed.
#[local] Hint Resolve sim_scan_heredoc_middle sim_scan_line_start sim_content_loop : sim.

Lemma sim_scan_regexp_bracket vs c : sim eq (scan_regexp_bracket vs c) (scan_regexp_bracket vs c).
Proof.
  unfold scan_regexp_bracket. destruct (_ || _); [|sim_tac]. apply sim_get. intros s1 s2 H.
  eapply sim_lift_bind; [by apply same_take_lead|]. intros [b1 t1] [b2 t2] [Hb Ht]. cbn in Hb, Ht. subst b2.
  apply sim_bind_eq; [by apply sim_set|]. sim_tac.
Qed.
#[local] Hint Resolve sim_scan_regexp_bracket : sim.

Lemma sim_scan_quotelike vs c b : sim eq (scan_quotelike vs c b) (scan_quotelike vs c b).
Proof. sim_tac. Qed.
Lemma sim_scan_token vs c b1 b2 b3 : sim eq (scan_token vs c b1 b2 b3) (scan_token vs c b1 b2 b3).
Proof. pose proof (sim_scan_quotelike vs). sim_tac. Qed.

Lemma sim_perl_scan vs : sim eq (tree_sitter_perl_external_scanner_scan vs) (tree_sitter_perl_external_scanner_scan vs).
Proof.
  apply sim_get. intros s1 s2 H. destruct (same_fields s1 s2 H) as (_&_&Hr). rewrite Hr.
  apply sim_bind_eq; [by apply sim_set, same_recovery|intros _]. apply sim_bind_eq; [|sim_tac].
  pose proof (sim_scan_token vs). sim_tac.
Qed.
End replay.

(** Restoring what was saved is as good as going on, as long as at most 44 quotes
    are open: the scan from the restored state, on any input, gives the token of the
    scan from the saved one, leaves the lexer at the same place, and the same quotes
    open and heredocs announced. *)
Theorem perl_replay {L : Type} `{HS : TSLexerSpec L} `{!WCType} (valid : TokenType → bool) (k : Z) n (l : L) y s a s0 a0 :
  state_repr s a → state_ok a → (List.length (a_quotes a) ≤ 44)%nat → state_repr s0 a0 →
  Forall (λ q, 0 ≤ count q ≤ k) (a_quotes a) → 44 ≤ k → (valid TOKEN_QUOTELIKE_MIDDLE_SKIP = true → a_quotes a ≠ []) →
  (S (rem (view_of l)) < n)%nat → k + Z.of_nat (rem (view_of l)) + 2 ≤ 2147483647 →
  ∃ buffer s' b l' y' s1 s2 a',
    tree_sitter_perl_external_scanner_serialize s = Done buffer
    ∧ tree_sitter_perl_external_scanner_deserialize s0 buffer = Done s'
    ∧ tree_sitter_perl_external_scanner_scan valid n (mkst l y s) = Done (b, mkst l' y' s1)
    ∧ tree_sitter_perl_external_scanner_scan valid n (mkst l y s') = Done (b, mkst l' y' s2)
    ∧ state_repr s1 a' ∧ state_repr s2 a'.
Proof.
  intros Hs Hok H44 H0 Hc Hk Hne Hn Hmax. pose proof (state_repr_8 s a Hs) as H8.
  destruct (deserialize_repr s0 a0 a H0 Hok H8) as (s'&Hd&Hs').
  rewrite take_ge in Hs' by done. assert (state_repr s' a) as Hs2 by (by destruct a). clear Hs'.
  assert (∀ t, state_repr t a → inv (valid TOKEN_QUOTELIKE_MIDDLE_SKIP) k t) as Hinv by (intros t Ht; exists a; split_and!; try done; lia).
  destruct (wp_run _ n l y s _ (wp_perl_scan valid k n _ y s (Hinv s Hs) ltac:(lia) Hn Hmax)) as (b1&l1&y1&s1&E1&_).
  destruct (wp_run _ n l y s' _ (wp_perl_scan valid k n _ y s' (Hinv s' Hs2) ltac:(lia) Hn Hmax)) as (b2&l2&y2&s2&E2&_).
  pose proof (sim_perl_scan valid n l y s s' ltac:(by exists a)) as Hsim. rewrite E1, E2 in Hsim.
  destruct Hsim as (<-&Hl&Hy&a'&R1&R2). cbn in Hl, Hy, R1, R2. subst l2 y2.
  exists (state_cells a), s', b1, l1, y1, s1, s2, a'. split_and!; try done. by apply serialize_repr.
Qed.

(** With two braces and a heredoc open, in a string. *)
Lemma perl_replay_witness :
  ∃ buffer s' b l' y' s1 s2 a',
    tree_sitter_perl_external_scanner_serialize (deep_state 2) = Done buffer
    ∧ tree_sitter_perl_external_scanner_deserialize empty_state buffer = Done s'
    ∧ tree_sitter_perl_external_scanner_scan (λ t, bool_decide (t = TOKEN_QQ_STRING_CONTENT)) 20%nat (mkst (input (cstr "a{b}c")) 99 (deep_state 2))
      = Done (b, mkst l' y' s1)
    ∧ tree_sitter_perl_external_scanner_scan (λ t, bool_decide (t = TOKEN_QQ_STRING_CONTENT)) 20%nat (mkst (input (cstr "a{b}c")) 99 s')
      = Done (b, mkst l' y' s2)
    ∧ state_repr s1 a' ∧ state_repr s2 a'.
Proof.
  refine (perl_replay (λ t, bool_decide (t = TOKEN_QQ_STRING_CONTENT)) 44 20%nat (input (cstr "a{b}c")) 99
    (deep_state 2) (deep_astate 2) empty_state empty_astate _ _ _ empty_repr _ _ _ _ _).
  - by apply deep_repr.
  - unfold state_ok. split_and!; [apply Forall_replicate|apply Forall_singleton|..];
      try apply (bool_decide_unpack _); by vm_compute.
  - vm_compute. lia.
  - apply Forall_replicate. by vm_compute.
  - done.
  - by vm_compute.
  - vm_compute; lia.
  - done.
Defined.

(** ** Sessions *)

Lemma state_repr_functional s a1 a2 : state_repr s a1 → state_repr s a2 → a1 = a2.
Proof.
  intros (Hq1&(j1&Hh1&_)&Hn1&Hs1&Hr1) (Hq2&(j2&Hh2&_)&Hn2&Hs2&Hr2). destruct a1 as [q1 h1 st1 r1], a2 as [q2 h2 st2 r2]. cbn in *.
  rewrite Hh1 in Hh2. apply app_inj_1 in Hh2 as [-> _]; [|lia]. f_equal; [by eapply repr_inj|congruence..].
Qed.

(** The quotes fit the buffer, and their counters are far from overflow. *)
Definition saved_fits (a : astate) : Prop :=
  state_ok a ∧ (List.length (a_quotes a) ≤ 44)%nat ∧ Forall (λ q, 0 ≤ count q ≤ 1073741824) (a_quotes a).

(** Rounds enough, not too much text for the counters, and the parser asks for the
    middle of a quotelike operator only where one is open. *)
Definition callable {L} `{HS : TSLexerSpec L} (valid : TokenType → bool) (n : nat) (l : L) (a : astate) : Prop :=
  (S (rem (view_of l)) < n)%nat ∧ Z.of_nat (rem (view_of l)) ≤ 1073741821
  ∧ (valid TOKEN_QUOTELIKE_MIDDLE_SKIP = true → a_quotes a ≠ []).

Lemma saved_restores s a : state_repr s a → saved_fits a →
  tree_sitter_perl_external_scanner_serialize s = Done (state_cells a)
  ∧ (List.length (state_cells a) ≤ SERIALIZATION_BUFFER_SIZE)%nat
  ∧ restores tree_sitter_perl_external_scanner_deserialize state_repr saved_fits s (state_cells a).
Proof.
  intros Hs Hf. pose proof Hf as (Hok&H44&_). pose proof (state_repr_8 s a Hs) as H8.
  split_and!; [by apply serialize_repr|by apply length_state_cells|]. exists a. split_and!; [done..|]. intros s0 a0 H0.
  destruct (deserialize_repr s0 a0 a H0 Hok H8) as (s'&Hd&Hs'). exists s'. split; [done|].
  rewrite take_ge in Hs' by done. by destruct a.
Qed.

#[export] Instance perl_runtime {L} `{HS : TSLexerSpec L} `{!WCType} :
  RuntimeScanner (L := L) tree_sitter_perl_external_scanner_scan (saves tree_sitter_perl_external_scanner_serialize)
    tree_sitter_perl_external_scanner_deserialize state_repr saved_fits callable.
Proof.
  split.
  - apply state_repr_functional.
  - intros vs n l y s1 s2 a H1 H2 (_&H44&Hc) (Hn&Hmax&Hne). eapply same_call.
    + apply sim_perl_scan. by exists a.
    + intros s Hs. assert (inv (vs TOKEN_QUOTELIKE_MIDDLE_SKIP) 1073741824 s) as Hinv.
      { exists a. split_and!; [by destruct Hs as [->| ->]|done|lia|done]. }
      destruct (wp_run _ n l y s _ (wp_perl_scan vs 1073741824 n _ y s Hinv ltac:(lia) Hn ltac:(lia))) as (r&l'&y'&t&E&_&a'&Ht&_).
      exists r, l', y', t. split; [done|]. by exists a'.
    + intros t1 t2 a' (a2&R1&R2) Ht. by rewrite (state_repr_functional _ _ _ Ht R1).
  - intros s a Hs Hf. destruct (saved_restores s a Hs Hf) as (E&Hfit&a2&Hs2&_&Hr).
    exists (state_cells a), s, a. unfold saves. rewrite E. split_and!; [done..|].
    by assert (a = a2) as <- by by eapply state_repr_functional.
Qed.

(** C9: restoring and saving around every call is as good as keeping the payloads: in
    every session from a saved state whose recorded states have at most 44 open
    quotes, with any order of going back to recorded tokens, every call gives the same
    answer, the same place in the input and the same symbol, whatever the payload
    held before. *)
Theorem perl_sessions {L : Type} `{HS : TSLexerSpec L} `{!WCType} (calls : list (call L (TokenType → bool))) s a buffer s0 a0 :
  state_repr s a → saved_fits a → tree_sitter_perl_external_scanner_serialize s = Done buffer → state_repr s0 a0 →
  allowed tree_sitter_perl_external_scanner_scan state_repr saved_fits callable calls [s] →
  ∃ answers, keeping tree_sitter_perl_external_scanner_scan calls [s] = Done answers
    ∧ saving tree_sitter_perl_external_scanner_scan (saves tree_sitter_perl_external_scanner_serialize)
        tree_sitter_perl_external_scanner_deserialize calls s0 [buffer] = Done answers.
Proof.
  intros Hs Hf E H0. destruct (saved_restores s a Hs Hf) as (E'&_&Hr). rewrite E' in E. injection E as <-.
  by apply (sessions_agree (HC := perl_runtime) _ _ _ _ a0 Hr).
Qed.

(** The contents of a string in braces, its end, and both again with another text. *)
Definition perl_session : list (call view (TokenType → bool)) :=
  [Call 0 (λ t, bool_decide (t = TOKEN_QQ_STRING_CONTENT)) 20 (input (cstr "a{b}c}")) 99;
   Call 1 (λ t, bool_decide (t = TOKEN_QUOTELIKE_END)) 20 (input (cstr "}")) 99;
   Call 0 (λ t, bool_decide (t = TOKEN_QQ_STRING_CONTENT)) 20 (input (cstr "d}")) 99].

Definition deep_with (n : nat) (b : bool) : astate := mkA (replicate n (quote_of "{")) (a_heredocs (deep_astate n)) 1 b.

Lemma deep_fits n b : (n ≤ 44)%nat → saved_fits (deep_with n b).
Proof.
  intros Hn. split_and!; [unfold state_ok; split_and!; [apply Forall_replicate|apply Forall_singleton|..];
    try apply (bool_decide_unpack _); by vm_compute| |apply Forall_replicate; by vm_compute].
  cbn. by rewrite length_replicate.
Qed.

Lemma perl_sessions_witness :
  ∃ buffer answers, tree_sitter_perl_external_scanner_serialize (deep_state 2) = Done buffer
    ∧ keeping tree_sitter_perl_external_scanner_scan perl_session [deep_state 2] = Done answers
    ∧ saving tree_sitter_perl_external_scanner_scan (saves tree_sitter_perl_external_scanner_serialize)
        tree_sitter_perl_external_scanner_deserialize perl_session empty_state [buffer] = Done answers.
Proof.
  pose proof (deep_repr 2 ltac:(lia)) as Hs. pose proof (deep_fits 2 true ltac:(lia)) as Hf.
  destruct (saved_restores _ _ Hs Hf) as (E&_). exists (state_cells (deep_astate 2)).
  refine (match perl_sessions perl_session (deep_state 2) (deep_astate 2) _ empty_state empty_astate Hs Hf E empty_repr _
    with ex_intro _ answers H => ex_intro _ answers (conj E H) end).
  session_step (deep_astate 2); [exact Hs|by split_and!; [vm_compute; lia|..]|intros _; exists (deep_with 2 false)|].
  2: session_step (deep_with 2 false); [|by split_and!; [vm_compute; lia|..]|intros _; exists (deep_with 1 false)|].
  4: session_step (deep_astate 2); [exact Hs|by split_and!; [vm_compute; lia|..]|intros _; exists (deep_with 2 false)|done].
  all: try (split; [|by apply deep_fits; lia]). all: by split_and!; [eexists|eexists|..].
Defined.

(** ** The start of another text

    The bytes of no token do not reset the flag of a recovery: a call from the start of
    a text sees whether the call before it, on the text before, gave a recovery token. *)
Definition stale_session : list (call view (TokenType → bool)) :=
  [Call 0 (λ t, bool_decide (t = TOKEN_RECOVER_PAREN_CLOSE)) 40 (input (cstr "}")) 99;
   Call 0 (λ t, bool_decide (t = TOKEN_RECOVER_PAREN_CLOSE)) 40 (input (cstr "use x")) 99].

(** What the two calls return. *)
Definition returns {L} (answers : outcome (list (answer (L := L)))) : outcome (list bool) :=
  let? answers := answers in Done ((λ r, r.1.1) <$> answers).

Lemma perl_stale_recovery :
  returns (keeping tree_sitter_perl_external_scanner_scan stale_session [empty_state]) = Done [true; false]
  ∧ returns (saving tree_sitter_perl_external_scanner_scan (saves tree_sitter_perl_external_scanner_serialize)
      tree_sitter_perl_external_scanner_deserialize stale_session empty_state [[]]) = Done [true; true].
Proof. by split; vm_compute. Qed.
